(* ===== verification/_CoqProject ===== *)
-Q . S2P
Prelude.v
CStr.v
CList.v
XsltExt.v
Transaction.v
TransactionSpec.v
TransactionRefine.v
State.v
Refs.v
Toy.v
Posix.v
Xml.v
XmlTree.v
Netcf.v
Linux.v
Common.v
Redhat.v
Live.v
LiveState.v
RedhatSpec.v
RedhatSave.v
TransactionHost.v
RedhatInit.v
AugEdit.v
RedhatDefine.v
RedhatUndefine.v
Describe.v
RoundTrip.v
AugDriver.v
Debian.v
DebianSpec.v
DebianXml.v
Suse.v
SuseSpec.v
SuseXml.v
LookupMac.v
Freebsd.v
FreebsdSpec.v
Windows.v
Ncftool.v
ToolList.v
Ncftransform.v
