(* ===== verification/Prelude.v ===== *)
(** * netcf, verified

    netcf is a C library that reads and changes the network configuration of a
    host through XML documents. This development is a shallow embedding of the
    library, with all five of its drivers (Red Hat, Debian, SuSE, FreeBSD,
    Windows), of its command line tool, of its transformation tool and of the shell
    script that guards changes of the configuration. All paths
    below are under src/src/ of the repository.

    ** The program

    A client calls the public interface (netcf.c). Each entry point checks its
    arguments, forgets the error of the call before and hands over to a driver,
    chosen when the library is built. The Red Hat driver (drv_redhat.c) keeps the
    configuration files in an Augeas tree; it validates a document with RelaxNG
    and turns it by an XSLT style sheet into the form the tree is written from,
    and back. Style sheets call the functions of xslt_ext.c. The drivers for
    Debian (one file of stanzas) and SuSE (a directory read with readdir, rules of
    udev, a file of routes) are derived from it and share much of its text; the one
    for FreeBSD edits rc.conf by lines and asks the kernel by ioctl; the one for
    Windows calls the IP helper library. dutil.c holds the structures, the reporting
    of errors and the calls of libxml2; dutil_linux.c the handling of Augeas and
    the description of a live interface, obtained from the kernel's files and from
    netlink; dutil_posix.c runs the programs (ifup, ifdown, netcf-transaction) that
    act on the host. The shell script netcf-transaction (netcf-transaction.init.sh)
    saves the configuration files before a change and puts them back on a rollback.
    ncftool.c and ncftransform.c are clients.

    ** Files

    - [Prelude]: the monad of C code, its logics and tactics, generic lemmas.
    - [CStr]: the string functions of the C library the sources use.
    - [CList]: list.h, on a heap of next pointers.
    - [XsltExt]: xslt_ext.c, with 32-bit words and IEEE numbers as far as used.
    - [Transaction]: the functions of netcf-transaction.init.sh, over a shell whose
      commands are parameters ([Shell]).
    - [TransactionSpec]: what the commands do ([ShellLaws]), what the script does
      when some of them fail, and a concrete file system.
    - [TransactionRefine]: the script implements a machine with a saved copy.
    - [State]: internal.h, ref.h, the structures and error macros, and the half of
      dutil.c that creates, frees and reports.
    - [Refs]: what holds of the reference counters of ref.h.
    - [Toy]: a small concrete host, on which witnesses are evaluated.
    - [Posix]: dutil_posix.c and [argv_to_string] of dutil.c.
    - [Xml]: the libxml2, libxslt and RelaxNG half of dutil.c.
    - [XmlTree]: documents in the memory of libxml2 as trees; the laws for building
      them, and rules that show that code builds a tree.
    - [Netcf]: netcf.c, against the interface [Driver] and its laws [DriverLaws].
    - [Linux]: dutil_linux.c.
    - [Common]: pieces of code that every driver repeats, and their laws.
    - [Redhat]: drv_redhat.c, and the instances of [Driver] and [DriverLaws].
    - [Live], [LiveState]: the description of a live interface as a reference
      function, and that the code computes it.
    - [RedhatSpec]: reference functions over a loaded tree, and that the driver
      computes them; the order in which bridges and ports go up and down.
    - [RedhatSave]: when the driver changes the world outside the process.
    - [TransactionHost]: transactions from the public interface down to the script.
    - [RedhatInit]: starting the driver; the interface name of a document.
    - [AugEdit]: what putting a document into the Augeas tree does, as a list of
      edits; rules that compute the list from the code.
    - [RedhatDefine], [RedhatUndefine]: what defining an interface (from the text of its
      document on) and undefining it does to the tree, the files and the instance.
    - [Describe]: the document made of the files of interfaces.
    - [RoundTrip]: a document that is put into the tree and read back.
    - [AugDriver]: the loops that drv_debian.c and drv_suse.c share.
    - [Debian], [DebianSpec], [DebianXml]: drv_debian.c, what it computes, and the
      document it makes of an interface.
    - [Suse], [SuseSpec], [SuseXml]: the same for drv_suse.c.
    - [LookupMac]: the lookups by MAC address of these three drivers.
    - [Freebsd], [FreebsdSpec]: drv_freebsd.c, and what it computes.
    - [Windows]: drv_mswindows.c.
    - [Ncftool]: ncftool.c.
    - [ToolList]: listing, from the command line down to the tree, for every driver
      that is a [Lister].
    - [Ncftransform]: ncftransform.c.

    The drivers define functions of the same names, each in its file; what a driver
    takes over unchanged from drv_redhat.c is defined as the function of [Redhat].

    Definitions carry the names of the C functions they translate. Where one C
    function is cut into pieces (the part before the first [goto], the body of a
    loop, the code at the [error] label) the pieces are definitions of their own,
    named after what they do.

    ** How C code is embedded

    A function body of type [M A] is a state transformer [state -> outcome A *
    state]. [Ret a] is a value, [Bail] is [goto error], [Stop] says that the
    process does not come back: undefined behaviour ([UB]), a failed assertion
    ([Abort]), [Exit], or a call that blocks forever ([Hang]). [on_error] places
    the [error] label. A pointer that may be NULL is an [option]; following NULL,
    or an interface that was released, is [Stop (UB _)].

    The state ([State.state]) holds the instance ([struct netcf], with
    [struct driver] inside), the allocated interfaces by address, the outcomes of
    the allocations to come ([mem], so that running out of memory is part of every
    theorem unless it says otherwise), the libxml2 memory, the terminal, and [sys],
    the rest of the world. A reference count is an [unsigned int] that stays put
    at [REF_MAX].

    ** What is a parameter

    Code that is not in the repository is a type class: [Host] (files, paths and
    the types of foreign objects), [Posix] (fork, exec, wait, descriptors),
    [Libxml], [Augeas], [Kernel] (sysfs and ioctl), [Netlink] (libnl), [Env]
    (environment variables), [RedhatConfig], [DebianConfig] and [SuseConfig]
    (choices of configure, what the stack of a caller holds where the code reads
    it, the directory as readdir shows it), [Bsd] and [Libxml2] (getifaddrs, ioctls,
    files, the XML reader of the FreeBSD driver), [Windows] (the IP helper library),
    [Tool] (readline and getopt_long), [Shell] (the commands the script calls) and
    [ScriptHost] (that running netcf-transaction runs the script). Of most calls nothing is assumed. Hypotheses
    on them are stated where they are used, for instance that interfaces are layered
    (a bridge port has a smaller rank than its bridge), or as classes of laws that
    follow the documentation: [ShellLaws] and [HealthyShell] (cp, mv, rm and the like,
    which may fail but touch only what they are told to), [XmlBuild] (nodes of
    libxml2), [AugeasTree] (simple paths of Augeas). Augeas refuses an expression that is
    no path expression, and the code puts names into its queries as they are: that a
    query is answered ([answers]) is therefore only supposed of the queries that the code
    makes with names out of the tree, the kernel or a valid document, and where the caller
    gives the name or the address both cases are covered. Each theorem that has a hypothesis
    is applied to the concrete host of [Toy] by its witness, and each class of laws
    has a concrete instance.

    ** Logics

    - [pres R m]: every run of [m], however it ends, relates the states by [R];
      used for the invariants, with [err_keep], [refs_same], [steady], [grows]
      and [same_world] as relations.
    - [post Q B m]: [Q] of a returned value, [B] of a state at [goto error];
      [fails m] (a bail leaves an error), [closed m] (no bail escapes) and
      [reports m] (a negative result leaves an error) are instances.
    - [hoare P m Q E]: with a precondition, for code whose result depends on the state
      it starts in; [saves] ([RedhatSave]), for code that saves at most once.
    - runs: equations [m s = (Ret a, s')], for the exact results; [writes], and [does]
      and [tries] of [RedhatDefine], for those of code that edits the tree, [stage] for
      those of the steps of [get_augeas], [built] and [hung] for those of code that makes
      a document.

    ** What is shown

    - The interface ([Netcf], [Refs], [State]): over any sequence of calls the
      counter of the instance is one plus the number of live interfaces
      ([api_invariant]); [ncf_close] and [ncf_init] on each branch; a call on an open
      instance that returns a negative int leaves an error with a text
      ([api_failure_is_reported]; [ncf_init] need not, see [drv_init_spec]); only the first error of a call is kept
      ([first_error_wins]); a client can always release its interfaces and close
      the instance ([always_closable]). All of this holds for every driver with
      [DriverLaws]. The drivers for Red Hat, Debian, SuSE and Windows discharge
      these laws ([redhat_refines_driver] and its like); the one for FreeBSD does
      not, and it is shown which laws it keeps ([freebsd_keeps]) and which
      operations fail silently ([freebsd_silent]).
    - Transactions: when a begin and later a rollback succeed through the public
      interface, the files of interfaces are what they were and everything else keeps
      its changes ([ncf_rollback_restores]); with commands that work the script is a
      machine that saves, forgets and restores ([transaction_refines]); when commands
      fail no file is lost by a rollback ([rollback_loses_nothing]), but a begin that
      fails to copy a file leaves the transaction open, and its rollback removes the file
      ([failed_begin_removes]), and some failures are hidden ([silent_failures]).
    - The Red Hat driver: listing and counting interfaces against the reference
      function [names] ([list_interfaces_spec]), the search for the
      configuration file of an interface and how it fails ([find_ifcfg_path_spec]), the
      order of ifup and ifdown calls, rejection of documents, which tree is saved when an
      accepted document is defined and what the call returns ([define_spec], on top of
      the edits a document becomes, [put_xml_spec]), which tree is saved when an interface
      is undefined and what happens when the tree refuses a change ([undefine_spec]), that
      in every state at most one [aug_save] touches the world ([changes_saved_once]), that a document is read back from the tree ([put_get]), and how
      the driver starts and fails to start.
    - The description of a live interface is a reference function of what the kernel's
      files and netlink say ([live_description], for Red Hat, Debian and SuSE), which is
      defined when interfaces are layered ([describe_defined]).
    - Debian: listing and lookup against the names of the file that nothing
      encloses ([deb_list_spec]), the words of bridge_ports and bond_slaves
      ([deb_deps_spec]), the document of an interface with its ports and slaves
      ([deb_describes]), the numbering of new stanzas ([deb_put_array_spec]).
    - SuSE: listing from the directory against lookup in the tree
      ([suse_list_spec]), the edits made for a document, with the default route and
      the udev rule that follow from it ([suse_put_xml_spec]), the document of an
      interface, which is empty when its file is gone ([suse_describes]). Both drivers
      touch the world by one save, as Red Hat's.
    - Lookups by MAC address, in these three drivers: what they find is a reference
      function of the tree, or an error if the address spoils the query it is put in
      ([lookup_by_mac_finds]), and on failure nothing is left of
      the interfaces they created ([lookup_by_mac_spec]).
    - FreeBSD: which lines of rc.conf an undefinition keeps, flags of interfaces,
      listing, the references that a lookup by MAC address loses.
    - Windows: that interfaces cannot be counted or listed, and how the address of
      an adapter is printed.
    - Helpers: the tree that [get_augeas] leaves ([get_augeas_spec]) and the transform tables, the type of an interface
      from the kernel's files, the end of the recursion that describes a live
      interface, MAC formatting; running a program and turning the way it ended
      into an error; parsing and validation with their callbacks.
    - Arithmetic and text: prefixes and netmasks are inverse to each other and
      where the shift leaves its bounds, bond options, C lists against sequences,
      joining argument vectors.
    - The tool: parsing of a command line against the table, the line made of the
      program's arguments splits into them again, the main loop, the names offered
      by completion ([completion_spec]); what a session of [list] commands prints,
      proved against an interface that the drivers for Red Hat, Debian and SuSE
      implement ([list_session]). The
      transformation tool prints what the driver makes of a file
      ([ncftransform_spec]), and with the Red Hat driver always fails
      ([ncftransform_redhat]).

    ** Fuel and bounds

    Loops over a list of the model are structural. The others have fuel that a
    theorem proves enough: list macros take [S (size h)] steps on a heap [h]
    ([CList]); the token loop of the tool takes at most the length of the line; the
    loops that drop slaves ([drop_slaves], [filter_slaves]) take the length of the
    list; the words of a value are at most one more than its length ([deps_loop]);
    reading a file line by line takes at most its length ([fgets_all]); printing a
    document takes its depth ([print_element_names], [bsd_define_ends]).
    [add_type_specific_info] calls itself on the ports of a bridge or bond and on
    the device under a VLAN; no fuel is enough for every answer of the kernel, so
    the fuel is an argument, running out of it is [Stop Hang], and any fuel above
    the rank of the interface is enough ([add_type_specific_info_ends]). The loop
    around [waitpid] and the read loop of the tool consume the list of results the
    host gives; a list that ends means that the call blocks. [int] arithmetic that
    may overflow is checked where the code computes with it ([incr]), [size_t] and
    [short] conversions are written out ([to_size], the flags of [Freebsd]).

    ** What is not modelled

    Functions that only release memory (of foreign objects, or [free_matches]), the
    functions that the script takes from /etc/rc.d/init.d/functions, the attributes
    of files, file names that the shell would split, and the tests, lenses, schemas and
    style sheets. The output parameter of [run_program] is NULL at every call and is
    left out. Strings and arrays that the code leaks are not counted; interfaces and
    references are. *)

From stdpp Require Export base list strings gmap fin_maps pretty.
From Stdlib Require Export Ascii ZArith Lia Sorted.

#[global] Open Scope Z_scope.
#[global] Open Scope list_scope.

Declare Scope c_scope.
Delimit Scope c_scope with C.

(** ** Outcomes of C code *)

(** Why a C function does not come back to its caller: undefined behaviour,
    a failed [assert], [exit(code)], or a system call that blocks forever. *)
Inductive stop :=
| UB (what : string)
| Abort
| Exit (code : Z)
| Hang.

(** What a piece of a C function body does: it yields a value, it takes
    [goto error], or the process stops. *)
Inductive outcome (A : Type) :=
| Ret (a : A)
| Bail
| Stop (why : stop).
Arguments Ret {A} a.
Arguments Bail {A}.
Arguments Stop {A} why.

Definition prog (S A : Type) : Type := S -> outcome A * S.

Definition ret {S A} (a : A) : prog S A := fun s => (Ret a, s).

Definition bind {S A B} (m : prog S A) (k : A -> prog S B) : prog S B := fun s =>
  match m s with
  | (Ret a, s') => k a s'
  | (Bail, s') => (Bail, s')
  | (Stop w, s') => (Stop w, s')
  end.

Notation "m ≫= k" := (bind m k) : c_scope.
Notation "x ← m ; k" := (bind m (fun x => k)) : c_scope.
Notation "' x ← m ; k" := (bind m (fun x => k)) : c_scope.
Notation "m ;; k" := (bind m (fun _ => k)) : c_scope.
#[global] Open Scope c_scope.

Section ops.
Context {S : Type}.

(** [goto error] *)
Definition goto_error {A} : prog S A := fun s => (Bail, s).
Definition halt {A} (w : stop) : prog S A := fun s => (Stop w, s).
Definition gets {A} (f : S -> A) : prog S A := fun s => (Ret (f s), s).
Definition modify (f : S -> S) : prog S unit := fun s => (Ret tt, f s).

(** A body followed by its [error:] label. *)
Definition on_error {A} (m h : prog S A) : prog S A := fun s =>
  match m s with
  | (Bail, s') => h s'
  | r => r
  end.

Definition when (b : bool) (m : prog S unit) : prog S unit :=
  if b then m else ret tt.

(** [for (x in l) body] *)
Fixpoint for_each {A} (l : list A) (body : A -> prog S unit) : prog S unit :=
  match l with
  | [] => ret tt
  | x :: l' => body x ;; for_each l' body
  end.

(** [for (x in l) acc = body(x, acc)] *)
Fixpoint for_acc {A B} (l : list A) (acc : B) (body : A -> B -> prog S B)
  : prog S B :=
  match l with
  | [] => ret acc
  | x :: l' => acc' ← body x acc; for_acc l' acc' body
  end.

(** Fill an array element by element. *)
Fixpoint for_map {A B} (l : list A) (body : A -> prog S B) : prog S (list B) :=
  match l with
  | [] => ret []
  | x :: l' => y ← body x; ys ← for_map l' body; ret (y :: ys)
  end.
End ops.

(** ** Running programs: equations for symbolic execution *)

Create HintDb run.

Section run.
Context {S : Type}.
Implicit Types s : S.

Lemma bind_Ret {A B} (m : prog S A) (k : A -> prog S B) s a s' :
  m s = (Ret a, s') -> (m ≫= k) s = k a s'.
Proof. intros H. unfold bind. by rewrite H. Qed.

Lemma bind_Bail {A B} (m : prog S A) (k : A -> prog S B) s s' :
  m s = (Bail, s') -> (m ≫= k) s = (Bail, s').
Proof. intros H. unfold bind. by rewrite H. Qed.

Lemma bind_Stop {A B} (m : prog S A) (k : A -> prog S B) s s' w :
  m s = (Stop w, s') -> (m ≫= k) s = (Stop w, s').
Proof. intros H. unfold bind. by rewrite H. Qed.

Lemma bind_ret_l {A B} (a : A) (k : A -> prog S B) s : (ret a ≫= k) s = k a s.
Proof. done. Qed.

Lemma bind_assoc {A B C} (m : prog S A) (k : A -> prog S B) (j : B -> prog S C) s :
  ((m ≫= k) ≫= j) s = (m ≫= (fun a => k a ≫= j)) s.
Proof. unfold bind. by destruct (m s) as [[] ?]. Qed.

Lemma bind_ext {A B} (m : prog S A) (k k' : A -> prog S B) s :
  (forall a s1, k a s1 = k' a s1) -> (m ≫= k) s = (m ≫= k') s.
Proof. intros Hk. unfold bind. destruct (m s) as [[]?]; auto. Qed.

Lemma ret_inv {A} (a b : A) s s' :
  (ret a : prog S A) s = (Ret b, s') -> b = a /\ s' = s.
Proof. by intros [= <- <-]. Qed.

Lemma bind_inv {A B} (m : prog S A) (k : A -> prog S B) s o s' :
  (m ≫= k) s = (o, s') ->
  (exists a s1, m s = (Ret a, s1) /\ k a s1 = (o, s'))
  \/ (m s = (Bail, s') /\ o = Bail)
  \/ (exists w, m s = (Stop w, s') /\ o = Stop w).
Proof.
  unfold bind. destruct (m s) as [[a| |w] s1]; intros H; simplify_eq; eauto 10.
Qed.

Lemma on_error_Ret {A} (m h : prog S A) s a s' :
  m s = (Ret a, s') -> on_error m h s = (Ret a, s').
Proof. intros H. unfold on_error. by rewrite H. Qed.

Lemma on_error_Bail {A} (m h : prog S A) s s' :
  m s = (Bail, s') -> on_error m h s = h s'.
Proof. intros H. unfold on_error. by rewrite H. Qed.

Lemma on_error_inv {A} (m h : prog S A) s o s' :
  on_error m h s = (o, s') ->
  (m s = (o, s') /\ o <> Bail) \/ (exists s1, m s = (Bail, s1) /\ h s1 = (o, s')).
Proof.
  unfold on_error. destruct (m s) as [[a| |w] s1]; intros H; simplify_eq; eauto.
Qed.

Lemma for_each_app {A} (l1 l2 : list A) (body : A -> prog S unit) s :
  for_each (l1 ++ l2) body s = (for_each l1 body ;; for_each l2 body) s.
Proof.
  revert s. induction l1 as [|x l1 IH]; intros s; [done|]. cbn [app for_each].
  etransitivity; [|symmetry; apply bind_assoc]. unfold bind at 1 2.
  destruct (body x s) as [[u| |w] s1]; [apply IH|done|done].
Qed.

Lemma for_map_pure {A B} (l : list A) (body : A -> prog S B) (f : A -> B) s :
  (forall x, x ∈ l -> body x s = (Ret (f x), s)) ->
  for_map l body s = (Ret (f <$> l), s).
Proof.
  induction l as [|x l IH]; intros H; [done|].
  cbn [for_map]. rewrite (bind_Ret _ _ _ _ _ (H x ltac:(set_solver))).
  rewrite (bind_Ret _ _ _ _ _ (IH ltac:(set_solver))). done.
Qed.
End run.

(** ** A preservation logic

    [pres R m]: whatever way [m] ends, the state before and the state after
    are related by [R]. For a preorder [R] the rules below are compositional,
    so that a whole driver function is discharged by [auto with pres]. *)

Definition pres {S A} (R : relation S) (m : prog S A) : Prop :=
  forall s, R s (m s).2.

Create HintDb pres.

Section pres.
Context {S : Type} (R : relation S) `{!PreOrder R}.

Lemma pres_ret {A} (a : A) : pres R (ret a : prog S A).
Proof. intros s. simpl. reflexivity. Qed.

Lemma pres_bind {A B} (m : prog S A) (k : A -> prog S B) :
  pres R m -> (forall a, pres R (k a)) -> pres R (m ≫= k).
Proof.
  intros Hm Hk s. unfold bind. specialize (Hm s).
  destruct (m s) as [[a| |w] s1]; simpl in *; [|done|done].
  etransitivity; [exact Hm|apply Hk].
Qed.

Lemma pres_on_error {A} (m h : prog S A) :
  pres R m -> pres R h -> pres R (on_error m h).
Proof.
  intros Hm Hh s. unfold on_error. specialize (Hm s).
  destruct (m s) as [[a| |w] s1]; simpl in *; [done| |done].
  etransitivity; [exact Hm|apply Hh].
Qed.

Lemma pres_goto_error {A} : pres R (goto_error : prog S A).
Proof. intros s. simpl. reflexivity. Qed.

Lemma pres_halt {A} w : pres R (halt w : prog S A).
Proof. intros s. simpl. reflexivity. Qed.

Lemma pres_gets {A} (f : S -> A) : pres R (gets f).
Proof. intros s. simpl. reflexivity. Qed.

Lemma pres_modify (f : S -> S) : (forall s, R s (f s)) -> pres R (modify f).
Proof. intros H s. apply H. Qed.

Lemma pres_if {A} (b : bool) (m1 m2 : prog S A) :
  pres R m1 -> pres R m2 -> pres R (if b then m1 else m2).
Proof. by destruct b. Qed.

Lemma pres_when b (m : prog S unit) : pres R m -> pres R (when b m).
Proof. destruct b; [done|]. intros _. apply pres_ret. Qed.

Lemma pres_option {A B} (o : option A) (m1 : A -> prog S B) (m2 : prog S B) :
  (forall a, pres R (m1 a)) -> pres R m2 ->
  pres R (match o with Some a => m1 a | None => m2 end).
Proof. destruct o; auto. Qed.

Lemma pres_for_each {A} (l : list A) (body : A -> prog S unit) :
  (forall x, pres R (body x)) -> pres R (for_each l body).
Proof.
  intros H. induction l as [|x l IH]; cbn [for_each]; [apply pres_ret|].
  apply pres_bind; auto.
Qed.

Lemma pres_for_acc {A B} (l : list A) (acc : B) (body : A -> B -> prog S B) :
  (forall x b, pres R (body x b)) -> pres R (for_acc l acc body).
Proof.
  intros H. revert acc. induction l as [|x l IH]; intros acc; cbn [for_acc];
    [apply pres_ret|]. apply pres_bind; auto.
Qed.

Lemma pres_for_map {A B} (l : list A) (body : A -> prog S B) :
  (forall x, pres R (body x)) -> pres R (for_map l body).
Proof.
  intros H. induction l as [|x l IH]; cbn [for_map]; [apply pres_ret|].
  apply pres_bind; [auto|]. intros y. apply pres_bind; [auto|]. intros ys. apply pres_ret.
Qed.
End pres.

#[export] Hint Resolve pres_ret pres_goto_error pres_halt pres_gets : pres.

(** Apply the rules of the logic as long as one fits; what is left are the
    calls and the [modify]s of the program at hand, for the [pres] database. *)
Ltac pres_step :=
  lazymatch goal with
  | |- pres _ (_ ≫= _) => apply pres_bind; [try apply _| |intros ?]
  | |- pres _ (on_error _ _) => apply pres_on_error; [try apply _| |]
  | |- pres _ (when _ _) => apply pres_when; [try apply _|]
  | |- pres _ (for_each _ _) => apply pres_for_each; [try apply _|intros ?]
  | |- pres _ (for_acc _ _ _) => apply pres_for_acc; [try apply _|intros ? ?]
  | |- pres _ (for_map _ _) => apply pres_for_map; [try apply _|intros ?]
  | |- pres _ (match ?x with _ => _ end) => destruct x
  | |- pres _ (ret _) => apply pres_ret; apply _
  | |- pres _ goto_error => apply pres_goto_error; apply _
  | |- pres _ (halt _) => apply pres_halt; apply _
  | |- pres _ (gets _) => apply pres_gets; apply _
  | |- pres _ (modify _) => apply pres_modify; [intros ?; solve [eauto 3 with pres]]
  end.
Ltac pres_auto := repeat first [pres_step | solve [eauto 6 with pres typeclass_instances]].

(** ** Exceptional postconditions

    [post Q B m]: a normal result satisfies [Q], a [goto error] leaves a state
    in [B]. Nothing is said of a stopped process. *)
Definition post {S A} (Q : A -> S -> Prop) (B : S -> Prop) (m : prog S A) : Prop :=
  forall s, match m s with
            | (Ret a, s') => Q a s'
            | (Bail, s') => B s'
            | (Stop _, _) => True
            end.

Section post.
Context {S : Type}.

Lemma post_ret {A} (Q : A -> S -> Prop) (E : S -> Prop) (a : A) :
  (forall s, Q a s) -> post Q E (ret a).
Proof. intros H s. apply H. Qed.

Lemma post_total {A} (Q : A -> S -> Prop) (E : S -> Prop) (m : prog S A) :
  (forall a s, Q a s) -> (forall s s', m s <> (Bail, s')) -> post Q E m.
Proof. intros H Hb s. destruct (m s) as [[a| |w] s'] eqn:Hm; [apply H| |done]. by destruct (Hb s s'). Qed.

Lemma post_when (E : S -> Prop) b (m : prog S unit) :
  post (fun _ _ => True) E m -> post (fun _ _ => True) E (when b m).
Proof. destruct b; [done|]. intros _. by apply post_ret. Qed.

Lemma post_for_each {A} (E : S -> Prop) (l : list A) (body : A -> prog S unit) :
  (forall x, post (fun _ _ => True) E (body x)) -> post (fun _ _ => True) E (for_each l body).
Proof.
  intros H. induction l as [|x l IH]; cbn [for_each]; [by apply post_ret|].
  intros s. specialize (H x s). unfold bind. destruct (body x s) as [[]?]; [apply IH|done|done].
Qed.

Lemma post_for_map {A B} (E : S -> Prop) (l : list A) (body : A -> prog S B) :
  (forall x, post (fun _ _ => True) E (body x)) -> post (fun _ _ => True) E (for_map l body).
Proof.
  intros H. induction l as [|x l IH]; cbn [for_map]; [by apply post_ret|].
  intros s. specialize (H x s). unfold bind. destruct (body x s) as [[]s1]; [|done|done].
  specialize (IH s1). destruct (for_map l body s1) as [[]?]; done.
Qed.

Lemma post_for_acc {A B} (E : S -> Prop) (l : list A) (acc : B) (body : A -> B -> prog S B) :
  (forall x b, post (fun _ _ => True) E (body x b)) ->
  post (fun _ _ => True) E (for_acc l acc body).
Proof.
  intros H. revert acc. induction l as [|x l IH]; intros acc; cbn [for_acc]; [by apply post_ret|].
  intros s. specialize (H x acc s). unfold bind. destruct (body x acc s) as [[]s1]; [apply IH|done|done].
Qed.

(** A C function: whatever the body does before [goto error], the value
    returned is the body's or the one returned after the label. *)
Lemma post_on_error {A} (Q : A -> S -> Prop) (E E' : S -> Prop) (m h : prog S A) :
  post Q E m -> (forall s, E s -> match h s with
                                   | (Ret a, s') => Q a s'
                                   | (Bail, s') => E' s'
                                   | (Stop _, _) => True end) ->
  post Q E' (on_error m h).
Proof.
  intros Hm Hh s. specialize (Hm s). unfold on_error.
  destruct (m s) as [[a| |w] s1]; [done|by apply Hh|done].
Qed.

Lemma post_bind {A B} (Q : B -> S -> Prop) (E : S -> Prop)
  (m : prog S A) (k : A -> prog S B) :
  post (fun _ _ => True) E m -> (forall a, post Q E (k a)) -> post Q E (m ≫= k).
Proof.
  intros Hm Hk s. specialize (Hm s). unfold bind.
  destruct (m s) as [[a| |w] s1]; [apply Hk|done|done].
Qed.

(** The continuation may rely on the postcondition of what came before. *)
Lemma post_bind_dep {A B} (Q1 : A -> S -> Prop) (Q : B -> S -> Prop) (E : S -> Prop)
  (m : prog S A) (k : A -> prog S B) :
  post Q1 E m ->
  (forall a s, Q1 a s -> match k a s with
                         | (Ret b, s') => Q b s'
                         | (Bail, s') => E s'
                         | (Stop _, _) => True end) ->
  post Q E (m ≫= k).
Proof.
  intros Hm Hk s. specialize (Hm s). unfold bind.
  destruct (m s) as [[a| |w] s1]; [by apply Hk|done|done].
Qed.

Lemma post_mono {A} (Q Q' : A -> S -> Prop) (E E' : S -> Prop) (m : prog S A) :
  post Q E m -> (forall a s, Q a s -> Q' a s) -> (forall s, E s -> E' s) -> post Q' E' m.
Proof. intros Hm HQ HE s. specialize (Hm s). destruct (m s) as [[] ?]; auto. Qed.
End post.

(** ** Total correctness

    From a state in [P] the program does not stop: it returns with [Q] or takes
    [goto error] with [E]. *)
Definition hoare {S A} (P : S -> Prop) (m : prog S A) (Q : A -> S -> Prop) (E : S -> Prop) : Prop :=
  forall s, P s -> match m s with
                   | (Ret a, s') => Q a s'
                   | (Bail, s') => E s'
                   | (Stop _, _) => False
                   end.

Section hoare.
Context {S : Type}.
Implicit Types P E : S -> Prop.

Lemma hoare_ret {A} P E (Q : A -> S -> Prop) (a : A) :
  (forall s, P s -> Q a s) -> hoare P (ret a) Q E.
Proof. intros H s Hs. by apply H. Qed.

Lemma hoare_bind {A B} P E (R : A -> S -> Prop) (Q : B -> S -> Prop)
  (m : prog S A) (k : A -> prog S B) :
  hoare P m R E -> (forall a, hoare (R a) (k a) Q E) -> hoare P (m ≫= k) Q E.
Proof.
  intros Hm Hk s Hs. specialize (Hm s Hs). unfold bind.
  destruct (m s) as [[a| |w] s1]; [by apply Hk|done|done].
Qed.

(** Reading the state. *)
Lemma hoare_gets {A B} P E (Q : B -> S -> Prop) (f : S -> A) (k : A -> prog S B) :
  (forall a, hoare (fun s => P s /\ f s = a) (k a) Q E) -> hoare P (gets f ≫= k) Q E.
Proof. intros Hk s Hs. by apply Hk. Qed.

Lemma hoare_conseq {A} P P' E E' (Q Q' : A -> S -> Prop) (m : prog S A) :
  hoare P m Q E -> (forall s, P' s -> P s) -> (forall a s, Q a s -> Q' a s) ->
  (forall s, E s -> E' s) -> hoare P' m Q' E'.
Proof.
  intros Hm HP HQ HE s Hs. specialize (Hm s (HP s Hs)). destruct (m s) as [[] ?]; auto.
Qed.

Lemma hoare_on_error {A} P E E' (Q : A -> S -> Prop) (m h : prog S A) :
  hoare P m Q E -> hoare E h Q E' -> hoare P (on_error m h) Q E'.
Proof.
  intros Hm Hh s Hs. specialize (Hm s Hs). unfold on_error.
  destruct (m s) as [[a| |w] s1]; [done|by apply Hh|done].
Qed.

Lemma hoare_goto_error {A} P (Q : A -> S -> Prop) E :
  (forall s, P s -> E s) -> hoare P goto_error Q E.
Proof. intros H s Hs. by apply H. Qed.

Lemma hoare_modify P (Q : unit -> S -> Prop) E f :
  (forall s, P s -> Q tt (f s)) -> hoare P (modify f) Q E.
Proof. intros H s Hs. by apply H. Qed.

Lemma hoare_when P (Q : S -> Prop) E (b : bool) (m : prog S unit) :
  (b = true -> hoare P m (fun _ => Q) E) -> (b = false -> forall s, P s -> Q s) ->
  hoare P (when b m) (fun _ => Q) E.
Proof. destruct b; intros H1 H2; [by apply H1|]. apply hoare_ret. by apply H2. Qed.

Lemma hoare_for_each {A} (I : S -> Prop) E (l : list A) (body : A -> prog S unit) :
  (forall x, x ∈ l -> hoare I (body x) (fun _ => I) E) ->
  hoare I (for_each l body) (fun _ => I) E.
Proof.
  induction l as [|x l IH]; intros H; cbn [for_each]; [by apply hoare_ret|].
  eapply hoare_bind; [apply H; by left|]. intros []. apply IH. intros y Hy. apply H. by right.
Qed.
End hoare.

(** ** Loops that treat each element once *)

Section loops.
Context {S A B : Type} (V : relation S) `{!PreOrder V} (T : relation B) `{!PreOrder T}.
Implicit Types (l : list A) (body : A -> B -> prog S B).

Lemma for_acc_app l1 l2 body acc s :
  for_acc (l1 ++ l2) acc body s = (for_acc l1 acc body ≫= fun b => for_acc l2 b body) s.
Proof.
  revert acc s. induction l1 as [|x l1 IH]; intros acc s; [done|]. cbn [app for_acc].
  rewrite bind_assoc. unfold bind at 1 2. destruct (body x acc s) as [[b| |w] s1]; [apply IH|done|done].
Qed.

Lemma for_acc_pres l body acc : (forall x b, x ∈ l -> pres V (body x b)) -> pres V (for_acc l acc body).
Proof.
  revert acc. induction l as [|x l IH]; intros acc Hb; cbn [for_acc]; [by apply pres_ret|].
  apply pres_bind; [done|apply Hb; by left|]. intros b. apply IH. intros y c Hy. apply Hb. by right.
Qed.

Lemma for_acc_result l body :
  (forall x b s b' s', body x b s = (Ret b', s') -> T b b') ->
  forall acc s b' s', for_acc l acc body s = (Ret b', s') -> T acc b'.
Proof.
  intros HT. induction l as [|x l IH]; intros acc s b' s'; cbn [for_acc].
  - by intros [-> _]%ret_inv.
  - intros Hr. apply bind_inv in Hr as [(b & s1 & Hx & Hr)|[[_ [=]]|(w & _ & [=])]].
    etransitivity; [eapply HT, Hx|by eapply IH].
Qed.

(** The run of a loop seen from the element [x]: what comes before and after is a step
    of [V], unless an earlier element ends the loop. *)
Lemma for_acc_at l (x : A) body acc s o s' :
  NoDup l -> x ∈ l ->
  (forall y b, y ∈ l -> y <> x -> pres V (body y b)) ->
  (forall y b s b' s', body y b s = (Ret b', s') -> T b b') ->
  for_acc l acc body s = (o, s') ->
  (V s s' /\ forall b, o <> Ret b) \/
  exists b1 s1 o1 s2, V s s1 /\ body x b1 s1 = (o1, s2) /\ V s2 s' /\
    (forall b, o = Ret b -> exists b2, o1 = Ret b2 /\ T b2 b).
Proof.
  intros Hnd (l1 & l2 & ->)%list_elem_of_split HV HT. rewrite NoDup_app, NoDup_cons in Hnd.
  destruct Hnd as (_ & Hx1 & Hx2 & _). rewrite for_acc_app.
  assert (HV1 : pres V (for_acc l1 acc body)).
  { apply for_acc_pres. intros y b Hy. apply HV; [set_solver|]. intros ->. apply (Hx1 x Hy). by left. }
  assert (HV2 : forall b, pres V (for_acc l2 b body)).
  { intros b. apply for_acc_pres. intros y c Hy. apply HV; [set_solver|]. by intros ->. }
  unfold bind at 1. specialize (HV1 s).
  destruct (for_acc l1 acc body s) as [[b1| |w] s1] eqn:H1; cbn [for_acc snd] in *;
    [|intros [= <- <-]; by left..].
  destruct (body x b1 s1) as [o1 s2] eqn:Hbody. intros Hr. right. exists b1, s1, o1, s2.
  split; [done|]. split; [done|]. unfold bind in Hr. rewrite Hbody in Hr.
  destruct o1 as [b2| |w]; [|simplify_eq; by split..].
  specialize (HV2 b2 s2). rewrite Hr in HV2. split; [done|]. intros b ->. exists b2. split; [done|].
  by eapply for_acc_result.
Qed.
End loops.

Lemma for_each_acc {S A} (l : list A) (body : A -> prog S unit) s :
  for_each l body s = for_acc l tt (fun x _ => body x) s.
Proof.
  revert s. induction l as [|x l IH]; intros s; [done|]. cbn [for_each for_acc]. unfold bind.
  destruct (body x s) as [[[]| |] s1]; [apply IH|done|done].
Qed.
