(* ===== verification/CStr.v ===== *)
(** * C strings

    The string functions of the C library the sources call, on [string]: a
    value of type [string] is a C string's characters before the terminating
    NUL, and a pointer into a string is the suffix it points to. *)

From S2P Require Import Prelude.

Definition nl : string := String "010" EmptyString.

(** [STREQ] of internal.h *)
Definition STREQ (a b : string) : bool := String.eqb a b.

(** [STRNEQ] of internal.h *)
Definition STRNEQ (a b : string) : bool := negb (STREQ a b).

Definition strlen (s : string) : Z := Z.of_nat (String.length s).

(** [strchr(s, c)] *)
Fixpoint strchr (s : string) (c : ascii) : option string :=
  match s with
  | EmptyString => None
  | String x s' => if Ascii.eqb x c then Some s else strchr s' c
  end.

(** [strrchr(s, c)] *)
Fixpoint strrchr (s : string) (c : ascii) : option string :=
  match s with
  | EmptyString => None
  | String x s' =>
      match strrchr s' c with
      | Some r => Some r
      | None => if Ascii.eqb x c then Some s else None
      end
  end.

(** [strncmp(p, s, strlen(p)) == 0] *)
Definition has_prefix (p s : string) : bool := String.prefix p s.

(** [strncmp(a, b, n) == 0] *)
Definition STREQLEN (a b : string) (n : nat) : bool :=
  STREQ (String.substring 0 n a) (String.substring 0 n b).

(** [strstr(hay, needle)] *)
Fixpoint strstr (hay needle : string) : option string :=
  if has_prefix needle hay then Some hay
  else match hay with
       | EmptyString => None
       | String _ h' => strstr h' needle
       end.

Fixpoint string_drop (n : nat) (s : string) : string :=
  match n, s with
  | S n', String _ s' => string_drop n' s'
  | _, _ => s
  end.

Definition string_take (n : nat) (s : string) : string := String.substring 0 n s.

Definition isblank (c : ascii) : bool :=
  Ascii.eqb c " "%char || Ascii.eqb c "009"%char.

(** [c_tolower] of gnulib's c-ctype *)
Definition c_tolower (c : ascii) : ascii :=
  let n := N_of_ascii c in
  if (65 <=? n)%N && (n <=? 90)%N then ascii_of_N (n + 32) else c.

Fixpoint string_map (f : ascii -> ascii) (s : string) : string :=
  match s with
  | EmptyString => EmptyString
  | String c s' => String (f c) (string_map f s')
  end.

Definition lower (s : string) : string := string_map c_tolower s.

(** [STRCASEEQ] of internal.h *)
Definition STRCASEEQ (a b : string) : bool := STREQ (lower a) (lower b).

(** [printf("%d")] *)
Definition fmt_d (z : Z) : string := pretty z.

Definition hex_digit (n : Z) : ascii :=
  ascii_of_N (Z.to_N (if n <? 10 then 48 + n else 87 + n)).

(** [printf("%02x")] of a byte *)
Definition fmt_02x (b : Z) : string :=
  String (hex_digit (b / 16)) (String (hex_digit (b mod 16)) EmptyString).

(** ** Sorting with [qsort(..., cmpstrp)]

    Equal strings are indistinguishable, so the sorted array is unique. *)
Definition str_le (a b : string) : Prop := String.leb a b = true.

#[global] Instance str_le_dec : RelDecision str_le.
Proof. intros a b. unfold str_le. apply _. Defined.

Fixpoint insert_sorted (x : string) (l : list string) : list string :=
  match l with
  | [] => [x]
  | y :: l' => if decide (str_le x y) then x :: l else y :: insert_sorted x l'
  end.

Fixpoint qsort_strings (l : list string) : list string :=
  match l with
  | [] => []
  | x :: l' => insert_sorted x (qsort_strings l')
  end.

(** ** Lemmas *)

Lemma STREQ_eq a b : STREQ a b = true <-> a = b.
Proof. apply String.eqb_eq. Qed.

Lemma STREQ_neq a b : STREQ a b = false <-> a <> b.
Proof. apply String.eqb_neq. Qed.

Lemma STREQ_refl a : STREQ a a = true.
Proof. by apply STREQ_eq. Qed.

#[export] Hint Resolve STREQ_refl : core.

Lemma insert_sorted_perm x l : insert_sorted x l ≡ₚ x :: l.
Proof.
  induction l as [|y l IH]; [done|]. cbn [insert_sorted].
  case_decide; [done|]. rewrite IH. apply Permutation_swap.
Qed.

Lemma qsort_strings_perm l : qsort_strings l ≡ₚ l.
Proof.
  induction l as [|x l IH]; [done|]. cbn [qsort_strings].
  by rewrite insert_sorted_perm, IH.
Qed.

Lemma str_le_total a b : ~ str_le a b -> str_le b a.
Proof.
  unfold str_le, String.leb. rewrite (String.compare_antisym a b).
  destruct (String.compare b a); simpl; intuition congruence.
Qed.

Lemma insert_sorted_sorted x l :
  Sorted str_le l -> Sorted str_le (insert_sorted x l).
Proof.
  induction l as [|y l IH]; intros Hs; cbn [insert_sorted]; [by repeat constructor|].
  case_decide as Hd; [by constructor; [|constructor]|].
  apply Sorted_inv in Hs as [Hs Hh]. constructor; [by apply IH|].
  apply str_le_total in Hd. destruct l as [|z l]; cbn [insert_sorted]; [by constructor|].
  case_decide; constructor; [done|]. by inversion Hh.
Qed.

Lemma qsort_strings_sorted l : Sorted str_le (qsort_strings l).
Proof. induction l; [constructor|]. by apply insert_sorted_sorted. Qed.

Lemma qsort_strings_length l : length (qsort_strings l) = length l.
Proof. by rewrite qsort_strings_perm. Qed.

Lemma elem_of_qsort x l : x ∈ qsort_strings l <-> x ∈ l.
Proof. by rewrite qsort_strings_perm. Qed.

Lemma app_cons (c : ascii) (s t : string) : String c s +:+ t = String c (s +:+ t).
Proof. done. Qed.

Lemma string_app_nil_r (s : string) : s +:+ EmptyString = s.
Proof. induction s as [|c s IH]; [done|]. by rewrite app_cons, IH. Qed.

Lemma string_length_app (s t : string) :
  String.length (s +:+ t) = (String.length s + String.length t)%nat.
Proof. induction s as [|c s IH]; [done|]. rewrite app_cons. cbn. f_equal. apply IH. Qed.

Lemma string_app_assoc (s t u : string) : s +:+ t +:+ u = (s +:+ t) +:+ u.
Proof. induction s as [|c s IH]; [done|]. rewrite !app_cons. f_equal. apply IH. Qed.

Lemma string_drop_app (s t : string) : string_drop (String.length s) (s +:+ t) = t.
Proof. induction s as [|c s IH]; [done|]. rewrite app_cons. cbn. apply IH. Qed.

Lemma has_prefix_app (s t : string) : has_prefix s (s +:+ t) = true.
Proof.
  induction s as [|c s IH]; [by destruct t|]. rewrite app_cons. unfold has_prefix in *.
  cbn. destruct (ascii_dec c c); [apply IH|done].
Qed.

Lemma strchr_suffix s c r : strchr s c = Some r -> exists p r', s = p +:+ r /\ r = String c r'.
Proof.
  induction s as [|x s IH]; cbn; [done|]. destruct (Ascii.eqb x c) eqn:E.
  - apply Ascii.eqb_eq in E as ->. intros [= <-]. by exists "", s.
  - intros (p & r' & -> & ->)%IH. by exists (String x p), r'.
Qed.

Lemma strrchr_suffix s c r : strrchr s c = Some r -> exists p r', s = p +:+ r /\ r = String c r'.
Proof.
  revert r. induction s as [|x s IH]; intros r; cbn; [done|].
  destruct (strrchr s c) as [r0|] eqn:E.
  - intros [= <-]. destruct (IH _ eq_refl) as (p & r' & -> & ->). by exists (String x p), r'.
  - destruct (Ascii.eqb x c) eqn:E'; [|done]. apply Ascii.eqb_eq in E' as ->.
    intros [= <-]. by exists "", s.
Qed.

Lemma has_prefix_inv s t : has_prefix s t = true -> exists r, t = s +:+ r.
Proof.
  unfold has_prefix. revert t. induction s as [|c s IH]; intros t; [by exists t|].
  destruct t as [|d t]; cbn; [done|]. destruct (ascii_dec c d) as [<-|]; [|done].
  intros [r ->]%IH. exists r. by rewrite app_cons.
Qed.

Lemma strstr_inv hay needle r :
  strstr hay needle = Some r -> exists pre rest, hay = pre +:+ r /\ r = needle +:+ rest.
Proof.
  induction hay as [|c hay IH]; cbn [strstr]; destruct (has_prefix needle _) eqn:E.
  - intros [= <-]. apply has_prefix_inv in E as [rest ->]. by exists "", rest.
  - done.
  - intros [= <-]. apply has_prefix_inv in E as [rest ->]. by exists "", rest.
  - intros (pre & rest & -> & ->)%IH. exists (String c pre), rest. by rewrite app_cons.
Qed.

Fixpoint string_forall (p : ascii -> bool) (s : string) : bool :=
  match s with
  | EmptyString => true
  | String c s' => p c && string_forall p s'
  end.

Lemma string_take_app s t : string_take (String.length s) (s +:+ t) = s.
Proof.
  unfold string_take. induction s as [|c s IH]; [by destruct t|].
  rewrite app_cons. cbn. f_equal. apply IH.
Qed.

Lemma string_take_all s n : (String.length s <= n)%nat -> string_take n s = s.
Proof.
  unfold string_take. revert n. induction s as [|c s IH]; intros n Hn; [by destruct n|].
  destruct n as [|n]; cbn in *; [lia|]. f_equal. apply IH. lia.
Qed.

Lemma string_take_length s n : String.length (string_take n s) = (n `min` String.length s)%nat.
Proof.
  unfold string_take. revert n. induction s as [|c s IH]; intros n; [by destruct n|].
  destruct n as [|n]; cbn; [done|]. f_equal. apply IH.
Qed.
