(* ===== verification/CList.v ===== *)
(** * Singly linked lists (list.h)

    The macros work on any structure with a [next] field. A heap maps the
    address of a node to its [next] pointer ([None] is NULL). A loop over a
    list is run with fuel; [None] as the result of a macro means that a
    dangling pointer was followed or the fuel ran out, and the theorems show
    that [S (size h)] steps are enough on every well-formed list. *)

From S2P Require Import Prelude.

Abbreviation ptr := (option nat).

Section macros.
Implicit Types h : gmap nat ptr.

Definition fuel_of h : nat := S (size h).

(** [for (_p = x; _p->next != NULL; _p = _p->next);] *)
Fixpoint find_last (n : nat) h (x : nat) : option nat :=
  match n with
  | O => None
  | S n' =>
      match h !! x with
      | None => None
      | Some None => Some x
      | Some (Some y) => find_last n' h y
      end
  end.

Definition list_append h (head tail : ptr) : option (ptr * gmap nat ptr) :=
  match head with
  | None => Some (tail, h)
  | Some x =>
      match find_last (fuel_of h) h x with
      | Some l => Some (head, <[l := tail]> h)
      | None => None
      end
  end.

(** [for (_p = p; _p != NULL && _p->next != e; _p = _p->next);] *)
Fixpoint find_prev (n : nat) h (p : ptr) (e : nat) : option ptr :=
  match n, p with
  | _, None => Some None
  | O, _ => None
  | S n', Some x =>
      match h !! x with
      | None => None
      | Some nx => if decide (nx = Some e) then Some (Some x) else find_prev n' h nx e
      end
  end.

Definition list_remove h (e : nat) (list : ptr) : option (ptr * gmap nat ptr) :=
  match h !! e with
  | None => None
  | Some en =>
      if decide (list = Some e) then Some (en, <[e := None]> h)
      else match find_prev (fuel_of h) h list e with
           | None => None
           | Some None => Some (list, <[e := None]> h)
           | Some (Some p) => Some (list, <[e := None]> (<[p := en]> h))
           end
  end.

Definition list_insert_before h (new elt : nat) (list : ptr) : option (ptr * gmap nat ptr) :=
  match list with
  | None => Some (Some new, h)
  | Some _ =>
      if decide (list = Some elt) then Some (Some new, <[new := Some elt]> h)
      else match find_prev (fuel_of h) h list elt with
           | None => None
           | Some None => Some (list, h)
           | Some (Some p) => Some (list, <[p := Some new]> (<[new := Some elt]> h))
           end
  end.

Fixpoint list_free_loop (n : nat) h (list : ptr) : option (gmap nat ptr) :=
  match list, n with
  | None, _ => Some h
  | Some _, O => None
  | Some p, S n' =>
      match h !! p with
      | None => None
      | Some nx => list_free_loop n' (delete p h) nx
      end
  end.

Definition list_free h (list : ptr) : option (gmap nat ptr) :=
  list_free_loop (fuel_of h) h list.

Fixpoint list_length_loop (n : nat) h (p : ptr) (len : Z) : option Z :=
  match p, n with
  | None, _ => Some len
  | Some _, O => None
  | Some x, S n' =>
      match h !! x with
      | None => None
      | Some nx => list_length_loop n' h nx (len + 1)
      end
  end.

Definition list_length h (list : ptr) : option Z := list_length_loop (fuel_of h) h list 0.

Definition list_cons h (list : ptr) (elt : nat) : ptr * gmap nat ptr :=
  (Some elt, <[elt := list]> h).

Fixpoint list_reverse_loop (n : nat) h (head prev : ptr) : option (ptr * gmap nat ptr) :=
  match head, n with
  | None, _ => Some (prev, h)
  | Some _, O => None
  | Some x, S n' =>
      match h !! x with
      | None => None
      | Some next => list_reverse_loop n' (<[x := prev]> h) next (Some x)
      end
  end.

Definition list_reverse h (list : ptr) : option (ptr * gmap nat ptr) :=
  list_reverse_loop (fuel_of h) h list None.

(** Returns list, tail and heap. *)
Definition list_tail_cons h (list tail : ptr) (elt : nat) : option (ptr * ptr * gmap nat ptr) :=
  match list with
  | None => Some (Some elt, Some elt, h)
  | Some x =>
      match (match tail with Some t => Some t | None => find_last (fuel_of h) h x end) with
      | None => None
      | Some t => Some (list, Some elt, <[t := Some elt]> h)
      end
  end.
End macros.

(** ** List segments *)

Fixpoint lseg (h : gmap nat ptr) (p : ptr) (xs : list nat) (q : ptr) : Prop :=
  match xs with
  | [] => p = q
  | x :: xs' => p = Some x /\ exists n, h !! x = Some n /\ lseg h n xs' q
  end.

(** [p] is a NULL-terminated list of the nodes [xs]. *)
Definition mlist (h : gmap nat ptr) (p : ptr) (xs : list nat) : Prop :=
  lseg h p xs None /\ NoDup xs.

Section lists.
Implicit Types h : gmap nat ptr.

Lemma lseg_app h p xs ys q :
  lseg h p (xs ++ ys) q <-> exists r, lseg h p xs r /\ lseg h r ys q.
Proof.
  revert p. induction xs as [|x xs IH]; intros p; cbn.
  - split; [by exists p|by intros (r & -> & ?)].
  - setoid_rewrite IH. split.
    + intros (-> & n & Hn & r & ? & ?). exists r. eauto.
    + intros (r & (-> & n & ? & ?) & ?). eauto 6.
Qed.

(** Writing to a node that is not on the segment leaves it alone. *)
Lemma lseg_insert h p xs q x v : x ∉ xs -> lseg h p xs q -> lseg (<[x := v]> h) p xs q.
Proof.
  revert p. induction xs as [|y xs IH]; intros p Hx; cbn; [done|].
  apply not_elem_of_cons in Hx as [Hne Hx]. intros (-> & n & Hn & Hs).
  split; [done|]. exists n. rewrite lookup_insert_ne by done. auto.
Qed.

Lemma lseg_delete h p xs q x : x ∉ xs -> lseg h p xs q -> lseg (delete x h) p xs q.
Proof.
  revert p. induction xs as [|y xs IH]; intros p Hx; cbn; [done|].
  apply not_elem_of_cons in Hx as [Hne Hx]. intros (-> & n & Hn & Hs).
  split; [done|]. exists n. rewrite lookup_delete_ne by done. auto.
Qed.

Lemma lseg_dom h p xs q x : lseg h p xs q -> x ∈ xs -> is_Some (h !! x).
Proof.
  revert p. induction xs as [|y xs IH]; intros p; cbn; [set_solver|].
  intros (-> & n & Hn & Hs) [->|Hx]%elem_of_cons; [by exists n|eauto].
Qed.

Lemma lseg_size h p xs q : lseg h p xs q -> NoDup xs -> (length xs <= size h)%nat.
Proof.
  intros Hs Hd. rewrite <- (size_list_to_set (C := gset nat)) by done.
  rewrite <- size_dom. apply subseteq_size. intros x Hx%elem_of_list_to_set.
  apply elem_of_dom. eauto using lseg_dom.
Qed.

Lemma mlist_fuel h p xs : mlist h p xs -> (length xs < fuel_of h)%nat.
Proof. intros [Hs Hd]. apply lseg_size in Hs; [|done]. unfold fuel_of. lia. Qed.

Lemma find_last_spec h p xs y n :
  lseg h p (xs ++ [y]) None -> (length xs < n)%nat ->
  exists x, p = Some x /\ find_last n h x = Some y.
Proof.
  revert p n. induction xs as [|x xs IH]; intros p n; cbn.
  - intros (-> & nx & Hn & ->) Hlt. destruct n as [|n]; [lia|]. exists y. split; [done|].
    cbn. by rewrite Hn.
  - intros (-> & nx & Hn & Hs) Hlt. destruct n as [|n]; [lia|]. exists x. split; [done|].
    destruct (IH _ n Hs ltac:(lia)) as (z & -> & Hf). cbn. by rewrite Hn.
Qed.

(** The node before [e], when [e] is on the list but not its head. *)
Lemma find_prev_found h p xs x e ys n :
  lseg h p (xs ++ x :: e :: ys) None -> NoDup (xs ++ x :: e :: ys) -> (length xs < n)%nat ->
  find_prev n h p e = Some (Some x).
Proof.
  revert p n. induction xs as [|z xs IH]; intros p n; cbn.
  - intros (-> & nx & Hn & (-> & _)) _ Hlt. destruct n as [|n]; [lia|]. cbn. rewrite Hn.
    by rewrite decide_True.
  - intros (-> & nx & Hn & Hs) [Hz Hd]%NoDup_cons Hlt. destruct n as [|n]; [lia|]. cbn. rewrite Hn.
    rewrite decide_False; [apply IH; [done..|lia]|]. intros ->.
    destruct xs as [|w xs]; cbn in Hs; destruct Hs as [[= ->] _].
    + apply NoDup_cons in Hd as [Hd _]. set_solver.
    + apply NoDup_cons in Hd as [Hd _]. set_solver.
Qed.

Lemma find_prev_absent h p xs e n :
  lseg h p xs None -> e ∉ xs -> (length xs < n)%nat -> find_prev n h p e = Some None.
Proof.
  revert p n. induction xs as [|x xs IH]; intros p n; cbn.
  - intros -> _ _. by destruct n.
  - intros (-> & nx & Hn & Hs) He Hlt. destruct n as [|n]; [lia|]. cbn. rewrite Hn.
    apply not_elem_of_cons in He as [Hne He]. rewrite decide_False; [apply IH; [done..|lia]|].
    intros ->. destruct xs as [|w xs]; cbn in Hs; [done|]. destruct Hs as [[= ->] _]. set_solver.
Qed.

(** *** Operations *)

Lemma append_run h p q xs ys :
  mlist h p xs -> mlist h q ys -> xs ## ys ->
  exists r h', list_append h p q = Some (r, h') /\ mlist h' r (xs ++ ys)
               /\ (forall a, a ∉ xs -> h' !! a = h !! a).
Proof.
  intros Hp Hq Hdis. pose proof (mlist_fuel _ _ _ Hp) as Hfuel.
  destruct Hp as [Hp Hdp], Hq as [Hq Hdq].
  assert (NoDup (xs ++ ys)) as Hd by (apply NoDup_app; set_solver).
  destruct xs as [|y xs' _] using rev_ind.
  { cbn in Hp. subst p. exists q, h. cbn. split_and!; try done. }
  rewrite length_app in Hfuel. cbn in Hfuel.
  destruct (find_last_spec h p xs' y (fuel_of h) Hp ltac:(lia)) as (x & -> & Hf).
  exists (Some x), (<[y := q]> h). unfold list_append. rewrite Hf. split_and!; [done| |].
  - split; [|done]. apply lseg_app in Hp as (r & Hxs & (-> & n & Hn & _)).
    rewrite <- app_assoc. apply lseg_app. exists (Some y).
    apply NoDup_app in Hdp as (Hdx & Hxy & _). split.
    { apply lseg_insert; [|done]. intros Hin. apply (Hxy _ Hin). set_solver. }
    cbn. split; [done|]. exists q. rewrite lookup_insert_eq. split; [done|].
    apply lseg_insert; [|done]. set_solver.
  - intros a Ha. apply lookup_insert_ne. set_solver.
Qed.

Lemma filter_ne_absent (xs : list nat) e : e ∉ xs -> filter (fun a => a <> e) xs = xs.
Proof.
  induction xs as [|x xs IH]; [done|]. intros [Hx Hxs]%not_elem_of_cons.
  rewrite filter_cons_True by done. by rewrite IH.
Qed.

Lemma filter_ne_middle (l r : list nat) e :
  NoDup (l ++ e :: r) -> filter (fun a => a <> e) (l ++ e :: r) = l ++ r.
Proof.
  intros (_ & Hle & [Her _]%NoDup_cons)%NoDup_app. rewrite filter_app, filter_cons_False by auto.
  rewrite !filter_ne_absent; [done|done|]. intros Hl. apply (Hle _ Hl). set_solver.
Qed.

Lemma remove_run h p xs e :
  mlist h p xs -> is_Some (h !! e) ->
  exists r h', list_remove h e p = Some (r, h') /\ h' !! e = Some None /\
               mlist h' r (filter (fun a => a <> e) xs).
Proof.
  intros Hp [en Hen]. pose proof (mlist_fuel _ _ _ Hp) as Hfuel. destruct Hp as [Hp Hd].
  destruct (decide (e ∈ xs)) as [Hin|Hout].
  - apply list_elem_of_split in Hin as (l & r & ->).
    rewrite filter_ne_middle by done.
    pose proof Hd as Hd'. apply NoDup_app in Hd' as (Hdl & Hle & [Her Hdr]%NoDup_cons).
    assert (NoDup (l ++ r)) as Hdd by (apply NoDup_app; set_solver).
    unfold list_remove. rewrite Hen. destruct l as [|x l _] using rev_ind.
    + cbn in Hp. destruct Hp as (-> & n & Hn & Hs). rewrite Hn in Hen. simplify_eq.
      rewrite decide_True by done. exists en, (<[e := None]> h). rewrite lookup_insert_eq.
      split_and!; [done..|]. split; [|done]. apply lseg_insert; [done|]. done.
    + rewrite <- app_assoc in Hp, Hd. cbn in Hp, Hd.
      assert (p <> Some e) as Hpe.
      { intros ->. destruct l; cbn in Hp; destruct Hp as [[= ->] _]; set_solver. }
      rewrite decide_False by done.
      rewrite (find_prev_found h p l x e r (fuel_of h)); [|done..|rewrite !length_app in Hfuel; cbn in Hfuel; lia].
      exists p, (<[e := None]> (<[x := en]> h)). rewrite lookup_insert_eq. split_and!; [done..|].
      split; [|done]. apply lseg_app in Hp as (q & Hl & (-> & n & Hn & (-> & n' & Hn' & Hr))).
      rewrite Hn' in Hen. simplify_eq. rewrite <- app_assoc. apply lseg_app. exists (Some x).
      apply NoDup_app in Hdl as (_ & Hlx & _).
      split; [apply lseg_insert, lseg_insert; set_solver|]. cbn. split; [done|]. exists en.
      rewrite lookup_insert_ne by set_solver. rewrite lookup_insert_eq. split; [done|].
      apply lseg_insert, lseg_insert; [done| |done]. apply NoDup_app in Hdd. set_solver.
  - rewrite filter_ne_absent by done.
    unfold list_remove. rewrite Hen.
    assert (p <> Some e) as Hpe.
    { intros ->. destruct xs; cbn in Hp; [done|]. destruct Hp as [[= ->] _]. set_solver. }
    rewrite decide_False by done. rewrite (find_prev_absent h p xs e) by done.
    exists p, (<[e := None]> h). rewrite lookup_insert_eq. split_and!; [done..|].
    split; [|done]. by apply lseg_insert.
Qed.

Lemma insert_run h p l e ys new :
  mlist h p (l ++ e :: ys) -> new ∉ l ++ e :: ys ->
  exists r h', list_insert_before h new e p = Some (r, h') /\ mlist h' r (l ++ new :: e :: ys).
Proof.
  intros Hp Hnew. pose proof (mlist_fuel _ _ _ Hp) as Hfuel. destruct Hp as [Hp Hd].
  assert (NoDup (l ++ new :: e :: ys)) as Hd'.
  { rewrite <- Permutation_middle. by apply NoDup_cons. }
  unfold list_insert_before. destruct l as [|x l _] using rev_ind.
  - cbn in Hp. pose proof Hp as [-> _]. rewrite decide_True by done.
    eexists _, _. split; [done|]. split; [|done]. cbn. split; [done|].
    exists (Some e). rewrite lookup_insert_eq. split; [done|].
    apply (lseg_insert h (Some e) (e :: ys)); [set_solver|done].
  - rewrite <- app_assoc in Hp, Hd, Hnew. cbn in Hp, Hd, Hnew.
    assert (p <> Some e /\ p <> None) as [Hpe Hpn].
    { split; [|intros ->; destruct l; cbn in Hp; by destruct Hp].
      intros ->. destruct l; cbn in Hp; destruct Hp as [[= ->] _]; cbn in Hd;
        apply NoDup_cons in Hd as [Hd _]; set_solver. }
    destruct p as [p|]; [|done]. rewrite decide_False by done.
    rewrite (find_prev_found h (Some p) l x e ys (fuel_of h));
      [|done..|rewrite !length_app in Hfuel; cbn in Hfuel; lia].
    eexists _, _. split; [done|]. split; [|done].
    apply lseg_app in Hp as (q & Hl & (-> & n & Hn & (-> & n' & Hn' & Hr))).
    rewrite <- app_assoc. apply lseg_app. exists (Some x).
    apply NoDup_app in Hd as (_ & Hlx & Hxs%NoDup_cons). destruct Hxs as [Hx He].
    apply NoDup_cons in He as [He _].
    split; [apply lseg_insert, lseg_insert; set_solver|]. cbn. split; [done|].
    exists (Some new). rewrite lookup_insert_eq. split; [done|]. split; [done|].
    exists (Some e). rewrite lookup_insert_ne by set_solver. rewrite lookup_insert_eq.
    split; [done|]. split; [done|]. exists n'. rewrite !lookup_insert_ne by set_solver.
    split; [done|]. apply lseg_insert, lseg_insert; set_solver.
Qed.

Lemma reverse_loop_run n h head prev xs ys :
  lseg h head xs None -> lseg h prev ys None -> NoDup (xs ++ ys) -> (length xs <= n)%nat ->
  exists r h', list_reverse_loop n h head prev = Some (r, h') /\ lseg h' r (rev xs ++ ys) None.
Proof.
  revert h head prev ys n. induction xs as [|x xs IH]; intros h head prev ys n; cbn.
  - intros -> Hp _ _. exists prev, h. by destruct n.
  - intros (-> & nx & Hn & Hs) Hp [Hx Hd]%NoDup_cons Hlt. destruct n as [|n]; [lia|].
    cbn. rewrite Hn. rewrite <- app_assoc. cbn.
    apply (IH (<[x := prev]> h) nx (Some x) (x :: ys)); [| | |lia].
    + apply lseg_insert; [set_solver|done].
    + cbn. split; [done|]. exists prev. rewrite lookup_insert_eq. split; [done|].
      apply lseg_insert; [set_solver|done].
    + apply NoDup_app in Hd as (? & ? & ?). apply NoDup_app. split_and!; [done|set_solver|].
      apply NoDup_cons. set_solver.
Qed.

Lemma length_loop_run n h p xs len :
  lseg h p xs None -> (length xs <= n)%nat ->
  list_length_loop n h p len = Some (len + Z.of_nat (length xs)).
Proof.
  revert p n len. induction xs as [|x xs IH]; intros p n len; cbn.
  - intros -> _. destruct n; cbn; f_equal; lia.
  - intros (-> & nx & Hn & Hs) Hlt. destruct n as [|n]; [lia|]. cbn. rewrite Hn.
    rewrite IH by (done || lia). f_equal. lia.
Qed.

Lemma free_loop_run n h p xs :
  lseg h p xs None -> NoDup xs -> (length xs <= n)%nat ->
  exists h', list_free_loop n h p = Some h' /\
    (forall a, a ∈ xs -> h' !! a = None) /\ (forall a, a ∉ xs -> h' !! a = h !! a).
Proof.
  revert h p n. induction xs as [|x xs IH]; intros h p n; cbn.
  - intros -> _ _. exists h. destruct n; cbn; split_and!; set_solver.
  - intros (-> & nx & Hn & Hs) [Hx Hd]%NoDup_cons Hlt. destruct n as [|n]; [lia|]. cbn. rewrite Hn.
    destruct (IH (delete x h) nx n) as (h' & -> & Hin & Hout); [by apply lseg_delete|done|lia|].
    exists h'. split_and!; [done| |].
    + intros a [->|Ha]%elem_of_cons; [|by apply Hin]. rewrite Hout by done. apply lookup_delete_eq.
    + intros a [Hax Ha]%not_elem_of_cons. rewrite Hout by done. by apply lookup_delete_ne.
Qed.
End lists.

(** ** Properties *)

(** A list of three cells for the witnesses. *)
Definition toy_list : gmap nat ptr := {[ 1%nat := Some 2%nat; 2%nat := Some 3%nat; 3%nat := None ]}.

Lemma toy_mlist : mlist toy_list (Some 1%nat) [1; 2; 3]%nat.
Proof.
  split; [|repeat constructor; set_solver]. cbn. split; [done|]. by eexists _; split; [reflexivity|];
    split; [done|]; eexists _; split; [reflexivity|]; split; [done|]; eexists _; split; [reflexivity|].
Defined.

(** C29: appending a well-formed list to another one, and reversing one in place,
    do to the chain of cells what concatenation and reversal do to sequences;
    neither loop runs away, and appending writes to no cell outside the first
    list. *)
Theorem list_append_reverse_spec (h : gmap nat ptr) (p q : ptr) (xs ys : list nat)
  (Hxs : mlist h p xs) (Hys : mlist h q ys) (Hdisj : xs ## ys) :
  (exists r h', list_append h p q = Some (r, h') /\ mlist h' r (xs ++ ys) /\
     forall a, a ∉ xs -> h' !! a = h !! a) /\
  (exists r h', list_reverse h p = Some (r, h') /\ mlist h' r (rev xs)) /\
  list_length h p = Some (Z.of_nat (length xs)).
Proof.
  split; [by apply append_run|]. pose proof (mlist_fuel h p xs Hxs). destruct Hxs as [Hs Hn]. split.
  - destruct (reverse_loop_run (fuel_of h) h p None xs []) as (r & h' & Hr & Hl); try done.
    { by rewrite app_nil_r. } { lia. }
    rewrite app_nil_r in Hl. exists r, h'. split; [done|]. split; [done|].
    by rewrite <- (Permutation_rev xs).
  - unfold list_length. rewrite (length_loop_run _ h p xs); [done|done|lia].
Qed.

Lemma list_append_reverse_spec_witness :
  exists r h', list_reverse toy_list (Some 1%nat) = Some (r, h') /\ mlist h' r [3; 2; 1]%nat.
Proof.
  apply (list_append_reverse_spec toy_list (Some 1%nat) None [1; 2; 3]%nat [] toy_mlist).
  - split; [done|constructor].
  - set_solver.
Defined.

(** Removing a cell takes exactly it out of the list and unlinks it, whether
    it is first, inside or not in the list at all; inserting a fresh cell before
    a member puts it right there; freeing the list frees its cells only. *)
Theorem list_remove_insert_free_spec (h : gmap nat ptr) (p : ptr) (xs : list nat)
  (Hxs : mlist h p xs) :
  (forall e, is_Some (h !! e) -> exists r h', list_remove h e p = Some (r, h') /\
     h' !! e = Some None /\ mlist h' r (filter (fun a => a <> e) xs)) /\
  (forall l e ys new, xs = l ++ e :: ys -> new ∉ xs -> exists r h',
     list_insert_before h new e p = Some (r, h') /\ mlist h' r (l ++ new :: e :: ys)) /\
  (exists h', list_free h p = Some h' /\ (forall a, a ∈ xs -> h' !! a = None) /\
     forall a, a ∉ xs -> h' !! a = h !! a).
Proof.
  split; [intros e He; by apply remove_run|]. split.
  - intros l e ys new -> Hnew. by apply insert_run.
  - pose proof (mlist_fuel h p xs Hxs). destruct Hxs as [Hs Hn]. apply free_loop_run; [done|done|lia].
Qed.

Lemma list_remove_insert_free_spec_witness :
  exists r h', list_remove toy_list 2 (Some 1%nat) = Some (r, h') /\ h' !! 2%nat = Some None /\
    mlist h' r [1; 3]%nat.
Proof.
  apply (proj1 (list_remove_insert_free_spec toy_list (Some 1%nat) [1; 2; 3]%nat toy_mlist) 2%nat).
  by eexists.
Defined.
