(* ===== verification/XsltExt.v ===== *)
(** * XSLT extension functions (xslt_ext.c)

    [ipcalc:netmask], [ipcalc:prefix] and [bond:option], the functions the
    stylesheets call to convert between prefixes and netmasks and to pick an
    option out of a BONDING_OPTS string. Their XPath arguments are values of
    libxml2: only their conversions to a number and to a string matter.
    An IPv4 address is the list of its four bytes in memory order. *)

From S2P Require Import Prelude CStr.

(** ** Machine arithmetic *)

Definition u32 (z : Z) : Z := z mod 2 ^ 32.

(** An [int] computation, wrapping around as compiled by gcc for [<<] and with
    two's complement subtraction. *)
Definition i32 (z : Z) : Z := (z + 2 ^ 31) mod 2 ^ 32 - 2 ^ 31.

(** [x >> n] on [unsigned int]: undefined from the width of the type on. *)
Definition shr_u32 (x n : Z) : option Z := if n <? 32 then Some (Z.shiftr x n) else None.

(** A double is NaN, an infinity or [m * 2 ^ e]. *)
Inductive double := DNaN | DInf (negative : bool) | DFin (m e : Z).

(** [(unsigned long) d]: undefined unless the truncated value fits. *)
Definition ulong_of_double (d : double) : option Z :=
  match d with
  | DFin m e =>
      let t := if 0 <=? e then m * 2 ^ e else Z.quot m (2 ^ (- e)) in
      if (0 <=? t) && (t <? 2 ^ 64) then Some t else None
  | _ => None
  end.

(** [(double) n == d], for an [n] that came out of [ulong_of_double d]. *)
Definition ulong_eq_double (n : Z) (d : double) : bool :=
  match d with
  | DFin m e => n * 2 ^ Z.max 0 (- e) =? m * 2 ^ Z.max 0 e
  | _ => false
  end.

(** ** IPv4 addresses *)

Definition htonl (v : Z) : list Z :=
  [v / 2 ^ 24 mod 256; v / 2 ^ 16 mod 256; v / 2 ^ 8 mod 256; v mod 256].

Definition ntohl (bs : list Z) : Z := fold_left (fun acc b => acc * 256 + b) bs 0.

Definition digit (d : Z) : string := String (ascii_of_N (Z.to_N (48 + d))) EmptyString.

(** [sprintf("%u")] of a byte *)
Definition fmt_octet (b : Z) : string :=
  if b <? 10 then digit b
  else if b <? 100 then digit (b / 10) +:+ digit (b mod 10)
  else digit (b / 100) +:+ digit (b / 10 mod 10) +:+ digit (b mod 10).

(** [inet_ntop(AF_INET, addr, buf, size)] *)
Definition inet_ntop (addr : list Z) (size : nat) : option string :=
  let s := String.concat "." (fmt_octet <$> addr) in
  if decide (String.length s < size)%nat then Some s else None.

Definition digit_val (c : ascii) : option Z :=
  let n := Z.of_N (N_of_ascii c) in
  if (48 <=? n) && (n <=? 57) then Some (n - 48) else None.

(** The scan of [inet_pton(AF_INET)]: octets read so far, whether a digit of
    the current octet was seen, and its value. *)
Fixpoint pton_scan (s : string) (done_ : list Z) (saw : bool) (cur : Z) : option (list Z) :=
  match s with
  | EmptyString =>
      if saw && (length done_ =? 3)%nat then Some (done_ ++ [cur]) else None
  | String c s' =>
      match digit_val c with
      | Some d =>
          if saw && (cur =? 0) then None
          else if 255 <? cur * 10 + d then None
          else pton_scan s' done_ true (cur * 10 + d)
      | None =>
          if Ascii.eqb c "."%char && saw && (length done_ <? 3)%nat
          then pton_scan s' (done_ ++ [cur]) false 0 else None
      end
  end.

(** [inet_pton(AF_INET, s, &addr)]: 1 and the address, or 0 and [addr] left
    as it was; it never is negative for this address family. *)
Definition inet_pton (s : string) (addr : list Z) : Z * list Z :=
  match pton_scan s [] false 0 with
  | Some bs => (1, bs)
  | None => (0, addr)
  end.

(** ** The extension functions *)

(** What an extension function leaves for the transformation. *)
Inductive xresult :=
| XReturn (s : string)
| XArityError
| XTransformError (msg : string)
| XNoValue.

Section ext.
(** XPath objects, and what libxml2 converts them to; [None] is a
    conversion that sets the context's error. *)
Context (xval : Type) (pop_number : xval -> option double) (pop_string : xval -> string).

Definition ipcalc_netmask (args : list xval) : outcome xresult :=
  match args with
  | [a] =>
      match pop_number a with
      | None => Ret (XTransformError "ipcalc:netmask: failed to get prefix as number")
      | Some raw_prefix =>
          match ulong_of_double raw_prefix with
          | None => Stop (UB "conversion of a double out of range")
          | Some prefix =>
              if negb (ulong_eq_double prefix raw_prefix) then
                Ret (XTransformError "ipcalc:netmask: failed to convert prefix to int")
              else if (prefix =? 0) || (32 <? prefix) then
                Ret (XTransformError
                  ("ipcalc:netmask: prefix " +:+ fmt_d prefix +:+ " not in the range 1 to 32"))
              else
                match shr_u32 0xffffffff prefix with
                | None => Stop (UB "shift by the width of the type")
                | Some m =>
                    match inet_ntop (htonl (u32 (Z.lnot m))) 16 with
                    | None => Ret (XTransformError
                                "ipcalc:netmask: internal error: inet_ntop failed")
                    | Some netmask_str => Ret (XReturn netmask_str)
                    end
                end
          end
      end
  | _ => Ret XArityError
  end.

(** [for (int i = 0; i < 32; i++) if (!(ntohl(a) & ((2 << i) - 1))) prefix--;]
    from [i = 32 - n] on *)
Fixpoint prefix_loop (n : nat) (addr : Z) (prefix : Z) : Z :=
  match n with
  | O => prefix
  | S n' =>
      let i := 32 - Z.of_nat n in
      let mask := u32 (i32 (i32 (Z.shiftl 2 i) - 1)) in
      prefix_loop n' addr (if Z.land addr mask =? 0 then u32 (prefix - 1) else prefix)
  end.

(** [junk] is what the uninitialised [netmask] holds; [asprintf_ok] tells
    whether [asprintf] finds memory. *)
Definition ipcalc_prefix (junk : list Z) (asprintf_ok : bool) (args : list xval)
  : outcome xresult :=
  match args with
  | [a] =>
      let netmask_str := pop_string a in
      if strlen netmask_str =? 0 then Ret (XReturn "")
      else
        let (r, netmask) := inet_pton netmask_str junk in
        if r <? 0 then
          Ret (XTransformError ("ipcalc:prefix: illegal netmask '" +:+ netmask_str +:+ "'"))
        else
          let prefix := prefix_loop 32 (ntohl netmask) 32 in
          if asprintf_ok then Ret (XReturn (fmt_d (i32 prefix))) else Ret XNoValue
  | _ => Ret XArityError
  end.

Definition is_delim (c : ascii) : bool :=
  match strchr (String " " (String "009" (String "'" (String "034" EmptyString)))) c with
  | Some _ => true
  | None => false
  end.

(** The scan for the end of the value: the end of the string or a delimiter. *)
Fixpoint scan_val (val : string) : string :=
  match val with
  | EmptyString => EmptyString
  | String c v' => if is_delim c then val else scan_val v'
  end.

Definition bond_option (args : list xval) : outcome xresult :=
  match args with
  | [opts; nm] =>
      let name := pop_string nm in
      let bond_opts := pop_string opts in
      match strstr bond_opts name with
      | None => Ret (XReturn "")
      | Some val =>
          match string_drop (String.length name) val with
          | String "="%char val' =>
              let val_end := scan_val val' in
              let len := (String.length val' - String.length val_end)%nat in
              Ret (XReturn (string_take len val'))
          | _ => Ret (XReturn "")
          end
      end
  | _ => Ret XArityError
  end.
End ext.

(** ** Addresses and their text *)

Definition dotted (v : Z) : string := String.concat "." (fmt_octet <$> htonl v).

Definition is_byte (b : Z) : Prop := 0 <= b < 256.

Lemma digit_cases d : 0 <= d < 10 ->
  d = 0 \/ d = 1 \/ d = 2 \/ d = 3 \/ d = 4 \/ d = 5 \/ d = 6 \/ d = 7 \/ d = 8 \/ d = 9.
Proof. lia. Qed.

Lemma digit_val_digit d : 0 <= d < 10 -> digit_val (ascii_of_N (Z.to_N (48 + d))) = Some d.
Proof. intros H%digit_cases. by repeat (destruct H as [->|H]; [reflexivity|]); subst. Qed.

Lemma pton_digit d s dn saw cur :
  0 <= d < 10 -> saw && (cur =? 0) = false -> cur * 10 + d <= 255 ->
  pton_scan (digit d +:+ s) dn saw cur = pton_scan s dn true (cur * 10 + d).
Proof.
  intros Hd Hz Hle. unfold digit. rewrite app_cons. cbn [pton_scan].
  rewrite digit_val_digit by done. rewrite Hz.
  by rewrite (proj2 (Z.ltb_ge 255 _)) by lia.
Qed.

Lemma pton_octet b s dn :
  is_byte b -> pton_scan (fmt_octet b +:+ s) dn false 0 = pton_scan s dn true b.
Proof.
  unfold is_byte, fmt_octet. intros Hb.
  destruct (b <? 10) eqn:E1; [rewrite pton_digit by (done || lia); f_equal; lia|].
  assert (0 <= b mod 10 < 10) by (apply Z.mod_pos_bound; lia).
  destruct (b <? 100) eqn:E2; rewrite <- ?string_app_assoc.
  - rewrite pton_digit by (done || (Z.to_euclidean_division_equations; lia)).
    rewrite pton_digit; [f_equal| | |]; Z.to_euclidean_division_equations; lia.
  - rewrite pton_digit by (done || (Z.to_euclidean_division_equations; lia)).
    rewrite pton_digit; [|Z.to_euclidean_division_equations; lia..].
    rewrite pton_digit; [f_equal| | |]; Z.to_euclidean_division_equations; lia.
Qed.

Lemma pton_dot s dn b :
  (length dn < 3)%nat -> pton_scan (String "." s) dn true b = pton_scan s (dn ++ [b]) false 0.
Proof.
  intros H. cbn [pton_scan]. change (digit_val "."%char) with (@None Z). cbn match.
  by rewrite (proj2 (Nat.ltb_lt _ _) H).
Qed.

Lemma inet_pton_concat a b c d junk :
  is_byte a -> is_byte b -> is_byte c -> is_byte d ->
  inet_pton (String.concat "." (fmt_octet <$> [a; b; c; d])) junk = (1, [a; b; c; d]).
Proof.
  intros Ha Hb Hc Hd. unfold inet_pton. cbn [fmap list_fmap String.concat].
  rewrite pton_octet by done. rewrite app_cons, pton_dot by (cbn; lia).
  change (EmptyString +:+ ?s) with s.
  rewrite pton_octet by done. rewrite app_cons, pton_dot by (cbn; lia).
  change (EmptyString +:+ ?s) with s.
  rewrite pton_octet by done. rewrite app_cons, pton_dot by (cbn; lia).
  change (EmptyString +:+ ?s) with s.
  rewrite <- (string_app_nil_r (fmt_octet d)), pton_octet by done. done.
Qed.

Lemma htonl_bytes v : 0 <= v < 2 ^ 32 -> Forall is_byte (htonl v).
Proof. intros Hv. unfold htonl, is_byte. repeat constructor; Z.to_euclidean_division_equations; lia. Qed.

Lemma ntohl_htonl v : 0 <= v < 2 ^ 32 -> ntohl (htonl v) = v.
Proof. intros Hv. unfold ntohl, htonl. cbn [fold_left]. Z.to_euclidean_division_equations; lia. Qed.

Lemma pton_dotted v junk : 0 <= v < 2 ^ 32 -> inet_pton (dotted v) junk = (1, htonl v).
Proof.
  intros Hv. pose proof (htonl_bytes v Hv) as Hb. unfold dotted, htonl in *.
  rewrite !Forall_cons in Hb. destruct Hb as (? & ? & ? & ? & _). by apply inet_pton_concat.
Qed.

Lemma fmt_octet_length b : is_byte b -> (1 <= String.length (fmt_octet b) <= 3)%nat.
Proof.
  intros Hb. unfold fmt_octet, digit. destruct (b <? 10); [cbn; lia|].
  destruct (b <? 100); rewrite !string_length_app; cbn; lia.
Qed.

Lemma dotted_length v : 0 <= v < 2 ^ 32 -> (7 <= String.length (dotted v) < 16)%nat.
Proof.
  intros Hv. pose proof (htonl_bytes v Hv) as Hb. unfold dotted, htonl in *.
  rewrite !Forall_cons in Hb. destruct Hb as (Ha & Hb & Hc & Hd & _).
  apply fmt_octet_length in Ha, Hb, Hc, Hd.
  cbn [fmap list_fmap String.concat]. rewrite !string_length_app. cbn [String.length]. lia.
Qed.

Lemma inet_ntop_dotted v : 0 <= v < 2 ^ 32 -> inet_ntop (htonl v) 16 = Some (dotted v).
Proof.
  intros Hv. pose proof (dotted_length v Hv). unfold inet_ntop. fold (dotted v).
  by rewrite decide_True by lia.
Qed.

(** ** Trailing zero bits *)

(** [v], on 32 bits, ends in exactly [k] zero bits. *)
Definition trailing_zeros (v k : Z) : Prop :=
  0 <= k <= 32 /\ forall j, 0 <= j <= 32 -> (v mod 2 ^ j = 0 <-> j <= k).

Lemma loop_mask i : 0 <= i < 32 -> u32 (i32 (i32 (Z.shiftl 2 i) - 1)) = Z.ones (i + 1).
Proof.
  intros Hi.
  assert (Hall : forallb (fun n => u32 (i32 (i32 (Z.shiftl 2 (Z.of_nat n)) - 1))
                                   =? Z.ones (Z.of_nat n + 1)) (seq 0 32) = true)
    by (vm_compute; reflexivity).
  rewrite forallb_forall in Hall.
  specialize (Hall (Z.to_nat i)). rewrite Z2Nat.id in Hall by lia.
  apply Z.eqb_eq, Hall. apply in_seq. lia.
Qed.

Lemma prefix_loop_run v k n p :
  trailing_zeros v k -> (n <= 32)%nat -> 0 <= p < 2 ^ 32 -> 0 <= p - Z.max 0 (k - (32 - Z.of_nat n)) ->
  prefix_loop n v p = p - Z.max 0 (k - (32 - Z.of_nat n)).
Proof.
  intros [Hk Hz]. revert p. induction n as [|n IH]; intros p Hn Hp Hpos; cbn [prefix_loop]; [lia|].
  rewrite loop_mask by lia. rewrite Z.land_ones by lia.
  assert (v mod 2 ^ (32 - Z.of_nat (S n) + 1) = 0 <-> 32 - Z.of_nat (S n) + 1 <= k) as Hi
    by (apply Hz; lia).
  destruct (Z.eqb_spec (v mod 2 ^ (32 - Z.of_nat (S n) + 1)) 0) as [E|E].
  - apply Hi in E. unfold u32. rewrite Z.mod_small by lia. rewrite IH by lia. lia.
  - assert (k < 32 - Z.of_nat (S n) + 1) by (apply Z.nle_gt; intros Hle; by apply E, Hi).
    rewrite IH by lia. lia.
Qed.

Definition netmask (n : Z) : Z := 2 ^ 32 - 2 ^ (32 - n).

Lemma netmask_bounds n : 0 <= n <= 32 -> 0 <= netmask n < 2 ^ 32.
Proof.
  intros Hn. unfold netmask.
  assert (2 ^ (32 - n) <= 2 ^ 32) by (apply Z.pow_le_mono_r; lia).
  assert (0 < 2 ^ (32 - n)) by (apply Z.pow_pos_nonneg; lia). lia.
Qed.

Lemma netmask_zeros n : 0 <= n <= 32 -> trailing_zeros (netmask n) (32 - n).
Proof.
  intros Hn. split; [lia|]. intros j Hj. unfold netmask.
  rewrite Z.mod_divide by (apply Z.pow_nonzero; lia).
  assert (2 ^ j | 2 ^ 32) as H32.
  { exists (2 ^ (32 - j)). rewrite <- Z.pow_add_r by lia. f_equal. lia. }
  split.
  - intros Hd. apply Z.nlt_ge. intros Hlt.
    assert (2 ^ j | 2 ^ (32 - n)) as Hd'.
    { replace (2 ^ (32 - n)) with (2 ^ 32 - (2 ^ 32 - 2 ^ (32 - n))) by lia.
      by apply Z.divide_sub_r. }
    apply Z.divide_pos_le in Hd'; [|apply Z.pow_pos_nonneg; lia].
    assert (2 ^ (32 - n) < 2 ^ j) by (apply Z.pow_lt_mono_r; lia). lia.
  - intros Hle. apply Z.divide_sub_r; [done|].
    exists (2 ^ (32 - n - j)). rewrite <- Z.pow_add_r by lia. f_equal. lia.
Qed.

Lemma shifted_netmask n : 1 <= n < 32 -> u32 (Z.lnot (Z.shiftr 0xffffffff n)) = netmask n.
Proof.
  intros Hn. rewrite Z.shiftr_div_pow2 by lia. unfold Z.lnot, u32, netmask.
  assert (4294967295 / 2 ^ n = 2 ^ (32 - n) - 1) as ->.
  { symmetry. apply (Z.div_unique _ _ _ (2 ^ n - 1)); [pose proof (Z.pow_pos_nonneg 2 n); lia|].
    assert (2 ^ 32 = 2 ^ n * 2 ^ (32 - n)) as E by (rewrite <- Z.pow_add_r by lia; f_equal; lia).
    change 4294967295 with (2 ^ 32 - 1). rewrite E. ring. }
  assert (0 < 2 ^ (32 - n)) by (apply Z.pow_pos_nonneg; lia).
  assert (2 ^ (32 - n) <= 2 ^ 32) by (apply Z.pow_le_mono_r; lia).
  symmetry. apply (Z.mod_unique _ _ (-1)); lia.
Qed.

(** The double has the integer value [n]. *)
Definition double_is (d : double) (n : Z) : Prop :=
  match d with
  | DFin m e => m * 2 ^ Z.max 0 e = n * 2 ^ Z.max 0 (- e)
  | _ => False
  end.

Lemma double_is_ulong d n :
  double_is d n -> 0 <= n < 2 ^ 64 ->
  ulong_of_double d = Some n /\ ulong_eq_double n d = true.
Proof.
  destruct d as [|b|m e]; cbn [double_is]; [done..|]. intros Hv Hn.
  unfold ulong_of_double, ulong_eq_double. rewrite Hv, Z.eqb_refl. split; [|done].
  assert ((if 0 <=? e then m * 2 ^ e else Z.quot m (2 ^ (- e))) = n) as ->.
  { destruct (Z.leb_spec 0 e).
    - rewrite Z.max_r, Z.max_l in Hv by lia. rewrite Hv. lia.
    - rewrite Z.max_l, Z.max_r in Hv by lia. rewrite Z.pow_0_r, Z.mul_1_r in Hv. rewrite Hv.
      apply Z.quot_mul. apply Z.pow_nonzero; lia. }
  by rewrite (proj2 (Z.leb_le 0 n)), (proj2 (Z.ltb_lt n _)) by lia.
Qed.

Section ext_lemmas.
Context (xval : Type) (pop_number : xval -> option double) (pop_string : xval -> string).

Lemma ipcalc_netmask_run a d n :
  pop_number a = Some d -> double_is d n -> 1 <= n <= 31 ->
  ipcalc_netmask xval pop_number [a] = Ret (XReturn (dotted (netmask n))).
Proof.
  intros Ha Hd Hn. destruct (double_is_ulong _ _ Hd ltac:(lia)) as [Hu He].
  unfold ipcalc_netmask. rewrite Ha, Hu, He. cbn [negb].
  rewrite (proj2 (Z.eqb_neq n 0)), (proj2 (Z.ltb_ge 32 n)) by lia. cbn [orb].
  unfold shr_u32. rewrite (proj2 (Z.ltb_lt n 32)) by lia.
  rewrite shifted_netmask by lia. by rewrite inet_ntop_dotted by (apply netmask_bounds; lia).
Qed.

Lemma ipcalc_prefix_run junk a v k :
  pop_string a = dotted v -> 0 <= v < 2 ^ 32 -> trailing_zeros v k ->
  ipcalc_prefix xval pop_string junk true [a] = Ret (XReturn (fmt_d (32 - k))).
Proof.
  intros Ha Hv Hk. unfold ipcalc_prefix. rewrite Ha.
  pose proof (dotted_length v Hv) as Hlen. unfold strlen.
  rewrite (proj2 (Z.eqb_neq _ 0)) by lia. rewrite pton_dotted by done.
  change (1 <? 0) with false. cbn match. rewrite ntohl_htonl by done.
  assert (0 <= k <= 32) by apply Hk.
  rewrite (prefix_loop_run v k) by (done || lia).
  replace (32 - Z.max 0 (k - (32 - Z.of_nat 32))) with (32 - k) by lia.
  unfold i32. rewrite Z.mod_small by lia. do 2 f_equal. f_equal. lia.
Qed.
End ext_lemmas.

Section option_lemmas.
Context (xval : Type) (pop_string : xval -> string).

(** Where the scan for the end of a value stops. *)
Definition value_end (rest : string) : Prop :=
  rest = "" \/ exists c r, rest = String c r /\ is_delim c = true.

Lemma scan_val_app w rest :
  string_forall (fun c => negb (is_delim c)) w = true -> value_end rest ->
  scan_val (w +:+ rest) = rest.
Proof.
  intros Hw Hr. induction w as [|c w IH]; cbn in Hw.
  - destruct Hr as [->|(c & r & -> & Hc)]; [done|]. change (scan_val (String c r) = String c r).
    cbn [scan_val]. by rewrite Hc.
  - rewrite app_cons. cbn [scan_val]. apply andb_true_iff in Hw as [Hc Hw].
    destruct (is_delim c); [done|]. by apply IH.
Qed.

Lemma bond_option_run o n name opts w rest :
  pop_string o = opts -> pop_string n = name ->
  strstr opts name = Some (name +:+ String "="%char (w +:+ rest)) ->
  string_forall (fun c => negb (is_delim c)) w = true -> value_end rest ->
  bond_option xval pop_string [o; n] = Ret (XReturn w).
Proof.
  intros Ho Hn Hs Hw Hr. unfold bond_option. rewrite Ho, Hn, Hs, string_drop_app.
  rewrite scan_val_app by done. rewrite string_length_app.
  replace (String.length w + String.length rest - String.length rest)%nat
    with (String.length w) by lia.
  by rewrite string_take_app.
Qed.
End option_lemmas.

(** ** Properties *)

(** For every prefix from 1 to 31, [ipcalc:netmask] returns the dotted quad of
    the 32-bit mask whose top [n] bits are set. *)
Theorem ipcalc_netmask_spec (xval : Type) (pop_number : xval -> option double)
  (a : xval) (d : double) (n : Z)
  (Ha : pop_number a = Some d) (Hd : double_is d n) (Hn : 1 <= n <= 31) :
  ipcalc_netmask xval pop_number [a] = Ret (XReturn (dotted (2 ^ 32 - 2 ^ (32 - n)))).
Proof. by apply (ipcalc_netmask_run xval pop_number a d n). Qed.

Lemma ipcalc_netmask_spec_witness :
  ipcalc_netmask double Some [DFin 3 3] = Ret (XReturn "255.255.255.0").
Proof. apply (ipcalc_netmask_spec double Some (DFin 3 3) (DFin 3 3) 24); [done..|lia]. Defined.

(** Outside 1..31 nothing is converted: a prefix of 32, which the range check
    lets through, shifts a 32-bit word by 32 (undefined behaviour); zero and
    everything above 32 is a transformation error. *)
Theorem ipcalc_netmask_bounds (xval : Type) (pop_number : xval -> option double)
  (a : xval) (d : double) (n : Z)
  (Ha : pop_number a = Some d) (Hd : double_is d n) (Hn : 0 <= n < 2 ^ 64)
  (Hout : n = 0 \/ 32 <= n) :
  ipcalc_netmask xval pop_number [a] =
    if n =? 32 then Stop (UB "shift by the width of the type")
    else Ret (XTransformError
           ("ipcalc:netmask: prefix " +:+ fmt_d n +:+ " not in the range 1 to 32")).
Proof.
  destruct (double_is_ulong _ _ Hd Hn) as [Hu He].
  unfold ipcalc_netmask. rewrite Ha, Hu, He. cbn [negb].
  destruct (Z.eqb_spec n 32) as [->|Hne]; [done|].
  destruct (Z.eqb_spec n 0), (Z.ltb_spec 32 n); cbn [orb]; done || lia.
Qed.

Lemma ipcalc_netmask_bounds_witness :
  ipcalc_netmask double Some [DFin 1 5] = Stop (UB "shift by the width of the type").
Proof. apply (ipcalc_netmask_bounds double Some (DFin 1 5) (DFin 1 5) 32); [done..|lia|lia]. Defined.

(** On the dotted quad of any 32-bit word, [ipcalc:prefix] returns 32 minus the
    number of trailing zero bits of the word (all 32 of them for zero). *)
Theorem ipcalc_prefix_spec (xval : Type) (pop_string : xval -> string) (junk : list Z)
  (a : xval) (v k : Z)
  (Ha : pop_string a = dotted v) (Hv : 0 <= v < 2 ^ 32) (Hk : trailing_zeros v k) :
  ipcalc_prefix xval pop_string junk true [a] = Ret (XReturn (fmt_d (32 - k))).
Proof. by apply (ipcalc_prefix_run xval pop_string junk a v k). Qed.

Lemma ipcalc_prefix_spec_witness :
  ipcalc_prefix string id [0; 0; 0; 0] true ["255.255.0.0"] = Ret (XReturn "16").
Proof.
  apply (ipcalc_prefix_spec string id [0; 0; 0; 0] "255.255.0.0" (netmask 16) 16);
    [reflexivity|vm_compute; split; congruence|apply (netmask_zeros 16); lia].
Defined.

(** The two conversions are inverse: the prefix of the netmask that
    [ipcalc:netmask] computes from [n] is [n] again, for every [n] it converts. *)
Theorem ipcalc_roundtrip (xval : Type) (pop_number : xval -> option double)
  (pop_string : xval -> string) (junk : list Z) (a b : xval) (d : double) (n : Z)
  (Ha : pop_number a = Some d) (Hd : double_is d n) (Hn : 1 <= n <= 31)
  (Hb : ipcalc_netmask xval pop_number [a] = Ret (XReturn (pop_string b))) :
  ipcalc_prefix xval pop_string junk true [b] = Ret (XReturn (fmt_d n)).
Proof.
  rewrite (ipcalc_netmask_run xval pop_number a d n) in Hb by done. injection Hb as Hb.
  rewrite (ipcalc_prefix_run xval pop_string junk b (netmask n) (32 - n)).
  - do 2 f_equal. f_equal. lia.
  - done.
  - apply netmask_bounds. lia.
  - apply netmask_zeros. lia.
Qed.

Lemma ipcalc_roundtrip_witness :
  ipcalc_prefix (double * string) snd [0; 0; 0; 0] true [(DNaN, "255.255.240.0")]
  = Ret (XReturn "20").
Proof.
  apply (ipcalc_roundtrip (double * string) (fun v => Some v.1) snd [0; 0; 0; 0]
           (DFin 20 0, "") (DNaN, "255.255.240.0") (DFin 20 0) 20);
    [reflexivity|reflexivity|lia|vm_compute; reflexivity].
Defined.

(** When the first occurrence of the option's name is followed by ['='],
    [bond:option] returns exactly the characters up to the next blank, tab or
    quote, or up to the end of the string. *)
Theorem bond_option_spec (xval : Type) (pop_string : xval -> string)
  (o n : xval) (w rest : string)
  (Hs : strstr (pop_string o) (pop_string n)
        = Some (pop_string n +:+ String "="%char (w +:+ rest)))
  (Hw : string_forall (fun c => negb (is_delim c)) w = true) (Hr : value_end rest) :
  bond_option xval pop_string [o; n] = Ret (XReturn w).
Proof. by apply (bond_option_run xval pop_string o n (pop_string n) (pop_string o) w rest). Qed.

Lemma bond_option_spec_witness :
  bond_option string id ["miimon=100 mode=active-backup primary=eth0"; "mode"]
  = Ret (XReturn "active-backup").
Proof.
  apply (bond_option_spec string id _ _ "active-backup" " primary=eth0");
    [reflexivity|reflexivity|]. right. exists " "%char, "primary=eth0". done.
Defined.
