(* ===== verification/Transaction.v ===== *)
(** * Transactions (netcf-transaction.init.sh)

    The shell script behind [ncf_change_begin], [ncf_change_commit] and
    [ncf_change_rollback]: it copies the configuration files of interfaces into a
    snapshot, and back. The programs it calls (cp, rm, mkdir, cmp, date, ls) act on
    the file system; they are parameters, and may fail at every call. What is
    assumed of them is what their manual pages promise ([ShellLaws]). *)

From S2P Require Import Prelude CStr.

(** The directories of the script. [rollbackdir stamp] is [$rollbackdirbase-stamp]. *)
Inductive dirname := netconfdir | snapshotdir | rollbackdir (stamp : string).

#[global] Instance dirname_dec : EqDecision dirname.
Proof. solve_decision. Defined.

(** A file of a directory: the value of [$f], with [f.2] for [${f##*/}]. *)
Definition path : Type := dirname * string.

(** What a name stands for: a regular file (also behind a link), as [test -f]
    finds it, or anything else. *)
Inductive entry := Reg (content : string) | Other.
Inductive kind := Nothing | NoDir | IsDir.

#[global] Instance entry_dec : EqDecision entry.
Proof. solve_decision. Defined.
#[global] Instance kind_dec : EqDecision kind.
Proof. solve_decision. Defined.

(** The second operand of cp: a directory or a file. *)
Inductive target := ToDir (d : dirname) | ToFile (p : path).

(** The file system, and the programs with their exit status. *)
Class Shell := {
  fs : Type;
  kind_of : dirname -> fs -> kind;
  entry_at : path -> fs -> option entry;
  names : dirname -> fs -> list string;          (** in the order of the shell's globs *)
  rollbacks : fs -> list string;                 (** [ls -d "$rollbackdirbase"-*]: the stamps *)
  mkdir_p : dirname -> fs -> Z * fs;
  cp : string -> path -> target -> fs -> Z * fs; (** with the options [-p] or [-pf] *)
  cmp_s : path -> path -> fs -> Z;
  rm_f : path -> fs -> Z * fs;
  rm_rf : dirname -> fs -> Z * fs;
  date_to : path -> fs -> Z * fs;                (** [date >path] *)
  date_stamp : fs -> string;                     (** [date +%Y.%m.%d-%H:%M:%S] *)
  lastpipe : bool;      (** is the last command of a pipeline run by the shell itself? *)
  sysconfdir : string;
  localstatedir : string;
  arg0 : string;
  prog_value : string   (** [$prog], which the script does not set *)
}.

Definition EINVALID_IN_THIS_STATE : Z := 199.

Section script.
Context `{Shell}.

Record sh := { disk : fs; out : list string }.

#[local] Abbreviation S := (prog sh).

(** ** The shell *)

Definition cmd (f : fs -> Z * fs) : S Z :=
  fun s => let (st, w) := f (disk s) in (Ret st, {| disk := w; out := out s |}).

Definition echo_n (msg : string) : S unit :=
  modify (fun s => {| disk := disk s; out := out s ++ [msg] |}).
Definition echo (msg : string) : S unit := echo_n (msg +:+ nl).

Definition test_e (d : dirname) (w : fs) : bool := negb (bool_decide (kind_of d w = Nothing)).
Definition test_d (d : dirname) (w : fs) : bool := bool_decide (kind_of d w = IsDir).
Definition file_at (p : path) (w : fs) : option string :=
  match entry_at p w with Some (Reg c) => Some c | _ => None end.
Definition test_f (p : path) (w : fs) : bool := bool_decide (is_Some (file_at p w)).

(** The words that an unquoted expansion is split into *)
Definition is_ifs (c : ascii) : bool := bool_decide (c ∈ [" "%char; "009"%char; "010"%char]).
Fixpoint fields (word s : string) : list string :=
  match s with
  | EmptyString => if decide (word = "") then [] else [word]
  | String c s' =>
      if is_ifs c then (if decide (word = "") then [] else [word]) ++ fields "" s'
      else fields (word +:+ String c "") s'
  end.

(** ["$d"/prefix*]: the names that match, or the pattern itself when none does. *)
Definition glob (d : dirname) (prefix : string) (w : fs) : list string :=
  match filter (fun x => has_prefix prefix x = true) (names d w) with
  | [] => [prefix +:+ "*"]
  | l => l
  end.

(** ["$d"/ifcfg-* "$d"/route-* "$d"/rule-*] *)
Definition config_files (d : dirname) (w : fs) : list path :=
  pair d <$> (glob d "ifcfg-" w ++ glob d "route-" w ++ glob d "rule-" w).

Definition snapshot_name : string := localstatedir +:+ "/lib/netcf/network-snapshot".
Definition rollbackdirbase : string := localstatedir +:+ "/lib/netcf/network-rollback".
Definition show_dir (d : dirname) : string :=
  match d with
  | netconfdir => sysconfdir +:+ "/sysconfig/network-scripts"
  | snapshotdir => snapshot_name
  | rollbackdir r => rollbackdirbase +:+ "-" +:+ r
  end.
Definition show (p : path) : string := show_dir p.1 +:+ "/" +:+ p.2.

(** ** The functions of the script

    [return 1] in the middle of a function is [goto_error]. *)

(** The loops that copy the configuration into a directory. *)
Definition copy_file (d : dirname) (f : path) : S unit :=
  is_f ← gets (fun s => test_f f (disk s));
  if negb is_f then ret tt else
  st ← cmd (cp "-p" f (ToDir d));
  when (negb (st =? 0)) (echo ("failed to copy " +:+ show f +:+ " to " +:+ show_dir d) ;; goto_error).

Definition copy_config (d : dirname) : S unit :=
  files ← gets (fun s => config_files netconfdir (disk s));
  for_each files (copy_file d).

Definition change_begin : S Z :=
  pending ← gets (fun s => test_e snapshotdir (disk s));
  if (pending : bool) then
    echo ("There is already an open transaction (" +:+ snapshot_name +:+ " exists)") ;;
    ret EINVALID_IN_THIS_STATE
  else
  st ← cmd (mkdir_p snapshotdir);
  if negb (st =? 0) then echo ("failed to create snapshot directory " +:+ snapshot_name) ;; ret 1 else
  on_error (copy_config snapshotdir ;; cmd (date_to (snapshotdir, "date"))) (ret 1).

Definition change_commit : S Z :=
  pending ← gets (fun s => test_d snapshotdir (disk s));
  if negb pending then echo "No pending transaction to commit" ;; ret EINVALID_IN_THIS_STATE else
  st ← cmd (rm_rf snapshotdir);
  when (negb (st =? 0)) (echo ("Failed to remove obsolete snapshot directory " +:+ snapshot_name)) ;;
  ret 0.

(** [cmd || { echo msg; rollback_ret=1; }] *)
Definition attempt (f : fs -> Z * fs) (msg : string) (rollback_ret : Z) : S Z :=
  st ← cmd f;
  if st =? 0 then ret rollback_ret else echo msg ;; ret 1.

(** [ls | head -n -20 | while read r]: all but the last 20; an assignment of the
    loop is lost when it runs in a shell of its own. *)
Definition prune (rollback_ret : Z) : S Z :=
  rs ← gets (fun s => rollbacks (disk s));
  ret' ← for_acc (take (length rs - 20) rs) rollback_ret (fun r =>
           attempt (rm_rf (rollbackdir r))
             ("Failed to remove obsolete rollback directory " +:+ show_dir (rollbackdir r)));
  ret (if lastpipe then ret' else rollback_ret).

(** Cases (1) to (3): a file of the current configuration. *)
Definition restore_current (f : path) (rollback_ret : Z) : S Z :=
  is_f ← gets (fun s => test_f f (disk s));
  if negb is_f then ret rollback_ret else
  let snapshotf : path := (snapshotdir, f.2) in
  saved ← gets (fun s => test_f snapshotf (disk s));
  if (saved : bool) then
    differ ← gets (fun s => cmp_s snapshotf f (disk s));
    when (negb (differ =? 0))
      (st ← cmd (cp "-pf" snapshotf (ToFile f));
       when (negb (st =? 0))
         (echo ("failed to restore " +:+ show snapshotf +:+ " to " +:+ show f) ;; goto_error)) ;;
    attempt (rm_f snapshotf) ("Failed to remove obsolete snapshot file " +:+ show snapshotf) rollback_ret
  else attempt (rm_f f) ("Failed to remove unwanted config file " +:+ show f) rollback_ret.

(** Case (4): a file that is left in the snapshot. *)
Definition restore_missing (f : path) : S unit :=
  is_f ← gets (fun s => test_f f (disk s));
  if negb is_f then ret tt else
  st ← cmd (cp "-pf" f (ToDir netconfdir));
  when (negb (st =? 0))
    (echo ("failed to restore " +:+ show f +:+ " to " +:+ show_dir netconfdir) ;; goto_error).

Definition report_date : S unit :=
  date ← gets (fun s => file_at (snapshotdir, "date") (disk s));
  match date with
  | Some c => echo (String.concat " " ("Rolled back to network config state of" :: fields "" c))
  | None => ret tt
  end.

(** From the creation of [$rollbackdir] on. *)
Definition restore_config (rollback_ret : Z) : S Z :=
  files ← gets (fun s => config_files netconfdir (disk s));
  rollback_ret ← for_acc files rollback_ret restore_current;
  left ← gets (fun s => config_files snapshotdir (disk s));
  for_each left restore_missing ;;
  report_date ;;
  attempt (rm_rf snapshotdir)
    ("Failed to remove obsolete snapshot directory " +:+ snapshot_name) rollback_ret.

Definition change_rollback : S Z :=
  pending ← gets (fun s => test_d snapshotdir (disk s));
  if negb pending then echo "No pending transaction to rollback" ;; ret EINVALID_IN_THIS_STATE else
  rollback_ret ← prune 0;
  stamp ← gets (fun s => date_stamp (disk s));
  st ← cmd (mkdir_p (rollbackdir stamp));
  if negb (st =? 0) then
    echo ("failed to create rollback directory " +:+ show_dir (rollbackdir stamp)) ;; ret 1
  else on_error (copy_config (rollbackdir stamp) ;; restore_config rollback_ret) (ret 1).

(** ** The script *)

Definition usage (val : Z) : S Z :=
  echo ("Usage: " +:+ arg0 +:+ " {change-begin|change-commit|change-rollback|snapshot-dir|start|stop|status|restart|condrestart|try-restart|reload|force-reload}") ;;
  halt (Exit val).

Definition test_status (b : bool) : Z := if b then 0 else 1.

(** [start] and its like. The status of [change_rollback] is gone when [$?] is
    read: it then is the status of [test]. *)
Definition start (arg : string) (retval : Z) : S Z :=
  echo_n ("Running " +:+ prog_value +:+ " " +:+ arg +:+ ": ") ;;
  change_rollback ;;
  let status := test_status (negb (retval =? EINVALID_IN_THIS_STATE)) in
  echo "" ;;
  ret (if status =? 0 then status else retval).

Definition run_command (arg : string) : S Z :=
  let retval := 0 in
  if decide (arg ∈ ["start"; "restart"; "reload"; "force-reload"; "condrestart"; "try-restart"])
  then start arg retval
  else if decide (arg ∈ ["stop"; "status"]) then
    pending ← gets (fun s => test_d snapshotdir (disk s));
    echo (if (pending : bool) then "There is an open transaction" else "No open transaction") ;;
    ret retval
  else if STREQ arg "--help" then usage 0
  else if STREQ arg "change-begin" then change_begin
  else if STREQ arg "change-commit" then change_commit
  else if STREQ arg "change-rollback" then change_rollback
  else if STREQ arg "snapshot-dir" then echo snapshot_name ;; ret retval
  else usage 2.

(** The whole script; it always ends with [exit]. *)
Definition script (args : list string) : S Z :=
  match args with
  | [arg] => retval ← run_command arg; halt (Exit retval)
  | _ => usage 2
  end.
End script.
