(* ===== verification/TransactionSpec.v ===== *)
(** * What a transaction keeps and restores

    The promises of the programs the script calls, and what follows for
    [change_begin], [change_commit] and [change_rollback] of [Transaction] when
    every command succeeds, and when any of them fails. *)

From S2P Require Import Prelude CStr Transaction.

(** The files a transaction covers *)
Definition managed (x : string) : bool :=
  has_prefix "ifcfg-" x || has_prefix "route-" x || has_prefix "rule-" x.

Section relations.
Context `{Shell}.

(** Only entries in [P] may differ; directories stay what they are. *)
Definition frame (P : path -> Prop) (w w' : fs) : Prop :=
  (forall d, kind_of d w' = kind_of d w) /\ (forall p, ~ P p -> entry_at p w' = entry_at p w).

(** Only the directory [d] may differ. *)
Definition only_dir (d : dirname) (w w' : fs) : Prop :=
  forall d', d' <> d -> kind_of d' w' = kind_of d' w /\ forall x, entry_at (d', x) w' = entry_at (d', x) w.

(** The file a copy is written to *)
Definition destination (f : path) (t : target) : path :=
  match t with ToDir d => (d, f.2) | ToFile p => p end.
End relations.

(** The manual pages: a program that exits with 0 has done its work, one that fails
    has changed nothing but its operand. *)
Class ShellLaws `(Shell) := {
  names_law d w x : x ∈ names d w <-> is_Some (entry_at (d, x) w);
  names_nodup d w : NoDup (names d w);
  kind_law d x w : is_Some (entry_at (d, x) w) -> kind_of d w = IsDir;
  rollbacks_law r w : r ∈ rollbacks w <-> kind_of (rollbackdir r) w <> Nothing;
  mkdir_law d w :
    only_dir d w (mkdir_p d w).2 /\
    ((mkdir_p d w).1 = 0 ->
     kind_of d (mkdir_p d w).2 = IsDir /\ forall x, entry_at (d, x) (mkdir_p d w).2 = entry_at (d, x) w);
  cp_law fl f t w :
    kind_of (destination f t).1 w = IsDir ->
    frame (fun p => p = destination f t) w (cp fl f t w).2 /\
    forall c, (cp fl f t w).1 = 0 -> entry_at f w = Some (Reg c) ->
      entry_at (destination f t) w <> Some Other ->
      entry_at (destination f t) (cp fl f t w).2 = Some (Reg c);
  cmp_law f g w c :
    cmp_s f g w = 0 -> entry_at f w = Some (Reg c) -> is_Some (file_at g w) -> entry_at g w = Some (Reg c);
  rm_law f w :
    frame (fun p => p = f) w (rm_f f w).2 /\ ((rm_f f w).1 = 0 -> entry_at f (rm_f f w).2 = None) /\
    (entry_at f (rm_f f w).2 = None \/ entry_at f (rm_f f w).2 = entry_at f w);
  rmdir_law d w :
    only_dir d w (rm_rf d w).2 /\ ((rm_rf d w).1 = 0 -> kind_of d (rm_rf d w).2 = Nothing) /\
    (forall x, entry_at (d, x) (rm_rf d w).2 = None \/ entry_at (d, x) (rm_rf d w).2 = entry_at (d, x) w);
  date_range p w : 0 <= (date_to p w).1 < 256;
  date_law p w :
    kind_of p.1 w = IsDir ->
    frame (fun q => q = p) w (date_to p w).2 /\
    ((date_to p w).1 = 0 -> exists c, entry_at p (date_to p w).2 = Some (Reg c))
}.

Section laws.
Context `{ShellLaws}.

#[export] Instance frame_preorder P : PreOrder (frame P).
Proof.
  split; [by split|]. intros w1 w2 w3 [Hk1 He1] [Hk2 He2].
  split; [intros d; by rewrite Hk2|]. intros p Hp. by rewrite He2, He1.
Qed.
#[export] Instance only_dir_preorder d : PreOrder (only_dir d).
Proof.
  split; [by intros w d0 _; split|]. intros w1 w2 w3 H1 H2 d' Hd. destruct (H1 d' Hd) as [Hk1 He1], (H2 d' Hd) as [Hk2 He2].
  split; [congruence|]. intros x. by rewrite He2, He1.
Qed.

Lemma frame_mono (P Q : path -> Prop) w w' : (forall p, P p -> Q p) -> frame P w w' -> frame Q w w'.
Proof. intros HPQ [Hk He]. split; [done|]. intros p Hp. apply He. auto. Qed.

Lemma file_at_Some p w c : file_at p w = Some c <-> entry_at p w = Some (Reg c).
Proof. unfold file_at. destruct (entry_at p w) as [[]|]; naive_solver. Qed.

(** ** Globs *)

Lemma glob_file d pre w x :
  is_Some (entry_at (d, x) w) -> (x ∈ glob d pre w <-> has_prefix pre x = true).
Proof.
  intros Hx. unfold glob. set (l := filter _ _).
  assert (Hl : x ∈ l <-> has_prefix pre x = true).
  { unfold l. rewrite list_elem_of_filter, names_law. tauto. }
  destruct l as [|y l']; [|done]. rewrite list_elem_of_singleton.
  split; [|intros Hp; apply Hl in Hp; by apply not_elem_of_nil in Hp].
  intros ->. apply has_prefix_app.
Qed.

Lemma glob_prefix d pre w x : x ∈ glob d pre w -> has_prefix pre x = true.
Proof.
  unfold glob. set (l := filter _ _).
  assert (Hl : x ∈ l -> has_prefix pre x = true) by (unfold l; rewrite list_elem_of_filter; tauto).
  destruct l; [|done]. rewrite list_elem_of_singleton. intros ->. apply has_prefix_app.
Qed.

Lemma glob_nodup d pre w : NoDup (glob d pre w).
Proof.
  unfold glob. set (l := filter _ _).
  assert (Hl : NoDup l) by apply NoDup_filter, names_nodup.
  destruct l; [apply NoDup_singleton|done].
Qed.

Lemma config_files_managed d w p : p ∈ config_files d w -> p.1 = d /\ managed p.2 = true.
Proof.
  unfold config_files. rewrite list_elem_of_fmap. intros (x & -> & Hx). split; [done|]. unfold managed. cbn.
  rewrite !elem_of_app in Hx. rewrite !orb_true_iff.
  destruct Hx as [Hx|[Hx|Hx]]; apply glob_prefix in Hx; auto.
Qed.

Lemma config_files_file d w x :
  is_Some (entry_at (d, x) w) -> ((d, x) ∈ config_files d w <-> managed x = true).
Proof.
  intros Hx. split; [by intros [_ ?]%config_files_managed|]. intros Hm.
  unfold config_files. apply list_elem_of_fmap. exists x. split; [done|].
  rewrite !elem_of_app, !glob_file by done. unfold managed in Hm.
  rewrite !orb_true_iff in Hm. tauto.
Qed.

Lemma config_files_nodup d w : NoDup (config_files d w).
Proof.
  unfold config_files. apply NoDup_fmap; [by intros ? ? [= ->]|].
  assert (Hne : forall a b x, has_prefix a x = true -> has_prefix b x = true ->
            a ∈ ["ifcfg-"; "route-"; "rule-"] -> b ∈ ["ifcfg-"; "route-"; "rule-"] -> a = b).
  { intros a b x (r & ->)%has_prefix_inv (r' & Hr)%has_prefix_inv Ha Hb.
    rewrite !elem_of_cons, elem_of_nil in Ha, Hb.
    destruct Ha as [->|[->|[->|[]]]], Hb as [->|[->|[->|[]]]]; done. }
  rewrite !NoDup_app. repeat split; try apply glob_nodup; intros x Hx.
  - rewrite elem_of_app. intros [Hy|Hy]; apply glob_prefix in Hx, Hy;
      discriminate (Hne _ _ _ Hx Hy ltac:(set_solver) ltac:(set_solver)).
  - intros Hy; apply glob_prefix in Hx, Hy;
      discriminate (Hne _ _ _ Hx Hy ltac:(set_solver) ltac:(set_solver)).
Qed.
End laws.

(** ** The loops of the script *)

Section steps.
Context `{ShellLaws}.

(** As long as [D] is a directory, only entries in [P] change. *)
Definition within (D : dirname) (P : path -> Prop) (s s' : sh) : Prop :=
  kind_of D (disk s) = IsDir -> frame P (disk s) (disk s').

#[export] Instance within_preorder D P : PreOrder (within D P).
Proof.
  split; [intros s _; reflexivity|]. intros s1 s2 s3 H1 H2 Hk. specialize (H1 Hk).
  etransitivity; [exact H1|]. apply H2. by rewrite (proj1 H1).
Qed.

(** A status that is 0 after a step was so before. *)
Definition sticky (r r' : Z) : Prop := r' = 0 -> r = 0.
#[export] Instance sticky_preorder : PreOrder sticky.
Proof. unfold sticky. split; [by intros r|intros a b c; auto]. Qed.

Lemma within_same D P {A} (m : prog sh A) : (forall s, disk (m s).2 = disk s) -> pres (within D P) m.
Proof. intros Hm s _. rewrite Hm. reflexivity. Qed.

Lemma within_cmd D P f : (forall w, kind_of D w = IsDir -> frame P w (f w).2) -> pres (within D P) (cmd f).
Proof. intros Hf s Hk. unfold cmd. specialize (Hf (disk s) Hk). revert Hf. by destruct (f (disk s)). Qed.

Lemma within_echo D P msg : pres (within D P) (echo msg).
Proof. by apply within_same. Qed.

Lemma within_attempt D P f msg r :
  (forall w, kind_of D w = IsDir -> frame P w (f w).2) -> pres (within D P) (attempt f msg r).
Proof.
  intros Hf. unfold attempt. apply pres_bind; [apply _|by apply within_cmd|]. intros st.
  destruct (st =? 0); [by apply pres_ret, _|]. apply pres_bind; [apply _|apply within_echo|].
  intros _. by apply pres_ret, _.
Qed.

Lemma within_cp D (P : path -> Prop) fl f t :
  (destination f t).1 = D -> P (destination f t) -> forall w, kind_of D w = IsDir -> frame P w (cp fl f t w).2.
Proof.
  intros HD HP w Hk. eapply frame_mono; [|apply cp_law; by rewrite HD]. by intros p ->.
Qed.

Lemma within_rm D (P : path -> Prop) f : P f -> forall w, kind_of D w = IsDir -> frame P w (rm_f f w).2.
Proof. intros HP w _. eapply frame_mono; [|apply rm_law]. by intros p ->. Qed.

Hint Resolve within_echo within_cmd within_attempt within_cp within_rm : pres.

(** [copy_file] and [restore_missing] *)
Definition copy_or_fail (fl : string) (t : target) (msg : string) (f : path) : prog sh unit :=
  is_f ← gets (fun s => test_f f (disk s));
  if negb is_f then ret tt else
  st ← cmd (cp fl f t);
  when (negb (st =? 0)) (echo msg ;; goto_error).

Lemma copy_within D (P : path -> Prop) fl msg f : P (D, f.2) -> pres (within D P) (copy_or_fail fl (ToDir D) msg f).
Proof. intros HP. unfold copy_or_fail. pres_auto. Qed.

Lemma restore_current_within (P : path -> Prop) f r :
  f.1 = netconfdir -> P f -> P (snapshotdir, f.2) -> pres (within netconfdir P) (restore_current f r).
Proof.
  intros Hf HP HS. unfold restore_current. pres_auto.
  all: apply within_cmd, within_cp; [done|by destruct f; cbn in *; subst].
Qed.

(** ** One step *)

Lemma attempt_run f msg r s :
  exists r' o, attempt f msg r s = (Ret r', {| disk := (f (disk s)).2; out := o |}) /\
    (r' = 0 -> r = 0 /\ (f (disk s)).1 = 0).
Proof.
  unfold attempt, bind, cmd. destruct (f (disk s)) as [st w] eqn:E. cbn.
  destruct (Z.eqb_spec st 0); cbn; eexists _, _; (split; [done|]); [by intros ->|done].
Qed.

Lemma copy_step fl f t (msg : string) s o s' :
  kind_of (destination f t).1 (disk s) = IsDir ->
  copy_or_fail fl t msg f s = (o, s') ->
  (o = Ret tt \/ o = Bail) /\
  (file_at f (disk s) = None -> o = Ret tt /\ s' = s) /\
  (forall c, o = Ret tt -> file_at f (disk s) = Some c ->
     entry_at (destination f t) (disk s) <> Some Other -> file_at (destination f t) (disk s') = Some c).
Proof.
  intros Hk. unfold copy_or_fail, test_f. unfold bind at 1, gets.
  destruct (file_at f (disk s)) as [c|] eqn:Hf.
  - rewrite bool_decide_true by eauto. unfold bind, cmd. cbn [negb].
    destruct (cp fl f t (disk s)) as [st w] eqn:Hcp.
    destruct (cp_law fl f t (disk s) Hk) as [_ Hc]. rewrite Hcp in Hc. cbn in Hc.
    destruct (Z.eqb_spec st 0) as [->|]; cbn; intros [= <- <-]; (split; [auto|]); (split; [done|]); [|done].
    intros c' _ [= <-] Ho. cbn. apply file_at_Some, Hc; [done|by apply file_at_Some|done].
  - rewrite bool_decide_false by (by intros [? ?]). cbn. intros [= <- <-]. by split; [left|].
Qed.

Lemma restore_sticky f r s r' s' : restore_current f r s = (Ret r', s') -> sticky r r'.
Proof.
  unfold restore_current, bind at 1, gets. destruct (negb _).
  { intros [= <- <-]. by intros ?. }
  unfold bind at 1. destruct (test_f (snapshotdir, f.2) (disk s)).
  - intros Hr. apply bind_inv in Hr as [(? & s1 & _ & Hr)|[[_ [=]]|(? & _ & [=])]].
    apply bind_inv in Hr as [(? & s2 & _ & Hr)|[[_ [=]]|(? & _ & [=])]].
    destruct (attempt_run (rm_f (snapshotdir, f.2)) ("Failed to remove obsolete snapshot file " +:+ show (snapshotdir, f.2))
                r s2) as (r2 & o & Ha & Hz). rewrite Ha in Hr. injection Hr as <- _. by intros [? _]%Hz.
  - destruct (attempt_run (rm_f f) ("Failed to remove unwanted config file " +:+ show f) r s)
      as (r2 & o & Ha & Hz). rewrite Ha. intros [= <- <-]. by intros [? _]%Hz.
Qed.

Lemma restore_none x r s :
  file_at (netconfdir, x) (disk s) = None -> restore_current (netconfdir, x) r s = (Ret r, s).
Proof. intros Hf. unfold restore_current, test_f, bind, gets. by rewrite Hf. Qed.

(** Case (3) *)
Lemma restore_unwanted x r s :
  is_Some (file_at (netconfdir, x) (disk s)) -> file_at (snapshotdir, x) (disk s) = None ->
  exists r' s', restore_current (netconfdir, x) r s = (Ret r', s') /\
    file_at (snapshotdir, x) (disk s') = None /\
    entry_at (netconfdir, x) (disk s') <> Some Other /\
    (r' = 0 -> entry_at (netconfdir, x) (disk s') = None).
Proof.
  intros Hf Hsnap. unfold restore_current, test_f, bind at 1, gets. rewrite bool_decide_true by done.
  cbn [negb snd]. unfold bind at 1. rewrite Hsnap, bool_decide_false by (by intros [? ?]).
  destruct (attempt_run (rm_f (netconfdir, x)) ("Failed to remove unwanted config file " +:+ show (netconfdir, x)) r s)
    as (r2 & o & Ha & Hz). rewrite Ha. eexists _, _. split; [done|]. cbn.
  destruct (rm_law (netconfdir, x) (disk s)) as ([_ He] & Hrm & Hor). split; [|split].
  - unfold file_at in *. by rewrite He.
  - destruct Hor as [->| ->]; [done|]. intros Ho. unfold file_at in Hf. rewrite Ho in Hf. by destruct Hf.
  - intros [_ ?]%Hz. by apply Hrm.
Qed.

(** Cases (1) and (2) *)
Lemma restore_both x r s o s' c :
  kind_of netconfdir (disk s) = IsDir ->
  is_Some (file_at (netconfdir, x) (disk s)) -> file_at (snapshotdir, x) (disk s) = Some c ->
  restore_current (netconfdir, x) r s = (o, s') ->
  (o = Bail /\ file_at (snapshotdir, x) (disk s') = Some c) \/
  (exists r', o = Ret r' /\ file_at (netconfdir, x) (disk s') = Some c /\
     (entry_at (snapshotdir, x) (disk s') = None \/ entry_at (snapshotdir, x) (disk s') = Some (Reg c))).
Proof.
  intros Hk Hf Hsnap. unfold restore_current, test_f, bind at 1, gets. rewrite bool_decide_true by done.
  cbn [negb snd]. unfold bind at 1. rewrite Hsnap, bool_decide_true by eauto. unfold bind at 1.
  set (copied := when _ _). intros Hr.
  assert (Hcop : (exists s1, copied s = (Bail, s1) /\ file_at (snapshotdir, x) (disk s1) = Some c) \/
            (exists s1, copied s = (Ret tt, s1) /\ file_at (netconfdir, x) (disk s1) = Some c /\
               entry_at (snapshotdir, x) (disk s1) = Some (Reg c))).
  { unfold copied. destruct (Z.eqb_spec (cmp_s (snapshotdir, x) (netconfdir, x) (disk s)) 0) as [Hcmp|_].
    - right. exists s. apply file_at_Some in Hsnap. split; [done|]. split; [|done].
      by apply file_at_Some, (cmp_law _ _ _ _ Hcmp).
    - cbn [negb when]. unfold bind, cmd.
      destruct (cp "-pf" (snapshotdir, x) (ToFile (netconfdir, x)) (disk s)) as [st w] eqn:Hcp.
      destruct (cp_law "-pf" (snapshotdir, x) (ToFile (netconfdir, x)) (disk s) Hk) as [[_ He] Hc].
      rewrite Hcp in He, Hc. cbn in He, Hc. destruct (Z.eqb_spec st 0) as [->|]; cbn.
      + right. apply file_at_Some in Hsnap. eexists. split; [done|]. cbn. rewrite He by done. split; [|done].
        apply file_at_Some, Hc; [done|done|]. intros Ho. unfold file_at in Hf. rewrite Ho in Hf. by destruct Hf.
      + left. eexists. split; [done|]. cbn. unfold file_at. rewrite He by done.
        apply file_at_Some in Hsnap. by rewrite Hsnap. }
  destruct Hcop as [(s1 & Hb & Hs1)|(s1 & Hb & Hs1 & Hs2)].
  - left. unfold bind in Hr. rewrite Hb in Hr. simplify_eq. done.
  - right. rewrite (bind_Ret _ _ _ _ _ Hb) in Hr.
    destruct (attempt_run (rm_f (snapshotdir, x)) ("Failed to remove obsolete snapshot file " +:+ show (snapshotdir, x))
                r s1) as (r2 & ou & Ha & Hz). rewrite Ha in Hr. simplify_eq.
    destruct (rm_law (snapshotdir, x) (disk s1)) as ([_ He] & _ & Hor).
    eexists. split; [done|]. cbn. split; [unfold file_at; by rewrite He|]. rewrite Hs2 in Hor. naive_solver.
Qed.

(** ** The loops *)

(** The script never stops in the middle; [B] tells whether [m] may fail. *)
Definition ends (B : Prop) {A} (m : prog sh A) : Prop := hoare (fun _ => True) m (fun _ _ => True) (fun _ => B).

Lemma attempt_ends B f msg r : ends B (attempt f msg r).
Proof. intros s _. destruct (attempt_run f msg r s) as (r' & o & -> & _). done. Qed.

Lemma copy_ends fl t msg f : ends True (copy_or_fail fl t msg f).
Proof.
  intros s _. unfold copy_or_fail, bind, gets, cmd. destruct (negb _); [done|].
  destruct (cp fl f t (disk s)) as [st w]. by destruct (st =? 0).
Qed.

Lemma restore_ends f r : ends True (restore_current f r).
Proof.
  intros s _. unfold restore_current, bind at 1, gets. destruct (negb _); [done|]. unfold bind at 1.
  destruct (test_f (snapshotdir, f.2) (disk s)); [|by apply attempt_ends]. unfold bind at 1.
  unfold bind at 1. destruct (negb _); [|by apply attempt_ends]. cbn [when]. unfold bind at 1, cmd.
  destruct (cp _ _ _ _) as [st w]. destruct (st =? 0); [by apply attempt_ends|done].
Qed.

Lemma for_acc_ends P {A B} (l : list A) (acc : B) (body : A -> B -> prog sh B) :
  (forall x b, ends P (body x b)) -> ends P (for_acc l acc body).
Proof.
  intros Hb. revert acc. induction l as [|x l IH]; intros acc; [by apply hoare_ret|]. cbn [for_acc].
  eapply hoare_bind; [apply Hb|]. intros b. apply IH.
Qed.

Lemma ends_run P {A} (m : prog sh A) s o s' :
  ends P m -> m s = (o, s') -> (exists a, o = Ret a) \/ (o = Bail /\ P).
Proof. intros Hm Hr. specialize (Hm s I). rewrite Hr in Hm. destruct o; [|by right|done]. left. by eexists. Qed.

(** A loop that copies the files of [src], which it found in [w], to [D] *)
Lemma copy_loop src D fl msg w s o s' :
  D <> src -> kind_of D (disk s) = IsDir -> (forall x, entry_at (src, x) w = entry_at (src, x) (disk s)) ->
  for_each (config_files src w) (fun f => copy_or_fail fl (ToDir D) (msg f) f) s = (o, s') ->
  (o = Ret tt \/ o = Bail) /\
  frame (fun p => p.1 = D /\ managed p.2 = true) (disk s) (disk s') /\
  (forall x, managed x = true ->
     (forall c, o = Ret tt -> file_at (src, x) (disk s) = Some c -> entry_at (D, x) (disk s) <> Some Other ->
        file_at (D, x) (disk s') = Some c) /\
     (file_at (src, x) (disk s) = None -> entry_at (D, x) (disk s') = entry_at (D, x) (disk s))).
Proof.
  intros HD Hk Hw. rewrite for_each_acc.
  set (body := fun (f : path) (_ : unit) => copy_or_fail fl (ToDir D) (msg f) f). intros Hr.
  assert (Hin : forall (P : path -> Prop), (forall f, f ∈ config_files src w -> P (D, f.2)) -> frame P (disk s) (disk s')).
  { intros P HP. assert (Hp : pres (within D P) (for_acc (config_files src w) tt body)).
    { apply for_acc_pres; [apply _|]. intros f b Hf. by apply copy_within, HP. }
    specialize (Hp s Hk). by rewrite Hr in Hp. }
  split; [|split].
  { eapply (ends_run True) in Hr as [[[] ->]|[-> _]]; [auto..|]. apply for_acc_ends. intros f b. apply copy_ends. }
  { apply Hin. by intros f [_ Hm]%config_files_managed. }
  intros x Hm. destruct (decide ((src, x) ∈ config_files src w)) as [Hx|Hout].
  - destruct (for_acc_at (within D (fun p => p.1 = D /\ p.2 <> x)) eq (config_files src w) (src, x) body tt s o s')
      as [[Hv Hno]|([] & s1 & o1 & s2 & Hs1 & Hb & Hs2 & Ho)];
      [apply config_files_nodup|done| |by intros ? [] ? []|done| |].
    + intros [d y] [] [Hd _]%config_files_managed Hne. cbn in Hd. subst d. apply copy_within. cbn.
      split; [done|]. by intros ->.
    + split; [intros c ->; by destruct (Hno tt)|]. intros _. apply Hv; [done|]. by intros [_ ?].
    + specialize (Hs1 Hk) as [Hk1 He1]. assert (Hkd : kind_of D (disk s1) = IsDir) by (by rewrite Hk1).
      pose proof (copy_within D (fun p => p.1 = D) fl (msg (src, x)) (src, x) eq_refl s1 Hkd) as [Hk2 He2].
      unfold body in Hb. rewrite Hb in Hk2, He2. cbn in Hk2, He2.
      destruct (copy_step fl (src, x) (ToDir D) _ s1 _ s2 Hkd Hb) as (_ & Hnone & Hsome).
      cbn in Hsome. specialize (Hs2 ltac:(by rewrite Hk2)) as [_ He3].
      assert (Hsrc : file_at (src, x) (disk s1) = file_at (src, x) (disk s)).
      { unfold file_at. rewrite He1; [done|]. intros [Hd _]. by apply HD. }
      assert (HDx1 : entry_at (D, x) (disk s1) = entry_at (D, x) (disk s)) by (apply He1; by intros [_ ?]).
      assert (HDx2 : entry_at (D, x) (disk s') = entry_at (D, x) (disk s2)) by (apply He3; by intros [_ ?]).
      split.
      * intros c -> Hc Hother. destruct (Ho tt eq_refl) as ([] & -> & _).
        unfold file_at at 1. rewrite HDx2. apply Hsome; congruence.
      * intros Hc. destruct Hnone as [_ ->]; congruence.
  - split.
    + intros c _ Hc%file_at_Some. destruct Hout. apply config_files_file; [rewrite Hw; by eexists|done].
    + intros _. apply (Hin (fun p => p.1 = D /\ p.2 <> x)); [|by intros [_ ?]].
      intros [d y] Hy. pose proof (config_files_managed _ _ _ Hy) as [Hd _]. cbn in *. subst d.
      split; [done|]. by intros ->.
Qed.

(** What the loop over the current configuration does to the name [x]: nothing that
    was saved is lost, and an unwanted file is gone. *)
Definition treated (x : string) (s s' : sh) (returned clean : Prop) : Prop :=
  match file_at (snapshotdir, x) (disk s) with
  | Some c =>
      (file_at (netconfdir, x) (disk s') = Some c \/ file_at (snapshotdir, x) (disk s') = Some c) /\
      (returned -> entry_at (snapshotdir, x) (disk s') = None \/ file_at (snapshotdir, x) (disk s') = Some c)
  | None => file_at (snapshotdir, x) (disk s') = None /\ (clean -> entry_at (netconfdir, x) (disk s') = None)
  end /\ (returned -> entry_at (netconfdir, x) (disk s') <> Some Other).

(** Both entries of [x] stay. *)
Definition same_name (x : string) (s s' : sh) : Prop :=
  within netconfdir (fun p => (p.1 = netconfdir \/ p.1 = snapshotdir) /\ p.2 <> x) s s'.

Lemma same_name_entries x s s' :
  kind_of netconfdir (disk s) = IsDir -> same_name x s s' ->
  kind_of netconfdir (disk s') = IsDir /\
  entry_at (netconfdir, x) (disk s') = entry_at (netconfdir, x) (disk s) /\
  entry_at (snapshotdir, x) (disk s') = entry_at (snapshotdir, x) (disk s).
Proof.
  intros Hk Hv. specialize (Hv Hk) as [Hk' He]. rewrite Hk'. split; [done|].
  split; apply He; by intros [_ ?].
Qed.

(** The outcome of the body for [x] itself *)
Lemma restore_at x r s o s' :
  kind_of netconfdir (disk s) = IsDir -> entry_at (netconfdir, x) (disk s) <> Some Other ->
  restore_current (netconfdir, x) r s = (o, s') ->
  treated x s s' (o <> Bail) (o = Ret 0).
Proof.
  intros Hk Ho Hr. unfold treated.
  destruct (entry_at (netconfdir, x) (disk s)) as [[a|]|] eqn:Hconf; [|done|].
  - assert (Hf : is_Some (file_at (netconfdir, x) (disk s))) by (eexists; by apply file_at_Some).
    destruct (file_at (snapshotdir, x) (disk s)) as [c|] eqn:Hs.
    + destruct (restore_both x r s o s' c Hk Hf Hs Hr) as [[-> Hc]|(r' & -> & Hc & Hor)].
      * split; [|done]. split; [by right|done].
      * apply file_at_Some in Hc as Hc'. rewrite Hc'. split; [|done]. split; [by left|]. intros _.
        destruct Hor as [|]; [by left|right; by apply file_at_Some].
    + destruct (restore_unwanted x r s Hf Hs) as (r' & s2 & Hr2 & Hn & Hno & Hz).
      rewrite Hr2 in Hr. simplify_eq. split; [|done]. split; [done|]. intros [= ->]. by apply Hz.
  - rewrite restore_none in Hr by (unfold file_at; by rewrite Hconf). simplify_eq. rewrite Hconf.
    split; [|done]. destruct (file_at (snapshotdir, x) (disk s')) eqn:Hs; auto.
Qed.

Lemma treated_same x s1 s2 s3 s4 P Q :
  kind_of netconfdir (disk s1) = IsDir -> same_name x s1 s2 -> treated x s2 s3 P Q ->
  kind_of netconfdir (disk s3) = IsDir -> same_name x s3 s4 -> treated x s1 s4 P Q.
Proof.
  intros Hk1 H12 Ht Hk3 H34. apply same_name_entries in H12 as (_ & Hc1 & Hs1); [|done].
  apply same_name_entries in H34 as (_ & Hc3 & Hs3); [|done].
  unfold treated, file_at in *. rewrite Hc3, Hs3. by rewrite Hs1 in Ht.
Qed.

Lemma restore_body_same x w y b :
  y ∈ config_files netconfdir w -> y <> (netconfdir, x) -> pres (same_name x) (restore_current y b).
Proof.
  destruct y as [d y]. intros [Hd _]%config_files_managed Hne. cbn in Hd. subst d.
  apply restore_current_within; cbn; split; auto; by intros ->.
Qed.

Lemma restore_loop_frame w r s o s' :
  kind_of netconfdir (disk s) = IsDir ->
  for_acc (config_files netconfdir w) r restore_current s = (o, s') ->
  frame (fun p => (p.1 = netconfdir \/ p.1 = snapshotdir) /\ managed p.2 = true) (disk s) (disk s') /\
  ((exists r', o = Ret r') \/ o = Bail) /\ (o = Ret 0 -> r = 0).
Proof.
  intros Hk Hr. split; [|split].
  - assert (Hp : pres (within netconfdir (fun p => (p.1 = netconfdir \/ p.1 = snapshotdir) /\ managed p.2 = true))
                   (for_acc (config_files netconfdir w) r restore_current)).
    { apply for_acc_pres; [apply _|]. intros f b [Hd Hf]%config_files_managed.
      apply restore_current_within; cbn; auto. }
    specialize (Hp s Hk). by rewrite Hr in Hp.
  - destruct (ends_run True _ _ _ _ (for_acc_ends True _ r _ restore_ends) Hr) as [|[? _]]; auto.
  - intros ->. by eapply (for_acc_result sticky _ restore_current restore_sticky) in Hr; apply Hr.
Qed.

Lemma treated_mono x s s' (P Q P' Q' : Prop) :
  (P' -> P) -> (Q' -> Q) -> treated x s s' P Q -> treated x s s' P' Q'.
Proof. unfold treated. intros HP HQ [H1 H2]. split; [destruct (file_at _ (disk s))|]; naive_solver. Qed.

(** A name that is not in the list, or that the loop does not reach *)
Lemma treated_untouched x s s' (returned clean : Prop) :
  kind_of netconfdir (disk s) = IsDir -> same_name x s s' -> (clean -> returned) ->
  (returned -> entry_at (netconfdir, x) (disk s) = None) -> treated x s s' returned clean.
Proof.
  intros Hk Hv Hcr Hnone. apply same_name_entries in Hv as (_ & Hc & Hs); [|done].
  unfold treated, file_at. rewrite Hs, Hc. split; [|intros ?; by rewrite Hnone].
  destruct (entry_at (snapshotdir, x) (disk s)) as [[]|]; auto.
Qed.

Lemma restore_loop x r s o s' :
  kind_of netconfdir (disk s) = IsDir -> managed x = true -> entry_at (netconfdir, x) (disk s) <> Some Other ->
  for_acc (config_files netconfdir (disk s)) r restore_current s = (o, s') ->
  treated x s s' (o <> Bail) (o = Ret 0).
Proof.
  intros Hk Hm Hother Hr. destruct (restore_loop_frame _ _ _ _ _ Hk Hr) as (_ & Htot & _).
  destruct (decide ((netconfdir, x) ∈ config_files netconfdir (disk s))) as [Hin|Hout].
  - destruct (for_acc_at (same_name x) sticky (config_files netconfdir (disk s)) (netconfdir, x) restore_current r s o s')
      as [[Hv Hno]|(b1 & s1 & o1 & s2 & Hs1 & Hb & Hs2 & Ho)];
      [apply config_files_nodup|exact Hin|intros y b; apply restore_body_same|exact restore_sticky|exact Hr| |].
    + apply treated_untouched; [done|done|by intros ->|].
      destruct Htot as [[r' ->]| ->]; [by destruct (Hno r')|done].
    + pose proof (same_name_entries _ _ _ Hk Hs1) as (Hk1 & Hc1 & _).
      pose proof (restore_current_within (fun p => p.2 = x) (netconfdir, x) b1 eq_refl eq_refl eq_refl s1 Hk1) as [Hk2 _].
      rewrite Hb in Hk2. cbn in Hk2.
      eapply treated_same; [exact Hk|exact Hs1| |by rewrite Hk2|exact Hs2].
      apply (treated_mono x s1 s2 (o1 <> Bail) (o1 = Ret 0)).
      * intros Hne. destruct Htot as [[r' ->]|]; [|done]. by destruct (Ho r' eq_refl) as (? & -> & _).
      * intros ->. destruct (Ho 0 eq_refl) as (b2 & -> & Hst). by rewrite (Hst eq_refl).
      * eapply restore_at; [done|congruence|exact Hb].
  - apply treated_untouched; [done| |by intros ->|].
    + assert (Hp : pres (same_name x) (for_acc (config_files netconfdir (disk s)) r restore_current)).
      { apply for_acc_pres; [apply _|]. intros y b Hy. apply (restore_body_same x (disk s)); [done|]. by intros ->. }
      specialize (Hp s). by rewrite Hr in Hp.
    + intros _. destruct (entry_at (netconfdir, x) (disk s)) eqn:E; [|done]. destruct Hout.
      by apply config_files_file; [rewrite E; eexists|].
Qed.

(** ** Rolling back *)

Lemma report_date_run s : exists o, report_date s = (Ret tt, {| disk := disk s; out := o |}).
Proof.
  unfold report_date, bind, gets. destruct (file_at _ _); [by eexists|]. exists (out s). by destruct s.
Qed.

(** The two loops one after the other, and what follows them. *)
Lemma restore_config_cases r s o s' :
  kind_of netconfdir (disk s) = IsDir -> restore_config r s = (o, s') ->
  exists o1 s1, for_acc (config_files netconfdir (disk s)) r restore_current s = (o1, s1) /\
    ((o = Bail /\ o1 = Bail /\ s' = s1) \/
     exists r1 o2 s2, o1 = Ret r1 /\
       for_each (config_files snapshotdir (disk s1)) restore_missing s1 = (o2, s2) /\
       ((o = Bail /\ o2 = Bail /\ s' = s2) \/
        exists r2, o2 = Ret tt /\ o = Ret r2 /\ disk s' = (rm_rf snapshotdir (disk s2)).2 /\
          (r2 = 0 -> r1 = 0 /\ (rm_rf snapshotdir (disk s2)).1 = 0))).
Proof.
  intros Hk. unfold restore_config, bind at 1, gets. intros Hr.
  destruct (for_acc (config_files netconfdir (disk s)) r restore_current s) as [o1 s1] eqn:H1.
  exists o1, s1. split; [done|]. destruct (restore_loop_frame _ _ _ _ _ Hk H1) as (_ & [[r1 ->]| ->] & _).
  2:{ rewrite (bind_Bail _ _ _ _ H1) in Hr. simplify_eq. by left. }
  right. rewrite (bind_Ret _ _ _ _ _ H1) in Hr. unfold bind at 1 in Hr.
  destruct (for_each (config_files snapshotdir (disk s1)) restore_missing s1) as [o2 s2] eqn:H2.
  exists r1, o2, s2. split; [done|]. split; [done|].
  assert (Ht : (exists a, o2 = Ret a) \/ o2 = Bail).
  { rewrite for_each_acc in H2. destruct (ends_run True _ _ _ _ (for_acc_ends True _ tt _ (fun f _ => copy_ends _ _ _ f)) H2)
      as [|[? _]]; auto. }
  destruct Ht as [[[] ->]| ->].
  2:{ rewrite (bind_Bail _ _ _ _ H2) in Hr. simplify_eq. by left. }
  right. rewrite (bind_Ret _ _ _ _ _ H2) in Hr. destruct (report_date_run s2) as [ou Hd].
  rewrite (bind_Ret _ _ _ _ _ Hd) in Hr.
  destruct (attempt_run (rm_rf snapshotdir) ("Failed to remove obsolete snapshot directory " +:+ snapshot_name) r1
              {| disk := disk s2; out := ou |}) as (r2 & ou2 & Ha & Hz).
  rewrite Ha in Hr. simplify_eq. by exists r2.
Qed.

(** Neither the rest of the configuration nor other directories are touched. *)
Definition outside (s s' : sh) : Prop :=
  (forall d, d <> snapshotdir -> kind_of d (disk s') = kind_of d (disk s)) /\
  (forall p, p.1 <> snapshotdir -> ~ (p.1 = netconfdir /\ managed p.2 = true) ->
     entry_at p (disk s') = entry_at p (disk s)).

#[export] Instance outside_preorder : PreOrder outside.
Proof.
  split; [by intros s; split|]. intros s1 s2 s3 [Hk1 He1] [Hk2 He2].
  split; [intros d Hd; rewrite Hk2, Hk1; auto|]. intros p Hp Hn. rewrite He2, He1; auto.
Qed.

Lemma frame_outside (P : path -> Prop) s s' :
  (forall p, P p -> p.1 = snapshotdir \/ (p.1 = netconfdir /\ managed p.2 = true)) ->
  frame P (disk s) (disk s') -> outside s s'.
Proof. intros HP [Hk He]. split; [auto|]. intros p Hp Hn. apply He. intros [?|?]%HP; auto. Qed.

Lemma missing_loop s o s' :
  kind_of netconfdir (disk s) = IsDir ->
  for_each (config_files snapshotdir (disk s)) restore_missing s = (o, s') ->
  (o = Ret tt \/ o = Bail) /\
  frame (fun p => p.1 = netconfdir /\ managed p.2 = true) (disk s) (disk s') /\
  (forall x, managed x = true ->
     (forall c, o = Ret tt -> file_at (snapshotdir, x) (disk s) = Some c ->
        entry_at (netconfdir, x) (disk s) <> Some Other -> file_at (netconfdir, x) (disk s') = Some c) /\
     (file_at (snapshotdir, x) (disk s) = None ->
        entry_at (netconfdir, x) (disk s') = entry_at (netconfdir, x) (disk s))).
Proof.
  intros Hk Hr. by apply (copy_loop snapshotdir netconfdir "-pf"
    (fun f => "failed to restore " +:+ show f +:+ " to " +:+ show_dir netconfdir) (disk s)).
Qed.

Lemma restore_config_outside r s o s' :
  kind_of netconfdir (disk s) = IsDir -> restore_config r s = (o, s') ->
  outside s s' /\ (o = Bail \/ exists r', o = Ret r') /\
  (o = Ret 0 -> r = 0 /\ kind_of snapshotdir (disk s') = Nothing).
Proof.
  intros Hk Hr. apply restore_config_cases in Hr as (o1 & s1 & H1 & Hr); [|done].
  pose proof (restore_loop_frame _ _ _ _ _ Hk H1) as (Hf1 & _ & Hr0).
  assert (Ho1 : outside s s1) by (eapply frame_outside; [|exact Hf1]; cbn; tauto).
  destruct Hr as [(-> & _ & ->)|(r1 & o2 & s2 & -> & H2 & Hr)]; [by split; [|split; [left|]]|].
  assert (Hk1 : kind_of netconfdir (disk s1) = IsDir) by (by rewrite (proj1 Ho1)).
  pose proof (missing_loop _ _ _ Hk1 H2) as (_ & Hf2 & _).
  assert (Ho2 : outside s s2) by (etransitivity; [exact Ho1|eapply frame_outside; [|exact Hf2]; auto]).
  destruct Hr as [(-> & _ & ->)|(r2 & -> & -> & Hd & Hz)]; [by split; [|split; [left|]]|].
  destruct (rmdir_law snapshotdir (disk s2)) as (Hod & Hgone & _). split; [|split; [right; by eexists|]].
  - etransitivity; [exact Ho2|]. unfold outside. rewrite Hd. split; [intros d Hds; by apply Hod|].
    intros [d x] Hds _. by apply Hod.
  - intros [= ->]. destruct Hz as [-> Hz]; [done|]. rewrite Hd. split; [by apply Hr0|by apply Hgone].
Qed.

Lemma restore_config_name x r s o s' :
  kind_of netconfdir (disk s) = IsDir -> managed x = true -> entry_at (netconfdir, x) (disk s) <> Some Other ->
  restore_config r s = (o, s') ->
  match file_at (snapshotdir, x) (disk s) with
  | Some c => file_at (netconfdir, x) (disk s') = Some c \/ (o = Bail /\ file_at (snapshotdir, x) (disk s') = Some c)
  | None => o = Ret 0 -> entry_at (netconfdir, x) (disk s') = None
  end.
Proof.
  intros Hk Hm Ho Hr. apply restore_config_cases in Hr as (o1 & s1 & H1 & Hr); [|done].
  pose proof (restore_loop x _ _ _ _ Hk Hm Ho H1) as [Ht Hno].
  pose proof (restore_loop_frame _ _ _ _ _ Hk H1) as ([Hk1 _] & _).
  destruct Hr as [(-> & -> & ->)|(r1 & o2 & s2 & -> & H2 & Hr)].
  { destruct (file_at (snapshotdir, x) (disk s)); [|done]. destruct Ht as [[|] _]; auto. }
  pose proof (missing_loop _ _ _ ltac:(by rewrite Hk1) H2) as (_ & [_ He2] & Hx).
  specialize (Hno ltac:(done)). destruct (Hx x Hm) as [Hx1 Hx2].
  assert (Hsnap : file_at (snapshotdir, x) (disk s2) = file_at (snapshotdir, x) (disk s1)).
  { unfold file_at. rewrite He2; [done|]. by intros [? _]. }
  (* the last command does not touch the configuration *)
  assert (Hend : forall r2, o2 = Ret tt -> o = Ret r2 -> disk s' = (rm_rf snapshotdir (disk s2)).2 ->
            entry_at (netconfdir, x) (disk s') = entry_at (netconfdir, x) (disk s2)).
  { intros r2 _ _ ->. by apply rmdir_law. }
  destruct (file_at (snapshotdir, x) (disk s)) as [c|].
  - destruct Ht as [Hor Hsn]. specialize (Hsn ltac:(done)).
    assert (Hsn' : file_at (snapshotdir, x) (disk s1) = Some c \/
              (file_at (snapshotdir, x) (disk s1) = None /\ file_at (netconfdir, x) (disk s1) = Some c)).
    { destruct Hsn as [Hn|Hsn]; [right|by left]. assert (Hfn : file_at (snapshotdir, x) (disk s1) = None) by (unfold file_at; by rewrite Hn).
      split; [done|]. destruct Hor as [|Hor]; [done|congruence]. }
    destruct Hr as [(-> & -> & ->)|(r2 & -> & -> & Hd & Hz)].
    + destruct Hsn' as [Hs1|[Hs1 Hc1]]; [right; by rewrite Hsnap|left]. unfold file_at. by rewrite Hx2.
    + left. unfold file_at. rewrite (Hend r2) by done. fold (file_at (netconfdir, x) (disk s2)).
      destruct Hsn' as [Hs1|[Hs1 Hc1]]; [by apply Hx1|]. unfold file_at. by rewrite Hx2.
  - destruct Ht as [Hs1 Hc1]. intros ->. destruct Hr as [([=] & _)|(r2 & -> & [= <-] & Hd & Hz)].
    destruct (Hz eq_refl) as [-> _]. rewrite (Hend 0) by done. rewrite Hx2 by done. by apply Hc1.
Qed.
(** ** The functions *)

Lemma file_at_None p w : kind_of p.1 w <> IsDir -> file_at p w = None.
Proof.
  intros Hk. unfold file_at. destruct p as [d x], (entry_at (d, x) w) eqn:E; [|done].
  destruct Hk. by apply (kind_law d x); rewrite E.
Qed.

Lemma only_dir_frame d (P : path -> Prop) w w' : (forall p, P p -> p.1 = d) -> frame P w w' -> only_dir d w w'.
Proof. intros HP [Hk He] d' Hd. split; [done|]. intros x. apply He. by intros ?%HP. Qed.

(** What [change_begin] does when no snapshot is there *)
Lemma change_begin_run s o s' :
  change_begin s = (o, s') -> kind_of snapshotdir (disk s) = Nothing ->
  only_dir snapshotdir (disk s) (disk s') /\ (exists r, o = Ret r) /\
  ((mkdir_p snapshotdir (disk s)).1 = 0 -> kind_of snapshotdir (disk s') = IsDir) /\
  (o = Ret 0 -> kind_of snapshotdir (disk s') = IsDir /\
     forall x, managed x = true -> entry_at (netconfdir, x) (disk s) <> Some Other ->
       entry_at (snapshotdir, x) (disk s') = entry_at (netconfdir, x) (disk s)).
Proof.
  intros Hr Hn. unfold change_begin, bind at 1, gets, test_e in Hr. rewrite bool_decide_true in Hr by done. cbn [negb] in Hr.
  unfold bind at 1, cmd in Hr. destruct (mkdir_law snapshotdir (disk s)) as [Hod Hmk].
  destruct (mkdir_p snapshotdir (disk s)) as [st w]. cbn in Hod, Hmk.
  destruct (Z.eqb_spec st 0) as [->|]; [|cbn in Hr; injection Hr as <- <-; split_and!; [exact Hod|by eexists|done|intros [=]]].
  destruct (Hmk eq_refl) as [Hkd He]. cbn [negb] in Hr.
  destruct (copy_config snapshotdir {| disk := w; out := out s |}) as [o1 s1] eqn:H1.
  pose proof H1 as Hc. unfold copy_config, bind, gets in Hc.
  apply (copy_loop netconfdir snapshotdir "-p" (fun f => "failed to copy " +:+ show f +:+ " to " +:+ show_dir snapshotdir) w)
    in Hc as (Ho1 & Hf & Hx); [|done..].
  assert (Hod1 : only_dir snapshotdir (disk s) (disk s1)).
  { etransitivity; [exact Hod|]. eapply only_dir_frame; [|exact Hf]. by intros p [? _]. }
  assert (Hk1 : kind_of snapshotdir (disk s1) = IsDir) by (by rewrite (proj1 Hf)).
  unfold on_error in Hr. destruct Ho1 as [->| ->].
  2:{ rewrite (bind_Bail _ _ _ _ H1) in Hr. cbn in Hr. injection Hr as <- <-. split_and!; [done|by eexists|done|intros [=]]. }
  rewrite (bind_Ret _ _ _ _ _ H1) in Hr. destruct (date_law (snapshotdir, "date") (disk s1) Hk1) as [[Hkd2 He2] Hd].
  destruct (date_to (snapshotdir, "date") (disk s1)) as [st w2]. cbn in *. simplify_eq. cbn.
  split_and!; [|by eexists|by rewrite Hkd2|].
  - etransitivity; [exact Hod1|]. apply (only_dir_frame _ (fun q => q = (snapshotdir, "date"))); [by intros p ->|by split].
  - intros _. rewrite Hkd2. split; [done|]. intros x Hm Hno. rewrite He2 by (intros [= ->]; discriminate Hm).
    destruct (Hx x Hm) as [Hx1 Hx2]. cbn in Hx1, Hx2.
    assert (Hconf : entry_at (netconfdir, x) w = entry_at (netconfdir, x) (disk s)) by (by apply Hod).
    assert (Hsnap : entry_at (snapshotdir, x) w = None).
    { rewrite He. destruct (entry_at (snapshotdir, x) (disk s)) eqn:E; [|done].
      assert (Hdir : kind_of snapshotdir (disk s) = IsDir) by (apply (kind_law _ x); rewrite E; by eexists).
      congruence. }
    destruct (entry_at (netconfdir, x) (disk s)) as [[c|]|] eqn:E; [|done|].
    + apply file_at_Some, Hx1; [done|by apply file_at_Some|by rewrite Hsnap].
    + rewrite Hx2; [done|]. unfold file_at. by rewrite Hconf.
Qed.

(** A pending snapshot, or a file in its place, stops [change_begin]. *)
Lemma change_begin_pending s :
  kind_of snapshotdir (disk s) <> Nothing ->
  exists o, change_begin s = (Ret EINVALID_IN_THIS_STATE, {| disk := disk s; out := o |}).
Proof.
  intros Hk. unfold change_begin, bind at 1, gets, test_e. rewrite bool_decide_false by done. by eexists.
Qed.

Lemma change_rollback_idle s :
  kind_of snapshotdir (disk s) <> IsDir ->
  exists o, change_rollback s = (Ret EINVALID_IN_THIS_STATE, {| disk := disk s; out := o |}).
Proof.
  intros Hk. unfold change_rollback, bind at 1, gets, test_d. rewrite bool_decide_false by done. by eexists.
Qed.

(** Pruning leaves the configuration and the snapshot alone. *)
Definition config_same (s s' : sh) : Prop :=
  forall d, (forall r, d <> rollbackdir r) ->
    kind_of d (disk s') = kind_of d (disk s) /\ forall x, entry_at (d, x) (disk s') = entry_at (d, x) (disk s).

Definition pruned (s s' : sh) : Prop :=
  config_same s s' /\
  (forall p, entry_at p (disk s') = None \/ entry_at p (disk s') = entry_at p (disk s)).

#[export] Instance config_same_preorder : PreOrder config_same.
Proof.
  split; [by intros s d _|]. intros s1 s2 s3 Hd1 Hd2 d Hd.
  destruct (Hd1 d Hd) as [Hk1 Hx1], (Hd2 d Hd) as [Hk2 Hx2].
  split; [congruence|]. intros x. by rewrite Hx2, Hx1.
Qed.

#[export] Instance pruned_preorder : PreOrder pruned.
Proof.
  split; [intros s; split; [reflexivity|auto]|]. intros s1 s2 s3 [Hd1 He1] [Hd2 He2]. split.
  - by etransitivity.
  - intros p. destruct (He2 p) as [|H2]; [by left|]. rewrite H2. apply He1.
Qed.

Definition prune_one (d : string) : Z -> prog sh Z :=
  attempt (rm_rf (rollbackdir d)) ("Failed to remove obsolete rollback directory " +:+ show_dir (rollbackdir d)).

Lemma prune_one_pruned d b : pres pruned (prune_one d b).
Proof.
  intros s. unfold prune_one.
  destruct (attempt_run (rm_rf (rollbackdir d)) ("Failed to remove obsolete rollback directory " +:+ show_dir (rollbackdir d))
              b s) as (r2 & ou & -> & _). cbn.
  destruct (rmdir_law (rollbackdir d) (disk s)) as (Hod & _ & Hent). split.
  - intros d' Hd'. by apply Hod, Hd'.
  - intros [d' x]. cbn. destruct (decide (d' = rollbackdir d)) as [->|Hne]; [apply Hent|].
    right. by apply Hod.
Qed.

Lemma prune_one_sticky d b s b' s' : prune_one d b s = (Ret b', s') -> sticky b b'.
Proof.
  unfold prune_one.
  destruct (attempt_run (rm_rf (rollbackdir d)) ("Failed to remove obsolete rollback directory " +:+ show_dir (rollbackdir d))
              b s) as (r2 & ou & -> & Hz). intros [= <- <-]. by intros [? _]%Hz.
Qed.

Lemma prune_run r s : exists r' s', prune r s = (Ret r', s') /\ pruned s s' /\ (r' = 0 -> r = 0).
Proof.
  unfold prune, bind at 1, gets. fold prune_one. set (l := take _ _).
  destruct (for_acc l r prune_one s) as [o s1] eqn:E.
  pose proof (for_acc_pres pruned l prune_one r (fun d b _ => prune_one_pruned d b) s) as Hp.
  rewrite E in Hp. cbn in Hp.
  destruct (ends_run False _ _ _ _ (for_acc_ends False l r prune_one (fun d b => attempt_ends False _ _ b)) E)
    as [[r1 ->]|[_ []]].
  pose proof (for_acc_result sticky l prune_one prune_one_sticky _ _ _ _ E) as Hst.
  assert (Hrun : for_acc l r prune_one s = (Ret r1, s1)) by done.
  exists (if lastpipe then r1 else r), s1. split; [|split; [done|by destruct lastpipe; auto]].
  exact (bind_Ret _ _ _ _ _ Hrun).
Qed.
Lemma config_same_frame r (P : path -> Prop) s s' :
  (forall p, P p -> p.1 = rollbackdir r) -> frame P (disk s) (disk s') -> config_same s s'.
Proof.
  intros HP [Hk He] d Hd. split; [done|]. intros x. apply He. intros Hp%HP. by apply (Hd r).
Qed.

(** The status that the shell sees *)
Definition status_of (o : outcome Z) : Z := match o with Ret r => r | _ => 1 end.

(** A rollback of an open transaction: it gives up before anything is changed, or it
    has a copy of the configuration when it starts to restore. *)
Lemma change_rollback_cases s o s' :
  kind_of snapshotdir (disk s) = IsDir -> change_rollback s = (o, s') ->
  (o = Ret 1 /\ config_same s s') \/
  exists stamp r s2 o', config_same s s2 /\ restore_config r s2 = (o', s') /\
    o = (match o' with Bail => Ret 1 | _ => o' end) /\
    forall x c, managed x = true -> file_at (netconfdir, x) (disk s) = Some c ->
      entry_at (rollbackdir stamp, x) (disk s) <> Some Other ->
      file_at (rollbackdir stamp, x) (disk s2) = Some c.
Proof.
  intros Hk. unfold change_rollback, bind at 1, gets, test_d. rewrite bool_decide_true by done. cbn [negb].
  destruct (prune_run 0 s) as (r & s1 & Hpr & [Hsame Hent] & _). rewrite (bind_Ret _ _ _ _ _ Hpr).
  unfold bind at 1. set (stamp := date_stamp (disk s1)). unfold bind at 1, cmd.
  destruct (mkdir_law (rollbackdir stamp) (disk s1)) as [Hod Hmk].
  destruct (mkdir_p (rollbackdir stamp) (disk s1)) as [st w] eqn:Hm. cbn in Hod, Hmk.
  set (s1' := {| disk := w; out := out s1 |}).
  assert (Hsame1 : config_same s s1').
  { etransitivity; [exact Hsame|]. intros d Hd. apply Hod, Hd. }
  destruct (Z.eqb_spec st 0) as [->|]; cbn [negb].
  2:{ unfold bind, echo, echo_n, modify, ret. intros [= <- <-]. left. split; [done|].
      etransitivity; [exact Hsame1|]. intros d _. by split. }
  destruct (Hmk eq_refl) as [Hkd He]. unfold on_error.
  destruct (copy_config (rollbackdir stamp) s1') as [o1 s2] eqn:H1.
  pose proof H1 as Hc. unfold copy_config, bind, gets in Hc.
  apply (copy_loop netconfdir (rollbackdir stamp) "-p"
    (fun f => "failed to copy " +:+ show f +:+ " to " +:+ show_dir (rollbackdir stamp)) w) in Hc as (Ho1 & Hf & Hx);
    [|done..].
  assert (Hsame2 : config_same s s2).
  { etransitivity; [exact Hsame1|]. eapply config_same_frame; [|exact Hf]. by intros p [? _]. }
  destruct Ho1 as [->| ->].
  2:{ rewrite (bind_Bail _ _ _ _ H1). intros [= <- <-]. by left. }
  rewrite (bind_Ret _ _ _ _ _ H1). destruct (restore_config r s2) as [o' s3] eqn:H2.
  intros Hr. right. exists stamp, r, s2, o'. assert (Ho : o = match o' with Bail => Ret 1 | _ => o' end /\ s' = s3)
    by (by destruct o'; injection Hr as <- <-).
  destruct Ho as [-> ->]. split; [done|]. split; [done|]. split; [done|]. intros x c Hman Hfile Hno. apply (proj1 (Hx x Hman)); [done| |].
  - unfold file_at in *. cbn. by rewrite (proj2 (Hsame1 netconfdir ltac:(done))).
  - cbn. rewrite He. destruct (Hent (rollbackdir stamp, x)) as [->| ->]; done.
Qed.

Lemma config_same_at x s s' :
  config_same s s' ->
  kind_of netconfdir (disk s') = kind_of netconfdir (disk s) /\
  entry_at (netconfdir, x) (disk s') = entry_at (netconfdir, x) (disk s) /\
  file_at (netconfdir, x) (disk s') = file_at (netconfdir, x) (disk s) /\
  file_at (snapshotdir, x) (disk s') = file_at (snapshotdir, x) (disk s).
Proof.
  intros Hs. destruct (Hs netconfdir ltac:(done)) as [Hk He], (Hs snapshotdir ltac:(done)) as [_ He'].
  unfold file_at. rewrite He, He'. done.
Qed.

Lemma change_rollback_total s :
  kind_of netconfdir (disk s) = IsDir -> exists r s', change_rollback s = (Ret r, s').
Proof.
  intros Hc. destruct (decide (kind_of snapshotdir (disk s) = IsDir)) as [Hk|Hn].
  2:{ destruct (change_rollback_idle s Hn) as [o Ho]. eauto. }
  destruct (change_rollback s) as [o s'] eqn:Hr.
  destruct (change_rollback_cases s o s' Hk Hr) as [[-> _]|(stamp & r & s2 & o' & Hs & H2 & -> & _)]; [eauto|].
  destruct (config_same_at "" _ _ Hs) as (Hk2 & _). rewrite Hc in Hk2.
  destruct (restore_config_outside r s2 o' s' Hk2 H2) as (_ & [->|[? ->]] & _); eauto.
Qed.

(** A successful rollback *)
Lemma change_rollback_ok s s' :
  kind_of netconfdir (disk s) = IsDir -> change_rollback s = (Ret 0, s') ->
  kind_of snapshotdir (disk s) = IsDir /\ kind_of snapshotdir (disk s') = Nothing /\
  kind_of netconfdir (disk s') = IsDir /\
  (forall x, managed x = true -> entry_at (netconfdir, x) (disk s) <> Some Other ->
     entry_at (netconfdir, x) (disk s') = Reg <$> file_at (snapshotdir, x) (disk s)) /\
  (forall x, managed x = false -> entry_at (netconfdir, x) (disk s') = entry_at (netconfdir, x) (disk s)) /\
  exists stamp, forall x c, managed x = true -> file_at (netconfdir, x) (disk s) = Some c ->
    entry_at (rollbackdir stamp, x) (disk s) <> Some Other -> file_at (rollbackdir stamp, x) (disk s') = Some c.
Proof.
  intros Hkn Hr. destruct (decide (kind_of snapshotdir (disk s) = IsDir)) as [Hk|Hn].
  2:{ destruct (change_rollback_idle s Hn) as [ou Hi]. rewrite Hi in Hr. discriminate. }
  destruct (change_rollback_cases s _ s' Hk Hr) as [[[=] _]|(stamp & r & s2 & o' & Hs & H2 & Ho & Hback)].
  destruct (config_same_at "" _ _ Hs) as (Hk2 & _). rewrite Hkn in Hk2.
  destruct (restore_config_outside r s2 o' s' Hk2 H2) as ([Hko Heo] & Htot & Hz).
  assert (o' = Ret 0) as -> by (destruct Htot as [->|[r' ->]]; [done|congruence]).
  split; [done|]. split; [by apply Hz|]. split; [by rewrite Hko|]. split; [|split].
  - intros x Hm Hno. destruct (config_same_at x _ _ Hs) as (_ & Hc & _ & Hf).
    pose proof (restore_config_name x r s2 (Ret 0) s' Hk2 Hm ltac:(congruence) H2) as Hx. rewrite Hf in Hx.
    destruct (file_at (snapshotdir, x) (disk s)) as [c|]; [|by apply Hx].
    destruct Hx as [Hx|[[=] _]]. by apply file_at_Some.
  - intros x Hm. rewrite Heo; [apply (config_same_at x _ _ Hs)|done|]. cbn. intros [_ Hm2]. congruence.
  - exists stamp. intros x c Hm Hc Hno. unfold file_at. rewrite Heo; [by apply Hback|done|]. by intros [? _].
Qed.
End steps.

(** ** A concrete file system

    Regular files only; the programs succeed or fail as they are told, and one that
    fails does nothing. *)

Record toy_fs := {
  z_conf : gmap string string;
  z_snap : option (gmap string string);
  z_rolls : gmap string (gmap string string);
  z_fail : list bool;     (** does the next command fail? when exhausted, none does *)
  z_now : string
}.

Definition z_dir (d : dirname) (w : toy_fs) : option (gmap string string) :=
  match d with
  | netconfdir => Some (z_conf w)
  | snapshotdir => z_snap w
  | rollbackdir r => z_rolls w !! r
  end.

Definition z_set (d : dirname) (m : option (gmap string string)) (w : toy_fs) : toy_fs :=
  {| z_conf := match d with netconfdir => default ∅ m | _ => z_conf w end;
     z_snap := match d with snapshotdir => m | _ => z_snap w end;
     z_rolls := match d with rollbackdir r => partial_alter (fun _ => m) r (z_rolls w) | _ => z_rolls w end;
     z_fail := z_fail w; z_now := z_now w |}.

Definition z_file (p : path) (w : toy_fs) : option string := match z_dir p.1 w with Some m => m !! p.2 | None => None end.
Definition z_keys {A} (m : gmap string A) : list string := qsort_strings (map_to_list m).*1.

(** One command: it fails, or [f] is done and its status is 0. *)
Definition z_cmd (f : toy_fs -> Z * toy_fs) (w : toy_fs) : Z * toy_fs :=
  let w' := {| z_conf := z_conf w; z_snap := z_snap w; z_rolls := z_rolls w;
               z_fail := tail (z_fail w); z_now := z_now w |} in
  if hd false (z_fail w) then (1, w') else f w'.

Definition z_write (p : path) (c : option string) (w : toy_fs) : Z * toy_fs :=
  match c, z_dir p.1 w with
  | Some c, Some m => (0, z_set p.1 (Some (<[p.2 := c]> m)) w)
  | _, _ => (1, w)
  end.

Definition z_remove (p : path) (w : toy_fs) : Z * toy_fs :=
  match z_dir p.1 w with Some m => (0, z_set p.1 (Some (delete p.2 m)) w) | None => (0, w) end.

#[global] Instance toy_shell : Shell :=
  {| fs := toy_fs;
     kind_of := fun d w => match z_dir d w with Some _ => IsDir | None => Nothing end;
     entry_at := fun p w => Reg <$> z_file p w;
     names := fun d w => match z_dir d w with Some m => z_keys m | None => [] end;
     rollbacks := fun w => z_keys (z_rolls w);
     mkdir_p := fun d => z_cmd (fun w => match z_dir d w with Some _ => (0, w) | None => (0, z_set d (Some ∅) w) end);
     cp := fun _ f t => z_cmd (fun w =>
       z_write (match t with ToDir d => (d, f.2) | ToFile p => p end) (z_file f w) w);
     cmp_s := fun f g w => if decide (z_file f w = z_file g w) then 0 else 1;
     rm_f := fun p => z_cmd (z_remove p);
     rm_rf := fun d => z_cmd (fun w => match d with netconfdir => (1, w) | _ => (0, z_set d None w) end);
     date_to := fun p => z_cmd (fun w => z_write p (Some "Mon Nov  3 12:00:00 UTC 2026") w);
     date_stamp := z_now;
     lastpipe := false; sysconfdir := "/etc"; localstatedir := "/var"; arg0 := "netcf-transaction"; prog_value := "" |}.

Lemma z_keys_elem {A} (m : gmap string A) x : x ∈ z_keys m <-> is_Some (m !! x).
Proof.
  unfold z_keys. rewrite elem_of_qsort, list_elem_of_fmap. split.
  - intros ([k a] & -> & Hk%elem_of_map_to_list). by exists a.
  - intros [a Ha]. exists (x, a). split; [done|]. by apply elem_of_map_to_list.
Qed.

Lemma z_dir_set d m d' w : d <> netconfdir \/ is_Some m ->
  z_dir d' (z_set d m w) = if decide (d' = d) then m else z_dir d' w.
Proof.
  intros Hm. destruct d, d'; cbn; try (by rewrite decide_False by congruence); try (by rewrite decide_True by done).
  - rewrite decide_True by done. destruct Hm as [|[x ->]]; [congruence|done].
  - destruct (decide (stamp0 = stamp)) as [->|Hne].
    + rewrite decide_True by done. apply lookup_partial_alter_eq.
    + rewrite decide_False by congruence. by rewrite lookup_partial_alter_ne.
Qed.

(** A change of one file *)
Lemma z_alter_frame p (o : option string) m w :
  z_dir p.1 w = Some m ->
  let w' := z_set p.1 (Some (partial_alter (fun _ => o) p.2 m)) w in
  frame (fun q => q = p) w w' /\ entry_at p w' = Reg <$> o.
Proof.
  intros Hd w'. assert (Hdir : forall d, z_dir d w' = if decide (d = p.1) then Some (partial_alter (fun _ => o) p.2 m) else z_dir d w).
  { intros d. apply z_dir_set. right. by eexists. }
  split; [split|].
  - intros d. cbn. rewrite Hdir. case_decide; [subst; by rewrite Hd|done].
  - intros [d x] Hne. cbn. unfold z_file. cbn. rewrite Hdir. case_decide as Hdd; [|done]. subst.
    rewrite Hd. cbn. rewrite lookup_partial_alter_ne; [done|]. destruct p. cbn in *. congruence.
  - cbn. unfold z_file. rewrite Hdir, decide_True by done. cbn. by rewrite lookup_partial_alter_eq.
Qed.

Lemma z_cmd_case f w :
  exists w0, (forall d, z_dir d w0 = z_dir d w) /\ (z_cmd f w = (1, w0) \/ z_cmd f w = f w0).
Proof.
  unfold z_cmd. eexists. split; [|destruct (hd false (z_fail w)); [left|right]; reflexivity]. by intros [].
Qed.

Lemma z_same_entry w w0 p : (forall d, z_dir d w0 = z_dir d w) -> entry_at p w0 = entry_at p w.
Proof. intros Hs. cbn. unfold z_file. by rewrite Hs. Qed.
Lemma z_same_kind w w0 d : (forall d, z_dir d w0 = z_dir d w) -> kind_of d w0 = kind_of d w.
Proof. intros Hs. cbn. by rewrite Hs. Qed.

Lemma z_same_frame P w w0 w' : (forall d, z_dir d w0 = z_dir d w) -> frame P w0 w' -> frame P w w'.
Proof.
  intros Hs [Hk He]. split; [intros d; by rewrite Hk, (z_same_kind w)|].
  intros p Hp. by rewrite He, (z_same_entry w).
Qed.

Lemma z_same_only d w w0 w' : (forall d, z_dir d w0 = z_dir d w) -> only_dir d w0 w' -> only_dir d w w'.
Proof.
  intros Hs Ho d' Hd. destruct (Ho d' Hd) as [Hk He]. rewrite Hk, (z_same_kind w) by done. split; [done|].
  intros x. by rewrite He, (z_same_entry w).
Qed.

(** Making and removing a directory *)
Lemma z_set_only d m w : d <> netconfdir \/ is_Some m -> only_dir d w (z_set d m w).
Proof.
  intros Hm d' Hd. cbn. unfold z_file. cbn. rewrite z_dir_set, decide_False by done. by split.
Qed.

Lemma frame_refl P (w : toy_fs) : frame P w w.
Proof. by split. Qed.
Lemma only_dir_refl d (w : toy_fs) : only_dir d w w.
Proof. by intros d' _. Qed.

Lemma toy_names d w x : x ∈ names d w <-> is_Some (entry_at (d, x) w).
Proof.
  cbn. unfold z_file. cbn. rewrite fmap_is_Some. destruct (z_dir d w) as [m|].
  - apply z_keys_elem.
  - split; [by intros ?%not_elem_of_nil|by intros [? ?]].
Qed.

Lemma toy_mkdir d w :
  only_dir d w (mkdir_p d w).2 /\
  ((mkdir_p d w).1 = 0 ->
   kind_of d (mkdir_p d w).2 = IsDir /\ forall x, entry_at (d, x) (mkdir_p d w).2 = entry_at (d, x) w).
Proof.
  cbn [mkdir_p toy_shell]. set (f := fun w0 : toy_fs => _).
  destruct (z_cmd_case f w) as (w0 & Hs & [->| ->]); cbn [fst snd].
  - split; [by apply (z_same_only d w w0), only_dir_refl|done].
  - unfold f. destruct (z_dir d w0) as [m|] eqn:Hd; cbn [fst snd].
    + split; [by apply (z_same_only d w w0), only_dir_refl|]. intros _. split; [cbn; by rewrite Hd|].
      intros x. by apply z_same_entry.
    + split; [apply (z_same_only d w w0); [done|]; apply z_set_only; right; by eexists|]. intros _.
      cbn. unfold z_file. cbn. rewrite z_dir_set, decide_True by (try right; by eexists). split; [done|].
      intros x. by rewrite <- Hs, Hd.
Qed.

Lemma toy_write p c w :
  kind_of p.1 w = IsDir ->
  frame (fun q => q = p) w (z_cmd (fun w0 => z_write p (c w0) w0) w).2 /\
  forall b, (z_cmd (fun w0 => z_write p (c w0) w0) w).1 = 0 ->
    (forall w0, (forall d, z_dir d w0 = z_dir d w) -> c w0 = Some b) ->
    entry_at p (z_cmd (fun w0 => z_write p (c w0) w0) w).2 = Some (Reg b).
Proof.
  intros Hk. destruct (z_cmd_case (fun w0 => z_write p (c w0) w0) w) as (w0 & Hs & [->| ->]); cbn [fst snd].
  - split; [by apply (z_same_frame _ w w0), frame_refl|done].
  - unfold z_write. destruct (c w0) as [a|] eqn:Hc; [|split; [by apply (z_same_frame _ w w0), frame_refl|done]].
    cbn in Hk. rewrite <- Hs in Hk. destruct (z_dir p.1 w0) as [m|] eqn:Hd; [|done]. cbn [fst snd].
    destruct (z_alter_frame p (Some a) m w0 Hd) as [Hf He]. split; [by apply (z_same_frame _ w w0)|].
    intros b _ Hb. rewrite Hb in Hc by done. injection Hc as <-. exact He.
Qed.

Lemma toy_rm p w :
  frame (fun q => q = p) w (rm_f p w).2 /\ ((rm_f p w).1 = 0 -> entry_at p (rm_f p w).2 = None) /\
  (entry_at p (rm_f p w).2 = None \/ entry_at p (rm_f p w).2 = entry_at p w).
Proof.
  cbn [rm_f toy_shell]. destruct (z_cmd_case (z_remove p) w) as (w0 & Hs & [->| ->]); cbn [fst snd].
  - split; [by apply (z_same_frame _ w w0), frame_refl|]. split; [done|]. right. by apply z_same_entry.
  - unfold z_remove. destruct (z_dir p.1 w0) as [m|] eqn:Hd; cbn [fst snd].
    + destruct (z_alter_frame p None m w0 Hd) as [Hf He]. split; [by apply (z_same_frame _ w w0)|].
      change (partial_alter (fun _ => None) p.2 m) with (delete p.2 m) in He. rewrite He. auto.
    + split; [by apply (z_same_frame _ w w0), frame_refl|].
      assert (He : entry_at p w0 = None) by (cbn; unfold z_file; by rewrite Hd). rewrite He. auto.
Qed.

Lemma toy_rmdir d w :
  only_dir d w (rm_rf d w).2 /\ ((rm_rf d w).1 = 0 -> kind_of d (rm_rf d w).2 = Nothing) /\
  (forall x, entry_at (d, x) (rm_rf d w).2 = None \/ entry_at (d, x) (rm_rf d w).2 = entry_at (d, x) w).
Proof.
  cbn [rm_rf toy_shell]. set (f := fun w0 : toy_fs => _).
  destruct (z_cmd_case f w) as (w0 & Hs & [->| ->]); cbn [fst snd].
  - split; [by apply (z_same_only d w w0), only_dir_refl|]. split; [done|]. intros x. right. by apply z_same_entry.
  - assert (Hset : d <> netconfdir -> only_dir d w (z_set d None w0) /\ kind_of d (z_set d None w0) = Nothing /\
              forall x, entry_at (d, x) (z_set d None w0) = None).
    { intros Hd. split; [apply (z_same_only d w w0); [done|]; apply z_set_only; by left|].
      cbn. unfold z_file. cbn. rewrite z_dir_set, decide_True by (try left; done). done. }
    unfold f. destruct d; cbn [fst snd].
    + split; [by apply (z_same_only _ w w0), only_dir_refl|]. split; [done|]. intros x. right. by apply z_same_entry.
    + destruct Hset as (Ho & Hk & He); [done|]. split; [done|]. split; [done|]. intros x. left. apply He.
    + destruct Hset as (Ho & Hk & He); [done|]. split; [done|]. split; [done|]. intros x. left. apply He.
Qed.

#[global] Instance toy_shell_laws : ShellLaws toy_shell.
Proof.
  split.
  - apply toy_names.
  - intros d w. cbn. destruct (z_dir d w) as [m|]; [|constructor]. unfold z_keys.
    rewrite qsort_strings_perm. apply NoDup_fst_map_to_list.
  - intros d x w [e He]. cbn in *. unfold z_file in He. cbn in He. by destruct (z_dir d w).
  - intros r w. cbn. rewrite z_keys_elem. destruct (z_rolls w !! r); split; try done; by eexists.
  - apply toy_mkdir.
  - intros fl f t w Hk. cbn [cp toy_shell destination] in *.
    destruct (toy_write (destination f t) (z_file f) w Hk) as [Hf Hw]. split; [exact Hf|].
    intros c Hz Hc _. apply Hw; [exact Hz|]. intros w0 Hs. cbn in Hc. unfold z_file in *. rewrite Hs.
    destruct (match z_dir f.1 w with Some _ => _ | None => _ end); cbn in *; congruence.
  - intros f g w c. cbn. case_decide as Heq; [|done]. intros _ Hf _. by rewrite <- Heq.
  - apply toy_rm.
  - apply toy_rmdir.
  - intros p w. cbn. unfold z_cmd. destruct (hd false (z_fail w)); [done|]. unfold z_write. cbn. by destruct (z_dir p.1 _).
  - intros p w Hk. cbn [date_to toy_shell].
    destruct (toy_write p (fun _ => Some "Mon Nov  3 12:00:00 UTC 2026") w Hk) as [Hf Hw]. split; [exact Hf|].
    intros Hz. eexists. by apply Hw.
Qed.

(** ** A transaction that is rolled back *)

Lemma rollback_after_begin `{ShellLaws} (s0 s1 s2 s3 : sh)
  (Hbegin : change_begin s0 = (Ret 0, s1))
  (Hsnap : forall x, entry_at (snapshotdir, x) (disk s2) = entry_at (snapshotdir, x) (disk s1))
  (Hconf : kind_of netconfdir (disk s2) = IsDir)
  (Hfiles : forall d x, managed x = true ->
              entry_at (d, x) (disk s0) <> Some Other /\ entry_at (d, x) (disk s2) <> Some Other)
  (Hrollback : change_rollback s2 = (Ret 0, s3)) :
  (forall x, entry_at (netconfdir, x) (disk s3)
     = if managed x then entry_at (netconfdir, x) (disk s0) else entry_at (netconfdir, x) (disk s2)) /\
  kind_of snapshotdir (disk s3) = Nothing /\
  exists r, forall x c, managed x = true ->
    file_at (netconfdir, x) (disk s2) = Some c -> file_at (rollbackdir r, x) (disk s3) = Some c.
Proof.
  assert (Hn : kind_of snapshotdir (disk s0) = Nothing).
  { destruct (decide (kind_of snapshotdir (disk s0) = Nothing)) as [|Hn]; [done|].
    destruct (change_begin_pending s0 Hn) as [o Ho]. rewrite Ho in Hbegin. discriminate. }
  destruct (change_begin_run _ _ _ Hbegin Hn) as (_ & _ & _ & Hb). destruct (Hb eq_refl) as [_ Hsaved].
  destruct (change_rollback_ok s2 s3 Hconf Hrollback) as (_ & Hgone & _ & Hman & Hrest & r & Hback).
  split; [|split; [done|exists r; intros x c Hm Hc; apply Hback; [done..|by apply Hfiles]]].
  intros x. destruct (managed x) eqn:Hm; [|by apply Hrest]. destruct (Hfiles netconfdir x Hm) as [H0x H2x].
  rewrite Hman by done. unfold file_at. rewrite Hsnap, Hsaved by done.
  by destruct (entry_at (netconfdir, x) (disk s0)) as [[]|].
Qed.

(** ** Properties *)

(** Whatever happens to the configuration between a successful change-begin and a
    successful change-rollback, as long as the snapshot is left alone, the files of
    interfaces are again what they were; other files keep their changes, the snapshot
    is gone, and the configuration that was given up is kept in a rollback directory. *)
Theorem rollback_restores `{ShellLaws} (s0 s1 s2 s3 : sh)
  (Hbegin : change_begin s0 = (Ret 0, s1))
  (Hsnap : forall x, entry_at (snapshotdir, x) (disk s2) = entry_at (snapshotdir, x) (disk s1))
  (Hconf : kind_of netconfdir (disk s2) = IsDir)
  (Hfiles : forall d x, managed x = true ->
              entry_at (d, x) (disk s0) <> Some Other /\ entry_at (d, x) (disk s2) <> Some Other)
  (Hrollback : change_rollback s2 = (Ret 0, s3)) :
  (forall x, entry_at (netconfdir, x) (disk s3)
     = if managed x then entry_at (netconfdir, x) (disk s0) else entry_at (netconfdir, x) (disk s2)) /\
  kind_of snapshotdir (disk s3) = Nothing /\
  exists r, forall x c, managed x = true ->
    file_at (netconfdir, x) (disk s2) = Some c -> file_at (rollbackdir r, x) (disk s3) = Some c.
Proof. by apply (rollback_after_begin s0 s1). Qed.

Definition toy_ifcfgs : gmap string string :=
  <["ifcfg-eth0" := "DEVICE=eth0"]> (<["ifcfg-eth1" := "DEVICE=eth1"]> (<["network" := "NETWORKING=yes"]> ∅)).

Definition toy_sh (conf : gmap string string) (snap : option (gmap string string)) (fail : list bool) : sh :=
  {| disk := {| z_conf := conf; z_snap := snap; z_rolls := ∅; z_fail := fail; z_now := "2026.11.03-12:00:00" |};
     out := [] |}.

(** What [change_begin] makes of it, *)
Definition toy_snapshot : gmap string string :=
  <["ifcfg-eth0" := "DEVICE=eth0"]> (<["ifcfg-eth1" := "DEVICE=eth1"]>
  (<["date" := "Mon Nov  3 12:00:00 UTC 2026"]> ∅)).

(** and then: one file changed, one removed and one new one. *)
Definition toy_edited : sh :=
  toy_sh (<["ifcfg-eth0" := "DEVICE=eth0 ONBOOT=no"]> (<["ifcfg-br0" := "DEVICE=br0"]> (<["network" := "NETWORKING=no"]> ∅)))
    (Some toy_snapshot) [].

(** A run whose status has been computed *)
Lemma run_eq {S A} (m : prog S A) s o : (m s).1 = o -> m s = (o, (m s).2).
Proof. intros <-. by destruct (m s). Defined.

Lemma toy_regular d x w : entry_at (Shell := toy_shell) (d, x) w <> Some Other.
Proof. cbn. by destruct (z_file (d, x) w). Defined.

Lemma rollback_restores_witness :
  let s3 := (change_rollback toy_edited).2 in
  (forall x, entry_at (netconfdir, x) (disk s3)
     = if managed x then entry_at (netconfdir, x) (disk (toy_sh toy_ifcfgs None []))
       else entry_at (netconfdir, x) (disk toy_edited)) /\
  z_conf (disk s3) !! "ifcfg-eth1" = Some "DEVICE=eth1" /\
  z_conf (disk s3) !! "network" = Some "NETWORKING=no".
Proof.
  intros s3. split; [|split; vm_compute; reflexivity].
  assert (Hsnap : z_snap (disk (change_begin (toy_sh toy_ifcfgs None [])).2) = Some toy_snapshot)
    by (vm_compute; reflexivity).
  refine (proj1 (@rollback_restores toy_shell toy_shell_laws (toy_sh toy_ifcfgs None [])
           (change_begin (toy_sh toy_ifcfgs None [])).2 toy_edited s3 (run_eq _ _ _ _) _ eq_refl _ (run_eq _ _ _ _))).
  - vm_compute. reflexivity.
  - intros x. cbn [entry_at toy_shell]. unfold z_file. cbn [fst snd z_dir]. by rewrite Hsnap.
  - intros d x _. split; apply toy_regular.
  - vm_compute. reflexivity.
Defined.

(** C7: whichever commands of a rollback fail, nothing is lost: a file of the snapshot
    is back in its place or still in the snapshot, and a file of the configuration is
    in its place or in a rollback directory. *)
Theorem rollback_loses_nothing `{ShellLaws} (s : sh)
  (Hconf : kind_of netconfdir (disk s) = IsDir)
  (Hfiles : forall d x, d <> snapshotdir -> managed x = true -> entry_at (d, x) (disk s) <> Some Other) :
  exists r s', change_rollback s = (Ret r, s') /\
    forall x c, managed x = true ->
      (file_at (snapshotdir, x) (disk s) = Some c ->
         file_at (snapshotdir, x) (disk s') = Some c \/ file_at (netconfdir, x) (disk s') = Some c) /\
      (file_at (netconfdir, x) (disk s) = Some c ->
         file_at (netconfdir, x) (disk s') = Some c \/ exists stamp, file_at (rollbackdir stamp, x) (disk s') = Some c).
Proof.
  destruct (decide (kind_of snapshotdir (disk s) = IsDir)) as [Hk|Hn].
  2:{ destruct (change_rollback_idle s Hn) as [o Hr]. eexists _, _. split; [exact Hr|]. cbn. auto. }
  destruct (change_rollback s) as [o s'] eqn:Hr.
  destruct (change_rollback_cases s o s' Hk Hr) as [[-> Hs]|(stamp & r & s2 & o' & Hs & H2 & -> & Hback)].
  { exists 1, s'. split; [done|]. intros x c _. destruct (config_same_at x _ _ Hs) as (_ & _ & -> & ->). auto. }
  destruct (config_same_at "" _ _ Hs) as (Hk2 & _). rewrite Hconf in Hk2.
  destruct (restore_config_outside r s2 o' s' Hk2 H2) as ([_ Heo] & Htot & _).
  exists (status_of (match o' with Bail => Ret 1 | _ => o' end)), s'.
  split; [by destruct Htot as [->|[? ->]]|]. intros x c Hm.
  destruct (config_same_at x _ _ Hs) as (_ & Hc & Hcf & Hf). split.
  - intros Hsnap. pose proof (restore_config_name x r s2 o' s' Hk2 Hm ltac:(rewrite Hc; by apply Hfiles) H2) as Hx.
    rewrite Hf, Hsnap in Hx. destruct Hx as [|[_ ?]]; auto.
  - intros Hfile. right. exists stamp. unfold file_at. rewrite Heo; [|done|by intros [? _]].
    apply Hback; [done|done|by apply Hfiles].
Qed.

(** The second copy of the configuration that is restored fails. *)
Definition toy_failing : sh :=
  toy_sh (<["ifcfg-eth0" := "A"]> (<["ifcfg-eth1" := "B"]> ∅))
    (Some (<["ifcfg-eth0" := "a"]> (<["ifcfg-eth1" := "b"]> ∅))) [false; false; false; false; false; true].

Lemma rollback_loses_nothing_witness :
  exists r s', change_rollback toy_failing = (Ret r, s') /\
    (forall x c, managed x = true ->
      (file_at (snapshotdir, x) (disk toy_failing) = Some c ->
         file_at (snapshotdir, x) (disk s') = Some c \/ file_at (netconfdir, x) (disk s') = Some c) /\
      (file_at (netconfdir, x) (disk toy_failing) = Some c ->
         file_at (netconfdir, x) (disk s') = Some c \/ exists stamp, file_at (rollbackdir stamp, x) (disk s') = Some c)) /\
    (r, z_conf (disk s') !! "ifcfg-eth0", z_conf (disk s') !! "ifcfg-eth1") = (1, Some "a", Some "B").
Proof.
  destruct (@rollback_loses_nothing toy_shell toy_shell_laws toy_failing eq_refl) as (r & s' & Hr & Hx).
  { intros d x _ _. apply toy_regular. }
  exists r, s'. split; [exact Hr|]. split; [exact Hx|].
  assert (Hend : ((change_rollback toy_failing).1, z_conf (disk (change_rollback toy_failing).2) !! "ifcfg-eth0",
            z_conf (disk (change_rollback toy_failing).2) !! "ifcfg-eth1") = (Ret 1, Some "a", Some "B"))
    by (vm_compute; reflexivity).
  rewrite Hr in Hend. by injection Hend as -> -> ->.
Defined.

(** C25: a change-begin that could make the snapshot directory, but not copy some file of
    the configuration into it, fails, and leaves the directory and with it the transaction
    open: the next change-begin is refused, and a rollback removes the file that had not
    been copied, although nobody has changed it. *)
Theorem failed_begin_removes `{ShellLaws} (s0 s1 : sh) (r : Z) (x c : string)
  (Hbegin : change_begin s0 = (Ret r, s1)) (Hnone : kind_of snapshotdir (disk s0) = Nothing)
  (Hmkdir : (mkdir_p snapshotdir (disk s0)).1 = 0)
  (Hconf : kind_of netconfdir (disk s0) = IsDir) (Hm : managed x = true)
  (Hx : file_at (netconfdir, x) (disk s0) = Some c)
  (Hnot : file_at (snapshotdir, x) (disk s1) = None) :
  r <> 0 /\ kind_of snapshotdir (disk s1) = IsDir /\ file_at (netconfdir, x) (disk s1) = Some c /\
  (change_begin s1).1 = Ret EINVALID_IN_THIS_STATE /\
  forall s2, change_rollback s1 = (Ret 0, s2) -> entry_at (netconfdir, x) (disk s2) = None.
Proof.
  destruct (change_begin_run _ _ _ Hbegin Hnone) as (Hod & _ & Hmade & Hall). specialize (Hmade Hmkdir).
  apply file_at_Some in Hx. split.
  { intros ->. destruct (Hall eq_refl) as [_ Hsaved]. specialize (Hsaved x Hm ltac:(by rewrite Hx)).
    rewrite Hx in Hsaved. apply file_at_Some in Hsaved. congruence. }
  split; [done|]. destruct (Hod netconfdir ltac:(done)) as [Hk1 He1].
  split; [apply file_at_Some; by rewrite He1|]. split.
  { destruct (change_begin_pending s1 ltac:(by rewrite Hmade)) as [o ->]. done. }
  intros s2 Hr. destruct (change_rollback_ok s1 s2 ltac:(congruence) Hr) as (_ & _ & _ & Hman & _).
  rewrite Hman by (try done; congruence). by rewrite Hnot.
Qed.

(** The copy of the second file fails, for instance since the disk is full. *)
Definition toy_full : sh := toy_sh toy_ifcfgs None [false; false; true].

Lemma failed_begin_removes_witness :
  (change_begin toy_full).1 = Ret 1 /\ kind_of snapshotdir (disk (change_begin toy_full).2) = IsDir /\
  (change_begin (change_begin toy_full).2).1 = Ret EINVALID_IN_THIS_STATE /\
  entry_at (netconfdir, "ifcfg-eth1") (disk (change_rollback (change_begin toy_full).2).2) = None.
Proof.
  split; [vm_compute; reflexivity|].
  destruct (@failed_begin_removes toy_shell toy_shell_laws toy_full (change_begin toy_full).2 1 "ifcfg-eth1" "DEVICE=eth1"
              (run_eq _ _ _ ltac:(vm_compute; reflexivity)))
    as (_ & Hopen & _ & Hagain & Hgone); [vm_compute; reflexivity..|].
  split; [exact Hopen|]. split; [exact Hagain|]. apply Hgone. apply run_eq. vm_compute. reflexivity.
Defined.

(** C26: failures that the script does not report. At boot ([start], or one of its
    synonyms) the exit status is 0 however the rollback ended; a commit of an open
    transaction is 0 even when the snapshot could not be removed, so that the
    transaction may still be open; and in a shell that runs every command of a pipeline
    in a shell of its own, old rollback directories that could not be removed do not
    count. *)
Theorem silent_failures `{ShellLaws} (s : sh) (Hconf : kind_of netconfdir (disk s) = IsDir) :
  (forall arg, arg ∈ ["start"; "restart"; "reload"; "force-reload"; "condrestart"; "try-restart"] ->
     (run_command arg s).1 = Ret 0) /\
  (kind_of snapshotdir (disk s) = IsDir -> (change_commit s).1 = Ret 0) /\
  (lastpipe = false -> (prune 0 s).1 = Ret 0).
Proof.
  split; [|split].
  - intros arg Harg. unfold run_command. rewrite decide_True by done. unfold start.
    set (s1 := {| disk := disk s; out := out s ++ ["Running " +:+ prog_value +:+ " " +:+ arg +:+ ": "] |}).
    destruct (change_rollback_total s1 Hconf) as (r & s2 & Hr).
    rewrite (bind_Ret _ _ s tt s1) by done. rewrite (bind_Ret _ _ _ _ _ Hr). done.
  - intros Hk. unfold change_commit, bind at 1, gets, test_d. rewrite bool_decide_true by done. cbn [negb].
    unfold bind, cmd. destruct (rm_rf snapshotdir (disk s)) as [st w]. by destruct (st =? 0).
  - intros Hl. unfold prune, bind at 1, gets. fold prune_one. set (l := take _ _).
    destruct (for_acc l 0 prune_one s) as [o s1] eqn:E.
    destruct (ends_run False _ _ _ _ (for_acc_ends False l 0 prune_one (fun d b => attempt_ends False _ _ b)) E)
      as [[r ->]|[_ []]]. unfold bind. rewrite E, Hl. done.
Qed.

(** The first copy of a rollback at boot fails; the snapshot of a commit stays. *)
Lemma silent_failures_witness :
  (run_command "start" (toy_sh toy_ifcfgs (Some toy_snapshot) [false; true])).1 = Ret 0 /\
  (change_rollback (toy_sh toy_ifcfgs (Some toy_snapshot) [false; true])).1 = Ret 1 /\
  (change_commit (toy_sh toy_ifcfgs (Some toy_snapshot) [true])).1 = Ret 0 /\
  z_snap (disk (change_commit (toy_sh toy_ifcfgs (Some toy_snapshot) [true])).2) = Some toy_snapshot.
Proof.
  split; [apply (@silent_failures toy_shell toy_shell_laws _ eq_refl); by left|].
  split; [vm_compute; reflexivity|]. split; [|vm_compute; reflexivity].
  by apply (@silent_failures toy_shell toy_shell_laws _ eq_refl).
Defined.
