(* ===== verification/TransactionRefine.v ===== *)
(** * Transactions as a state machine

    When no command fails, the script implements a machine whose state is the
    configuration and, in a transaction, the configuration it began with. *)

From S2P Require Import Prelude CStr Transaction TransactionSpec.

(** ** The machine *)

Record txn := {
  t_conf : string -> option entry;              (** the configuration directory *)
  t_saved : option (string -> option string)    (** the snapshot of an open transaction *)
}.

Inductive event := Begin | Commit | Rollback | Edit.

(** A step with its exit status; [Edit] stands for whatever others do to the files. *)
Inductive txn_step : event -> txn -> Z -> txn -> Prop :=
| begin_opens a a' :
    t_saved a = None -> (forall x, t_conf a' x = t_conf a x) ->
    (exists f, t_saved a' = Some f /\ forall x, managed x = true -> Reg <$> f x = t_conf a x) ->
    txn_step Begin a 0 a'
| begin_refused a : is_Some (t_saved a) -> txn_step Begin a EINVALID_IN_THIS_STATE a
| commit_closes a a' :
    is_Some (t_saved a) -> (forall x, t_conf a' x = t_conf a x) -> t_saved a' = None ->
    txn_step Commit a 0 a'
| commit_refused a : t_saved a = None -> txn_step Commit a EINVALID_IN_THIS_STATE a
| rollback_restores_saved a a' f :
    t_saved a = Some f -> t_saved a' = None ->
    (forall x, t_conf a' x = if managed x then Reg <$> f x else t_conf a x) ->
    txn_step Rollback a 0 a'
| rollback_refused a : t_saved a = None -> txn_step Rollback a EINVALID_IN_THIS_STATE a
| edit_changes a a' : t_saved a' = t_saved a -> txn_step Edit a 0 a'.

(** A sequence of steps with what they return *)
Inductive steps {S} (step : event -> S -> Z -> S -> Prop) : S -> list (event * Z) -> S -> Prop :=
| steps_nil s : steps step s [] s
| steps_cons s1 e r s2 l s3 :
    step e s1 r s2 -> steps step s2 l s3 -> steps step s1 ((e, r) :: l) s3.

(** A file system on which the commands do succeed, as long as it is [healthy] *)
Class HealthyShell `(ShellLaws) := {
  healthy : fs -> Prop;
  mkdir_works d w :
    healthy w -> kind_of d w <> NoDir -> (mkdir_p d w).1 = 0 /\ healthy (mkdir_p d w).2;
  cp_works fl f t w :
    healthy w -> is_Some (file_at f w) -> kind_of (destination f t).1 w = IsDir ->
    entry_at (destination f t) w <> Some Other -> (cp fl f t w).1 = 0 /\ healthy (cp fl f t w).2;
  rm_works f w : healthy w -> entry_at f w <> Some Other -> (rm_f f w).1 = 0 /\ healthy (rm_f f w).2;
  rmdir_works d w : healthy w -> d <> netconfdir -> (rm_rf d w).1 = 0 /\ healthy (rm_rf d w).2;
  date_works p w :
    healthy w -> kind_of p.1 w = IsDir -> entry_at p w <> Some Other ->
    (date_to p w).1 = 0 /\ healthy (date_to p w).2
}.

Section refinement.
Context `{HealthyShell}.

(** No directory or device bears the name of a file of an interface, and no file that
    of a directory of the script. *)
Definition regular (w : fs) : Prop :=
  (forall d x, managed x = true -> entry_at (d, x) w <> Some Other) /\
  (forall d, kind_of d w <> NoDir) /\ kind_of netconfdir w = IsDir.

(** What others may do between the calls *)
Definition edits (s s' : sh) : Prop :=
  healthy (disk s') /\ regular (disk s') /\
  kind_of snapshotdir (disk s') = kind_of snapshotdir (disk s) /\
  forall x, entry_at (snapshotdir, x) (disk s') = entry_at (snapshotdir, x) (disk s).

Inductive script_step : event -> sh -> Z -> sh -> Prop :=
| step_begin s r s' : change_begin s = (Ret r, s') -> script_step Begin s r s'
| step_commit s r s' : change_commit s = (Ret r, s') -> script_step Commit s r s'
| step_rollback s r s' : change_rollback s = (Ret r, s') -> script_step Rollback s r s'
| step_edit s s' : edits s s' -> script_step Edit s 0 s'.

(** The machine's state that a state of the host stands for *)
Record implements (s : sh) (a : txn) : Prop := {
  im_healthy : healthy (disk s);
  im_regular : regular (disk s);
  im_conf x : entry_at (netconfdir, x) (disk s) = t_conf a x;
  im_saved : match t_saved a with
             | None => kind_of snapshotdir (disk s) = Nothing
             | Some f => kind_of snapshotdir (disk s) = IsDir /\
                         forall x, managed x = true -> file_at (snapshotdir, x) (disk s) = f x
             end
}.
End refinement.

(** ** Commands and loops that succeed *)

Section success.
Context `{HealthyShell}.

Definition good (w : fs) : Prop := healthy w /\ regular w.

Lemma frame_regular (P : path -> Prop) w w' :
  regular w -> frame P w w' -> (forall p, P p -> entry_at p w' <> Some Other) -> regular w'.
Proof.
  intros (Hr & Hk & Hc) [Hk' He] HP. split; [|split; [intros d; by rewrite Hk'|by rewrite Hk']].
  intros d x Hm Ho. assert (Hn : ~ P (d, x)) by (intros Hp; by apply (HP (d, x))).
  rewrite He in Ho by done. by apply (Hr d x).
Qed.

Lemma good_cp fl f t w :
  good w -> is_Some (file_at f w) -> kind_of (destination f t).1 w = IsDir -> managed (destination f t).2 = true ->
  (cp fl f t w).1 = 0 /\ good (cp fl f t w).2.
Proof.
  intros [Hh Hr] [c Hf] Hk Hm.
  assert (Hno : entry_at (destination f t) w <> Some Other) by (destruct (destination f t); by apply Hr).
  destruct (cp_works fl f t w Hh ltac:(by eexists) Hk Hno) as [Hz Hh']. split; [done|]. split; [done|].
  destruct (cp_law fl f t w Hk) as [Hfr Hc]. eapply frame_regular; [exact Hr|exact Hfr|]. intros p ->.
  rewrite (Hc c) by (try done; by apply file_at_Some). done.
Qed.

Lemma good_rm f w : good w -> managed f.2 = true -> (rm_f f w).1 = 0 /\ good (rm_f f w).2.
Proof.
  intros [Hh Hr] Hm. destruct (rm_works f w Hh) as [Hz Hh']; [destruct f; by apply Hr|].
  split; [done|]. split; [done|]. destruct (rm_law f w) as (Hfr & Hn & _).
  eapply frame_regular; [exact Hr|exact Hfr|]. intros p ->. by rewrite Hn.
Qed.

Lemma good_date w :
  good w -> kind_of snapshotdir w = IsDir -> entry_at (snapshotdir, "date") w <> Some Other ->
  (date_to (snapshotdir, "date") w).1 = 0 /\ good (date_to (snapshotdir, "date") w).2.
Proof.
  intros [Hh Hr] Hk Hno. destruct (date_works (snapshotdir, "date") w Hh Hk Hno) as [Hz Hh'].
  split; [done|]. split; [done|]. destruct (date_law (snapshotdir, "date") w Hk) as [Hfr Hd].
  eapply frame_regular; [exact Hr|exact Hfr|]. intros p ->. by destruct (Hd Hz) as [c ->].
Qed.

(** A directory is made or removed. *)
Lemma only_dir_regular d w w' :
  d <> netconfdir -> regular w -> only_dir d w w' -> kind_of d w' <> NoDir ->
  (forall x, entry_at (d, x) w' = None \/ entry_at (d, x) w' = entry_at (d, x) w) -> regular w'.
Proof.
  intros Hd (Hr & Hk & Hc) Ho Hkd He. split; [|split].
  - intros d' x Hm. destruct (decide (d' = d)) as [->|Hne].
    + destruct (He x) as [->| ->]; [done|by apply Hr].
    + rewrite (proj2 (Ho d' Hne)). by apply Hr.
  - intros d'. destruct (decide (d' = d)) as [->|Hne]; [done|]. by rewrite (proj1 (Ho d' Hne)).
  - by rewrite (proj1 (Ho netconfdir ltac:(congruence))).
Qed.

Lemma good_mkdir d w : d <> netconfdir -> good w -> (mkdir_p d w).1 = 0 /\ good (mkdir_p d w).2.
Proof.
  intros Hd [Hh Hr]. destruct (mkdir_works d w Hh) as [Hz Hh']; [apply Hr|]. split; [done|]. split; [done|].
  destruct (mkdir_law d w) as [Ho Hm]. destruct (Hm Hz) as [Hk He].
  eapply (only_dir_regular d); [done|exact Hr|done|by rewrite Hk|auto].
Qed.

Lemma good_rmdir d w : d <> netconfdir -> good w -> (rm_rf d w).1 = 0 /\ good (rm_rf d w).2.
Proof.
  intros Hd [Hh Hr]. destruct (rmdir_works d w Hh Hd) as [Hz Hh']. split; [done|]. split; [done|].
  destruct (rmdir_law d w) as (Ho & Hk & He).
  eapply (only_dir_regular d); [done|exact Hr|done|by rewrite Hk|done].
Qed.

(** [m] runs to its end, returns what [Q] says and leaves a good state; [D] stays a
    directory. *)
Definition runs_in (D : dirname) {A} (m : prog sh A) (Q : A -> Prop) : Prop :=
  hoare (fun s => good (disk s) /\ kind_of D (disk s) = IsDir) m
        (fun a s => Q a /\ good (disk s) /\ kind_of D (disk s) = IsDir) (fun _ => False).

Lemma attempt_good D f msg s :
  good (disk s) -> kind_of D (disk s) = IsDir ->
  (f (disk s)).1 = 0 -> good (f (disk s)).2 -> kind_of D (f (disk s)).2 = IsDir ->
  exists s', attempt f msg 0 s = (Ret 0, s') /\ good (disk s') /\ kind_of D (disk s') = IsDir.
Proof.
  intros Hg Hk Hz Hg' Hk'. unfold attempt, bind, cmd. destruct (f (disk s)) as [st w]. cbn in *.
  subst. eexists. cbn. done.
Qed.

Lemma copy_good fl D msg f : managed f.2 = true -> runs_in D (copy_or_fail fl (ToDir D) msg f) (fun _ => True).
Proof.
  intros Hm s [Hg Hk]. unfold copy_or_fail, test_f, bind at 1, gets.
  destruct (file_at f (disk s)) as [c|] eqn:Hf.
  - rewrite bool_decide_true by eauto. unfold bind, cmd. cbn [negb].
    destruct (good_cp fl f (ToDir D) (disk s) Hg ltac:(by rewrite Hf; eexists) Hk Hm) as [Hz Hg'].
    destruct (cp_law fl f (ToDir D) (disk s) Hk) as [[Hkf _] _].
    destruct (cp fl f (ToDir D) (disk s)) as [st w]. cbn in *. subst. cbn. by rewrite Hkf.
  - rewrite bool_decide_false by (by intros [? ?]). done.
Qed.

Lemma restore_good f : f.1 = netconfdir -> managed f.2 = true -> runs_in netconfdir (restore_current f 0) (fun r => r = 0).
Proof.
  destruct f as [d x]. cbn. intros -> Hm s [Hg Hk]. unfold restore_current, test_f, bind at 1, gets.
  destruct (file_at (netconfdir, x) (disk s)) as [a|] eqn:Hf; [|by rewrite bool_decide_false by (by intros [? ?])].
  rewrite bool_decide_true by eauto. cbn [negb snd]. unfold bind at 1.
  assert (Hrm : forall p s0 msg, managed p.2 = true -> good (disk s0) -> kind_of netconfdir (disk s0) = IsDir ->
            match attempt (rm_f p) msg 0 s0 with
            | (Ret r, s') => r = 0 /\ good (disk s') /\ kind_of netconfdir (disk s') = IsDir
            | (Bail, _) => False | (Stop _, _) => False end).
  { intros p s0 msg Hmp Hg0 Hk0. destruct (good_rm p (disk s0) Hg0 Hmp) as [Hz Hg'].
    destruct (rm_law p (disk s0)) as ([Hkf _] & _ & _).
    destruct (attempt_good netconfdir (rm_f p) msg s0 Hg0 Hk0 Hz Hg' ltac:(by rewrite Hkf)) as (s' & -> & Hs'). done. }
  destruct (file_at (snapshotdir, x) (disk s)) as [c|] eqn:Hs.
  2:{ rewrite bool_decide_false by (by intros [? ?]). by apply Hrm. }
  rewrite bool_decide_true by eauto. unfold bind at 1. unfold bind at 1. destruct (negb _); [|by apply Hrm].
  cbn [when]. unfold bind at 1, cmd.
  destruct (good_cp "-pf" (snapshotdir, x) (ToFile (netconfdir, x)) (disk s) Hg ltac:(by rewrite Hs; eexists) Hk Hm) as [Hz Hg'].
  destruct (cp_law "-pf" (snapshotdir, x) (ToFile (netconfdir, x)) (disk s) Hk) as [[Hkf _] _].
  destruct (cp _ _ _ _) as [st w]. cbn in *. subst. cbn. apply Hrm; [done|done|]. cbn. by rewrite Hkf.
Qed.

Lemma for_acc_good D {A} (l : list A) (body : A -> Z -> prog sh Z) :
  (forall x, x ∈ l -> runs_in D (body x 0) (fun r => r = 0)) -> runs_in D (for_acc l 0 body) (fun r => r = 0).
Proof.
  induction l as [|x l IH]; intros Hb; [by apply hoare_ret|]. cbn [for_acc].
  eapply hoare_bind; [apply Hb; by left|]. intros r s (-> & Hs). apply IH; [|done]. intros y Hy. apply Hb. by right.
Qed.

Lemma copies_good fl D src (msg : path -> string) w :
  runs_in D (for_each (config_files src w) (fun f => copy_or_fail fl (ToDir D) (msg f) f)) (fun _ => True).
Proof.
  eapply hoare_conseq; [apply (hoare_for_each (fun s => good (disk s) /\ kind_of D (disk s) = IsDir) (fun _ => False))| | |];
    [|done|done|done].
  intros f [_ Hm]%config_files_managed. eapply hoare_conseq; [by apply copy_good|done| |done]. by intros [] s (_ & ?).
Qed.
End success.

(** ** The functions succeed *)

Section functions.
Context `{HealthyShell}.

Lemma begin_succeeds s :
  good (disk s) -> kind_of snapshotdir (disk s) = Nothing ->
  exists s', change_begin s = (Ret 0, s') /\ good (disk s').
Proof.
  intros Hg Hn. unfold change_begin, bind at 1, gets, test_e. rewrite bool_decide_true by done. cbn [negb].
  unfold bind at 1, cmd. destruct (good_mkdir snapshotdir (disk s) ltac:(done) Hg) as [Hz Hg'].
  destruct (mkdir_law snapshotdir (disk s)) as [Hod Hmk]. specialize (Hmk Hz) as [Hk He].
  destruct (mkdir_p snapshotdir (disk s)) as [st w]. cbn in *. subst. cbn [Z.eqb negb].
  set (s1 := {| disk := w; out := out s |}).
  pose proof (copies_good "-p" snapshotdir netconfdir
    (fun f => "failed to copy " +:+ show f +:+ " to " +:+ show_dir snapshotdir) (disk s1) s1 (conj Hg' Hk)) as Hr.
  change (match copy_config snapshotdir s1 with
          | (Ret a, s') => True /\ good (disk s') /\ kind_of snapshotdir (disk s') = IsDir
          | _ => False end) in Hr.
  destruct (copy_config snapshotdir s1) as [[[]| |] s2] eqn:Hc; [|done..]. destruct Hr as (_ & Hg2 & Hk2).
  unfold on_error. rewrite (bind_Ret _ _ _ _ _ Hc). unfold cmd.
  unfold copy_config, bind, gets in Hc.
  apply (copy_loop netconfdir snapshotdir "-p" (fun f => "failed to copy " +:+ show f +:+ " to " +:+ show_dir snapshotdir))
    in Hc as (_ & [_ Hf] & _); [|done..].
  destruct (good_date (disk s2) Hg2 Hk2) as [Hz3 Hg3].
  { rewrite Hf by (by intros [_ ?]). cbn. rewrite He. intros Ho.
    assert (Hd : kind_of snapshotdir (disk s) = IsDir) by (apply (kind_law _ "date"); rewrite Ho; by eexists). congruence. }
  destruct (date_to _ _) as [st w3]. cbn in *. subst. by eexists.
Qed.

Lemma prune_good s :
  good (disk s) -> exists s', prune 0 s = (Ret 0, s') /\ good (disk s') /\ config_same s s'.
Proof.
  intros Hg. destruct (prune_run 0 s) as (r & s' & Hp & [Hsame _] & _).
  pose proof Hp as Hrun. unfold prune, bind at 1, gets in Hrun. fold prune_one in Hrun.
  assert (Hgood : forall l s0, good (disk s0) ->
            match for_acc l 0 prune_one s0 with (Ret r, s1) => r = 0 /\ good (disk s1) | _ => False end).
  { clear. induction l as [|d l IH]; intros s0 Hg0; [done|]. cbn [for_acc]. unfold bind, prune_one, attempt, bind, cmd.
    destruct (good_rmdir (rollbackdir d) (disk s0) ltac:(done) Hg0) as [Hz Hg1].
    destruct (rm_rf (rollbackdir d) (disk s0)) as [st w]. cbn in *. subst. cbn. by apply IH. }
  specialize (Hgood (take (length (rollbacks (disk s)) - 20) (rollbacks (disk s))) s Hg). unfold bind in Hrun.
  destruct (for_acc _ 0 prune_one s) as [[r1| |] s1]; [|done..]. destruct Hgood as [-> Hg1].
  injection Hrun as Hr <-. exists s1. rewrite Hp, <- Hr. by destruct lastpipe.
Qed.

Lemma restore_config_good s :
  good (disk s) -> exists s', restore_config 0 s = (Ret 0, s') /\ good (disk s').
Proof.
  intros Hg. assert (Hk : kind_of netconfdir (disk s) = IsDir) by apply Hg.
  unfold restore_config, bind at 1, gets.
  pose proof (for_acc_good netconfdir (config_files netconfdir (disk s)) restore_current) as Hl1.
  specialize (Hl1 ltac:(intros f [? ?]%config_files_managed; by apply restore_good) s (conj Hg Hk)).
  unfold bind at 1. destruct (for_acc _ 0 restore_current s) as [[r| |] s1]; [|done..].
  destruct Hl1 as (-> & Hg1 & Hk1). unfold bind at 1.
  pose proof (copies_good "-pf" netconfdir snapshotdir
    (fun f => "failed to restore " +:+ show f +:+ " to " +:+ show_dir netconfdir) (disk s1) s1 (conj Hg1 Hk1)) as Hl2.
  change (match for_each (config_files snapshotdir (disk s1)) restore_missing s1 with
          | (Ret a, s') => True /\ good (disk s') /\ kind_of netconfdir (disk s') = IsDir
          | _ => False end) in Hl2.
  unfold bind at 1. destruct (for_each _ restore_missing s1) as [[[]| |] s2]; [|done..].
  destruct Hl2 as (_ & Hg2 & Hk2). destruct (report_date_run s2) as [o Hd]. rewrite (bind_Ret _ _ _ _ _ Hd).
  unfold attempt, bind, cmd. cbn [disk]. destruct (good_rmdir snapshotdir (disk s2) ltac:(done) Hg2) as [Hz Hg3].
  destruct (rm_rf _ _) as [st w]. cbn in *. subst. by eexists.
Qed.

Lemma rollback_succeeds s :
  good (disk s) -> kind_of snapshotdir (disk s) = IsDir ->
  exists s', change_rollback s = (Ret 0, s') /\ good (disk s').
Proof.
  intros Hg Hk. unfold change_rollback, bind at 1, gets, test_d. rewrite bool_decide_true by done. cbn [negb].
  destruct (prune_good s Hg) as (s1 & Hp & Hg1 & _). rewrite (bind_Ret _ _ _ _ _ Hp).
  unfold bind at 1. set (d := rollbackdir _). unfold bind at 1, cmd.
  destruct (good_mkdir d (disk s1) ltac:(done) Hg1) as [Hz Hg2].
  destruct (mkdir_law d (disk s1)) as [_ Hmk]. specialize (Hmk Hz) as [Hkd _].
  destruct (mkdir_p d (disk s1)) as [st w]. cbn in *. subst. cbn [Z.eqb negb].
  set (s2 := {| disk := w; out := out s1 |}).
  pose proof (copies_good "-p" d netconfdir
    (fun f => "failed to copy " +:+ show f +:+ " to " +:+ show_dir d) (disk s2) s2 (conj Hg2 Hkd)) as Hl2.
  change (match copy_config d s2 with
          | (Ret a, s') => True /\ good (disk s') /\ kind_of d (disk s') = IsDir
          | _ => False end) in Hl2.
  unfold on_error, bind. destruct (copy_config d s2) as [[[]| |] s3]; [|done..]. destruct Hl2 as (_ & Hg3 & _).
  destruct (restore_config_good s3 Hg3) as (s4 & -> & Hg4). by exists s4.
Qed.

Lemma commit_run s :
  good (disk s) -> kind_of snapshotdir (disk s) = IsDir ->
  exists s', change_commit s = (Ret 0, s') /\ good (disk s') /\ kind_of snapshotdir (disk s') = Nothing /\
    only_dir snapshotdir (disk s) (disk s').
Proof.
  intros Hg Hk. unfold change_commit, bind at 1, gets, test_d. rewrite bool_decide_true by done. cbn [negb].
  unfold bind at 1, cmd. destruct (good_rmdir snapshotdir (disk s) ltac:(done) Hg) as [Hz Hg'].
  destruct (rmdir_law snapshotdir (disk s)) as (Ho & Hn & _).
  destruct (rm_rf _ _) as [st w]. cbn in *. subst. eexists. split; [reflexivity|]. cbn. auto.
Qed.

Lemma commit_idle s :
  kind_of snapshotdir (disk s) <> IsDir ->
  exists o, change_commit s = (Ret EINVALID_IN_THIS_STATE, {| disk := disk s; out := o |}).
Proof.
  intros Hk. unfold change_commit, bind at 1, gets, test_d. rewrite bool_decide_false by done. by eexists.
Qed.
End functions.

(** ** Simulation *)

Section simulation.
Context `{HealthyShell}.

Lemma implements_out s a o :
  implements s a -> implements {| disk := disk s; out := o |} a.
Proof. intros [? ? ? ?]. by split. Qed.

Lemma regular_file d x w : regular w -> managed x = true -> Reg <$> file_at (d, x) w = entry_at (d, x) w.
Proof.
  intros [Hr _] Hm. specialize (Hr d x Hm). unfold file_at. by destruct (entry_at (d, x) w) as [[]|].
Qed.

Lemma begin_simulates s a r s' :
  implements s a -> change_begin s = (Ret r, s') -> exists a', txn_step Begin a r a' /\ implements s' a'.
Proof.
  intros Him Hrun. pose proof Him as [Hh Hr Hc Hs]. destruct (t_saved a) as [f|] eqn:Ha.
  - destruct Hs as [Hk _]. destruct (change_begin_pending s ltac:(by rewrite Hk)) as [o Ho].
    rewrite Ho in Hrun. injection Hrun as <- <-. exists a. split; [|by apply implements_out].
    apply begin_refused. by rewrite Ha.
  - destruct (begin_succeeds s (conj Hh Hr) Hs) as (s1 & Ho & [Hh1 Hr1]). rewrite Ho in Hrun. injection Hrun as <- <-.
    destruct (change_begin_run _ _ _ Ho Hs) as (Hod & _ & _ & Hb). destruct (Hb eq_refl) as [Hk Hsave].
    exists {| t_conf := t_conf a; t_saved := Some (fun x => file_at (netconfdir, x) (disk s)) |}. split.
    + apply begin_opens; [done|done|]. eexists. split; [done|]. intros x Hm. rewrite <- Hc. by apply regular_file.
    + split; [done|done| |].
      * intros x. cbn. rewrite <- Hc. by apply Hod.
      * cbn. split; [done|]. intros x Hm. unfold file_at. rewrite Hsave by (try done; by apply Hr). done.
Qed.

Lemma commit_simulates s a r s' :
  implements s a -> change_commit s = (Ret r, s') -> exists a', txn_step Commit a r a' /\ implements s' a'.
Proof.
  intros Him Hrun. pose proof Him as [Hh Hr Hc Hs]. destruct (t_saved a) as [f|] eqn:Ha.
  - destruct Hs as [Hk _]. destruct (commit_run s (conj Hh Hr) Hk) as (s1 & Ho & [Hh1 Hr1] & Hn & Hod).
    rewrite Ho in Hrun. injection Hrun as <- <-. exists {| t_conf := t_conf a; t_saved := None |}. split.
    + apply commit_closes; [by rewrite Ha|done|done].
    + split; [done|done| |done]. intros x. cbn. rewrite <- Hc. by apply Hod.
  - destruct (commit_idle s ltac:(by rewrite Hs)) as [o Ho]. rewrite Ho in Hrun. injection Hrun as <- <-.
    exists a. split; [by apply commit_refused|by apply implements_out].
Qed.

Lemma rollback_simulates s a r s' :
  implements s a -> change_rollback s = (Ret r, s') -> exists a', txn_step Rollback a r a' /\ implements s' a'.
Proof.
  intros Him Hrun. pose proof Him as [Hh Hr Hc Hs]. destruct (t_saved a) as [f|] eqn:Ha.
  - destruct Hs as [Hk Hf]. destruct (rollback_succeeds s (conj Hh Hr) Hk) as (s1 & Ho & [Hh1 Hr1]).
    rewrite Ho in Hrun. injection Hrun as <- <-.
    destruct (change_rollback_ok s s1 ltac:(apply Hr) Ho) as (_ & Hn & _ & Hman & Hrest & _).
    assert (Hconf : forall x, entry_at (netconfdir, x) (disk s1) = if managed x then Reg <$> f x else t_conf a x).
    { intros x. destruct (managed x) eqn:Hm; [|by rewrite Hrest, Hc].
      rewrite Hman by (try done; by apply Hr). by rewrite Hf. }
    exists {| t_conf := fun x => if managed x then Reg <$> f x else t_conf a x; t_saved := None |}. split.
    + by apply (rollback_restores_saved a _ f).
    + by split.
  - destruct (change_rollback_idle s ltac:(by rewrite Hs)) as [o Ho]. rewrite Ho in Hrun. injection Hrun as <- <-.
    exists a. split; [by apply rollback_refused|by apply implements_out].
Qed.

Lemma edit_simulates s a s' : implements s a -> edits s s' -> exists a', txn_step Edit a 0 a' /\ implements s' a'.
Proof.
  intros [Hh Hr Hc Hs] (Hh' & Hr' & Hk & He).
  exists {| t_conf := fun x => entry_at (netconfdir, x) (disk s'); t_saved := t_saved a |}.
  split; [by apply edit_changes|]. split; [done|done|done|]. cbn. rewrite Hk.
  destruct (t_saved a) as [f|]; [|done]. destruct Hs as [? Hf]. split; [done|]. intros x Hm.
  unfold file_at. rewrite He. by apply Hf.
Qed.

Lemma step_simulates s a e r s' :
  implements s a -> script_step e s r s' -> exists a', txn_step e a r a' /\ implements s' a'.
Proof.
  intros Him Hstep. destruct Hstep; eauto using begin_simulates, commit_simulates, rollback_simulates, edit_simulates.
Qed.

Lemma step_total s a e : implements s a -> e <> Edit -> exists r s', script_step e s r s'.
Proof.
  intros [Hh Hr Hc Hs] He. destruct e; [| | |done]; destruct (t_saved a) as [f|].
  - destruct (change_begin_pending s ltac:(by rewrite (proj1 Hs))) as [o Ho]. eauto using @step_begin.
  - destruct (begin_succeeds s (conj Hh Hr) Hs) as (s1 & Ho & _). eauto using @step_begin.
  - destruct (commit_run s (conj Hh Hr) (proj1 Hs)) as (s1 & Ho & _). eauto using @step_commit.
  - destruct (commit_idle s ltac:(by rewrite Hs)) as [o Ho]. eauto using @step_commit.
  - destruct (rollback_succeeds s (conj Hh Hr) (proj1 Hs)) as (s1 & Ho & _). eauto using @step_rollback.
  - destruct (change_rollback_idle s ltac:(by rewrite Hs)) as [o Ho]. eauto using @step_rollback.
Qed.
End simulation.

(** ** The concrete file system is healthy when no failure is foreseen *)

#[global] Instance toy_healthy : HealthyShell toy_shell_laws.
Proof.
  refine {| healthy := fun w : fs => z_fail w = [] |}.
  - intros d w Hh _. cbn. unfold z_cmd. rewrite Hh. cbn. destruct (z_dir d _); done.
  - intros fl f t w Hh [c Hf] Hk _. cbn [cp toy_shell kind_of] in *. fold (destination f t).
    destruct w as [zc zs zr zf zn]. cbn [z_fail] in Hh. subst zf. unfold z_cmd. cbn [z_fail hd tail].
    assert (Hz : z_file f {| z_conf := zc; z_snap := zs; z_rolls := zr; z_fail := []; z_now := zn |} = Some c).
    { unfold file_at in Hf. cbn in Hf. destruct (z_file f _); cbn in *; congruence. }
    unfold z_write. cbn [z_conf z_snap z_rolls z_now]. rewrite Hz. by destruct (z_dir (destination f t).1 _).
  - intros f w Hh _. cbn. unfold z_cmd. rewrite Hh. cbn. unfold z_remove. destruct (z_dir _ _); done.
  - intros d w Hh Hd. cbn. unfold z_cmd. rewrite Hh. by destruct d.
  - intros p w Hh Hk _. cbn in *. unfold z_cmd. rewrite Hh. cbn. unfold z_write.
    destruct w as [zc zs zr zf zn]. cbn in *. subst zf. destruct (z_dir _ _); done.
Defined.

(** ** Property *)

(** C6: when no command fails, the script implements the machine of transactions: a
    begin saves the configuration and is refused while a transaction is open, a commit
    forgets what was saved, a rollback puts it back, and both are refused when no
    transaction is open. Every sequence of its calls, with anything done to the
    configuration in between, is one of the machine, with the same exit statuses. *)
Theorem transaction_refines `{HealthyShell} (s : sh) (a : txn) (Him : implements s a) :
  (forall e, e <> Edit -> exists r s', script_step e s r s') /\
  forall l s', steps script_step s l s' -> exists a', steps txn_step a l a' /\ implements s' a'.
Proof.
  split; [intros e; by eapply step_total|]. intros l s' Hsteps. revert a Him.
  induction Hsteps as [s|s1 e r s2 l s3 Hstep _ IH]; intros a Him.
  - exists a. split; [constructor|done].
  - destruct (step_simulates _ _ _ _ _ Him Hstep) as (a2 & Ha & Him2).
    destruct (IH a2 Him2) as (a3 & Hl & Him3). exists a3. split; [by econstructor|done].
Qed.

Definition toy_txn : txn := {| t_conf := fun x => Reg <$> toy_ifcfgs !! x; t_saved := None |}.

Lemma toy_implements : implements (toy_sh toy_ifcfgs None []) toy_txn.
Proof.
  split; [reflexivity| |reflexivity|reflexivity].
  split; [intros d x _; apply toy_regular|]. split; [intros d; cbn; by destruct (z_dir d _)|reflexivity].
Defined.

Lemma transaction_refines_witness :
  exists a', steps txn_step toy_txn [(Begin, 0); (Begin, 199); (Rollback, 0); (Commit, 199)] a' /\
    forall x, a'.(t_conf) x = Reg <$> toy_ifcfgs !! x.
Proof.
  set (s0 := toy_sh toy_ifcfgs None []).
  assert (Hrun : steps script_step s0 [(Begin, 0); (Begin, 199); (Rollback, 0); (Commit, 199)]
            (change_commit (change_rollback (change_begin (change_begin s0).2).2).2).2).
  { refine (steps_cons _ _ _ _ _ _ _ (step_begin _ _ _ (run_eq _ _ _ _))
             (steps_cons _ _ _ _ _ _ _ (step_begin _ _ _ (run_eq _ _ _ _))
             (steps_cons _ _ _ _ _ _ _ (step_rollback _ _ _ (run_eq _ _ _ _))
             (steps_cons _ _ _ _ _ _ _ (step_commit _ _ _ (run_eq _ _ _ _)) (steps_nil _ _)))));
      vm_compute; reflexivity. }
  destruct (proj2 (transaction_refines s0 toy_txn toy_implements) _ _ Hrun) as (a' & Ha & [_ _ Hc _]).
  exists a'. split; [exact Ha|]. intros x. rewrite <- Hc.
  assert (Hconf : z_conf (disk (change_commit (change_rollback (change_begin (change_begin s0).2).2).2).2) = toy_ifcfgs)
    by (vm_compute; reflexivity).
  change (Reg <$> z_file (netconfdir, x) (disk (change_commit (change_rollback (change_begin (change_begin s0).2).2).2).2)
          = Reg <$> toy_ifcfgs !! x). unfold z_file. cbn [fst snd z_dir]. by rewrite Hconf.
Defined.
