(* ===== verification/State.v ===== *)
(** * The structures of netcf and their bookkeeping

    internal.h ([struct netcf], [struct netcf_if], the ERR_* macros), netcf.h
    (error codes), dutil_linux.h / dutil_freebsd.h ([struct driver]), ref.h
    (reference counts) and the parts of dutil.c that create, free and report. *)

From S2P Require Import Prelude CStr.

(** ** What lies outside the library *)

(** [st_mode] as far as the sources look at it. *)
Inductive fmode := S_IFREG | S_IFDIR | S_IFOTHER.

(** Types of the objects that belong to the operating system and to the
    libraries; the sources only hold pointers to them. *)
Class Host := {
  sys : Type;        (** everything outside the process *)
  aug : Type;        (** [struct augeas] *)
  sheet : Type;      (** [xsltStylesheetPtr] *)
  rng_t : Type;      (** [xmlRelaxNGPtr] *)
  xmem : Type;       (** the memory of libxml2 *)
  doc : Type;        (** [xmlDocPtr] *)
  node : Type;       (** [xmlNodePtr] *)
}.

(** ** Data *)

(** [netcf_errcode_t] *)
Inductive netcf_errcode_t :=
| NETCF_NOERROR | NETCF_EINTERNAL | NETCF_EOTHER | NETCF_ENOMEM
| NETCF_EXMLPARSER | NETCF_EXMLINVALID | NETCF_ENOENT | NETCF_EEXEC
| NETCF_EINUSE | NETCF_EXSLTFAILED | NETCF_EFILE | NETCF_EIOCTL
| NETCF_ENETLINK | NETCF_EINVALIDOP.

#[global] Instance netcf_errcode_dec : EqDecision netcf_errcode_t.
Proof. solve_decision. Defined.

Definition NETCF_IFACE_INACTIVE : Z := 1.
Definition NETCF_IFACE_ACTIVE : Z := 2.

Record augeas_pv := { pv_path : string; pv_value : string }.

(** Tables are compared by address in the sources: [xfm_id] is the address. *)
Record augeas_xfm_table := { xfm_id : nat; xfm_pv : list augeas_pv }.

Section structs.
Context `{Host}.

Record driver := {
  augeas : option aug;
  put : option sheet;
  get : option sheet;
  ioctl_fd : Z;
  nl_sock : bool;            (** are the netlink socket and its caches open? *)
  link_cache : bool;
  addr_cache : bool;
  load_augeas : bool;
  copy_augeas_xfm : bool;
  augeas_xfm_tables : list (option augeas_xfm_table)
                             (** of length [augeas_xfm_num_tables] *)
}.

Record netcf := {
  ncf_ref : Z;
  ncf_root : option string;
  data_dir : string;
  rng : option rng_t;
  errcode : netcf_errcode_t;
  errdetails : option string;
  ncf_driver : option driver;
  debug : bool
}.

(** [nif->ncf] is the one [struct netcf] of the state. *)
Record netcf_if := { nif_ref : Z; nif_name : string; nif_mac : option string }.

Record state := {
  ncf : netcf;
  ncf_freed : bool;                  (** [free(ncf)] has been called *)
  ifs : gmap nat netcf_if;           (** allocated [struct netcf_if]s *)
  next_if : nat;                     (** address of the next one *)
  mem : list bool;                   (** does the next allocation succeed?
                                         when exhausted, they all do *)
  tty : list string;                 (** what was printed *)
  world : sys;
  xml : xmem                         (** the documents of libxml2 *)
}.

Definition set_ncf (n : netcf) (s : state) : state :=
  {| ncf := n; ncf_freed := ncf_freed s; ifs := ifs s; next_if := next_if s;
     mem := mem s; tty := tty s; world := world s; xml := xml s |}.
Definition set_ifs (m : gmap nat netcf_if) (s : state) : state :=
  {| ncf := ncf s; ncf_freed := ncf_freed s; ifs := m; next_if := next_if s;
     mem := mem s; tty := tty s; world := world s; xml := xml s |}.
Definition set_mem (l : list bool) (s : state) : state :=
  {| ncf := ncf s; ncf_freed := ncf_freed s; ifs := ifs s; next_if := next_if s;
     mem := l; tty := tty s; world := world s; xml := xml s |}.
Definition set_world (w : sys) (s : state) : state :=
  {| ncf := ncf s; ncf_freed := ncf_freed s; ifs := ifs s; next_if := next_if s;
     mem := mem s; tty := tty s; world := w; xml := xml s |}.
Definition set_tty (l : list string) (s : state) : state :=
  {| ncf := ncf s; ncf_freed := ncf_freed s; ifs := ifs s; next_if := next_if s;
     mem := mem s; tty := l; world := world s; xml := xml s |}.

Definition set_xml (x : xmem) (s : state) : state :=
  {| ncf := ncf s; ncf_freed := ncf_freed s; ifs := ifs s; next_if := next_if s;
     mem := mem s; tty := tty s; world := world s; xml := x |}.

Definition set_err (c : netcf_errcode_t) (d : option string) (n : netcf) : netcf :=
  {| ncf_ref := ncf_ref n; ncf_root := ncf_root n; data_dir := data_dir n; rng := rng n;
     errcode := c; errdetails := d; ncf_driver := ncf_driver n; debug := debug n |}.
Definition set_ref (r : Z) (n : netcf) : netcf :=
  {| ncf_ref := r; ncf_root := ncf_root n; data_dir := data_dir n; rng := rng n;
     errcode := errcode n; errdetails := errdetails n; ncf_driver := ncf_driver n;
     debug := debug n |}.
Definition set_driver (d : option driver) (n : netcf) : netcf :=
  {| ncf_ref := ncf_ref n; ncf_root := ncf_root n; data_dir := data_dir n; rng := rng n;
     errcode := errcode n; errdetails := errdetails n; ncf_driver := d; debug := debug n |}.

Definition err (s : state) : netcf_errcode_t := errcode (ncf s).

#[local] Abbreviation M := (prog state).

(** ** Allocation and printing *)

(** One call of an allocating function: does it succeed? *)
Definition malloc : M bool := fun s =>
  match mem s with
  | [] => (Ret true, s)
  | b :: l => (Ret b, set_mem l s)
  end.

(** [strdup], [asprintf] and [xasprintf]: the new string, NULL (and a
    negative result) when memory is exhausted. *)
Definition strdup (str : string) : M (option string) :=
  b ← malloc; ret (if b then Some str else None).

Definition xasprintf (str : string) : M (option string) := strdup str.

Definition printf (str : string) : M unit :=
  modify (fun s => set_tty (tty s ++ [str]) s).

(** ** Errors *)

Definition set_errcode (c : netcf_errcode_t) : M unit :=
  modify (fun s => set_ncf (set_err c (errdetails (ncf s)) (ncf s)) s).

(** [vreport_error]: only the first error is remembered. *)
Definition vreport_error (code : netcf_errcode_t) (msg : option string) : M unit :=
  c ← gets err;
  if decide (c = NETCF_NOERROR) then
    d ← gets (fun s => errdetails (ncf s));
    match d with
    | Some _ => halt Abort
    | None =>
        set_errcode code ;;
        match msg with
        | None => ret tt
        | Some m =>
            d' ← strdup m;
            modify (fun s => set_ncf (set_err (err s) d' (ncf s)) s)
        end
    end
  else ret tt.

Definition report_error (code : netcf_errcode_t) (msg : string) : M unit :=
  vreport_error code (Some msg).

Definition ERR_COND (cond : bool) (code : netcf_errcode_t) : M unit :=
  when cond (set_errcode code).

Definition ERR_BAIL : M unit :=
  c ← gets err; if decide (c = NETCF_NOERROR) then ret tt else goto_error.

Definition ERR_COND_BAIL (cond : bool) (code : netcf_errcode_t) : M unit :=
  ERR_COND cond code ;; ERR_BAIL.

Definition ERR_NOMEM (cond : bool) : M unit :=
  when cond (set_errcode NETCF_ENOMEM ;; goto_error).

Definition ERR_THROW (cond : bool) (code : netcf_errcode_t) (msg : string) : M unit :=
  when cond (report_error code msg ;; goto_error).

(** [ERR_THROW(true, ...)], where a value is expected *)
Definition THROW {A} (code : netcf_errcode_t) (msg : string) : M A :=
  report_error code msg ;; goto_error.

(** [p == NULL] *)
Definition is_null {A} (p : option A) : bool := match p with Some _ => false | None => true end.

(** A pointer that must not be NULL: [ERR_NOMEM(p == NULL, ncf)]. *)
Definition nonnull {A} (p : option A) : M A :=
  match p with
  | Some a => ret a
  | None => ERR_NOMEM true ;; goto_error
  end.

(** ** Reference counts (ref.h) *)

Definition REF_MAX : Z := 2 ^ 32 - 1.

(** [ref(s)] on the counter of a non-NULL object *)
Definition ref_incr (r : Z) : Z := if decide (r = REF_MAX) then r else (r + 1) mod 2 ^ 32.

(** [free_netcf] *)
Definition free_netcf : M unit :=
  r ← gets (fun s => ncf_ref (ncf s));
  if decide (r = 0) then
    modify (fun s => {| ncf := ncf s; ncf_freed := true; ifs := ifs s; next_if := next_if s;
                        mem := mem s; tty := tty s; world := world s; xml := xml s |})
  else halt Abort.

(** [unref(ncf, netcf)] *)
Definition unref_netcf : M unit :=
  freed ← gets ncf_freed;
  if (freed : bool) then halt (UB "use of a freed struct netcf") else
  r ← gets (fun s => ncf_ref (ncf s));
  if decide (r = REF_MAX) then ret tt else
  if decide (r = 0) then halt Abort else
  modify (fun s => set_ncf (set_ref (r - 1) (ncf s)) s) ;;
  when (bool_decide (r - 1 = 0)) free_netcf.

Definition the_if (p : nat) : M netcf_if :=
  o ← gets (fun s => ifs s !! p);
  match o with
  | Some nif => ret nif
  | None => halt (UB "use of a freed struct netcf_if")
  end.

(** [free_netcf_if] *)
Definition free_netcf_if (p : nat) : M unit :=
  nif ← the_if p;
  if decide (nif_ref nif = 0) then
    unref_netcf ;;
    modify (fun s => set_ifs (delete p (ifs s)) s)
  else halt Abort.

Definition put_if (p : nat) (nif : netcf_if) : M unit :=
  modify (fun s => set_ifs (<[p := nif]> (ifs s)) s).

Definition set_nif_ref (r : Z) (nif : netcf_if) : netcf_if :=
  {| nif_ref := r; nif_name := nif_name nif; nif_mac := nif_mac nif |}.
Definition set_nif_mac (m : option string) (nif : netcf_if) : netcf_if :=
  {| nif_ref := nif_ref nif; nif_name := nif_name nif; nif_mac := m |}.

(** [unref(nif, netcf_if)] *)
Definition unref_netcf_if (op : option nat) : M unit :=
  match op with
  | None => ret tt
  | Some p =>
      nif ← the_if p;
      if decide (nif_ref nif = REF_MAX) then ret tt else
      if decide (nif_ref nif = 0) then halt Abort else
      put_if p (set_nif_ref (nif_ref nif - 1) nif) ;;
      when (bool_decide (nif_ref nif - 1 = 0)) (free_netcf_if p)
  end.

(** [make_ref(result)]: a zeroed structure with one reference *)
Definition make_ref_if : M (option nat) :=
  b ← malloc;
  if (b : bool) then
    p ← gets next_if;
    modify (fun s => {| ncf := ncf s; ncf_freed := ncf_freed s;
                        ifs := <[p := {| nif_ref := 1; nif_name := ""; nif_mac := None |}]> (ifs s);
                        next_if := S p; mem := mem s; tty := tty s; world := world s; xml := xml s |}) ;;
    ret (Some p)
  else ret None.

(** [make_netcf_if] *)
Definition make_netcf_if (name : string) : M (option nat) :=
  result ← make_ref_if;
  on_error
    (p ← nonnull result;
     modify (fun s => set_ncf (set_ref (ref_incr (ncf_ref (ncf s))) (ncf s)) s) ;;
     nif ← the_if p;
     put_if p {| nif_ref := nif_ref nif; nif_name := name; nif_mac := nif_mac nif |} ;;
     ret (Some p))
    (unref_netcf_if result ;; ret None).
End structs.

#[global] Abbreviation M := (prog state).

(** ** The error discipline

    [err_keep]: details are only ever recorded together with a code, and an
    error, once recorded, is not forgotten. Every function below an entry
    point of the API relates its states this way. *)

Section discipline.
Context `{Host}.
Implicit Types s : state.

Definition err_wf s : Prop := err s = NETCF_NOERROR -> errdetails (ncf s) = None.
Definition failed s : Prop := err s <> NETCF_NOERROR.
Definition err_keep s s' : Prop := (err_wf s -> err_wf s') /\ (failed s -> failed s').

#[global] Instance err_keep_preorder : PreOrder err_keep.
Proof. split; unfold err_keep; [done|]. intros x y z [] []. auto. Qed.

Lemma err_keep_same s s' :
  errcode (ncf s') = errcode (ncf s) -> errdetails (ncf s') = errdetails (ncf s) ->
  err_keep s s'.
Proof. unfold err_keep, err_wf, failed, err. intros -> ->. done. Qed.

Lemma err_keep_fail s s' : failed s' -> err_keep s s'.
Proof. unfold err_keep, err_wf, failed. intuition. Qed.
End discipline.

#[export] Hint Extern 1 (_ <> NETCF_NOERROR) => discriminate : pres.
#[export] Hint Extern 1 (err_keep _ _) => apply err_keep_same; reflexivity : pres.

Section discipline_ops.
Context `{Host}.

Lemma malloc_keep : pres err_keep malloc.
Proof. intros s. unfold malloc. destruct (mem s); cbn; auto with pres. Qed.

Lemma set_errcode_keep c : c <> NETCF_NOERROR -> pres err_keep (set_errcode c).
Proof. intros Hc s. by apply err_keep_fail. Qed.

Hint Resolve malloc_keep set_errcode_keep : pres.

Lemma strdup_keep str : pres err_keep (strdup str).
Proof. unfold strdup. pres_auto. Qed.

Hint Resolve strdup_keep : pres.

Lemma xasprintf_keep str : pres err_keep (xasprintf str).
Proof. apply strdup_keep. Qed.

Lemma printf_keep str : pres err_keep (printf str).
Proof. unfold printf. pres_auto. Qed.

Lemma vreport_error_keep c m : c <> NETCF_NOERROR -> pres err_keep (vreport_error c m).
Proof.
  intros Hc s. unfold vreport_error, bind, gets at 1. simpl.
  destruct (decide (err s = NETCF_NOERROR)) as [E|E]; [|done].
  unfold bind, gets. simpl. destruct (errdetails (ncf s)) eqn:D; [simpl; reflexivity|].
  destruct m as [m|]; simpl; [|by apply err_keep_fail].
  unfold strdup, bind, malloc. simpl. destruct (mem s); by apply err_keep_fail.
Qed.

Hint Resolve vreport_error_keep : pres.

Lemma report_error_keep c m : c <> NETCF_NOERROR -> pres err_keep (report_error c m).
Proof. unfold report_error. auto with pres. Qed.

Lemma ERR_COND_keep b c : c <> NETCF_NOERROR -> pres err_keep (ERR_COND b c).
Proof. unfold ERR_COND. intros. pres_auto. Qed.

Lemma ERR_BAIL_keep : pres err_keep ERR_BAIL.
Proof. unfold ERR_BAIL. pres_auto. Qed.

Hint Resolve ERR_COND_keep ERR_BAIL_keep report_error_keep : pres.

Lemma ERR_COND_BAIL_keep b c : c <> NETCF_NOERROR -> pres err_keep (ERR_COND_BAIL b c).
Proof. unfold ERR_COND_BAIL. intros. pres_auto. Qed.

Lemma ERR_NOMEM_keep b : pres err_keep (ERR_NOMEM b).
Proof. unfold ERR_NOMEM. pres_auto. Qed.

Lemma ERR_THROW_keep b c m : c <> NETCF_NOERROR -> pres err_keep (ERR_THROW b c m).
Proof. unfold ERR_THROW. intros. pres_auto. Qed.

Lemma THROW_keep {A} c m : c <> NETCF_NOERROR -> pres err_keep (THROW c m : M A).
Proof. unfold THROW. intros. pres_auto. Qed.

Hint Resolve ERR_NOMEM_keep : pres.

Lemma nonnull_keep {A} (p : option A) : pres err_keep (nonnull p).
Proof. unfold nonnull. pres_auto. Qed.

(** [goto error] is only taken once an error is recorded. *)
Lemma ERR_BAIL_post : post (fun _ s => err s = NETCF_NOERROR) failed ERR_BAIL.
Proof.
  intros s. unfold ERR_BAIL, bind, gets. simpl.
  by destruct (decide (err s = NETCF_NOERROR)).
Qed.

Lemma ERR_COND_BAIL_post b c :
  post (fun _ s => err s = NETCF_NOERROR) failed (ERR_COND_BAIL b c).
Proof.
  intros s. unfold ERR_COND_BAIL, ERR_COND, when. destruct b.
  - apply (ERR_BAIL_post (set_ncf (set_err c (errdetails (ncf s)) (ncf s)) s)).
  - apply (ERR_BAIL_post s).
Qed.

Lemma ERR_NOMEM_post b : post (fun _ _ => b = false) failed (ERR_NOMEM b).
Proof. intros s. by destruct b. Qed.

Lemma vreport_error_failed c m s :
  c <> NETCF_NOERROR ->
  match vreport_error c m s with (Ret _, s') => failed s' | (Bail, _) => False | _ => True end.
Proof.
  intros Hc. unfold vreport_error, bind, gets. simpl.
  destruct (decide (err s = NETCF_NOERROR)); [|done].
  destruct (errdetails (ncf s)); [done|]. destruct m; simpl; [|done].
  unfold strdup, bind, malloc. simpl. by destruct (mem s).
Qed.

Lemma ERR_THROW_post b c m :
  c <> NETCF_NOERROR -> post (fun _ _ => b = false) failed (ERR_THROW b c m).
Proof.
  intros Hc s. unfold ERR_THROW. destruct b; [|done]. simpl. unfold bind, report_error.
  pose proof (vreport_error_failed c (Some m) s Hc) as Hv.
  by destruct (vreport_error c (Some m) s) as [[]?].
Qed.

Lemma nonnull_post {A} (p : option A) : post (fun a _ => p = Some a) failed (nonnull p).
Proof. intros s. by destruct p. Qed.
End discipline_ops.

#[export] Hint Resolve malloc_keep set_errcode_keep strdup_keep xasprintf_keep printf_keep
  vreport_error_keep report_error_keep ERR_COND_keep ERR_BAIL_keep ERR_COND_BAIL_keep
  ERR_NOMEM_keep ERR_THROW_keep THROW_keep nonnull_keep : pres.

(** ** Error reporting contracts of C functions *)

Create HintDb fails.

Section contracts.
Context `{Host}.

(** A body that only takes [goto error] with an error recorded. *)
Definition fails {A} (m : M A) : Prop := post (fun _ _ => True) failed m.

(** A function that has its [error:] label inside: no [goto] escapes. *)
Definition closed {A} (m : M A) : Prop := post (fun _ _ => True) (fun _ => False) m.

(** A function returning an int: a negative result comes with an error. *)
Definition reports (f : M Z) : Prop :=
  post (fun r s => r < 0 -> failed s) (fun _ => False) f.

Lemma closed_fails {A} (m : M A) : closed m -> fails m.
Proof. intros Hm. eapply post_mono; [exact Hm|done|done]. Qed.

Lemma reports_closed f : reports f -> closed f.
Proof. intros Hm. eapply post_mono; [exact Hm|done|done]. Qed.

Lemma reports_fails f : reports f -> fails f.
Proof. intros Hm. apply closed_fails, reports_closed, Hm. Qed.

Lemma reports_intro body :
  post (fun r _ => 0 <= r) failed body -> reports (on_error body (ret (-1))).
Proof.
  intros Hb. eapply post_on_error; [eapply post_mono; [exact Hb| |done]|].
  - simpl. intros r s Hr Hneg. lia.
  - intros s Hs. simpl. done.
Qed.

Lemma closed_on_error {A} (m h : M A) : fails m -> closed h -> closed (on_error m h).
Proof.
  intros Hm Hh. eapply post_on_error; [exact Hm|]. intros s _. apply (Hh s).
Qed.

(** Nothing reaches the label of a body that has come down to a closed one. *)
Lemma on_error_closed {A} (m m2 h : M A) s s2 :
  m s = m2 s2 -> closed m2 -> on_error m h s = m2 s2.
Proof. intros Hm Hc. specialize (Hc s2). unfold on_error. rewrite Hm. by destruct (m2 s2) as [[]?]. Qed.

Lemma closed_bind {A B} (m : M A) (k : A -> M B) :
  closed m -> (forall a, closed (k a)) -> closed (m ≫= k).
Proof. apply post_bind. Qed.

Lemma closed_ret {A} (a : A) : closed (ret a : M A).
Proof. by apply post_ret. Qed.

Lemma fails_goto {A} : (forall s, failed s) -> fails (goto_error : M A).
Proof. intros Hf s. apply Hf. Qed.
Lemma fails_halt {A} w : fails (halt w : M A).
Proof. by intros s. Qed.
Lemma closed_halt {A} w : closed (halt w : M A).
Proof. by intros s. Qed.
Lemma closed_gets {A} (f : state -> A) : closed (gets f).
Proof. by intros s. Qed.
Lemma closed_modify f : closed (modify f).
Proof. by intros s. Qed.
Lemma closed_malloc : closed malloc.
Proof. intros s. unfold malloc. by destruct (mem s). Qed.
Lemma closed_strdup x : closed (strdup x).
Proof. unfold strdup. apply closed_bind; [apply closed_malloc|intros ?; apply closed_ret]. Qed.
Lemma closed_xasprintf x : closed (xasprintf x).
Proof. apply closed_strdup. Qed.
Lemma closed_printf x : closed (printf x).
Proof. apply closed_modify. Qed.
Lemma closed_set_errcode c : closed (set_errcode c).
Proof. apply closed_modify. Qed.

Lemma closed_vreport_error c m : closed (vreport_error c m).
Proof.
  intros s. unfold vreport_error, bind, gets. simpl.
  destruct (decide (err s = NETCF_NOERROR)); [|done].
  destruct (errdetails (ncf s)); [done|]. destruct m; simpl; [|done].
  unfold strdup, bind, malloc. simpl. by destruct (mem s).
Qed.
Lemma report_error_post c m :
  c <> NETCF_NOERROR -> post (fun _ s => failed s) (fun _ => False) (report_error c m).
Proof.
  intros Hc s. pose proof (vreport_error_failed c (Some m) s Hc) as Hv. unfold report_error.
  by destruct (vreport_error c (Some m) s) as [[]?].
Qed.
Lemma closed_report_error c m : closed (report_error c m).
Proof. apply closed_vreport_error. Qed.

Lemma fails_ERR_BAIL : fails ERR_BAIL.
Proof. eapply post_mono; [apply ERR_BAIL_post|done|done]. Qed.
Lemma fails_ERR_COND_BAIL b c : fails (ERR_COND_BAIL b c).
Proof. eapply post_mono; [apply ERR_COND_BAIL_post|done|done]. Qed.
Lemma fails_ERR_NOMEM b : fails (ERR_NOMEM b).
Proof. eapply post_mono; [apply ERR_NOMEM_post|done|done]. Qed.
Lemma fails_ERR_THROW b c m : c <> NETCF_NOERROR -> fails (ERR_THROW b c m).
Proof. intros Hc. eapply post_mono; [by apply ERR_THROW_post|done|done]. Qed.
Lemma fails_THROW {A} c m : c <> NETCF_NOERROR -> fails (THROW c m : M A).
Proof.
  intros Hc s. pose proof (report_error_post c m Hc s) as Hp. unfold THROW, bind.
  by destruct (report_error c m s) as [[]?].
Qed.
Lemma fails_nonnull {A} (p : option A) : fails (nonnull p).
Proof. eapply post_mono; [apply nonnull_post|done|done]. Qed.
End contracts.

#[export] Hint Extern 1 (_ <> NETCF_NOERROR) => discriminate : fails.
#[export] Hint Resolve closed_ret closed_halt closed_gets closed_modify closed_malloc
  closed_strdup closed_xasprintf closed_printf closed_set_errcode closed_vreport_error
  closed_report_error fails_halt fails_ERR_BAIL fails_ERR_COND_BAIL fails_ERR_NOMEM
  fails_ERR_THROW fails_THROW fails_nonnull : fails.
#[export] Hint Resolve closed_fails | 5 : fails.
#[export] Hint Resolve reports_fails reports_closed | 6 : fails.

(** Proves [fails], [closed] and [post (fun r _ => 0 <= r) failed] of a
    function body from the contracts of what it calls. *)
Ltac fails_step :=
  lazymatch goal with
  | |- fails (bind _ _) => apply post_bind; [|intros ?]
  | |- closed (bind _ _) => apply closed_bind; [|intros ?]
  | |- post ?Q failed (bind _ _) => apply post_bind; [|intros ?]
  | |- post (fun _ _ => True) failed ?m => change (fails m)
  | |- post (fun _ _ => True) (fun _ => False) ?m => change (closed m)
  | |- closed (on_error _ _) => apply closed_on_error
  | |- fails (on_error _ _) => apply closed_fails, closed_on_error
  | |- reports (on_error _ (ret (-1))) => apply reports_intro
  | |- fails (when _ (report_error _ _ ;; goto_error)) => apply fails_ERR_THROW; discriminate
  | |- fails (when _ _) => apply post_when
  | |- closed (when _ _) => apply post_when
  | |- fails (for_each _ _) => apply post_for_each; intros ?
  | |- fails (for_map _ _) => apply post_for_map; intros ?
  | |- fails (for_acc _ _ _) => apply post_for_acc; intros ? ?
  | |- closed (for_each _ _) => apply post_for_each; intros ?
  | |- closed (for_map _ _) => apply post_for_map; intros ?
  | |- closed (for_acc _ _ _) => apply post_for_acc; intros ? ?
  | |- fails (match ?x with _ => _ end) => destruct x
  | |- closed (match ?x with _ => _ end) => destruct x
  | |- post _ _ (match ?x with _ => _ end) => destruct x
  | |- post _ _ (ret _) => apply post_ret; intros ?; try lia
  end.
Ltac fails_auto := repeat first [fails_step | solve [eauto 4 with fails]].

(** ** Properties *)

(** Of any sequence of reports only the first is remembered, code and text;
    the assertion that no details are left over never fires. *)
Theorem first_error_wins `{Host} (errors : list (netcf_errcode_t * string)) (s : state)
  (Hclean : err s = NETCF_NOERROR) (Hdet : errdetails (ncf s) = None) (Hmem : mem s = [])
  (Hcodes : Forall (fun e => e.1 <> NETCF_NOERROR) errors) :
  exists s', for_each errors (fun e => report_error e.1 e.2) s = (Ret tt, s') /\
    (err s', errdetails (ncf s')) =
      match errors with [] => (NETCF_NOERROR, None) | (c, m) :: _ => (c, Some m) end.
Proof.
  assert (Hrest : forall l s0, failed s0 -> for_each l (fun e => report_error e.1 e.2) s0 = (Ret tt, s0)).
  { induction l as [|[c m] l IH]; intros s0 Hf; [done|]. cbn [for_each].
    rewrite (bind_Ret _ _ s0 tt s0); [by apply IH|].
    unfold report_error, vreport_error, bind, gets. by rewrite decide_False. }
  destruct errors as [|[c m] errors]; [exists s; by rewrite Hclean, Hdet|].
  apply Forall_cons in Hcodes as [Hc _]. cbn in Hc. cbn [for_each].
  rewrite (bind_Ret _ _ s tt (set_ncf (set_err c (Some m) (ncf s)) s)).
  - rewrite Hrest by done. by eexists.
  - unfold report_error, vreport_error, strdup, malloc, bind, gets. cbn.
    rewrite decide_True by done. cbn. rewrite Hdet. cbn. by rewrite Hmem.
Qed.
