(* ===== verification/Refs.v ===== *)
(** * Reference counting of netcf and netcf_if (ref.h, dutil.c)

    The counter of [struct netcf] counts the owner of the instance and every
    [struct netcf_if] that is still allocated. *)

From S2P Require Import Prelude CStr State.

Section refs.
Context `{Host}.
Implicit Types s : state.

(** One reference for whoever called [ncf_init], one per interface; the
    interfaces handed out have one owner, their addresses are fresh, and the
    counter has not been saturated. *)
Record refs_wf s : Prop := {
  wf_live : ncf_freed s = false;
  wf_count : ncf_ref (ncf s) = 1 + Z.of_nat (size (ifs s));
  wf_bound : ncf_ref (ncf s) < REF_MAX;
  wf_one : map_Forall (fun _ nif => nif_ref nif = 1) (ifs s);
  wf_fresh : forall p, (next_if s <= p)%nat -> ifs s !! p = None
}.

(** What an operation may do to the counted structures: nothing. *)
Definition refs_same s s' : Prop :=
  ncf_freed s' = ncf_freed s /\ ncf_ref (ncf s') = ncf_ref (ncf s) /\
  ifs s' = ifs s /\ next_if s' = next_if s.

#[global] Instance refs_same_preorder : PreOrder refs_same.
Proof.
  split; unfold refs_same; [done|].
  intros x y z (? & ? & ? & ?) (? & ? & ? & ?). repeat split; congruence.
Qed.

Lemma refs_same_wf s s' : refs_same s s' -> refs_wf s -> refs_wf s'.
Proof.
  intros (Hf & Hr & Hi & Hn) []. split; rewrite ?Hf, ?Hr, ?Hi, ?Hn; auto.
Qed.

Lemma malloc_refs : pres refs_same malloc.
Proof. intros s. unfold malloc. by destruct (mem s). Qed.

Lemma set_errcode_refs c : pres refs_same (set_errcode c).
Proof. by intros s. Qed.
End refs.

#[export] Hint Extern 1 (refs_same _ _) => repeat split; reflexivity : pres.
#[export] Hint Resolve malloc_refs set_errcode_refs : pres.

Section refs_ops.
Context `{Host}.
Implicit Types s : state.

Lemma strdup_refs x : pres refs_same (strdup x).
Proof. unfold strdup. pres_auto. Qed.
Lemma xasprintf_refs x : pres refs_same (xasprintf x).
Proof. apply strdup_refs. Qed.
Lemma printf_refs x : pres refs_same (printf x).
Proof. unfold printf. pres_auto. Qed.
Hint Resolve strdup_refs : pres.
Lemma vreport_error_refs c m : pres refs_same (vreport_error c m).
Proof. unfold vreport_error. pres_auto. Qed.
Hint Resolve vreport_error_refs : pres.
Lemma report_error_refs c m : pres refs_same (report_error c m).
Proof. apply vreport_error_refs. Qed.
Hint Resolve report_error_refs : pres.
Lemma ERR_COND_refs b c : pres refs_same (ERR_COND b c).
Proof. unfold ERR_COND. pres_auto. Qed.
Lemma ERR_BAIL_refs : pres refs_same ERR_BAIL.
Proof. unfold ERR_BAIL. pres_auto. Qed.
Hint Resolve ERR_COND_refs ERR_BAIL_refs : pres.
Lemma ERR_COND_BAIL_refs b c : pres refs_same (ERR_COND_BAIL b c).
Proof. unfold ERR_COND_BAIL. pres_auto. Qed.
Lemma ERR_NOMEM_refs b : pres refs_same (ERR_NOMEM b).
Proof. unfold ERR_NOMEM. pres_auto. Qed.
Lemma ERR_THROW_refs b c m : pres refs_same (ERR_THROW b c m).
Proof. unfold ERR_THROW. pres_auto. Qed.
Lemma THROW_refs {A} c m : pres refs_same (THROW c m : M A).
Proof. unfold THROW. pres_auto. Qed.
Hint Resolve ERR_NOMEM_refs : pres.
Lemma nonnull_refs {A} (p : option A) : pres refs_same (nonnull p).
Proof. unfold nonnull. pres_auto. Qed.

(** ** Creation *)

Definition with_if s p nif (r : Z) : state :=
  {| ncf := set_ref r (ncf s); ncf_freed := ncf_freed s; ifs := <[p := nif]> (ifs s);
     next_if := S p; mem := mem s; tty := tty s; world := world s; xml := xml s |}.

Lemma make_netcf_if_run s name :
  make_netcf_if name s =
  let (b, s1) := malloc s in
  match b with
  | Ret true =>
      (Ret (Some (next_if s)),
       with_if s1 (next_if s) {| nif_ref := 1; nif_name := name; nif_mac := None |}
         (ref_incr (ncf_ref (ncf s))))
  | _ => (Ret None, set_ncf (set_err NETCF_ENOMEM (errdetails (ncf s)) (ncf s)) s1)
  end.
Proof.
  unfold make_netcf_if, make_ref_if, on_error, bind, malloc, nonnull, with_if.
  destruct (mem s) as [|[] l]; cbn; rewrite ?lookup_insert_eq; cbn; rewrite ?insert_insert_eq; done.
Qed.

Lemma make_netcf_if_keep name : pres err_keep (make_netcf_if name).
Proof.
  intros s. rewrite make_netcf_if_run. unfold malloc.
  destruct (mem s) as [|[] l]; cbn; [by apply err_keep_same..|by apply err_keep_fail].
Qed.

Lemma make_netcf_if_post name :
  post (fun r s => r = None -> failed s) (fun _ => False) (make_netcf_if name).
Proof. intros s. rewrite make_netcf_if_run. unfold malloc. by destruct (mem s) as [|[] l]. Qed.

Lemma closed_make_netcf_if name : closed (make_netcf_if name).
Proof. eapply post_mono; [apply make_netcf_if_post|done|done]. Qed.

Lemma refs_wf_with_if s p nif :
  refs_wf s -> p = next_if s -> nif_ref nif = 1 -> ncf_ref (ncf s) + 1 < REF_MAX ->
  refs_wf (with_if s p nif (ref_incr (ncf_ref (ncf s)))).
Proof.
  intros Hwf -> Hone Hlt. pose proof (wf_count _ Hwf) as Hc.
  assert (ifs s !! next_if s = None) as Hn by by apply (wf_fresh _ Hwf).
  assert (ref_incr (ncf_ref (ncf s)) = ncf_ref (ncf s) + 1) as Hi.
  { unfold ref_incr, REF_MAX in *. rewrite decide_False by lia. rewrite Z.mod_small; lia. }
  split; cbn.
  - apply Hwf.
  - rewrite Hi, map_size_insert_None by done. lia.
  - lia.
  - apply map_Forall_insert; [done|]. split; [done|apply Hwf].
  - intros q Hq. rewrite lookup_insert_ne by lia. apply (wf_fresh _ Hwf). lia.
Qed.

(** ** Release *)

Definition without_if s p : state :=
  set_ifs (delete p (ifs s)) (set_ncf (set_ref (ncf_ref (ncf s) - 1) (ncf s)) s).

Lemma unref_netcf_if_run s p nif :
  refs_wf s -> ifs s !! p = Some nif ->
  unref_netcf_if (Some p) s = (Ret tt, without_if s p).
Proof.
  intros Hwf Hp. pose proof (wf_one _ Hwf _ _ Hp) as Hone. simpl in Hone.
  pose proof (wf_count _ Hwf) as Hc. pose proof (wf_bound _ Hwf) as Hb.
  assert (Hsz : size (ifs s) <> 0%nat) by (intros E; apply map_size_empty_inv in E; rewrite E in Hp; by rewrite lookup_empty in Hp).
  unfold unref_netcf_if, bind, the_if, gets. cbn. rewrite Hp. cbn. rewrite Hone.
  rewrite decide_False by (unfold REF_MAX; lia). rewrite decide_False by lia. cbn.
  rewrite bool_decide_true by lia. cbn.
  unfold free_netcf_if, bind, the_if, gets. cbn. rewrite lookup_insert_eq. cbn.
  unfold unref_netcf, bind, gets. cbn. rewrite ?decide_True by lia. cbn. rewrite (wf_live _ Hwf). cbn.
  rewrite decide_False by lia. rewrite decide_False by lia. cbn.
  rewrite bool_decide_false by lia. cbn.
  unfold without_if, modify, set_ifs, set_ncf. cbn. by rewrite delete_insert_eq.
Qed.

Lemma refs_wf_without_if s p nif :
  refs_wf s -> ifs s !! p = Some nif -> refs_wf (without_if s p).
Proof.
  intros Hwf Hp. pose proof (wf_count _ Hwf) as Hc. pose proof (wf_bound _ Hwf) as Hb.
  assert (size (ifs s) = S (size (delete p (ifs s)))) as Hsz.
  { rewrite <- (insert_delete_id (ifs s) p nif Hp) at 1.
    by rewrite map_size_insert_None by apply lookup_delete_eq. }
  split; cbn.
  - apply Hwf.
  - lia.
  - lia.
  - apply map_Forall_delete, Hwf.
  - intros q Hq. destruct (decide (p = q)) as [->|]; [apply lookup_delete_eq|].
    rewrite lookup_delete_ne by done. apply (wf_fresh _ Hwf). done.
Qed.

(** Releasing interfaces one after the other, whatever the order *)
Lemma release_all ps : forall s, refs_wf s -> NoDup ps -> (forall p, p ∈ ps -> is_Some (ifs s !! p)) ->
  exists s', for_each (Some <$> ps) unref_netcf_if s = (Ret tt, s') /\
    refs_wf s' /\ (forall q, ifs s' !! q = if decide (q ∈ ps) then None else ifs s !! q).
Proof.
  induction ps as [|p ps IH]; intros s Hwf Hnd Hin; [by exists s|].
  apply NoDup_cons in Hnd as [Hp Hnd]. destruct (Hin p ltac:(by left)) as [nif Hl].
  pose proof (refs_wf_without_if s p nif Hwf Hl) as Hw1.
  destruct (IH (without_if s p) Hw1 Hnd) as (s' & Hr & Hw & Hi).
  { intros q Hq. cbn. rewrite lookup_delete_ne by (intros ->; done). apply Hin. by right. }
  exists s'. cbn [fmap list_fmap for_each]. rewrite (bind_Ret _ _ _ _ _ (unref_netcf_if_run s p nif Hwf Hl)).
  split; [exact Hr|]. split; [done|]. intros q. rewrite Hi. cbn.
  destruct (decide (q = p)) as [->|Hne].
  - rewrite (decide_True (P := p ∈ p :: ps)) by (by left). case_decide; [done|apply lookup_delete_eq].
  - rewrite lookup_delete_ne by done.
    destruct (decide (q ∈ ps)), (decide (q ∈ p :: ps)) as [He|He]; try done.
    + destruct He. by right.
    + by apply elem_of_cons in He as [?|?].
Qed.

Lemma with_without_if s p nif :
  refs_wf s -> p = next_if s ->
  ncf_ref (ncf s) + 1 < REF_MAX ->
  ifs (without_if (with_if s p nif (ref_incr (ncf_ref (ncf s)))) p) = ifs s /\
  ncf (without_if (with_if s p nif (ref_incr (ncf_ref (ncf s)))) p) = ncf s.
Proof.
  intros Hwf -> Hlt. cbn. split.
  - rewrite delete_insert_id; [done|by apply (wf_fresh _ Hwf)].
  - pose proof (wf_count _ Hwf).
    unfold ref_incr, REF_MAX in *. rewrite decide_False by lia. rewrite Z.mod_small by lia.
    destruct (ncf s). unfold set_ref. cbn in *. f_equal. lia.
Qed.
End refs_ops.

#[export] Hint Resolve strdup_refs xasprintf_refs printf_refs vreport_error_refs
  report_error_refs ERR_COND_refs ERR_BAIL_refs ERR_COND_BAIL_refs ERR_NOMEM_refs
  ERR_THROW_refs THROW_refs nonnull_refs make_netcf_if_keep : pres.
#[export] Hint Resolve closed_make_netcf_if : fails.

(** ** What operations may do to the state

    [steady]: the error discipline is respected and no interface is created or
    released. [grows]: interfaces may come and go, but their counters stay
    right as long as the address space of the counter is not exhausted. *)

Section evolution.
Context `{Host}.
Implicit Types s : state.

Definition steady s s' : Prop := err_keep s s' /\ refs_same s s'.

#[global] Instance steady_preorder : PreOrder steady.
Proof. split; unfold steady; [split; reflexivity|]. intros x y z [] []. split; by etransitivity. Qed.

Lemma pres_steady {A} (m : M A) : pres err_keep m -> pres refs_same m -> pres steady m.
Proof. intros Hk Hr s. split; auto. Qed.

Lemma steady_intro s s' : err_keep s s' -> refs_same s s' -> steady s s'.
Proof. by split. Qed.

(** Fewer interfaces have been allocated than the counter can count. *)
Definition room s : Prop := Z.of_nat (next_if s) + 2 < REF_MAX.

Definition grows s s' : Prop :=
  err_keep s s' /\ (next_if s <= next_if s')%nat /\ (room s' -> refs_wf s -> refs_wf s').

#[global] Instance grows_preorder : PreOrder grows.
Proof.
  split; unfold grows, room.
  - intros s. split; [reflexivity|]. auto.
  - intros x y z (Hk1 & Hn1 & Hw1) (Hk2 & Hn2 & Hw2).
    split; [by etransitivity|]. split; [lia|]. intros Hr Hw. apply Hw2, Hw1; auto; lia.
Qed.

Lemma steady_grows s s' : steady s s' -> grows s s'.
Proof.
  intros [Hk Hr]. split; [done|]. pose proof Hr as (_ & _ & _ & Hn).
  split; [lia|]. intros _. by apply refs_same_wf.
Qed.

Lemma pres_grows {A} (m : M A) : pres steady m -> pres grows m.
Proof. intros Hm s. apply steady_grows, Hm. Qed.

Lemma refs_wf_size s : refs_wf s -> (size (ifs s) <= next_if s)%nat.
Proof.
  intros Hwf. rewrite <- size_dom.
  rewrite <- (size_set_seq (C := gset nat) 0 (next_if s)). apply subseteq_size.
  intros p Hp. apply elem_of_set_seq. split; [lia|].
  destruct (decide (p < next_if s)%nat) as [|Hge]; [lia|].
  apply elem_of_dom in Hp as [nif Hp]. rewrite (wf_fresh _ Hwf) in Hp by lia. done.
Qed.

Lemma make_netcf_if_grows name : pres grows (make_netcf_if name).
Proof.
  intros s. pose proof (make_netcf_if_keep name s) as Hk. pose proof (malloc_refs s) as Hm.
  revert Hk. rewrite make_netcf_if_run. destruct (malloc s) as [o s1]. simpl in Hm.
  destruct Hm as (Hf & Hr & Hi & Hn).
  destruct o as [[]| |w]; cbn; intros Hk; (split; [exact Hk|]; cbn; split; [lia|]; intros Hroom Hwf);
    try (apply (refs_same_wf s); [by repeat split|done]).
  unfold room in Hroom. cbn in Hroom. pose proof (refs_wf_size s Hwf). pose proof (wf_count s Hwf).
  rewrite <- Hn, <- Hr. apply refs_wf_with_if; try done.
  - by apply (refs_same_wf s).
  - lia.
Qed.

Lemma unref_netcf_if_refs op s : refs_wf s ->
  (unref_netcf_if op s).2 = s \/
  exists p nif, op = Some p /\ ifs s !! p = Some nif /\ (unref_netcf_if op s).2 = without_if s p.
Proof.
  intros Hwf. destruct op as [p|]; [|by left]. destruct (ifs s !! p) as [nif|] eqn:Hp.
  - right. exists p, nif. by rewrite (unref_netcf_if_run s p nif).
  - left. unfold unref_netcf_if, bind, the_if, gets. cbn. by rewrite Hp.
Qed.

Lemma free_netcf_keep : pres err_keep free_netcf.
Proof. unfold free_netcf. pres_auto. Qed.
Hint Resolve free_netcf_keep : pres.
Lemma unref_netcf_keep : pres err_keep unref_netcf.
Proof. unfold unref_netcf. pres_auto. Qed.
Hint Resolve unref_netcf_keep : pres.
Lemma unref_netcf_if_keep op : pres err_keep (unref_netcf_if op).
Proof. unfold unref_netcf_if, put_if, free_netcf_if, the_if. pres_auto. Qed.
Lemma free_netcf_next s : next_if (free_netcf s).2 = next_if s.
Proof. unfold free_netcf, bind, gets. cbn. by destruct (decide _). Qed.
End evolution.

Section evolution_ops.
Context `{Host}.
Implicit Types s : state.

Definition next_same s s' : Prop := next_if s' = next_if s.
#[local] Instance next_same_preorder : PreOrder next_same.
Proof. split; unfold next_same; [done|]. intros x y z. congruence. Qed.

Lemma unref_netcf_if_next op : pres next_same (unref_netcf_if op).
Proof.
  unfold unref_netcf_if, put_if, free_netcf_if, the_if, unref_netcf, free_netcf.
  repeat first [pres_step | apply pres_modify; by intros ?].
Qed.

Lemma unref_netcf_if_grows op : pres grows (unref_netcf_if op).
Proof.
  intros s. split; [apply unref_netcf_if_keep|]. pose proof (unref_netcf_if_next op s) as Hn.
  unfold next_same in Hn. split; [lia|]. intros _ Hwf.
  destruct (unref_netcf_if_refs op s Hwf) as [->|(p & nif & _ & Hp & ->)]; [done|].
  by apply (refs_wf_without_if s p nif).
Qed.

Lemma the_if_steady p : pres steady (the_if p).
Proof. unfold the_if. pres_auto. Qed.

(** [nif->name] *)
Definition if_name (p : nat) : M string := nif ← the_if p; ret (nif_name nif).

Lemma if_name_ret s p nif : ifs s !! p = Some nif -> if_name p s = (Ret (nif_name nif), s).
Proof. intros Hp. unfold if_name, the_if, bind, gets. cbn. by rewrite Hp. Qed.

Lemma if_name_steady p : pres steady (if_name p).
Proof. unfold if_name, the_if. pres_auto. Qed.

(** An update of [nif->mac] *)
Definition set_mac (p : nat) (m : option string) : M unit :=
  nif ← the_if p; put_if p (set_nif_mac m nif).

Lemma set_mac_grows p m : pres grows (set_mac p m).
Proof.
  intros s. unfold set_mac, the_if, bind, gets. cbn. destruct (ifs s !! p) as [nif|] eqn:Hp; cbn; [|reflexivity].
  split; [by apply err_keep_same|]. split; [done|]. intros _ Hwf.
  pose proof (wf_count s Hwf). split; cbn.
  - apply Hwf.
  - rewrite map_size_insert_Some by eauto. lia.
  - apply Hwf.
  - apply map_Forall_insert_2; [|apply Hwf]. cbn. by apply (wf_one s Hwf p nif).
  - intros q Hq. rewrite lookup_insert_ne; [by apply (wf_fresh s Hwf)|].
    intros ->. by rewrite (wf_fresh s Hwf) in Hp.
Qed.

Lemma closed_the_if p : closed (the_if p).
Proof. unfold the_if. fails_auto. Qed.
Lemma closed_unref_netcf_if op : closed (unref_netcf_if op).
Proof. unfold unref_netcf_if, put_if, free_netcf_if, the_if, unref_netcf, free_netcf. fails_auto. Qed.
Lemma closed_if_name p : closed (if_name p).
Proof. unfold if_name, the_if. fails_auto. Qed.
Lemma closed_set_mac p m : closed (set_mac p m).
Proof. unfold set_mac, the_if, put_if. fails_auto. Qed.
End evolution_ops.

#[export] Hint Extern 1 (steady _ _) =>
  apply steady_intro; [apply err_keep_same|repeat split]; reflexivity : pres.
#[export] Hint Extern 1 (grows _ _) =>
  apply steady_grows, steady_intro; [apply err_keep_same|repeat split]; reflexivity : pres.
#[export] Hint Resolve pres_steady | 8 : pres.
#[export] Hint Resolve pres_grows | 9 : pres.
#[export] Hint Resolve make_netcf_if_grows unref_netcf_if_grows the_if_steady if_name_steady
  set_mac_grows unref_netcf_if_keep : pres.
#[export] Hint Resolve closed_the_if closed_unref_netcf_if closed_if_name closed_set_mac : fails.
