(* ===== verification/Toy.v ===== *)
(** * A small concrete host

    Instances of the parameters of the development, for the witnesses: a
    machine that logs the programs it runs, all of which end with the same exit
    code, and an Augeas tree given by its nodes and by the answers to the path
    expressions it is asked. *)

From S2P Require Import Prelude CStr State Transaction TransactionSpec.

Record toy_sys := {
  t_runs : list (list string);        (** programs run, in order *)
  t_exit : Z;                         (** how they all end *)
  t_intr : nat;                       (** interruptions before a wait succeeds *)
  t_waitfail : bool;                  (** does the wait fail instead? *)
  t_closed : list Z;                  (** descriptors closed, in order *)
  t_flags : list (string * Z);        (** interfaces and their flags *)
  t_saved : nat;                      (** how often the tree was saved *)
  t_files : gmap string string;       (** files and their contents *)
  t_disk : toy_fs                     (** the directories of the transaction script *)
}.

Record toy_aug := {
  t_match : list (string * list string);   (** answers to path expressions *)
  t_value : list (string * string);        (** values of nodes *)
  t_ops : list (string * string)           (** changes made: path, value *)
}.

(** An XML node of the toy libxml2; a document is a node without a name. *)
Record xelem := {
  x_name : string;
  x_text : bool;
  x_props : list (string * string);
  x_kids : list nat
}.

#[global] Instance toy_host : Host :=
  {| sys := toy_sys; aug := toy_aug; sheet := string; rng_t := unit;
     xmem := gmap nat xelem; doc := nat; node := nat |}.

Definition toy_disk : toy_fs := disk (toy_sh toy_ifcfgs None []).

Definition toy_os : toy_sys :=
  {| t_runs := []; t_exit := 0; t_intr := 0; t_waitfail := false; t_closed := [];
     t_flags := [("eth0", 65); ("br0", 65); ("eth1", 0)]; t_saved := 0;
     t_files := ∅; t_disk := toy_disk |}.

Definition toy_driver (a : toy_aug) : driver :=
  {| augeas := Some a; put := None; get := None; ioctl_fd := 5; nl_sock := true;
     link_cache := true; addr_cache := true;
     load_augeas := false; copy_augeas_xfm := false; augeas_xfm_tables := [] |}.

Definition toy_netcf (a : toy_aug) : netcf :=
  {| ncf_ref := 1; ncf_root := Some "/"; data_dir := "/usr/share/netcf"; rng := Some tt;
     errcode := NETCF_NOERROR; errdetails := None; ncf_driver := Some (toy_driver a);
     debug := false |}.

Definition toy_state (os : toy_sys) (a : toy_aug) : state :=
  {| ncf := toy_netcf a; ncf_freed := false; ifs := ∅; next_if := 0; mem := []; tty := [];
     world := os; xml := ∅ |}.

Definition toy_empty : toy_aug := {| t_match := []; t_value := []; t_ops := [] |}.

Fixpoint assoc {A} (l : list (string * A)) (k : string) : option A :=
  match l with
  | [] => None
  | (k', a) :: l' => if STREQ k k' then Some a else assoc l' k
  end.

Lemma first_error_wins_witness :
  exists s', for_each [(NETCF_EFILE, "one"); (NETCF_EEXEC, "two")]
               (fun e => report_error e.1 e.2) (toy_state toy_os toy_empty) = (Ret tt, s') /\
    (err s', errdetails (ncf s')) = (NETCF_EFILE, Some "one").
Proof.
  apply (@first_error_wins toy_host [(NETCF_EFILE, "one"); (NETCF_EEXEC, "two")]
           (toy_state toy_os toy_empty) eq_refl eq_refl eq_refl).
  repeat constructor; discriminate.
Defined.
