(* ===== verification/Posix.v ===== *)
(** * Running programs (dutil_posix.c, argv_to_string of dutil.c)

    [exec_program] forks a child that becomes the program, [run_program] waits
    for it and turns the way it ended into a netcf error. The operating system
    is a parameter: what each call returns, and how it changes [sys]. *)

From S2P Require Import Prelude CStr State Refs Toy.

Definition EXIT_DUP2 : Z := 124.
Definition EXIT_SIGMASK : Z := 125.
Definition EXIT_CANNOT_INVOKE : Z := 126.
Definition EXIT_ENOENT : Z := 127.
Definition EXIT_INVALID_IN_THIS_STATE : Z := 199.

(** What [execvp] leads to: it fails (with ENOENT or not), or the program runs
    and ends with a wait status. *)
Inductive exec_result := ExecFailed (enoent : bool) | ExecRan (wstatus : Z).

(** What one [waitpid] returns. *)
Inductive wait_result := WaitEINTR | WaitFailed | WaitDone.

Class Posix `{Host} := {
  strerror : sys -> string;                        (** [strerror_r(errno, ...)] *)
  pipe : sys -> option (Z * Z) * sys;
  sigmask_block : sys -> bool * sys;               (** block all signals: succeeded? *)
  fork : sys -> Z * sys;                           (** the parent's result *)
  sigmask_restore : sys -> bool * sys;
  close : Z -> sys -> sys;
  child_unmask : sys -> bool;                      (** in the child: succeeded? *)
  child_dup2 : sys -> bool;                        (** both [dup2] succeeded? *)
  execvp : list string -> sys -> exec_result * sys;
  child_output : list string -> sys -> string;     (** what the child wrote *)
  fdopen : Z -> sys -> bool;
  fread_file : sys -> bool;
  waitpid : Z -> sys -> list wait_result;          (** the successive results *)
  stack_status : Z;                                (** the uninitialised [exitstatus] *)
  socket_inet : sys -> Z * sys;                    (** [socket(AF_INET, SOCK_STREAM, 0)] *)
  fcntl_getfd : Z -> sys -> Z;
  fcntl_setfd : Z -> Z -> sys -> Z * sys
}.

Definition FD_CLOEXEC : Z := 1.

(** ** Wait statuses (sys/wait.h) *)
Definition WIFEXITED (st : Z) : bool := Z.land st 0x7f =? 0.
Definition WEXITSTATUS (st : Z) : Z := Z.shiftr (Z.land st 0xff00) 8.
Definition WTERMSIG (st : Z) : Z := Z.land st 0x7f.
Definition WIFSIGNALED (st : Z) : bool := (1 <=? Z.land st 0x7f) && (Z.land st 0x7f <=? 126).

(** The wait status of [_exit(code)] *)
Definition exit_status (code : Z) : Z := Z.shiftl (Z.land code 0xff) 8.

(** A running child, as its parent will find it: how it ends and what can be
    read from the pipe. *)
Record child := { child_pid : Z; child_fd : Z; child_status : Z; child_text : string }.

Section posix.
Context `{Posix}.

(** A call that may change the world. *)
Definition syscall {A} (f : sys -> A * sys) : M A :=
  fun s => let (a, w) := f (world s) in (Ret a, set_world w s).

Definition close_fd (fd : Z) : M unit := syscall (fun w => (tt, close fd w)).

(** [argv_to_string]: the length computed first, then the copy. *)
Definition argv_len (argv : list string) : Z :=
  fold_left (fun len a => len + (strlen a + 1)) argv 1.

Fixpoint argv_copy (i : nat) (argv : list string) : string :=
  match argv with
  | [] => ""
  | a :: argv' => (if decide (i = O) then "" else " ") +:+ a +:+ argv_copy (S i) argv'
  end.

Definition argv_to_string (argv : list string) : M (option string) :=
  b ← malloc; ret (if (b : bool) then Some (argv_copy 0 argv) else None).

(** What happens in the child after [fork]: the wait status its parent gets. *)
Definition exec_child (argv : list string) (w : sys) : Z * sys :=
  if negb (child_unmask w) then (exit_status EXIT_SIGMASK, w)
  else if negb (child_dup2 w) then (exit_status EXIT_DUP2, w)
  else match execvp argv w with
       | (ExecFailed true, w') => (exit_status EXIT_ENOENT, w')
       | (ExecFailed false, w') => (exit_status EXIT_CANNOT_INVOKE, w')
       | (ExecRan st, w') => (st, w')
       end.

(** [exec_program] with [outfd]: the child, or nothing and an error. *)
Definition exec_program (argv : list string) (commandline : string) : M (option child) :=
  opipe ← syscall pipe;
  match opipe with
  | None =>
      (* both ends of [pipeout] are still -1 *)
      errbuf ← gets (fun s => strerror (world s));
      report_error NETCF_EEXEC
        ("failed to create pipe while forking for '" +:+ commandline +:+ "': " +:+ errbuf) ;;
      ret None
  | Some (rd, wr) =>
      on_error
        (blocked ← syscall sigmask_block;
         when (negb blocked)
           (errbuf ← gets (fun s => strerror (world s));
            report_error NETCF_EEXEC
              ("failed to set signal mask while forking for '" +:+ commandline +:+ "': "
               +:+ errbuf) ;;
            goto_error) ;;
         pid ← syscall fork;
         errbuf ← gets (fun s => strerror (world s));
         ERR_THROW (pid <? 0) NETCF_EEXEC
           ("failed to fork for '" +:+ commandline +:+ "': " +:+ errbuf) ;;
         text ← gets (fun s => child_output argv (world s));
         status ← syscall (exec_child argv);
         restored ← syscall sigmask_restore;
         errbuf ← gets (fun s => strerror (world s));
         ERR_THROW (negb restored) NETCF_EEXEC
           ("failed to restore signal mask while forking for '" +:+ commandline +:+ "': "
            +:+ errbuf) ;;
         close_fd wr ;;
         ret (Some {| child_pid := pid; child_fd := rd; child_status := status;
                      child_text := text |}))
        (close_fd rd ;; close_fd wr ;; ret None)
  end.

(** [while ((waitret = waitpid(...) == -1) && errno == EINTR);] as parsed by
    the compiler: [waitret] is the truth value of [waitpid(...) == -1]. The
    result is [waitret] and [exitstatus]. *)
Fixpoint wait_loop (rs : list wait_result) (status exitstatus : Z) : option (Z * Z) :=
  match rs with
  | [] => None
  | WaitEINTR :: rs' => wait_loop rs' status exitstatus
  | WaitFailed :: _ => Some (1, exitstatus)
  | WaitDone :: _ => Some (0, status)
  end.

(** The errors thrown after the child is waited for. *)
Definition check_status (argv_str : string) (out : string) (exitstatus : Z) : M unit :=
  ERR_THROW (negb (WIFEXITED exitstatus) && WIFSIGNALED exitstatus) NETCF_EEXEC
    ("'" +:+ argv_str +:+ "' terminated by signal: " +:+ fmt_d (WTERMSIG exitstatus)) ;;
  ERR_THROW (negb (WIFEXITED exitstatus)) NETCF_EEXEC
    ("'" +:+ argv_str +:+ "' terminated improperly") ;;
  ERR_THROW (WEXITSTATUS exitstatus =? EXIT_ENOENT) NETCF_EEXEC
    ("Running '" +:+ argv_str +:+ "' program not found") ;;
  ERR_THROW (WEXITSTATUS exitstatus =? EXIT_CANNOT_INVOKE) NETCF_EEXEC
    ("Running '" +:+ argv_str +:+ "' program located but not usable") ;;
  ERR_THROW (WEXITSTATUS exitstatus =? EXIT_SIGMASK) NETCF_EEXEC
    ("Running '" +:+ argv_str +:+ "' failed to reset child process signal mask") ;;
  ERR_THROW (WEXITSTATUS exitstatus =? EXIT_DUP2) NETCF_EEXEC
    ("Running '" +:+ argv_str +:+ "' failed to dup2 child process stdout/stderr") ;;
  ERR_THROW (WEXITSTATUS exitstatus =? EXIT_INVALID_IN_THIS_STATE) NETCF_EINVALIDOP
    ("Running '" +:+ argv_str +:+ "' operation is invalid in this state") ;;
  ERR_THROW (negb (WEXITSTATUS exitstatus =? 0)) NETCF_EEXEC
    ("Running '" +:+ argv_str +:+ "' failed with exit code "
     +:+ fmt_d (WEXITSTATUS exitstatus) +:+ ": " +:+ out).

(** The body of [run_program] from the [ERR_BAIL] after [exec_program] on;
    the stream is closed before the wait. *)
Definition collect_child (argv_str : string) (ochild : option child) : M Z :=
  ERR_BAIL ;;
  match ochild with
  | None => halt (UB "fdopen of a file descriptor that was never opened")
  | Some c =>
      printf ("Attempting to execute " +:+ argv_str +:+ nl) ;;
      opened ← gets (fun s => fdopen (child_fd c) (world s));
      errbuf ← gets (fun s => strerror (world s));
      ERR_THROW (negb opened) NETCF_EEXEC
        ("Failed to create file stream for output while executing '"
         +:+ argv_str +:+ "': " +:+ errbuf) ;;
      output ← gets (fun s => fread_file (world s));
      errbuf ← gets (fun s => strerror (world s));
      ERR_THROW (negb output) NETCF_EEXEC
        ("Error while reading output from execution of '" +:+ argv_str +:+ "': " +:+ errbuf) ;;
      close_fd (child_fd c) ;;
      rs ← gets (fun s => waitpid (child_pid c) (world s));
      match wait_loop rs (child_status c) stack_status with
      | None => halt Hang
      | Some (waitret, exitstatus) =>
          errbuf ← gets (fun s => strerror (world s));
          ERR_THROW (waitret =? -1) NETCF_EEXEC
            ("Failed waiting for completion of '" +:+ argv_str +:+ "': " +:+ errbuf) ;;
          check_status argv_str (child_text c) exitstatus ;;
          ret 0
      end
  end.

(** [run_program(ncf, argv, NULL)]. The [error:] label is reached on success
    too; it closes the stream if it is still open and [outfd] otherwise, so a
    descriptor whose stream is closed already is closed again. *)
Definition run_program (argv : list string) : M Z :=
  oargv_str ← argv_to_string argv;
  on_error
    (argv_str ← nonnull oargv_str;
     ochild ← exec_program argv argv_str;
     r ← on_error (collect_child argv_str ochild) (ret (-1));
     match ochild with
     | Some c => close_fd (child_fd c)
     | None => ret tt
     end ;;
     ret r)
    (ret (-1)).

(** [run1]: the result is ignored, the error stays in [ncf]. *)
Definition run1 (prog arg : string) : M unit := run_program [prog; arg] ;; ret tt.

Definition init_ioctl_fd : M Z :=
  ioctl_fd ← syscall socket_inet;
  on_error
    (ERR_THROW (ioctl_fd <? 0) NETCF_EINTERNAL "failed to open socket for interface ioctl" ;;
     flags ← gets (fun s => fcntl_getfd ioctl_fd (world s));
     ERR_THROW (flags <? 0) NETCF_EINTERNAL "failed to get flags for ioctl socket" ;;
     flags ← syscall (fcntl_setfd ioctl_fd (Z.lor flags FD_CLOEXEC));
     ERR_THROW (flags <? 0) NETCF_EINTERNAL "failed to set FD_CLOEXEC flag on ioctl socket" ;;
     ret ioctl_fd)
    (when (0 <=? ioctl_fd) (close_fd ioctl_fd) ;; ret (-1)).
End posix.

(** ** Laws *)

Section posix_laws.
Context `{Posix}.

Lemma syscall_keep {A} (f : sys -> A * sys) : pres err_keep (syscall f).
Proof. intros s. unfold syscall. destruct (f (world s)). by apply err_keep_same. Qed.
Lemma syscall_refs {A} (f : sys -> A * sys) : pres refs_same (syscall f).
Proof. intros s. unfold syscall. by destruct (f (world s)). Qed.
Lemma closed_syscall {A} (f : sys -> A * sys) : closed (syscall f).
Proof. intros s. unfold syscall. by destruct (f (world s)). Qed.

Hint Resolve syscall_keep syscall_refs : pres.
Hint Resolve closed_syscall : fails.

Lemma exec_program_keep argv c : pres err_keep (exec_program argv c).
Proof. unfold exec_program, close_fd. pres_auto. Qed.
Lemma exec_program_refs argv c : pres refs_same (exec_program argv c).
Proof. unfold exec_program, close_fd. pres_auto. Qed.
Hint Resolve exec_program_keep exec_program_refs : pres.

Lemma run_program_keep argv : pres err_keep (run_program argv).
Proof. unfold run_program, argv_to_string, collect_child, check_status, close_fd. pres_auto. Qed.
Lemma run_program_refs argv : pres refs_same (run_program argv).
Proof. unfold run_program, argv_to_string, collect_child, check_status, close_fd. pres_auto. Qed.
Hint Resolve run_program_keep run_program_refs : pres.
Lemma run1_keep p a : pres err_keep (run1 p a).
Proof. unfold run1. pres_auto. Qed.
Lemma run1_refs p a : pres refs_same (run1 p a).
Proof. unfold run1. pres_auto. Qed.
Lemma init_ioctl_fd_keep : pres err_keep init_ioctl_fd.
Proof. unfold init_ioctl_fd, close_fd. pres_auto. Qed.
Lemma init_ioctl_fd_refs : pres refs_same init_ioctl_fd.
Proof. unfold init_ioctl_fd, close_fd. pres_auto. Qed.
End posix_laws.

#[export] Hint Resolve syscall_keep syscall_refs exec_program_keep exec_program_refs
  run_program_keep run_program_refs run1_keep run1_refs init_ioctl_fd_keep
  init_ioctl_fd_refs : pres.
#[export] Hint Resolve closed_syscall : fails.

(** ** What [run_program] reports *)

Section posix_spec.
Context `{Posix}.
Implicit Types s : state.

Lemma exec_program_post argv c :
  post (fun r s => r = None -> failed s) (fun _ => False) (exec_program argv c).
Proof.
  unfold exec_program, close_fd. apply post_bind; [fails_auto|intros [[rd wr]|]].
  - apply post_on_error with (E := failed); [|by intros s0 Hs0; cbn].
    apply post_bind; [fails_auto|intros b]. apply post_bind.
    { destruct b; [by apply post_ret|]. apply post_bind; [fails_auto|intros e].
      eapply post_bind_dep; [eapply post_mono; [by apply report_error_post|done|done]|done]. }
    intros _. repeat (apply post_bind; [fails_auto|intros ?]). by apply post_ret.
  - apply post_bind; [fails_auto|intros e].
    eapply post_bind_dep; [by apply report_error_post|]. by intros a s Hs _.
Qed.

Lemma closed_exec_program argv c : closed (exec_program argv c).
Proof. eapply post_mono; [apply exec_program_post|done|done]. Qed.
Hint Resolve closed_exec_program : fails.

Lemma collect_child_post str oc : post (fun r _ => 0 <= r) failed (collect_child str oc).
Proof.
  unfold collect_child, check_status, close_fd. apply post_bind; [fails_auto|intros _].
  destruct oc as [c|]; [|by intros s].
  repeat (apply post_bind; [fails_auto|intros ?]).
  destruct (wait_loop _ _ _) as [[wr st]|]; [|by intros s].
  repeat (apply post_bind; [fails_auto|intros ?]). by apply post_ret.
Qed.

Lemma closed_close_fd fd : closed (close_fd fd).
Proof. unfold close_fd. auto with fails. Qed.
Hint Resolve closed_close_fd : fails.

Lemma run_program_reports argv : reports (run_program argv).
Proof.
  unfold run_program, reports. apply post_bind.
  { unfold argv_to_string. fails_auto. }
  intros ostr. eapply post_on_error with (E := failed).
  2:{ intros s Hs. cbn. done. }
  apply post_bind; [fails_auto|intros str].
  apply post_bind; [fails_auto|intros oc].
  intros s. unfold bind. pose proof (collect_child_post str oc s) as Hc.
  unfold on_error. destruct (collect_child str oc s) as [[r| |w] s1]; cbn; [|destruct oc; by cbn|done].
  destruct oc; cbn; intros; lia.
Qed.

Lemma closed_run1 p a : closed (run1 p a).
Proof.
  unfold run1. apply closed_bind; [apply reports_closed, run_program_reports|].
  intros _. apply closed_ret.
Qed.

Lemma init_ioctl_fd_reports : reports init_ioctl_fd.
Proof.
  unfold init_ioctl_fd, reports. apply post_bind; [fails_auto|intros fd].
  eapply post_on_error with (E := failed).
  - destruct (Z.ltb_spec fd 0).
    + intros s. unfold bind. pose proof (ERR_THROW_post true NETCF_EINTERNAL
        "failed to open socket for interface ioctl" ltac:(done) s) as Ht.
      destruct (ERR_THROW true _ _ s) as [[]?]; done.
    + repeat (apply post_bind; [fails_auto|intros ?]). apply post_ret. intros. lia.
  - intros s Hs. destruct (0 <=? fd); cbn; done.
Qed.

(** The child has been started: the parent's calls all succeeded. *)
Definition spawns (argv : list string) (w : sys) (c : child) (w' : sys) : Prop :=
  exists rd wr pid w1 w2 w3 w4 w5 st,
    pipe w = (Some (rd, wr), w1) /\ sigmask_block w1 = (true, w2) /\
    fork w2 = (pid, w3) /\ 0 < pid /\ exec_child argv w3 = (st, w4) /\
    sigmask_restore w4 = (true, w5) /\ w' = close wr w5 /\
    c = {| child_pid := pid; child_fd := rd; child_status := st;
           child_text := child_output argv w3 |}.

Lemma exec_program_run argv str s c w' :
  spawns argv (world s) c w' ->
  exec_program argv str s = (Ret (Some c), set_world w' s).
Proof.
  intros (rd & wr & pid & w1 & w2 & w3 & w4 & w5 & st & Hp & Hb & Hf & Hpid & He & Hr & -> & ->).
  unfold exec_program, on_error, bind, syscall, close_fd, gets. cbn. rewrite Hp. cbn.
  rewrite Hb. cbn. rewrite Hf. cbn. rewrite (proj2 (Z.ltb_ge pid 0)) by lia. cbn.
  rewrite He. cbn. rewrite Hr. done.
Qed.

(** The error a program's exit code stands for. *)
Definition exit_error (code : Z) : netcf_errcode_t :=
  if code =? 0 then NETCF_NOERROR
  else if code =? EXIT_INVALID_IN_THIS_STATE then NETCF_EINVALIDOP
  else NETCF_EEXEC.

Lemma exit_status_decode code :
  0 <= code < 256 ->
  WIFEXITED (exit_status code) = true /\ WEXITSTATUS (exit_status code) = code.
Proof.
  intros Hc.
  assert (Hall : forallb (fun n => WIFEXITED (exit_status (Z.of_nat n)) &&
                   (WEXITSTATUS (exit_status (Z.of_nat n)) =? Z.of_nat n)) (seq 0 256) = true)
    by (vm_compute; reflexivity).
  rewrite forallb_forall in Hall. specialize (Hall (Z.to_nat code)).
  rewrite Z2Nat.id in Hall by lia.
  apply andb_true_iff in Hall as [Ha Hb]; [|apply in_seq; lia]. apply Z.eqb_eq in Hb. done.
Qed.

Lemma ERR_THROW_false c m s : ERR_THROW false c m s = (Ret tt, s).
Proof. done. Qed.

Lemma ERR_THROW_true c m s :
  err s = NETCF_NOERROR -> errdetails (ncf s) = None -> mem s = [] ->
  ERR_THROW true c m s = (Bail, set_ncf (set_err c (Some m) (ncf s)) s).
Proof.
  intros He Hd Hm. unfold ERR_THROW, when, report_error, vreport_error, set_errcode, strdup, malloc,
    bind, gets, modify, goto_error. cbn. rewrite He, decide_True by done. cbn. rewrite Hd. cbn. by rewrite Hm.
Qed.

Lemma ERR_BAIL_ok s : err s = NETCF_NOERROR -> ERR_BAIL s = (Ret tt, s).
Proof. intros He. unfold ERR_BAIL, bind, gets. by rewrite decide_True. Qed.

(** One throw of a chain, when its condition is known. *)
Lemma throw_step c m (k : M unit) b s :
  b = false -> (ERR_THROW b c m ;; k) s = k s.
Proof. by intros ->. Qed.

Lemma throw_stop c m (k : M unit) b s :
  b = true -> err s = NETCF_NOERROR -> errdetails (ncf s) = None -> mem s = [] ->
  exists d, (ERR_THROW b c m ;; k) s = (Bail, set_ncf (set_err c d (ncf s)) s).
Proof.
  intros -> He Hd Hm. exists (Some m). unfold bind at 1. by rewrite ERR_THROW_true.
Qed.

Lemma check_status_run str out code s :
  0 <= code < 256 -> err s = NETCF_NOERROR -> errdetails (ncf s) = None -> mem s = [] ->
  (code = 0 -> check_status str out (exit_status code) s = (Ret tt, s)) /\
  (code <> 0 -> exists d, check_status str out (exit_status code) s =
                 (Bail, set_ncf (set_err (exit_error code) d (ncf s)) s)).
Proof.
  intros Hc He Hd Hm. destruct (exit_status_decode code Hc) as [Hx Hs].
  unfold check_status. rewrite Hx, Hs. split; [by intros ->|]. intros Hne.
  rewrite !(throw_step NETCF_EEXEC _ _ (negb true && _)) by done.
  rewrite throw_step by done. unfold exit_error. rewrite (proj2 (Z.eqb_neq code 0)) by done.
  destruct (Z.eqb_spec code EXIT_ENOENT) as [->|H1]; [by apply throw_stop|].
  rewrite throw_step by done.
  destruct (Z.eqb_spec code EXIT_CANNOT_INVOKE) as [->|H2]; [by apply throw_stop|].
  rewrite throw_step by done.
  destruct (Z.eqb_spec code EXIT_SIGMASK) as [->|H3]; [by apply throw_stop|].
  rewrite throw_step by done.
  destruct (Z.eqb_spec code EXIT_DUP2) as [->|H4]; [by apply throw_stop|].
  rewrite throw_step by done.
  destruct (Z.eqb_spec code EXIT_INVALID_IN_THIS_STATE) as [->|H5]; [by apply throw_stop|].
  rewrite throw_step by done.
  rewrite ERR_THROW_true by done. eauto.
Qed.

(** A program that is started and whose wait ends with exit code [code]. *)
Lemma run_program_run argv s c w' wr code :
  err s = NETCF_NOERROR -> errdetails (ncf s) = None -> mem s = [] ->
  spawns argv (world s) c w' ->
  fdopen (child_fd c) w' = true -> fread_file w' = true ->
  wait_loop (waitpid (child_pid c) (close (child_fd c) w')) (child_status c) stack_status
    = Some (wr, exit_status code) ->
  wr <> -1 -> 0 <= code < 256 ->
  exists s', run_program argv s = (Ret (if code =? 0 then 0 else -1), s') /\
    err s' = exit_error code /\
    world s' = close (child_fd c) (close (child_fd c) w').
Proof.
  intros He Hd Hm Hsp Hfd Hrd Hw Hwr Hcode.
  unfold run_program. rewrite (bind_Ret _ _ s (Some (argv_copy 0 argv)) s)
    by (unfold argv_to_string, bind, malloc; by rewrite Hm).
  set (str := argv_copy 0 argv).
  set (s1 := set_tty (tty s ++ ["Attempting to execute " +:+ str +:+ nl])
               (set_world (close (child_fd c) w') s)).
  assert (collect_child str (Some c) (set_world w' s)
          = (check_status str (child_text c) (exit_status code) ;; ret 0) s1) as Hcol.
  { unfold collect_child. rewrite (bind_Ret _ _ _ _ _ (ERR_BAIL_ok (set_world w' s) He)).
    unfold bind at 1. cbn -[check_status]. unfold bind at 1, gets at 1. cbn -[check_status].
    rewrite Hfd. unfold bind, gets. cbn -[check_status]. rewrite Hrd. cbn -[check_status].
    unfold close_fd, syscall. cbn -[check_status]. rewrite Hw.
    rewrite (proj2 (Z.eqb_neq wr (-1))) by done. done. }
  assert (He1 : err s1 = NETCF_NOERROR) by done.
  destruct (check_status_run str (child_text c) code s1 Hcode He1 Hd Hm) as [Hz Hn].
  unfold on_error at 1, nonnull. rewrite bind_ret_l.
  rewrite (bind_Ret _ _ _ _ _ (exec_program_run argv str s c w' Hsp)).
  unfold bind at 1, on_error. rewrite Hcol.
  destruct (Z.eqb_spec code 0) as [->|Hne].
  - rewrite (bind_Ret _ _ _ _ _ (Hz eq_refl)). cbn.
    eexists. split; [reflexivity|]. split; done.
  - destruct (Hn Hne) as [d Hb]. rewrite (bind_Bail _ _ _ _ Hb). cbn.
    eexists. split; [reflexivity|]. split; done.
Qed.

(** The buffer of [argv_to_string] is large enough: the text and its NUL. *)
Lemma argv_len_acc argv a :
  fold_left (fun len x => len + (strlen x + 1)) argv a
  = a + fold_left (fun len x => len + (strlen x + 1)) argv 0.
Proof.
  revert a. induction argv as [|x argv IH]; intros a; cbn; [lia|].
  rewrite IH. rewrite (IH (0 + _)). lia.
Qed.

Lemma argv_copy_length i argv :
  Z.of_nat (String.length (argv_copy i argv))
  <= fold_left (fun len x => len + (strlen x + 1)) argv 0.
Proof.
  revert i. induction argv as [|x argv IH]; intros i; cbn [argv_copy fold_left]; [done|].
  rewrite argv_len_acc. specialize (IH (S i)). rewrite !string_length_app.
  unfold strlen in *. case_decide; cbn [String.length] in *; lia.
Qed.

Lemma argv_copy_concat i argv :
  argv_copy i argv = (if decide (i = O \/ argv = []) then "" else " ") +:+ String.concat " " argv.
Proof.
  revert i. induction argv as [|x argv IH]; intros i; cbn [argv_copy].
  - rewrite decide_True by auto. done.
  - rewrite IH. rewrite (decide_ext (i = O \/ x :: argv = []) (i = O)) by naive_solver.
    f_equal. destruct argv as [|y argv].
    + rewrite decide_True by auto. cbn. by rewrite string_app_nil_r.
    + rewrite decide_False by naive_solver. done.
Qed.
End posix_spec.

#[export] Hint Resolve closed_exec_program closed_close_fd closed_run1 run_program_reports
  init_ioctl_fd_reports : fails.

(** ** A concrete system *)

Definition toy_with_exit (code : Z) : toy_sys :=
  {| t_runs := []; t_exit := code; t_intr := 2; t_waitfail := false; t_closed := [];
     t_flags := []; t_saved := 0; t_files := ∅; t_disk := toy_disk |}.

Definition toy_close (fd : Z) (w : toy_sys) : toy_sys :=
  {| t_runs := t_runs w; t_exit := t_exit w; t_intr := t_intr w; t_waitfail := t_waitfail w;
     t_closed := t_closed w ++ [fd]; t_flags := t_flags w; t_saved := t_saved w;
     t_files := t_files w; t_disk := t_disk w |}.

Definition toy_exec (argv : list string) (w : toy_sys) : exec_result * toy_sys :=
  (ExecRan (exit_status (t_exit w)),
   {| t_runs := t_runs w ++ [argv]; t_exit := t_exit w; t_intr := t_intr w;
      t_waitfail := t_waitfail w; t_closed := t_closed w; t_flags := t_flags w;
      t_saved := t_saved w; t_files := t_files w; t_disk := t_disk w |}).

#[global] Instance toy_posix : Posix (H := toy_host) :=
  {| strerror := fun _ => "Success"; pipe := fun w => (Some (10, 11), w);
     sigmask_block := fun w => (true, w); fork := fun w => (4242, w);
     sigmask_restore := fun w => (true, w); close := toy_close;
     child_unmask := fun _ => true; child_dup2 := fun _ => true; execvp := toy_exec;
     child_output := fun _ _ => ""; fdopen := fun _ _ => true; fread_file := fun _ => true;
     waitpid := fun _ w => replicate (t_intr w) WaitEINTR
                           ++ [if t_waitfail w then WaitFailed else WaitDone];
     stack_status := 0; socket_inet := fun w => (5, w); fcntl_getfd := fun _ _ => 0;
     fcntl_setfd := fun _ _ w => (0, w) |}.

Lemma toy_spawns argv w :
  spawns argv w {| child_pid := 4242; child_fd := 10; child_status := exit_status (t_exit w);
                   child_text := "" |}
    (toy_close 11 (toy_exec argv w).2).
Proof. repeat eexists. Defined.

(** ** Properties *)

(** C24: once the program is started, [run_program] waits through any number of
    interruptions and turns its exit code into a result: 0 and no error for 0,
    -1 and EINVALIDOP for 199, -1 and EEXEC for every other code. The pipe's
    descriptor is closed twice, before the wait and again at the end. *)
Theorem run_program_spec `{Posix} (argv : list string) (s : state) (c : child) (w' : sys)
  (n : nat) (rest : list wait_result) (code : Z)
  (Herr : err s = NETCF_NOERROR) (Hdet : errdetails (ncf s) = None) (Hmem : mem s = [])
  (Hspawn : spawns argv (world s) c w')
  (Hopen : fdopen (child_fd c) w' = true) (Hread : fread_file w' = true)
  (Hwait : waitpid (child_pid c) (close (child_fd c) w') = replicate n WaitEINTR ++ WaitDone :: rest)
  (Hstatus : child_status c = exit_status code) (Hcode : 0 <= code < 256) :
  exists s', run_program argv s = (Ret (if code =? 0 then 0 else -1), s') /\
    err s' = exit_error code /\
    world s' = close (child_fd c) (close (child_fd c) w').
Proof.
  apply (run_program_run argv s c w' 0 code); try done. rewrite Hwait, Hstatus.
  clear. by induction n as [|n IH].
Qed.

Lemma run_program_spec_witness :
  exists s', run_program ["netcf-transaction"; "change-begin"] (toy_state (toy_with_exit 199) toy_empty)
             = (Ret (-1), s') /\ err s' = NETCF_EINVALIDOP /\ t_closed (world s') = [11; 10; 10].
Proof.
  destruct (run_program_spec ["netcf-transaction"; "change-begin"]
              (toy_state (toy_with_exit 199) toy_empty) _ _ 2 [] 199
              eq_refl eq_refl eq_refl (toy_spawns _ _) eq_refl eq_refl eq_refl eq_refl
              ltac:(lia)) as (s' & Hr & He & Hw).
  exists s'. rewrite Hw. split; [exact Hr|]. split; [exact He|reflexivity].
Defined.

(** A [waitpid] that fails is not noticed: the status that is examined is
    whatever the uninitialised variable held, and when that looks like a clean
    exit [run_program] reports success, however the program ended. *)
Theorem run_program_wait_failure `{Posix} (argv : list string) (s : state) (c : child) (w' : sys)
  (rest : list wait_result)
  (Herr : err s = NETCF_NOERROR) (Hdet : errdetails (ncf s) = None) (Hmem : mem s = [])
  (Hspawn : spawns argv (world s) c w')
  (Hopen : fdopen (child_fd c) w' = true) (Hread : fread_file w' = true)
  (Hwait : waitpid (child_pid c) (close (child_fd c) w') = WaitFailed :: rest)
  (Hjunk : stack_status = exit_status 0) :
  exists s', run_program argv s = (Ret 0, s') /\ err s' = NETCF_NOERROR.
Proof.
  destruct (run_program_run argv s c w' 1 0) as (s' & Hr & He & _); try done; [|by exists s'].
  rewrite Hwait. cbn. by rewrite Hjunk.
Qed.

Definition toy_waitfail : toy_sys :=
  {| t_runs := []; t_exit := 1; t_intr := 0; t_waitfail := true; t_closed := [];
     t_flags := []; t_saved := 0; t_files := ∅; t_disk := toy_disk |}.

Lemma run_program_wait_failure_witness :
  exists s', run_program ["ifup"; "eth0"] (toy_state toy_waitfail toy_empty) = (Ret 0, s')
             /\ err s' = NETCF_NOERROR.
Proof.
  apply (run_program_wait_failure ["ifup"; "eth0"] (toy_state toy_waitfail toy_empty) _ _ []
           eq_refl eq_refl eq_refl (toy_spawns _ _) eq_refl eq_refl eq_refl eq_refl).
Defined.

(** [argv_to_string] joins the arguments with single spaces and never writes
    past the buffer it computed: text and terminating NUL fit its length. *)
Theorem argv_to_string_spec `{Posix} (argv : list string) (s : state) (Hmem : mem s = []) :
  argv_to_string argv s = (Ret (Some (String.concat " " argv)), s) /\
  strlen (String.concat " " argv) + 1 <= argv_len argv.
Proof.
  unfold argv_to_string, bind, malloc. rewrite Hmem. rewrite argv_copy_concat.
  rewrite decide_True by auto. split; [done|].
  pose proof (argv_copy_length 0 argv) as Hl. rewrite argv_copy_concat in Hl.
  rewrite decide_True in Hl by auto. change (EmptyString +:+ ?x) with x in Hl.
  unfold argv_len, strlen in *. rewrite argv_len_acc. unfold strlen. lia.
Qed.

Lemma argv_to_string_spec_witness :
  strlen "ifup br0" + 1 <= argv_len ["ifup"; "br0"].
Proof. apply (argv_to_string_spec ["ifup"; "br0"] (toy_state toy_os toy_empty) eq_refl). Defined.
