(* ===== verification/Xml.v ===== *)
(** * XML: parsing, validation, stylesheets (the libxml2 half of dutil.c)

    libxml2, libxslt and their RelaxNG validator are parameters: an abstract
    memory [xmem] of documents, and what each of the calls made by dutil.c,
    dutil_linux.c and the drivers returns. Messages that the libraries send to
    the callbacks of dutil.c are part of the results. *)

From S2P Require Import Prelude CStr State Refs Toy Posix.

(** [ctxt->state] after a transformation. *)
Inductive xslt_state := XSLT_STATE_OK | XSLT_STATE_ERROR | XSLT_STATE_STOPPED.

(** [ctxt->lastError] as [catch_xml_error] finds it. *)
Record xml_error := { xe_fatal : bool; xe_message : option string; xe_line : Z }.

Class Libxml `{Host} := {
  access_r : string -> sys -> bool;                  (** [access(path, R_OK) == 0] *)
  xsltParseStylesheetFile : string -> sys -> option sheet;
  xsltNewTransformContext : option sheet -> option doc -> xmem -> bool;
  xsltRegisterExtFunction : string -> string -> xmem -> Z;
  xsltApplyStylesheetUser : option sheet -> option doc -> xmem ->
    (list string * option doc * xslt_state) * xmem;
  xsltSaveResultToString : option doc -> option sheet -> xmem -> Z * option string;
  xmlFreeDoc : doc -> xmem -> xmem;
  xmlRelaxNGParse : string -> sys -> list string * option rng_t;
  xmlRelaxNGValidateDoc : option rng_t -> option doc -> xmem -> list string * Z;
  xmlNewParserCtxt : xmem -> bool;
  xmlCtxtReadDoc : string -> xmem -> (list xml_error * option doc) * xmem;
  xmlDocGetRootElement : option doc -> xmem -> option node;
  xmlGetProp : node -> string -> xmem -> option string;
  xmlNewDoc : xmem -> option doc * xmem;
  xmlNewNode : string -> xmem -> option node * xmem;
  xmlNewDocNode : doc -> string -> xmem -> option node * xmem;
  xmlDocSetRootElement : option doc -> option node -> xmem -> xmem;
  xmlAddChild : node -> node -> xmem -> bool * xmem;
  xmlFreeNode : node -> xmem -> xmem;
  xmlNewChild : option node -> string -> xmem -> option node * xmem;
  xmlNewProp : option node -> string -> option string -> xmem -> bool * xmem;
  xmlSetProp : node -> string -> option string -> xmem -> bool * xmem;
  node_children : node -> xmem -> list node;         (** [children], then [next] *)
  node_name : node -> xmem -> string;
  node_is_element : node -> xmem -> bool;
  xmlXPathNewContext : option doc -> xmem -> bool;
  xpath_string : string -> option doc -> xmem -> option string;
  xpath_nodes : string -> option doc -> xmem -> option (list node)
}.

Definition XSLT_EXT_IPCALC_NS : string := "http://redhat.com/xslt/netcf/ipcalc/1.0".
Definition XSLT_EXT_BOND_NS : string := "http://redhat.com/xslt/netcf/bond/1.0".

Section xml.
Context `{Libxml}.

(** A call that may change the memory of libxml2. *)
Definition xcall {A} (f : xmem -> A * xmem) : M A :=
  fun s => let (a, x) := f (xml s) in (Ret a, set_xml x s).

(** A call that only looks at it. *)
Definition xget {A} (f : xmem -> A) : M A := gets (fun s => f (xml s)).

(** [xmlFreeDoc], which accepts NULL. *)
Definition free_doc (d : option doc) : M unit :=
  match d with
  | None => ret tt
  | Some d => xcall (fun x => (tt, xmlFreeDoc d x))
  end.

(** ** Stylesheets *)

Definition parse_stylesheet (fname : string) : M (option sheet) :=
  dir ← gets (fun s => data_dir (ncf s));
  opath ← xasprintf (dir +:+ "/xml/" +:+ fname);
  on_error
    (path ← nonnull opath;
     readable ← gets (fun s => access_r path (world s));
     when (negb readable)
       (report_error NETCF_EFILE
          ("Stylesheet " +:+ path +:+ " does not exist or is not readable") ;;
        goto_error) ;;
     result ← gets (fun s => xsltParseStylesheetFile path (world s));
     ERR_THROW (bool_decide (result = None)) NETCF_EFILE
       ("Could not parse stylesheet " +:+ path) ;;
     ret result)
    (ret None).

Definition apply_stylesheet_error (msg : string) : M unit :=
  vreport_error NETCF_EXSLTFAILED (Some msg).

(** [xslt_register_exts] (xslt_ext.c) *)
Definition xslt_register_exts : M Z :=
  r ← xget (xsltRegisterExtFunction "netmask" XSLT_EXT_IPCALC_NS);
  if r <? 0 then ret r else
  r ← xget (xsltRegisterExtFunction "prefix" XSLT_EXT_IPCALC_NS);
  if r <? 0 then ret r else
  r ← xget (xsltRegisterExtFunction "option" XSLT_EXT_BOND_NS);
  if r <? 0 then ret r else
  ret 0.

Definition apply_stylesheet (style : option sheet) (d : option doc) : M (option doc) :=
  ctxt ← xget (xsltNewTransformContext style d);
  on_error
    (ERR_NOMEM (negb ctxt) ;;
     r ← xslt_register_exts;
     ERR_NOMEM (r <? 0) ;;
     ' (msgs, res, st) ← xcall (xsltApplyStylesheetUser style d);
     for_each msgs apply_stylesheet_error ;;
     match st with
     | XSLT_STATE_OK => ret res
     | XSLT_STATE_ERROR | XSLT_STATE_STOPPED =>
         free_doc res ;;
         vreport_error NETCF_EXSLTFAILED None ;;
         ret None
     end)
    (ret None).

Definition apply_stylesheet_to_string (style : option sheet) (d : option doc)
  : M (option string) :=
  doc_xfm ← apply_stylesheet style d;
  on_error
    (ERR_BAIL ;;
     ' (r, result) ← xget (xsltSaveResultToString doc_xfm style);
     ERR_NOMEM (r <? 0) ;;
     free_doc doc_xfm ;;
     ret result)
    (free_doc doc_xfm ;; ret None).

(** ** Validation *)

Definition rng_error (msg : string) : M unit :=
  vreport_error NETCF_EXMLINVALID (Some msg).

Definition rng_parse (fname : string) : M (option rng_t) :=
  dir ← gets (fun s => data_dir (ncf s));
  opath ← xasprintf (dir +:+ "/xml/" +:+ fname);
  on_error
    (path ← nonnull opath;
     readable ← gets (fun s => access_r path (world s));
     when (negb readable)
       (report_error NETCF_EFILE
          ("File " +:+ path +:+ " does not exist or is not readable") ;;
        goto_error) ;;
     ' (msgs, result) ← gets (fun s => xmlRelaxNGParse path (world s));
     for_each msgs rng_error ;;
     ret result)
    (ret None).

Definition rng_validate (d : option doc) : M unit :=
  schema ← gets (fun s => rng (ncf s));
  ' (msgs, r) ← xget (xmlRelaxNGValidateDoc schema d);
  for_each msgs rng_error ;;
  c ← gets err;
  when (negb (r =? 0) && bool_decide (c = NETCF_NOERROR))
    (report_error NETCF_EXMLINVALID "Interface definition fails to validate").

(** ** Parsing *)

Definition catch_xml_error (e : xml_error) : M unit :=
  match xe_message e with
  | Some m =>
      when (xe_fatal e)
        (report_error NETCF_EXMLPARSER ("at line " +:+ fmt_d (xe_line e) +:+ ": " +:+ m))
  | None => ret tt
  end.

(** The two checks of [parse_xml], with the label that frees the document. *)
Definition parse_check (d : option doc) : M (option doc) :=
  on_error
    (ERR_THROW (bool_decide (d = None)) NETCF_EXMLPARSER "failed to parse xml document" ;;
     root ← xget (xmlDocGetRootElement d);
     ERR_THROW (bool_decide (root = None)) NETCF_EINTERNAL "missing root element" ;;
     ret d)
    (free_doc d ;; ret None).

Definition parse_xml (xml_str : string) : M (option doc) :=
  pctxt ← xget xmlNewParserCtxt;
  on_error
    (ERR_NOMEM (negb pctxt) ;;
     ' (errors, d) ← xcall (xmlCtxtReadDoc xml_str);
     for_each errors catch_xml_error ;;
     parse_check d)
    (ret None).

(** ** Nodes *)

Definition xml_prop (n : node) (name : string) : M (option string) :=
  xget (xmlGetProp n name).

Definition xml_new_node (d : doc) (parent : node) (name : string) : M (option node) :=
  n ← xcall (xmlNewDocNode d name);
  match n with
  | None => ret None
  | Some r =>
      cur ← xcall (xmlAddChild parent r);
      if (cur : bool) then ret (Some r)
      else xcall (fun x => (tt, xmlFreeNode r x)) ;; ret None
  end.

(** The search loop of [xml_node]. *)
Fixpoint find_child (cur : list node) (name : string) (x : xmem) : option node :=
  match cur with
  | [] => None
  | n :: cur' =>
      if node_is_element n x && STREQ (node_name n x) name then Some n
      else find_child cur' name x
  end.

Definition xml_node (d : doc) (parent : node) (name : string) : M (option node) :=
  r ← xget (fun x => find_child (node_children parent x) name x);
  match r with
  | Some n => ret (Some n)
  | None => xml_new_node d parent name
  end.
End xml.

(** ** Laws *)

Section xml_laws.
Context `{Libxml}.

Lemma xcall_steady {A} (f : xmem -> A * xmem) : pres steady (xcall f).
Proof.
  intros s. unfold xcall. destruct (f (xml s)). apply steady_intro; [by apply err_keep_same|done].
Qed.
Lemma xget_steady {A} (f : xmem -> A) : pres steady (xget f).
Proof. unfold xget. pres_auto. Qed.
Hint Resolve xcall_steady xget_steady : pres.
Lemma closed_xcall {A} (f : xmem -> A * xmem) : closed (xcall f).
Proof. intros s. unfold xcall. by destruct (f (xml s)). Qed.
Lemma closed_xget {A} (f : xmem -> A) : closed (xget f).
Proof. by intros s. Qed.
Hint Resolve closed_xcall closed_xget : fails.

Lemma free_doc_steady d : pres steady (free_doc d).
Proof. unfold free_doc. pres_auto. Qed.
Lemma closed_free_doc d : closed (free_doc d).
Proof. unfold free_doc. fails_auto. Qed.
Hint Resolve free_doc_steady : pres.
Hint Resolve closed_free_doc : fails.

Lemma parse_stylesheet_steady f : pres steady (parse_stylesheet f).
Proof. unfold parse_stylesheet. pres_auto. Qed.
Lemma apply_stylesheet_steady st d : pres steady (apply_stylesheet st d).
Proof. unfold apply_stylesheet, xslt_register_exts, apply_stylesheet_error. pres_auto. Qed.
Hint Resolve apply_stylesheet_steady : pres.
Lemma apply_stylesheet_to_string_steady st d : pres steady (apply_stylesheet_to_string st d).
Proof. unfold apply_stylesheet_to_string. pres_auto. Qed.
Lemma rng_parse_steady f : pres steady (rng_parse f).
Proof. unfold rng_parse, rng_error. pres_auto. Qed.
Lemma rng_validate_steady d : pres steady (rng_validate d).
Proof. unfold rng_validate, rng_error. pres_auto. Qed.
Lemma parse_xml_steady str : pres steady (parse_xml str).
Proof. unfold parse_xml, parse_check, catch_xml_error. pres_auto. Qed.
Lemma xml_prop_steady n name : pres steady (xml_prop n name).
Proof. unfold xml_prop. pres_auto. Qed.
Lemma xml_new_node_steady d p name : pres steady (xml_new_node d p name).
Proof. unfold xml_new_node. pres_auto. Qed.
Hint Resolve xml_new_node_steady : pres.
Lemma xml_node_steady d p name : pres steady (xml_node d p name).
Proof. unfold xml_node. pres_auto. Qed.

Lemma closed_parse_stylesheet f : closed (parse_stylesheet f).
Proof. unfold parse_stylesheet. fails_auto. Qed.
Lemma closed_apply_stylesheet st d : closed (apply_stylesheet st d).
Proof. unfold apply_stylesheet, xslt_register_exts, apply_stylesheet_error. fails_auto. Qed.
Hint Resolve closed_apply_stylesheet : fails.
Lemma closed_apply_stylesheet_to_string st d : closed (apply_stylesheet_to_string st d).
Proof. unfold apply_stylesheet_to_string. fails_auto. Qed.
Lemma closed_rng_parse f : closed (rng_parse f).
Proof. unfold rng_parse, rng_error. fails_auto. Qed.
Lemma closed_rng_validate d : closed (rng_validate d).
Proof. unfold rng_validate, rng_error. fails_auto. Qed.
Lemma closed_parse_xml str : closed (parse_xml str).
Proof. unfold parse_xml, parse_check, catch_xml_error. fails_auto. Qed.
Lemma closed_xml_prop n name : closed (xml_prop n name).
Proof. unfold xml_prop. fails_auto. Qed.
Lemma closed_xml_new_node d p name : closed (xml_new_node d p name).
Proof. unfold xml_new_node. fails_auto. Qed.
Hint Resolve closed_xml_new_node : fails.
Lemma closed_xml_node d p name : closed (xml_node d p name).
Proof. unfold xml_node. fails_auto. Qed.
End xml_laws.

#[export] Hint Resolve xcall_steady xget_steady free_doc_steady parse_stylesheet_steady
  apply_stylesheet_steady apply_stylesheet_to_string_steady rng_parse_steady
  rng_validate_steady parse_xml_steady xml_prop_steady xml_new_node_steady xml_node_steady : pres.
#[export] Hint Resolve closed_xcall closed_xget closed_free_doc closed_parse_stylesheet
  closed_apply_stylesheet closed_apply_stylesheet_to_string closed_rng_parse
  closed_rng_validate closed_parse_xml closed_xml_prop closed_xml_new_node closed_xml_node : fails.

(** ** The first message wins *)

Section messages.
Context `{Libxml}.
Implicit Types s : state.

Definition with_error (c : netcf_errcode_t) (m : string) s : state :=
  if decide (err s = NETCF_NOERROR) then set_ncf (set_err c (Some m) (ncf s)) s else s.

Lemma report_error_run c m s :
  err_wf s -> mem s = [] -> report_error c m s = (Ret tt, with_error c m s).
Proof.
  intros Hwf Hm. unfold report_error, vreport_error, with_error, bind, gets. cbn.
  destruct (decide (err s = NETCF_NOERROR)) as [E|E]; [|done]. cbn. rewrite (Hwf E).
  unfold strdup, bind, malloc. cbn. by rewrite Hm.
Qed.

Lemma ERR_THROW_run c m s :
  err_wf s -> mem s = [] -> ERR_THROW true c m s = (Bail, with_error c m s).
Proof. intros Hwf Hm. unfold ERR_THROW, when. by rewrite (bind_Ret _ _ _ _ _ (report_error_run c m s Hwf Hm)). Qed.

Lemma with_error_wf c m s : c <> NETCF_NOERROR -> err_wf s -> err_wf (with_error c m s).
Proof. unfold with_error. intros Hc Hwf. destruct (decide _); [|done]. by intros ?. Qed.

(** The state after reporting [msgs], all with the same code. *)
Definition with_errors (c : netcf_errcode_t) (msgs : list string) s : state :=
  match msgs with [] => s | m :: _ => with_error c m s end.

Lemma with_error_twice c m m' s : c <> NETCF_NOERROR ->
  with_error c m' (with_error c m s) = with_error c m s.
Proof.
  intros Hc. unfold with_error at 1. rewrite decide_False; [done|].
  unfold with_error. by destruct (decide (err s = NETCF_NOERROR)).
Qed.

Lemma for_each_report c (msgs : list string) s :
  c <> NETCF_NOERROR -> err_wf s -> mem s = [] ->
  for_each msgs (fun m => vreport_error c (Some m)) s = (Ret tt, with_errors c msgs s).
Proof.
  intros Hc. revert s. induction msgs as [|m msgs IH]; intros s Hwf Hm; [done|].
  cbn [for_each]. rewrite (bind_Ret _ _ _ _ _ (report_error_run c m s Hwf Hm)).
  rewrite IH.
  - destruct msgs as [|m' msgs]; cbn; [done|]. by rewrite with_error_twice.
  - by apply with_error_wf.
  - unfold with_error. by destruct (decide _).
Qed.

Lemma with_error_other c m s :
  xml (with_error c m s) = xml s /\ mem (with_error c m s) = mem s.
Proof. unfold with_error. by destruct (decide _). Qed.

Lemma with_errors_other c msgs s : c <> NETCF_NOERROR -> err_wf s ->
  err_wf (with_errors c msgs s) /\ xml (with_errors c msgs s) = xml s /\
  mem (with_errors c msgs s) = mem s.
Proof. intros Hc Hwf. destruct msgs; cbn; [done|]. by split; [apply with_error_wf|apply with_error_other]. Qed.

Lemma parse_check_run d s :
  err_wf s -> mem s = [] ->
  parse_check d s =
    match d with
    | None => (Ret None, with_error NETCF_EXMLPARSER "failed to parse xml document" s)
    | Some d0 =>
        match xmlDocGetRootElement d (xml s) with
        | None => (Ret None, set_xml (xmlFreeDoc d0 (xml s))
                               (with_error NETCF_EINTERNAL "missing root element" s))
        | Some _ => (Ret d, s)
        end
    end.
Proof.
  intros Hwf Hm. unfold parse_check. destruct d as [d0|].
  - rewrite bool_decide_false by done. destruct (xmlDocGetRootElement (Some d0) (xml s)) eqn:Hr.
    + erewrite on_error_Ret; [done|]. unfold bind, xget, gets. cbn. by rewrite Hr.
    + erewrite on_error_Bail with (s' := with_error NETCF_EINTERNAL "missing root element" s).
      * unfold free_doc, bind, xcall. cbn. by rewrite (proj1 (with_error_other _ _ s)).
      * rewrite (bind_Ret _ _ s tt s) by done.
        rewrite (bind_Ret _ _ s None s) by (unfold xget, gets; by rewrite Hr).
        apply bind_Bail. by apply ERR_THROW_run.
  - rewrite bool_decide_true by done.
    by erewrite on_error_Bail; [|apply bind_Bail; by apply ERR_THROW_run].
Qed.

(** The messages of [catch_xml_error]: fatal errors that have a text. *)
Definition fatal_message (e : xml_error) : option string :=
  match xe_message e with
  | Some m =>
      if xe_fatal e then Some ("at line " +:+ fmt_d (xe_line e) +:+ ": " +:+ m) else None
  | None => None
  end.

Lemma for_each_catch (errors : list xml_error) s :
  err_wf s -> mem s = [] ->
  for_each errors catch_xml_error s
  = (Ret tt, with_errors NETCF_EXMLPARSER (omap fatal_message errors) s).
Proof.
  revert s. induction errors as [|e errors IH]; intros s Hwf Hm; [done|].
  cbn [for_each omap list_omap]. unfold catch_xml_error at 1, fatal_message at 1.
  destruct (xe_message e) as [m|]; cbn; [destruct (xe_fatal e); cbn|].
  - rewrite (bind_Ret _ _ _ _ _ (report_error_run _ _ s Hwf Hm)). rewrite IH.
    + destruct (omap fatal_message errors); cbn; [done|]. by rewrite with_error_twice.
    + by apply with_error_wf.
    + unfold with_error. by destruct (decide _).
  - by apply IH.
  - by apply IH.
Qed.

Lemma rng_parse_run fname s msgs g :
  let path := data_dir (ncf s) +:+ "/xml/" +:+ fname in
  err_wf s -> mem s = [] -> xmlRelaxNGParse path (world s) = (msgs, g) ->
  rng_parse fname s =
    if access_r path (world s) then (Ret g, with_errors NETCF_EXMLINVALID msgs s)
    else (Ret None, with_error NETCF_EFILE
                      ("File " +:+ path +:+ " does not exist or is not readable") s).
Proof.
  intros path Hwf Hm Hp. unfold rng_parse. rewrite (bind_Ret _ _ s (data_dir (ncf s)) s) by done.
  rewrite (bind_Ret _ _ s (Some path) s) by (unfold xasprintf, strdup, malloc, bind; by rewrite Hm).
  unfold on_error. unfold nonnull at 1. rewrite bind_ret_l.
  rewrite (bind_Ret _ _ s (access_r path (world s)) s) by done.
  destruct (access_r path (world s)).
  - rewrite (bind_Ret _ _ s tt s) by done. rewrite (bind_Ret _ _ s (msgs, g) s) by (unfold gets; by rewrite Hp).
    unfold rng_error. by rewrite (bind_Ret _ _ _ _ _ (for_each_report NETCF_EXMLINVALID msgs s ltac:(done) Hwf Hm)).
  - erewrite bind_Bail; [reflexivity|]. by apply (ERR_THROW_run NETCF_EFILE).
Qed.
End messages.

(** ** A concrete libxml2

    A heap of named nodes. A text parses to [<interface name="text"/>], the
    empty text does not parse, and ["junk"] has no root element; a document is
    valid when its root has a name; the style sheet ["bad"] fails, any other
    one yields the Augeas XML of one [ifcfg] file. *)

Definition toy_fresh (x : gmap nat xelem) : nat :=
  S (map_fold (fun k _ m => Nat.max k m) O x).

Definition toy_new (name : string) (x : gmap nat xelem) : nat * gmap nat xelem :=
  let p := toy_fresh x in
  (p, <[p := {| x_name := name; x_text := false; x_props := []; x_kids := [] |}]> x).

Definition toy_prop (n : nat) (k : string) (v : option string) (x : gmap nat xelem)
  : gmap nat xelem :=
  alter (fun e => {| x_name := x_name e; x_text := x_text e;
                     x_props := (k, default "" v) :: x_props e; x_kids := x_kids e |}) n x.

Definition toy_add (parent child : nat) (x : gmap nat xelem) : gmap nat xelem :=
  alter (fun e => {| x_name := x_name e; x_text := x_text e; x_props := x_props e;
                     x_kids := x_kids e ++ [child] |}) parent x.

Definition toy_kids (n : nat) (x : gmap nat xelem) : list nat :=
  match x !! n with Some e => x_kids e | None => [] end.

Definition toy_get (n : nat) (k : string) (x : gmap nat xelem) : option string :=
  match x !! n with Some e => assoc (x_props e) k | None => None end.

(** A child of [p] with a property. *)
Definition toy_child (p : nat) (name : string) (ps : list (string * string))
  (x : gmap nat xelem) : nat * gmap nat xelem :=
  let (n, x) := toy_new name x in
  (n, toy_add p n (fold_right (fun kv x => toy_prop n kv.1 (Some kv.2) x) x ps)).

Definition toy_root (d : option nat) (x : gmap nat xelem) : option nat :=
  match d with Some d => head (toy_kids d x) | None => None end.

Definition toy_parse (str : string) (x : gmap nat xelem)
  : (list xml_error * option nat) * gmap nat xelem :=
  if STREQ str "" then
    (([{| xe_fatal := true; xe_message := Some "Document is empty"; xe_line := 1 |}], None), x)
  else
    let (d, x) := toy_new "#doc" x in
    if STREQ str "junk" then (([], Some d), x)
    else let (_, x) := toy_child d "interface" [("name", str)] x in (([], Some d), x).

Definition toy_apply (style : option string) (d : option nat) (x : gmap nat xelem)
  : (list string * option nat * xslt_state) * gmap nat xelem :=
  match style with
  | Some "bad" => ((["no template"], None, XSLT_STATE_ERROR), x)
  | _ =>
      let name := match toy_root d x with
                  | Some r => default "" (toy_get r "name" x) | None => "" end in
      let (r, x) := toy_new "#doc" x in
      let (f, x) := toy_child r "forest" [] x in
      let (t, x) := toy_child f "tree"
                      [("path", "/files/etc/sysconfig/network-scripts/ifcfg-" +:+ name)] x in
      let (_, x) := toy_child t "node" [("label", "DEVICE"); ("value", name)] x in
      (([], Some r, XSLT_STATE_OK), x)
  end.

#[global] Instance toy_libxml : Libxml (H := toy_host) :=
  {| access_r := fun _ _ => true;
     xsltParseStylesheetFile := fun p _ => Some p;
     xsltNewTransformContext := fun _ _ _ => true;
     xsltRegisterExtFunction := fun _ _ _ => 0;
     xsltApplyStylesheetUser := toy_apply;
     xsltSaveResultToString := fun d _ x =>
       (0, match toy_root d x with Some r => toy_get r "name" x | None => None end);
     xmlFreeDoc := fun d x => delete d x;
     xmlRelaxNGParse := fun _ _ => ([], Some tt);
     xmlRelaxNGValidateDoc := fun _ d x =>
       match toy_root d x with
       | Some r => match toy_get r "name" x with
                   | Some "invalid" => (["bad name"; "invalid interface"], 1)
                   | Some _ => ([], 0)
                   | None => ([], 1)
                   end
       | None => ([], -1)
       end;
     xmlNewParserCtxt := fun _ => true;
     xmlCtxtReadDoc := toy_parse;
     xmlDocGetRootElement := toy_root;
     xmlGetProp := toy_get;
     xmlNewDoc := fun x => let (d, x) := toy_new "#doc" x in (Some d, x);
     xmlNewNode := fun name x => let (d, x) := toy_new name x in (Some d, x);
     xmlNewDocNode := fun _ name x => let (d, x) := toy_new name x in (Some d, x);
     xmlDocSetRootElement := fun d r x =>
       match d, r with Some d, Some r => toy_add d r x | _, _ => x end;
     xmlAddChild := fun p c x => (true, toy_add p c x);
     xmlFreeNode := fun n x => delete n x;
     xmlNewChild := fun p name x =>
       match p with
       | Some p => let (n, x) := toy_child p name [] x in (Some n, x)
       | None => (None, x)
       end;
     xmlNewProp := fun n k v x =>
       match n with Some n => (true, toy_prop n k v x) | None => (false, x) end;
     xmlSetProp := fun n k v x => (true, toy_prop n k v x);
     node_children := toy_kids;
     node_name := fun n x => match x !! n with Some e => x_name e | None => "" end;
     node_is_element := fun n x => match x !! n with Some e => negb (x_text e) | None => false end;
     xmlXPathNewContext := fun _ _ => true;
     xpath_string := fun e d x =>
       match toy_root d x with Some r => toy_get r "name" x | None => Some "" end;
     xpath_nodes := fun e d x => Some (match toy_root d x with Some r => [r] | None => [] end) |}.

(** ** Properties *)

(** C28: [parse_xml] returns a document exactly when the parser built one that
    has a root element, and frees it otherwise. The error it leaves is the first
    fatal message of the parser with its line; without one, what is missing. *)
Theorem parse_xml_spec `{Libxml} (str : string) (s : state) (errors : list xml_error)
  (d : option doc) (x' : xmem)
  (Hclean : err s = NETCF_NOERROR) (Hdet : errdetails (ncf s) = None) (Hmem : mem s = [])
  (Hctxt : xmlNewParserCtxt (xml s) = true)
  (Hread : xmlCtxtReadDoc str (xml s) = ((errors, d), x')) :
  exists s',
    let root := xmlDocGetRootElement d x' in
    let missing := match d, root with
                   | None, _ => Some (NETCF_EXMLPARSER, "failed to parse xml document")
                   | Some _, None => Some (NETCF_EINTERNAL, "missing root element")
                   | Some _, Some _ => None
                   end in
    parse_xml str s = (Ret (if missing is Some _ then None else d), s') /\
    (err s', errdetails (ncf s')) =
      match head (omap fatal_message errors), missing with
      | Some m, _ => (NETCF_EXMLPARSER, Some m)
      | None, Some (c, m) => (c, Some m)
      | None, None => (NETCF_NOERROR, None)
      end /\
    xml s' = match d, root with Some d0, None => xmlFreeDoc d0 x' | _, _ => x' end.
Proof.
  set (s1 := set_xml x' s).
  assert (Hwf : err_wf s1) by by intros _.
  pose proof (for_each_catch errors s1 Hwf Hmem) as Hrun.
  set (msgs := omap fatal_message errors) in *.
  destruct (with_errors_other NETCF_EXMLPARSER msgs s1 ltac:(done) Hwf) as (Hwf2 & Hx & Hm2).
  assert (parse_xml str s = parse_check d (with_errors NETCF_EXMLPARSER msgs s1)) as ->.
  { unfold parse_xml. unfold bind at 1, xget at 1, gets. rewrite Hctxt.
    apply on_error_closed; [|unfold parse_check; fails_auto].
    cbn. unfold bind at 1, xcall. rewrite Hread.
    exact (bind_Ret _ (fun _ => parse_check d) _ _ _ Hrun). }
  rewrite parse_check_run by (rewrite ?Hm2; done). rewrite Hx. cbn [xml set_xml s1].
  destruct d as [d0|]; [destruct (xmlDocGetRootElement (Some d0) x')|]; eexists;
    (split; [reflexivity|]); destruct msgs as [|m msgs]; cbn in *; unfold with_error, err in *; cbn in *;
    repeat case_decide; cbn in *; split; congruence.
Qed.

Lemma parse_xml_spec_witness :
  exists s', parse_xml "" (toy_state toy_os toy_empty) = (Ret None, s') /\
    (err s', errdetails (ncf s')) = (NETCF_EXMLPARSER, Some "at line 1: Document is empty").
Proof.
  destruct (@parse_xml_spec toy_host toy_libxml "" (toy_state toy_os toy_empty) _ None ∅
              eq_refl eq_refl eq_refl eq_refl eq_refl) as (s' & Hr & He & _).
  exists s'. split; [exact Hr|exact He].
Defined.

(** Validation fails exactly when the validator says so or sends a message.
    The error is then EXMLINVALID with the first message; a failure without any
    message gets a text of its own, and a valid document leaves no trace. *)
Theorem rng_validate_spec `{Libxml} (d : option doc) (s : state) (msgs : list string) (r : Z)
  (Hclean : err s = NETCF_NOERROR) (Hdet : errdetails (ncf s) = None) (Hmem : mem s = [])
  (Hvalid : xmlRelaxNGValidateDoc (rng (ncf s)) d (xml s) = (msgs, r)) :
  exists s', rng_validate d s = (Ret tt, s') /\ xml s' = xml s /\
    (err s' = NETCF_NOERROR <-> msgs = [] /\ r = 0) /\
    (err s' <> NETCF_NOERROR -> err s' = NETCF_EXMLINVALID /\
       errdetails (ncf s') =
         Some (default "Interface definition fails to validate" (head msgs))).
Proof.
  assert (Hwf : err_wf s) by by intros _.
  unfold rng_validate, rng_error. rewrite (bind_Ret _ _ s (rng (ncf s)) s) by done.
  rewrite (bind_Ret _ _ s (msgs, r) s) by (unfold xget, gets; by rewrite Hvalid).
  rewrite (bind_Ret _ _ _ _ _ (for_each_report NETCF_EXMLINVALID msgs s ltac:(done) Hwf Hmem)).
  unfold bind, gets. destruct msgs as [|m msgs]; cbn.
  - rewrite Hclean, bool_decide_true, andb_true_r by done. destruct (Z.eqb_spec r 0) as [->|Hr]; cbn.
    + exists s. rewrite Hclean. split_and!; try done.
    + eexists. split; [by apply (report_error_run NETCF_EXMLINVALID)|].
      unfold with_error. rewrite decide_True by done. cbn. naive_solver.
  - unfold with_error. rewrite decide_True by done. cbn. rewrite bool_decide_false, andb_false_r by done.
    eexists. split; [reflexivity|]. cbn. naive_solver.
Qed.

(** A state of the toy host that holds one parsed document. *)
Definition toy_parsed (str : string) : state (H := toy_host) :=
  set_xml (H := toy_host) (toy_parse str ∅).2 (toy_state toy_os toy_empty).

Lemma rng_validate_spec_witness :
  exists s', rng_validate (H0 := toy_libxml) (Some 1%nat) (toy_parsed "invalid")
             = (Ret tt, s') /\
    err s' = NETCF_EXMLINVALID /\ errdetails (ncf s') = Some "bad name".
Proof.
  destruct (@rng_validate_spec toy_host toy_libxml (Some 1%nat)
              (toy_parsed "invalid")
              ["bad name"; "invalid interface"] 1 eq_refl eq_refl eq_refl
              ltac:(vm_compute; reflexivity))
    as (s' & Hr & _ & Hiff & He).
  exists s'. split; [exact Hr|]. apply He. intros Hn. apply Hiff in Hn as [Hn _]. discriminate Hn.
Defined.
