(* ===== verification/XmlTree.v ===== *)
(** * XML documents as trees

    The library keeps documents as nodes in the memory of libxml2. Here: the tree
    that a node stands for ([reps]), what the functions of libxml2 that make nodes
    do to the memory (the laws of [XmlBuild], which a concrete heap of nodes
    satisfies), and rules by which code that builds a document is shown to build a
    tree ([built], [hung]). *)

From S2P Require Import Prelude CStr XsltExt State Refs Toy Posix Xml.

(** ** Changes of the memory *)

Section changes.
Context `{Libxml}.

Definition same_node (n : node) (x x' : xmem) : Prop :=
  node_name n x' = node_name n x /\ node_is_element n x' = node_is_element n x /\
  node_children n x' = node_children n x /\ forall k, xmlGetProp n k x' = xmlGetProp n k x.

Lemma same_node_refl n x : same_node n x x.
Proof. by split. Qed.

Lemma same_node_trans n x1 x2 x3 : same_node n x1 x2 -> same_node n x2 x3 -> same_node n x1 x3.
Proof.
  intros (Hn1 & He1 & Hc1 & Hp1) (Hn2 & He2 & Hc2 & Hp2). split; [congruence|]. split; [congruence|].
  split; [congruence|]. intros k. by rewrite Hp2.
Qed.

(** [alive n x]: the node [n] has been made. *)
Context (alive : node -> xmem -> Prop).

(** Everything made so far stays, but for [p]. *)
Definition keeps (p : node) (x x' : xmem) : Prop :=
  (forall m, alive m x -> alive m x' /\ (m <> p -> same_node m x x')) /\
  (forall d r, xmlDocGetRootElement d x = Some r -> xmlDocGetRootElement d x' = Some r).

(** A new element, without anything *)
Record new_element (name : string) (n : node) (x : xmem) : Prop := {
  ne_alive : alive n x;
  ne_name : node_name n x = name;
  ne_element : node_is_element n x = true;
  ne_children : node_children n x = [];
  ne_props k : xmlGetProp n k x = None
}.

(** [n] has become the last child of [p]. *)
Record child_added (p : node) (name : string) (n : node) (x x' : xmem) : Prop := {
  ca_fresh : ~ alive n x;
  ca_new : new_element name n x';
  ca_parent : node_name p x' = node_name p x /\ node_is_element p x' = node_is_element p x;
  ca_children : node_children p x' = node_children p x ++ [n];
  ca_props k : xmlGetProp p k x' = xmlGetProp p k x;
  ca_keeps : keeps p x x'
}.

(** The property [k] of [n] has been set. *)
Record prop_put (n : node) (k v : string) (x x' : xmem) : Prop := {
  pp_value : xmlGetProp n k x' = Some v;
  pp_other k' : k' <> k -> xmlGetProp n k' x' = xmlGetProp n k' x;
  pp_node : node_name n x' = node_name n x /\ node_is_element n x' = node_is_element n x;
  pp_children : node_children n x' = node_children n x;
  pp_keeps : keeps n x x'
}.
End changes.

(** The names of the elements that the library makes *)
Definition element_names : list string :=
  ["forest"; "tree"; "node"; "interface"; "bridge"; "bond"; "vlan"; "mac"; "protocol"; "ip";
   "array"; "element"].

(** What the functions that build a document do while there is memory. [blank]: the
    document has no root yet. A property without a value is read as the empty string. *)
Class XmlBuild `(Libxml) := {
  alive : node -> xmem -> Prop;
  blank : doc -> xmem -> Prop;
  newdoc_law x : exists dd x', xmlNewDoc x = (Some dd, x') /\ blank dd x' /\
    forall n, alive n x -> alive n x' /\ same_node n x x';
  newnode_law name x : name ∈ element_names -> exists n x', xmlNewNode name x = (Some n, x') /\
    new_element alive name n x' /\ (forall m, alive m x -> alive m x' /\ same_node m x x') /\
    (forall dd, blank dd x -> blank dd x');
  setroot_law dd n x : alive n x -> blank dd x ->
    let x' := xmlDocSetRootElement (Some dd) (Some n) x in
    xmlDocGetRootElement (Some dd) x' = Some n /\ (forall m, alive m x -> alive m x' /\ same_node m x x');
  newchild_law p name x : alive p x -> name ∈ element_names ->
    exists n x', xmlNewChild (Some p) name x = (Some n, x') /\ child_added alive p name n x x';
  addchild_law dd p name x : alive p x -> name ∈ element_names ->
    exists n x1 x2, xmlNewDocNode dd name x = (Some n, x1) /\ xmlAddChild p n x1 = (true, x2) /\
      child_added alive p name n x x2;
  newprop_law n k v x : alive n x -> xmlGetProp n k x = None ->
    exists x', xmlNewProp (Some n) k v x = (true, x') /\ prop_put alive n k (default "" v) x x';
  setprop_law n k v x : alive n x ->
    exists x', xmlSetProp n k (Some v) x = (true, x') /\ prop_put alive n k v x x'
}.

(** ** Trees *)

#[warnings="-register-all"] Inductive xtree := Elem (name : string) (props : gmap string string) (children : list xtree).

Section trees.
Context `{XmlBuild}.

#[export] Instance keeps_preorder p : PreOrder (keeps alive p).
Proof.
  split; [intros x; split; [|done]; intros m Hm; split; [done|intros _; apply same_node_refl]|].
  intros x1 x2 x3 [Hk1 Hr1] [Hk2 Hr2]. split; [|auto].
  intros m Hm. destruct (Hk1 m Hm) as [Ha1 Hs1]. destruct (Hk2 m Ha1) as [Ha2 Hs2].
  split; [done|]. intros Hne. eapply same_node_trans; eauto.
Qed.

(** Nodes made after [x] do not matter to it. *)
Lemma keeps_fresh p n x1 x2 x3 :
  ~ alive n x1 -> keeps alive p x1 x2 -> keeps alive n x2 x3 -> keeps alive p x1 x3.
Proof.
  intros Hn [Hk1 Hr1] [Hk2 Hr2]. split; [|auto].
  intros m Hm. destruct (Hk1 m Hm) as [Ha1 Hs1]. destruct (Hk2 m Ha1) as [Ha2 Hs2].
  split; [done|]. intros Hne. eapply same_node_trans; [by apply Hs1|]. apply Hs2. by intros ->.
Qed.

(** The node [n] stands for the tree; all its nodes satisfy [P]. *)
#[warnings="-register-all"] Inductive reps (x : xmem) (P : node -> Prop) : node -> xtree -> Prop :=
  | reps_elem n name props ts :
      P n -> node_name n x = name -> node_is_element n x = true ->
      (forall k, xmlGetProp n k x = props !! k) ->
      Forall2 (reps x P) (node_children n x) ts -> reps x P n (Elem name props ts).

Lemma reps_inv x P n name props ts : reps x P n (Elem name props ts) ->
  P n /\ node_name n x = name /\ node_is_element n x = true /\ (forall k, xmlGetProp n k x = props !! k) /\
  Forall2 (reps x P) (node_children n x) ts.
Proof. intros Hr. inversion Hr; subst. eauto. Qed.

(** A tree stays when its nodes do. *)
Lemma reps_mono x x' (P Q : node -> Prop) :
  (forall m, P m -> Q m /\ same_node m x x') -> forall n t, reps x P n t -> reps x' Q n t.
Proof.
  intros HPQ. fix IH 3. intros n t [n' name props ts HP Hn He Hp Hts].
  destruct (HPQ n' HP) as (HQ & Hn' & He' & Hc' & Hp').
  constructor; [done|congruence|congruence|intros k; by rewrite Hp'|].
  rewrite Hc'. clear -IH Hts. induction Hts as [|m t ns ts Hm _ IHts]; constructor; [by apply IH|done].
Qed.

Lemma reps_holds x P n t : reps x P n t -> P n.
Proof. by intros []. Qed.

(** [m] was made between [x] and [x']. *)
Definition new_in (x x' : xmem) (m : node) : Prop := alive m x' /\ ~ alive m x.

(** ** Rules *)

(** After the change from [x] to [x'] the node [n] stands for the tree, with new
    nodes below it; nothing else has changed. *)
Definition built (x : xmem) (n : node) (x' : xmem) (t : xtree) : Prop :=
  keeps alive n x x' /\ alive n x' /\
  match t with
  | Elem name props ts =>
      node_name n x' = name /\ node_is_element n x' = true /\ (forall k, xmlGetProp n k x' = props !! k) /\
      Forall2 (reps x' (new_in x x')) (node_children n x') ts
  end.

(** Below the node [p] new children stand for the trees; nothing else has changed. *)
Definition hung (x : xmem) (p : node) (x' : xmem) (ts : list xtree) : Prop :=
  keeps alive p x x' /\ node_name p x' = node_name p x /\ node_is_element p x' = node_is_element p x /\
  (forall k, xmlGetProp p k x' = xmlGetProp p k x) /\
  exists ns, node_children p x' = node_children p x ++ ns /\ Forall2 (reps x' (new_in x x')) ns ts.

(** What was new before a change of [p] is new after it. *)
Lemma new_forward p x x1 x2 : alive p x -> keeps alive p x1 x2 ->
  forall m, new_in x x1 m -> new_in x x2 m /\ same_node m x1 x2.
Proof.
  intros Hp [Hk _] m [Ha Hn]. destruct (Hk m Ha) as [Ha' Hs]. split; [by split|]. apply Hs. by intros ->.
Qed.

(** What is new after a step is new. *)
Lemma new_back p x x1 x2 : keeps alive p x x1 -> forall m, new_in x1 x2 m -> new_in x x2 m /\ same_node m x2 x2.
Proof.
  intros [Hk _] m [Ha Hn]. split; [|apply same_node_refl]. split; [done|]. by intros []%Hk.
Qed.

Lemma forward_trees p x x1 x2 ns ts : alive p x -> keeps alive p x1 x2 ->
  Forall2 (reps x1 (new_in x x1)) ns ts -> Forall2 (reps x2 (new_in x x2)) ns ts.
Proof.
  intros Hp Hk Hf. eapply Forall2_impl; [exact Hf|]. intros n t.
  apply reps_mono. by apply (new_forward p).
Qed.

Lemma back_trees p x x1 x2 ns ts : keeps alive p x x1 ->
  Forall2 (reps x2 (new_in x1 x2)) ns ts -> Forall2 (reps x2 (new_in x x2)) ns ts.
Proof.
  intros Hk Hf. eapply Forall2_impl; [exact Hf|]. intros n t. apply reps_mono. by apply (new_back p).
Qed.

Lemma hung_refl x p : hung x p x [].
Proof. split; [reflexivity|]. do 3 (split; [done|]). exists []. by rewrite app_nil_r. Qed.

Lemma hung_trans x p x1 x2 ts1 ts2 :
  alive p x -> hung x p x1 ts1 -> hung x1 p x2 ts2 -> hung x p x2 (ts1 ++ ts2).
Proof.
  intros Hp (Hk1 & Hn1 & He1 & Hp1 & ns1 & Hc1 & Hf1) (Hk2 & Hn2 & He2 & Hp2 & ns2 & Hc2 & Hf2).
  split; [by etransitivity|]. split; [congruence|]. split; [congruence|]. split; [intros k; by rewrite Hp2|].
  exists (ns1 ++ ns2). split; [by rewrite Hc2, Hc1, app_assoc|].
  apply Forall2_app; [by apply (forward_trees p x x1)|by apply (back_trees p x x1)].
Qed.

Lemma built_new name n x : new_element alive name n x -> built x n x (Elem name ∅ []).
Proof.
  intros [Ha Hn He Hc Hp]. split; [reflexivity|]. split; [done|]. split; [done|]. split; [done|].
  split; [intros k; by rewrite lookup_empty|]. by rewrite Hc.
Qed.

Lemma new_element_same name n x x' : new_element alive name n x -> alive n x' -> same_node n x x' ->
  new_element alive name n x'.
Proof.
  intros [Ha Hn He Hc Hp] Ha' (Hn' & He' & Hc' & Hp'). split; [done|congruence..|]. intros k. by rewrite Hp'.
Qed.

Lemma built_prop x n x1 x2 name props ts k v : alive n x ->
  built x n x1 (Elem name props ts) -> prop_put alive n k v x1 x2 ->
  built x n x2 (Elem name (<[k := v]> props) ts).
Proof.
  intros Ha (Hk1 & Ha1 & Hn & He & Hp & Hf) [Hv Ho [Hn' He'] Hc Hk2].
  split; [by etransitivity|]. split; [by apply Hk2|]. split; [congruence|]. split; [congruence|]. split.
  - intros k'. destruct (decide (k' = k)) as [->|Hne]; [by rewrite lookup_insert_eq|].
    rewrite lookup_insert_ne by done. by rewrite Ho.
  - rewrite Hc. by apply (forward_trees n x x1).
Qed.

Lemma built_hung x n x1 x2 name props ts ts' : alive n x ->
  built x n x1 (Elem name props ts) -> hung x1 n x2 ts' -> built x n x2 (Elem name props (ts ++ ts')).
Proof.
  intros Ha (Hk1 & Ha1 & Hn & He & Hp & Hf) (Hk2 & Hn2 & He2 & Hp2 & ns & Hc & Hf').
  split; [by etransitivity|]. split; [by apply Hk2|]. split; [congruence|]. split; [congruence|].
  split; [intros k; by rewrite Hp2|]. rewrite Hc.
  apply Forall2_app; [by apply (forward_trees n x x1)|by apply (back_trees n x x1)].
Qed.

(** A new child that has become a tree *)
Lemma hung_child x p n name x1 x2 t : alive p x ->
  child_added alive p name n x x1 -> built x1 n x2 t -> hung x p x2 [t].
Proof.
  intros Hp [Hfr Hnew [Hpn Hpe] Hpc Hpp Hk1] (Hk2 & Ha2 & Ht). destruct t as [nm props ts].
  destruct Ht as (Hn & He & Hpr & Hf). assert (Hpn' : p <> n) by (by intros ->).
  destruct (proj2 (proj1 Hk2 p (proj1 (proj1 Hk1 p Hp))) Hpn') as (Hpn2 & Hpe2 & Hpc2 & Hpp2).
  split; [by eapply keeps_fresh|]. split; [congruence|]. split; [congruence|]. split; [intros k; by rewrite Hpp2|].
  exists [n]. split; [congruence|]. constructor; [|done].
  constructor; [by split|done|done|done|]. by apply (back_trees p x x1).
Qed.

(** From a tree to the nodes it was made for *)
Lemma built_reps x n x' t : alive n x -> built x n x' t -> reps x' (fun m => alive m x') n t.
Proof.
  intros Ha (Hk & Ha' & Ht). destruct t as [nm props ts]. destruct Ht as (Hn & He & Hp & Hf).
  constructor; try done. eapply Forall2_impl; [exact Hf|]. intros m t. apply reps_mono.
  intros m' [? _]. split; [done|apply same_node_refl].
Qed.

(** ** Runs *)

Lemma xcall_run {A} (f : xmem -> A * xmem) s r x : f (xml s) = (r, x) -> xcall f s = (Ret r, set_xml x s).
Proof. intros Hf. unfold xcall. by rewrite Hf. Qed.

Lemma set_xml_set x x' s : set_xml x' (set_xml x s) = set_xml x' s.
Proof. done. Qed.

Lemma xml_new_node_run dd p name s : alive p (xml s) -> name ∈ element_names ->
  exists n x', xml_new_node dd p name s = (Ret (Some n), set_xml x' s) /\ child_added alive p name n (xml s) x'.
Proof.
  intros Hp Hname. destruct (addchild_law dd p name (xml s) Hp Hname) as (n & x1 & x2 & Hnew & Hadd & Hc).
  exists n, x2. split; [|done]. unfold xml_new_node. rewrite (bind_Ret _ _ _ _ _ (xcall_run _ s _ _ Hnew)).
  by rewrite (bind_Ret _ _ _ _ _ (xcall_run _ (set_xml x1 s) _ _ Hadd)).
Qed.

Lemma mjoin_singletons {A B} (f : A -> B) (l : list A) : mjoin ((fun y => [f y]) <$> l) = f <$> l.
Proof. unfold mjoin. induction l as [|y l IH]; [done|]. cbn. by f_equal. Qed.

(** A new document with a root *)
Lemma new_document name x : name ∈ element_names ->
  exists dd f x1 x2 x3, xmlNewDoc x = (Some dd, x1) /\ xmlNewNode name x1 = (Some f, x2) /\
    x3 = xmlDocSetRootElement (Some dd) (Some f) x2 /\ xmlDocGetRootElement (Some dd) x3 = Some f /\
    new_element alive name f x3.
Proof.
  intros Hname. destruct (newdoc_law x) as (dd & x1 & Hnew & Hblank & _).
  destruct (newnode_law name x1 Hname) as (f & x2 & Hnode & Hne & _ & Hb2).
  pose proof (ne_alive _ _ _ _ Hne) as Hf. destruct (setroot_law dd f x2 Hf (Hb2 dd Hblank)) as [Hroot Hk].
  exists dd, f, x1, x2, (xmlDocSetRootElement (Some dd) (Some f) x2). do 4 (split; [done|]).
  destruct (Hk f Hf) as [Ha Hs]. by eapply new_element_same.
Qed.

(** The state changes in its documents only; trees are hung below [p]. *)
Definition hangs {A} (m : prog state A) (s : state) (r : A) (p : node) (ts : list xtree) : Prop :=
  exists x', m s = (Ret r, set_xml x' s) /\ hung (xml s) p x' ts.

Lemma hangs_nothing {A} (r : A) s p : hangs (ret r) s r p [].
Proof. exists (xml s). split; [by destruct s|apply hung_refl]. Qed.

Lemma hangs_bind {A B} (m : prog state A) (k : A -> prog state B) s r r' p ts ts' :
  alive p (xml s) -> hangs m s r p ts -> (forall x, alive p x -> hangs (k r) (set_xml x s) r' p ts') ->
  hangs (m ≫= k) s r' p (ts ++ ts').
Proof.
  intros Hp (x1 & Hrun & Hh) Hk. destruct (Hk x1) as (x2 & Hrun' & Hh'); [by apply Hh|].
  exists x2. rewrite (bind_Ret _ _ _ _ _ Hrun). split; [done|]. by eapply hung_trans.
Qed.

(** A call that changes nothing *)
Lemma hangs_pure {A B} (m : prog state A) (k : A -> prog state B) s r r' p ts :
  m s = (Ret r, s) -> hangs (k r) s r' p ts -> hangs (m ≫= k) s r' p ts.
Proof. intros Hm (x & Hrun & Hh). exists x. by rewrite (bind_Ret _ _ _ _ _ Hm). Qed.

Lemma hangs_on_error {A} (m h : prog state A) s r p ts : hangs m s r p ts -> hangs (on_error m h) s r p ts.
Proof. intros (x & Hrun & Hh). exists x. unfold on_error. by rewrite Hrun. Qed.

(** A loop that hangs something below [p] in each of its rounds; [I] holds of the state
    whatever the documents are. *)
Lemma hung_for_each {A} p (I : state -> Prop) (body : A -> prog state unit) (f : A -> list xtree) (l : list A) :
  (forall s x, I s -> I (set_xml x s)) ->
  (forall y s, y ∈ l -> I s -> alive p (xml s) -> hangs (body y) s tt p (f y)) ->
  forall s, I s -> alive p (xml s) -> hangs (for_each l body) s tt p (mjoin (f <$> l)).
Proof.
  intros HI. induction l as [|y l IH]; intros Hb s Hs Hp.
  - exists (xml s). split; [by destruct s|apply hung_refl].
  - destruct (Hb y s ltac:(by left) Hs Hp) as (x1 & Hrun & Hh).
    destruct (IH ltac:(intros ? ? ?; apply Hb; by right) (set_xml x1 s) (HI s x1 Hs)) as (x' & Hrun' & Hh'); [by apply Hh|].
    exists x'. cbn [for_each]. rewrite (bind_Ret _ _ _ _ _ Hrun). split; [done|]. by eapply hung_trans.
Qed.

(** A new child, with a property or without, and what is hung below it *)
Lemma hangs_child {A} p name (m : option node -> prog state A) s r ts :
  alive p (xml s) -> name ∈ element_names ->
  (forall n x, alive n x -> hangs (m (Some n)) (set_xml x s) r n ts) ->
  hangs (n ← xcall (xmlNewChild (Some p) name); m n) s r p [Elem name ∅ ts].
Proof.
  intros Hp Hname Hm. destruct (newchild_law p name (xml s) Hp Hname) as (n & x1 & Hnew & Hca).
  pose proof (ca_new _ _ _ _ _ _ Hca) as Hne. pose proof (ne_alive _ _ _ _ Hne) as Hn.
  destruct (Hm n x1 Hn) as (x2 & Hrun & Hh). exists x2. split; [by rewrite (bind_Ret _ _ _ _ _ (xcall_run _ s _ _ Hnew)), Hrun|].
  eapply hung_child; [done|exact Hca|]. by apply (built_hung x1 n x1 x2 name ∅ []); [|apply built_new|].
Qed.

Lemma hangs_child_prop {A} p name k v (m : option node -> prog state A) s r ts :
  alive p (xml s) -> name ∈ element_names ->
  (forall n x, alive n x -> hangs (m (Some n)) (set_xml x s) r n ts) ->
  hangs (n ← xcall (xmlNewChild (Some p) name); xcall (xmlNewProp n k v) ;; m n) s r p
    [Elem name (<[k := default "" v]> ∅) ts].
Proof.
  intros Hp Hname Hm. destruct (newchild_law p name (xml s) Hp Hname) as (n & x1 & Hnew & Hca).
  pose proof (ca_new _ _ _ _ _ _ Hca) as Hne. pose proof (ne_alive _ _ _ _ Hne) as Hn.
  destruct (newprop_law n k v x1 Hn (ne_props _ _ _ _ Hne _)) as (x2 & Hput & Hpp).
  destruct (Hm n x2) as (x3 & Hrun & Hh); [by apply (pp_keeps _ _ _ _ _ _ Hpp)|]. exists x3. split.
  - rewrite (bind_Ret _ _ _ _ _ (xcall_run _ s _ _ Hnew)).
    by rewrite (bind_Ret _ _ _ _ _ (xcall_run _ (set_xml x1 s) _ _ Hput)), set_xml_set, Hrun.
  - eapply hung_child; [done|exact Hca|]. apply (built_hung x1 n x2 x3 name _ []); [done| |exact Hh].
    eapply built_prop; [done|by apply built_new|exact Hpp].
Qed.
End trees.

(** ** The toy libxml2 builds documents *)

Lemma toy_fresh_none (x : gmap nat xelem) : x !! toy_fresh x = None.
Proof.
  assert (Hmax : forall k, is_Some (x !! k) -> (k <= map_fold (fun k _ m => Nat.max k m) O x)%nat).
  { apply (map_fold_weak_ind (fun r m => forall k, is_Some (m !! k) -> (k <= r)%nat)).
    - intros k [e He]. by rewrite lookup_empty in He.
    - intros i e m r Hi IH k. destruct (decide (k = i)) as [->|Hne]; [lia|].
      rewrite lookup_insert_ne by done. intros Hk%IH. lia. }
  destruct (x !! toy_fresh x) eqn:E; [|done].
  specialize (Hmax (toy_fresh x) ltac:(by eexists)). unfold toy_fresh in Hmax. lia.
Qed.

(** An element, or a document without a root *)
Definition toy_alive (n : nat) (x : gmap nat xelem) : Prop := exists e, x !! n = Some e /\ x_name e <> "#doc".
Definition toy_blank (n : nat) (x : gmap nat xelem) : Prop := exists e, x !! n = Some e /\ x_name e = "#doc" /\ x_kids e = [].

Section toy_build.
#[local] Existing Instance toy_libxml.
Implicit Types x : gmap nat xelem.

Lemma toy_same (n : nat) x x' : x' !! n = x !! n -> same_node (H0 := toy_libxml) n x x'.
Proof.
  intros Hx. split; [cbn; by rewrite Hx|]. split; [cbn; by rewrite Hx|].
  split; [cbn; unfold toy_kids; by rewrite Hx|]. intros k. cbn. unfold toy_get. by rewrite Hx.
Qed.

Lemma toy_frame (p : nat) x x' :
  (forall n : nat, is_Some (x !! n) -> n <> p -> x' !! n = x !! n) ->
  forall m : nat, toy_alive m x -> m <> p -> toy_alive m x' /\ same_node (H0 := toy_libxml) m x x'.
Proof.
  intros Hx m (e & He & Hn) Hm. assert (Hs : x' !! m = x !! m) by (apply Hx; [by eexists|done]).
  split; [exists e; by rewrite Hs|by apply toy_same].
Qed.

Lemma toy_dead x : ~ toy_alive (toy_fresh x) x.
Proof. intros (e & He & _). by rewrite toy_fresh_none in He. Qed.

Lemma toy_build_names name : name ∈ element_names -> name <> "#doc".
Proof. unfold element_names. set_solver. Qed.

(** A new node changes nothing. *)
Lemma toy_new_frame name x : forall m : nat, toy_alive m x ->
  toy_alive m (toy_new name x).2 /\ same_node (H0 := toy_libxml) m x (toy_new name x).2.
Proof.
  intros m Hm. apply (toy_frame (toy_fresh x)); [|done|intros ->; by apply (toy_dead x)].
  intros n _ Hn. cbn. by rewrite lookup_insert_ne.
Qed.

Lemma toy_new_element name x : name <> "#doc" ->
  new_element (H0 := toy_libxml) toy_alive name (toy_fresh x) (toy_new name x).2.
Proof.
  intros Hn. split; cbn; unfold toy_kids, toy_get, toy_alive; rewrite ?lookup_insert_eq; try done.
  by eexists.
Qed.

Lemma toy_child_added (p : nat) name x : toy_alive p x -> name <> "#doc" ->
  child_added (H0 := toy_libxml) toy_alive p name (toy_fresh x) x (toy_add p (toy_fresh x) (toy_new name x).2).
Proof.
  intros Hp Hname. pose proof Hp as (e & He & Hne).
  assert (Hpf : p <> toy_fresh x) by (intros ->; by apply (toy_dead x)).
  assert (Hadd : toy_add p (toy_fresh x) (toy_new name x).2 !! p
    = Some {| x_name := x_name e; x_text := x_text e; x_props := x_props e; x_kids := x_kids e ++ [toy_fresh x] |}).
  { unfold toy_add. cbn. by rewrite lookup_alter_eq, lookup_insert_ne, He. }
  assert (Hoth : forall m, m <> p -> toy_add p (toy_fresh x) (toy_new name x).2 !! m = (toy_new name x).2 !! m)
    by (intros m Hm; unfold toy_add; by rewrite lookup_alter_ne).
  split.
  - apply toy_dead.
  - destruct (toy_new_element name x Hname) as [(f & Hf & Hfn) Hn Hel Hc Hpr].
    split; [exists f; by rewrite Hoth|..]; cbn -[toy_add toy_new] in *; unfold toy_kids, toy_get in *; rewrite Hoth by done; try done.
  - cbn -[toy_add toy_new]. by rewrite Hadd, He.
  - cbn -[toy_add toy_new]. unfold toy_kids. by rewrite Hadd, He.
  - intros k. cbn -[toy_add toy_new]. unfold toy_get. by rewrite Hadd, He.
  - split.
    + intros m Hm. destruct (decide (m = p)) as [->|Hmp]; [split; [by eexists|done]|].
      destruct (toy_frame p x (toy_add p (toy_fresh x) (toy_new name x).2)) with (m := m) as [? ?]; try done.
      intros n (g & Hg) Hnp. rewrite Hoth by done. cbn. apply lookup_insert_ne. intros <-. by rewrite toy_fresh_none in Hg.
    + intros [d|] r; [|done]. cbn -[toy_add toy_new]. unfold toy_kids. destruct (decide (d = p)) as [->|Hd].
      * rewrite Hadd, He. cbn -[toy_add toy_new]. by destruct (x_kids e).
      * rewrite Hoth by done. cbn. destruct (decide (d = toy_fresh x)) as [->|Hdf]; [by rewrite toy_fresh_none|].
        by rewrite lookup_insert_ne.
Qed.

Lemma toy_prop_put (n : nat) k v x : toy_alive n x ->
  prop_put (H0 := toy_libxml) toy_alive n k (default "" v) x (toy_prop n k v x).
Proof.
  intros Hn. pose proof Hn as (e & He & Hne).
  assert (Hput : toy_prop n k v x !! n = Some {| x_name := x_name e; x_text := x_text e;
    x_props := (k, default "" v) :: x_props e; x_kids := x_kids e |}) by (unfold toy_prop; by rewrite lookup_alter_eq, He).
  assert (Hoth : forall m, m <> n -> toy_prop n k v x !! m = x !! m)
    by (intros m Hm; unfold toy_prop; by rewrite lookup_alter_ne).
  split; cbn -[toy_prop]; unfold toy_get, toy_kids; rewrite ?Hput, ?He; cbn -[toy_prop].
  - by rewrite STREQ_refl.
  - intros k' Hk'. by rewrite (proj2 (STREQ_neq k' k) Hk').
  - done.
  - done.
  - split.
    + intros m Hm. destruct (decide (m = n)) as [->|Hmn]; [split; [by eexists|done]|].
      destruct (toy_frame n x (toy_prop n k v x)) with (m := m) as [? ?]; try done. intros; by apply Hoth.
    + intros [d|] r; [|done]. cbn. unfold toy_kids. destruct (decide (d = n)) as [->|Hd]; [by rewrite Hput, He|].
      by rewrite Hoth.
Qed.
End toy_build.

#[global] Instance toy_build : XmlBuild (H := toy_host) toy_libxml.
Proof.
  refine {| alive := toy_alive : @node toy_host -> @xmem toy_host -> Prop; blank := toy_blank |}.
  - intros x. exists (toy_fresh x), (toy_new "#doc" x).2. split; [done|]. split; [|apply toy_new_frame].
    eexists. cbn. by rewrite lookup_insert_eq.
  - intros name x Hname%toy_build_names. exists (toy_fresh x), (toy_new name x).2. split; [done|].
    split; [by apply toy_new_element|]. split; [apply toy_new_frame|].
    intros dd (e & He & Hb). exists e. split; [|done]. cbn. rewrite lookup_insert_ne; [done|].
    intros <-. pose proof (toy_fresh_none x). congruence.
  - intros dd n x Hn (e & He & Hnm & Hk) x'. subst x'. cbn. unfold toy_root, toy_add, toy_kids.
    rewrite lookup_alter_eq, He. cbn. rewrite Hk. split; [done|]. intros m Hm. apply (toy_frame dd); [|done|].
    + intros k _ Hk'. by rewrite lookup_alter_ne.
    + intros ->. destruct Hm as (e' & He' & Hne). congruence.
  - intros p name x Hp Hname%toy_build_names. eexists _, _. split; [done|]. by apply toy_child_added.
  - intros dd p name x Hp Hname%toy_build_names. eexists _, _, _. split; [done|]. split; [done|]. by apply toy_child_added.
  - intros n k v x Hn _. eexists. split; [done|]. by apply toy_prop_put.
  - intros n k v x Hn. eexists. split; [done|]. by apply (toy_prop_put n k (Some v)).
Defined.
