(* ===== verification/Netcf.v ===== *)
(** * The public interface (netcf.c)

    Every entry point clears the error of the previous one and calls the
    driver. The driver is an interface: [Driver] lists its operations
    (internal.h), [DriverLaws] what it promises to netcf.c; the theorems here
    hold for every driver that keeps these promises. *)

From S2P Require Import Prelude CStr State Refs Toy Posix Xml.

(** ** The driver interface (internal.h) *)

Class Driver `{Host} := {
  drv_init : M Z;
  drv_close : M unit;
  drv_entry : M unit;
  drv_num_of_interfaces : Z -> M Z;
  drv_list_interfaces : Z -> Z -> M (Z * list (option string));
  drv_lookup_by_name : string -> M (option nat);
  drv_lookup_by_mac_string : string -> Z -> M (Z * list (option nat));
  drv_xml_desc : nat -> M (option string);
  drv_xml_state : nat -> M (option string);
  drv_if_status : nat -> bool -> M (Z * Z);        (** is [flags] non-NULL? *)
  drv_change_begin : Z -> M Z;
  drv_change_rollback : Z -> M Z;
  drv_change_commit : Z -> M Z;
  drv_mac_string : nat -> M (option string);
  drv_define : string -> M (option nat);
  drv_undefine : nat -> M Z;
  drv_if_up : nat -> M Z;
  drv_if_down : nat -> M Z
}.

(** The environment of the process. *)
Class Env `{Host} := {
  getenv : string -> sys -> option string;
  NETCF_DATADIR : string                           (** configure's choice *)
}.

(** [errmsgs], in the order of [netcf_errcode_t] *)
Definition errmsgs : list string :=
  ["no error"; "internal error"; "unspecified error"; "allocation failed";
   "XML parser failed"; "XML invalid"; "required entry missing";
   "failed to execute external program"; "instance still in use";
   "XSLT transformation failed"; "File operation failed"; "ioctl operation failed";
   "NETLINK socket operation failed"; "Operation invalid in this state"].

(** The value of the enumeration constant. *)
Definition errnum (c : netcf_errcode_t) : Z :=
  match c with
  | NETCF_NOERROR => 0 | NETCF_EINTERNAL => 1 | NETCF_EOTHER => 2 | NETCF_ENOMEM => 3
  | NETCF_EXMLPARSER => 4 | NETCF_EXMLINVALID => 5 | NETCF_ENOENT => 6 | NETCF_EEXEC => 7
  | NETCF_EINUSE => 8 | NETCF_EXSLTFAILED => 9 | NETCF_EFILE => 10 | NETCF_EIOCTL => 11
  | NETCF_ENETLINK => 12 | NETCF_EINVALIDOP => 13
  end.

Section api.
Context `{Driver, !Libxml, !Env}.

(** [API_ENTRY] *)
Definition API_ENTRY : M unit :=
  freed ← gets ncf_freed;
  if (freed : bool) then halt (UB "use of a freed struct netcf") else
  modify (fun s => set_ncf (set_err NETCF_NOERROR None (ncf s)) s) ;;
  d ← gets (fun s => ncf_driver (ncf s));
  when (bool_decide (is_Some d)) drv_entry.

(** [API_ENTRY(nif->ncf)] *)
Definition API_ENTRY_IF (p : nat) : M unit := the_if p ;; API_ENTRY.

(** [ncf_close] of a pointer that is not NULL *)
Definition ncf_close : M Z :=
  API_ENTRY ;;
  on_error
    (r ← gets (fun s => ncf_ref (ncf s));
     ERR_COND_BAIL (1 <? r) NETCF_EINUSE ;;
     drv_close ;;
     unref_netcf ;;
     ret 0)
    (ret (-1)).

(** The instance that [make_ref] allocates. *)
Definition zero_netcf : netcf :=
  {| ncf_ref := 1; ncf_root := None; data_dir := ""; rng := None; errcode := NETCF_NOERROR;
     errdetails := None; ncf_driver := None; debug := false |}.

Definition set_freed (b : bool) (s : state) : state :=
  {| ncf := ncf s; ncf_freed := b; ifs := ifs s; next_if := next_if s; mem := mem s;
     tty := tty s; world := world s; xml := xml s |}.

Definition set_root (r : option string) (n : netcf) : netcf :=
  {| ncf_ref := ncf_ref n; ncf_root := r; data_dir := data_dir n; rng := rng n;
     errcode := errcode n; errdetails := errdetails n; ncf_driver := ncf_driver n;
     debug := debug n |}.

Definition set_env (dir : string) (dbg : bool) (n : netcf) : netcf :=
  {| ncf_ref := ncf_ref n; ncf_root := ncf_root n; data_dir := dir; rng := rng n;
     errcode := errcode n; errdetails := errdetails n; ncf_driver := ncf_driver n;
     debug := dbg |}.

Definition set_rng (g : option rng_t) (n : netcf) : netcf :=
  {| ncf_ref := ncf_ref n; ncf_root := ncf_root n; data_dir := data_dir n; rng := g;
     errcode := errcode n; errdetails := errdetails n; ncf_driver := ncf_driver n;
     debug := debug n |}.

(** [root[strlen(root)-1]], which reads before an empty string *)
Definition last_char (s : string) : option ascii :=
  match strlen s with
  | 0 => None
  | _ => String.get (String.length s - 1) s
  end.

(** [ncf_init]; [*ncf] is NULL afterwards exactly when [ncf_freed] is set. *)
Definition ncf_init (root : option string) : M Z :=
  b ← malloc;
  if negb b then modify (set_freed true) ;; ret (-2) else
  modify (fun s => set_freed false (set_ncf zero_netcf s)) ;;
  on_error
    (let root := default "/" root in
     match last_char root with
     | None => halt (UB "root[-1]")
     | Some c =>
         path ← (if decide (c = "/"%char) then strdup root else xasprintf (root +:+ "/"));
         modify (fun s => set_ncf (set_root path (ncf s)) s) ;;
         when (bool_decide (path = None)) goto_error ;;
         dir ← gets (fun s => getenv "NETCF_DATADIR" (world s));
         dbg ← gets (fun s => getenv "NETCF_DEBUG" (world s));
         modify (fun s => set_ncf (set_env (default (NETCF_DATADIR +:+ "/netcf") dir)
                                     (bool_decide (is_Some dbg)) (ncf s)) s) ;;
         g ← rng_parse "interface.rng";
         modify (fun s => set_ncf (set_rng g (ncf s)) s) ;;
         ERR_BAIL ;;
         drv_init
     end)
    (ncf_close ;; modify (set_freed true) ;; ret (-2)).

Definition ncf_num_of_interfaces (flags : Z) : M Z :=
  API_ENTRY ;; drv_num_of_interfaces flags.

(** [names] has [maxnames] elements; the result and what they hold after. *)
Definition ncf_list_interfaces (maxnames flags : Z) : M (Z * list (option string)) :=
  API_ENTRY ;;
  if maxnames <? 0 then halt (UB "memset of a negative size") else
  ' (result, names) ← drv_list_interfaces maxnames flags;
  ret (result, if result <? 0 then (fun _ => None) <$> names else names).

Definition ncf_lookup_by_name (name : string) : M (option nat) :=
  API_ENTRY ;; drv_lookup_by_name name.

Definition ncf_lookup_by_mac_string (mac : string) (maxifaces : Z)
  : M (Z * list (option nat)) :=
  API_ENTRY ;; drv_lookup_by_mac_string mac maxifaces.

Definition ncf_define (xml : string) : M (option nat) := API_ENTRY ;; drv_define xml.

Definition ncf_if_name (p : nat) : M string := API_ENTRY_IF p ;; if_name p.
Definition ncf_if_mac_string (p : nat) : M (option string) :=
  API_ENTRY_IF p ;; drv_mac_string p.
Definition ncf_if_undefine (p : nat) : M Z := API_ENTRY_IF p ;; drv_undefine p.
Definition ncf_if_up (p : nat) : M Z := API_ENTRY_IF p ;; drv_if_up p.
Definition ncf_if_down (p : nat) : M Z := API_ENTRY_IF p ;; drv_if_down p.
Definition ncf_if_xml_desc (p : nat) : M (option string) := API_ENTRY_IF p ;; drv_xml_desc p.
Definition ncf_if_xml_state (p : nat) : M (option string) := API_ENTRY_IF p ;; drv_xml_state p.
Definition ncf_if_status (p : nat) (flags : bool) : M (Z * Z) :=
  API_ENTRY_IF p ;; drv_if_status p flags.

Definition ncf_change_begin (flags : Z) : M Z := API_ENTRY ;; drv_change_begin flags.
Definition ncf_change_rollback (flags : Z) : M Z := API_ENTRY ;; drv_change_rollback flags.
Definition ncf_change_commit (flags : Z) : M Z := API_ENTRY ;; drv_change_commit flags.

Definition ncf_if_free (nif : option nat) : M unit := unref_netcf_if nif.

(** [ncf_error]: the code, its text and the details. *)
Definition ncf_error : M (Z * option string * option string) :=
  c ← gets (fun s => errnum (err s));
  let code := if Z.of_nat (length errmsgs) <=? c then errnum NETCF_EINTERNAL else c in
  details ← gets (fun s => errdetails (ncf s));
  ret (code, errmsgs !! Z.to_nat code, details).
End api.

(** ** What a driver promises *)

Class DriverLaws `{Driver} := {
  drv_init_grows : pres grows drv_init;
  drv_init_closed : closed drv_init;
  drv_close_steady : pres steady drv_close;
  drv_close_total : forall s, exists s', drv_close s = (Ret tt, s');
  drv_entry_steady : pres steady drv_entry;
  drv_entry_total : forall s, is_Some (ncf_driver (ncf s)) ->
    exists s', drv_entry s = (Ret tt, s') /\ err s' = err s;
  drv_num_of_interfaces_law f :
    pres grows (drv_num_of_interfaces f) /\ reports (drv_num_of_interfaces f);
  drv_list_interfaces_law n f :
    pres grows (drv_list_interfaces n f) /\
    post (fun r s => (r.1 < 0 -> failed s) /\ length r.2 = Z.to_nat n) (fun _ => False)
      (drv_list_interfaces n f);
  drv_lookup_by_name_law n :
    pres grows (drv_lookup_by_name n) /\ closed (drv_lookup_by_name n);
  drv_lookup_by_mac_string_law mac n :
    pres grows (drv_lookup_by_mac_string mac n) /\
    post (fun r s => r.1 < 0 -> failed s) (fun _ => False) (drv_lookup_by_mac_string mac n);
  drv_xml_desc_law p : pres grows (drv_xml_desc p) /\ closed (drv_xml_desc p);
  drv_xml_state_law p : pres grows (drv_xml_state p) /\ closed (drv_xml_state p);
  drv_if_status_law p b :
    pres grows (drv_if_status p b) /\
    post (fun r s => r.1 < 0 -> failed s) (fun _ => False) (drv_if_status p b);
  drv_change_begin_law f : pres grows (drv_change_begin f) /\ reports (drv_change_begin f);
  drv_change_rollback_law f :
    pres grows (drv_change_rollback f) /\ reports (drv_change_rollback f);
  drv_change_commit_law f : pres grows (drv_change_commit f) /\ reports (drv_change_commit f);
  drv_mac_string_law p : pres grows (drv_mac_string p) /\ closed (drv_mac_string p);
  drv_define_law x :
    pres grows (drv_define x) /\
    post (fun r s => r = None -> failed s) (fun _ => False) (drv_define x);
  drv_undefine_law p : pres grows (drv_undefine p) /\ reports (drv_undefine p);
  drv_if_up_law p : pres grows (drv_if_up p) /\ reports (drv_if_up p);
  drv_if_down_law p : pres grows (drv_if_down p) /\ reports (drv_if_down p)
}.

#[export] Hint Resolve drv_init_grows drv_init_closed drv_close_steady drv_entry_steady : pres.
#[export] Hint Resolve drv_init_closed : fails.

(** ** Calls of the interface and their effect on the counters *)

Section client.
Context `{DriverLaws, !Libxml, !Env}.
Implicit Types s : state.

(** What a whole call may do: the error may be replaced, but details still
    come with a code, and the counters stay right. *)
Definition sound s s' : Prop :=
  (err_wf s -> err_wf s') /\ (next_if s <= next_if s')%nat /\
  (room s' -> refs_wf s -> refs_wf s').

#[global] Instance sound_preorder : PreOrder sound.
Proof.
  split; unfold sound, room.
  - intros s. auto.
  - intros x y z (Hk1 & Hn1 & Hw1) (Hk2 & Hn2 & Hw2).
    split; [auto|]. split; [lia|]. intros Hr Hw. apply Hw2, Hw1; auto; lia.
Qed.

Lemma grows_sound s s' : grows s s' -> sound s s'.
Proof. intros ([] & ? & ?). by split. Qed.

Lemma pres_sound {A} (m : M A) : pres grows m -> pres sound m.
Proof. intros Hm s. apply grows_sound, Hm. Qed.

Lemma clear_sound s : sound s (set_ncf (set_err NETCF_NOERROR None (ncf s)) s).
Proof.
  split; [by intros|]. split; [done|]. intros _. by apply refs_same_wf.
Qed.

Lemma API_ENTRY_sound : pres sound API_ENTRY.
Proof.
  unfold API_ENTRY. pres_step; [pres_step|]. destruct a; [pres_step|].
  pres_step; [apply pres_modify; apply clear_sound|]. pres_step; [pres_step|].
  pres_step. apply pres_sound, pres_grows, drv_entry_steady.
Qed.

Lemma API_ENTRY_IF_sound p : pres sound (API_ENTRY_IF p).
Proof.
  unfold API_ENTRY_IF. pres_step; [|apply API_ENTRY_sound].
  apply pres_sound, pres_grows, the_if_steady.
Qed.

Lemma drv_entry_run s : is_Some (ncf_driver (ncf s)) ->
  exists s', drv_entry s = (Ret tt, s') /\ err s' = err s /\ refs_same s s'.
Proof.
  intros Hd. destruct (drv_entry_total s Hd) as (s' & Hs & He). exists s'.
  split; [done|]. split; [done|]. pose proof (drv_entry_steady s) as [_ Hr]. by rewrite Hs in Hr.
Qed.

(** Entering a live instance clears the error and changes no counter. *)
Lemma API_ENTRY_run s : ncf_freed s = false ->
  exists s', API_ENTRY s = (Ret tt, s') /\ err s' = NETCF_NOERROR /\ refs_same s s' /\ err_wf s'.
Proof.
  intros Hf. unfold API_ENTRY. rewrite (bind_Ret _ _ s false s) by (unfold gets; by rewrite Hf).
  set (s1 := set_ncf (set_err NETCF_NOERROR None (ncf s)) s).
  rewrite (bind_Ret _ _ s tt s1) by done. unfold bind, gets.
  destruct (ncf_driver (ncf s1)) as [d|] eqn:Hd; cbn.
  - destruct (drv_entry_run s1) as (s' & Hs & He & Hr); [by eexists|]. exists s'.
    split; [done|]. split; [done|]. split; [by destruct Hr as (?&?&?&?)|].
    pose proof (drv_entry_steady s1) as [Hk _]. rewrite Hs in Hk. apply Hk. done.
  - by exists s1.
Qed.

Lemma closed_API_ENTRY : closed API_ENTRY.
Proof.
  intros s. destruct (ncf_freed s) eqn:Hf.
  - unfold API_ENTRY. rewrite (bind_Ret _ _ s true s) by (unfold gets; by rewrite Hf). done.
  - destruct (API_ENTRY_run s Hf) as (s' & -> & _). done.
Qed.

Lemma closed_API_ENTRY_IF p : closed (API_ENTRY_IF p).
Proof. unfold API_ENTRY_IF. apply closed_bind; [apply closed_the_if|intros _; apply closed_API_ENTRY]. Qed.

Lemma post_entry {A} (Q : A -> state -> Prop) (m : M A) :
  post Q (fun _ => False) m -> post Q (fun _ => False) (API_ENTRY ;; m).
Proof. intros Hm. apply post_bind; [apply closed_API_ENTRY|done]. Qed.

Lemma post_entry_if {A} (Q : A -> state -> Prop) p (m : M A) :
  post Q (fun _ => False) m -> post Q (fun _ => False) (API_ENTRY_IF p ;; m).
Proof. intros Hm. apply post_bind; [apply closed_API_ENTRY_IF|done]. Qed.

(** One call of the interface, [ncf_init] and [ncf_close] apart. *)
Inductive call :=
| CNum (flags : Z)
| CList (maxnames flags : Z)
| CLookupName (name : string)
| CLookupMac (mac : string) (maxifaces : Z)
| CDefine (xml : string)
| CName (p : nat)
| CMac (p : nat)
| CUndefine (p : nat)
| CUp (p : nat)
| CDown (p : nat)
| CXmlDesc (p : nat)
| CXmlState (p : nat)
| CStatus (p : nat) (flags : bool)
| CBegin (flags : Z)
| CRollback (flags : Z)
| CCommit (flags : Z)
| CFree (nif : option nat)
| CError.

Definition ignore {A} (m : M A) : M unit := m ;; ret tt.

Definition run_call (c : call) : M unit :=
  match c with
  | CNum f => ignore (ncf_num_of_interfaces f)
  | CList n f => ignore (ncf_list_interfaces n f)
  | CLookupName n => ignore (ncf_lookup_by_name n)
  | CLookupMac m n => ignore (ncf_lookup_by_mac_string m n)
  | CDefine x => ignore (ncf_define x)
  | CName p => ignore (ncf_if_name p)
  | CMac p => ignore (ncf_if_mac_string p)
  | CUndefine p => ignore (ncf_if_undefine p)
  | CUp p => ignore (ncf_if_up p)
  | CDown p => ignore (ncf_if_down p)
  | CXmlDesc p => ignore (ncf_if_xml_desc p)
  | CXmlState p => ignore (ncf_if_xml_state p)
  | CStatus p b => ignore (ncf_if_status p b)
  | CBegin f => ignore (ncf_change_begin f)
  | CRollback f => ignore (ncf_change_rollback f)
  | CCommit f => ignore (ncf_change_commit f)
  | CFree nif => ncf_if_free nif
  | CError => ignore ncf_error
  end.

Lemma entry_sound {A} (m : M A) : pres grows m -> pres sound (ignore (API_ENTRY ;; m)).
Proof.
  intros Hm. unfold ignore. pres_step; [|pres_step].
  pres_step; [apply API_ENTRY_sound|by apply pres_sound].
Qed.

Lemma entry_if_sound {A} p (m : M A) : pres grows m -> pres sound (ignore (API_ENTRY_IF p ;; m)).
Proof.
  intros Hm. unfold ignore. pres_step; [|pres_step].
  pres_step; [apply API_ENTRY_IF_sound|by apply pres_sound].
Qed.

Lemma run_call_sound c : pres sound (run_call c).
Proof.
  destruct c; cbn [run_call]; try (apply entry_sound || apply entry_if_sound).
  - apply drv_num_of_interfaces_law.
  - pres_step; [pres_step|]. pres_step; [apply drv_list_interfaces_law|pres_auto].
  - apply drv_lookup_by_name_law.
  - apply drv_lookup_by_mac_string_law.
  - apply drv_define_law.
  - auto with pres.
  - apply drv_mac_string_law.
  - apply drv_undefine_law.
  - apply drv_if_up_law.
  - apply drv_if_down_law.
  - apply drv_xml_desc_law.
  - apply drv_xml_state_law.
  - apply drv_if_status_law.
  - apply drv_change_begin_law.
  - apply drv_change_rollback_law.
  - apply drv_change_commit_law.
  - apply pres_sound, unref_netcf_if_grows.
  - unfold ignore, ncf_error. pres_auto.
Qed.

Lemma ncf_close_run s : refs_wf s ->
  exists s', ncf_close s = (Ret (if decide (ifs s = ∅) then 0 else -1), s') /\
    ifs s' = ifs s /\
    if decide (ifs s = ∅) then ncf_freed s' = true
    else err s' = NETCF_EINUSE /\ refs_wf s'.
Proof.
  intros Hwf. destruct (API_ENTRY_run s (wf_live s Hwf)) as (s1 & Hs1 & He1 & Hr1 & Hwf1).
  pose proof (refs_same_wf s s1 Hr1 Hwf) as Hw1. pose proof Hr1 as (_ & Hc1 & Hi1 & _).
  pose proof (wf_count s Hwf) as Hc. unfold ncf_close. rewrite (bind_Ret _ _ _ _ _ Hs1).
  unfold on_error. rewrite (bind_Ret _ _ s1 (ncf_ref (ncf s1)) s1) by done.
  destruct (decide (ifs s = ∅)) as [E|E].
  - rewrite E, map_size_empty in Hc. rewrite Hc1, Hc. change (1 <? 1 + Z.of_nat 0) with false.
    rewrite (bind_Ret _ _ s1 tt s1) by (apply (ERR_BAIL_ok s1 He1)).
    destruct (drv_close_total s1) as (s2 & Hs2). pose proof (drv_close_steady s1) as [_ Hr2].
    rewrite Hs2 in Hr2. rewrite (bind_Ret _ _ _ _ _ Hs2).
    pose proof (refs_same_wf _ _ Hr2 Hw1) as Hw2. destruct Hr2 as (_ & Hc2 & Hi2 & _). cbn in *.
    assert (ncf_ref (ncf s2) = 1) as Hone by lia.
    unfold unref_netcf, bind, gets. rewrite (wf_live _ Hw2). rewrite Hone. cbn.
    unfold free_netcf, bind, gets. cbn. eexists. split; [reflexivity|]. cbn. split; [|done]. congruence.
  - assert ((1 <? ncf_ref (ncf s1)) = true) as ->.
    { apply Z.ltb_lt. assert (size (ifs s) <> O) by (by apply map_size_non_empty_iff). rewrite Hc1, Hc. lia. }
    unfold ERR_COND_BAIL, ERR_COND, ERR_BAIL, bind, gets, set_errcode, modify, goto_error. cbn.
    eexists. split; [reflexivity|]. split; [by cbn|]. split; [done|].
    by apply (refs_same_wf s1).
Qed.
End client.

(** ** A small driver for the witnesses

    Every name is known; listing always fails half-way, and nothing else does
    anything. *)

#[global] Instance toy_env : Env (H := toy_host) :=
  {| getenv := fun n _ => if STREQ n "NETCF_DEBUG" then Some "1" else None;
     NETCF_DATADIR := "/usr/share" |}.

Definition toy_fail {A} (a : A) : prog (state (H := toy_host)) A :=
  report_error NETCF_EOTHER "no" ;; ret a.

Definition toy_drv : Driver (H := toy_host) :=
  {| drv_init := modify (fun s => set_ncf (set_driver (Some (toy_driver toy_empty)) (ncf s)) s) ;;
                 ret 0;
     drv_close := modify (fun s => set_ncf (set_driver None (ncf s)) s);
     drv_entry := ret tt;
     drv_num_of_interfaces := fun _ => ret 0;
     drv_list_interfaces := fun n _ =>
       toy_fail (-1, take (Z.to_nat n) (Some "eth0" :: replicate (Z.to_nat n) None));
     drv_lookup_by_name := make_netcf_if;
     drv_lookup_by_mac_string := fun _ n => toy_fail (-1, replicate (Z.to_nat n) None);
     drv_xml_desc := fun _ => ret None; drv_xml_state := fun _ => ret None;
     drv_if_status := fun _ _ => ret (0, 1);
     drv_change_begin := fun _ => ret 0; drv_change_rollback := fun _ => ret 0;
     drv_change_commit := fun _ => ret 0; drv_mac_string := fun _ => ret None;
     drv_define := make_netcf_if; drv_undefine := fun _ => ret 0;
     drv_if_up := fun _ => ret 0; drv_if_down := fun _ => ret 0 |}.

Lemma toy_fail_law {A} (a : A) (Q : A -> Prop) : Q a ->
  pres grows (toy_fail a) /\
  post (fun r s => failed s /\ Q r) (fun _ => False) (toy_fail a).
Proof.
  intros Ha. split; [unfold toy_fail; pres_auto|].
  unfold toy_fail. eapply post_bind_dep; [by apply report_error_post|]. by cbn.
Qed.

#[local] Hint Resolve make_netcf_if_grows closed_make_netcf_if : pres.

Lemma toy_laws : DriverLaws (H0 := toy_drv).
Proof.
  split; cbn; intros;
    try (split; [pres_auto|]; first [apply post_ret; cbn; intros; lia | by apply closed_ret
                                    | apply closed_make_netcf_if | apply make_netcf_if_post]);
    try (solve [pres_auto | fails_auto | by eexists]).
  - edestruct (toy_fail_law (-1, take (Z.to_nat n) (Some "eth0" :: replicate (Z.to_nat n) None))
      (fun r => length r.2 = Z.to_nat n)) as [Hg Hp].
    { cbn. rewrite length_take. cbn. rewrite length_replicate. lia. }
    split; [done|]. eapply post_mono; [exact Hp| |done]. cbn. naive_solver.
  - edestruct (toy_fail_law (-1, replicate (Z.to_nat n) (@None nat)) (fun _ => True)) as [Hg Hp]; [done|].
    split; [done|]. eapply post_mono; [exact Hp| |done]. cbn. naive_solver.
Qed.

(** ** Helper lemmas on results *)

Section results.
Context `{DriverLaws, !Libxml, !Env}.
Implicit Types s : state.

(** The calls that return an [int], with the result they return. *)
Definition int_result (c : call) : option (M Z) :=
  match c with
  | CNum f => Some (ncf_num_of_interfaces f)
  | CList n f => Some (r ← ncf_list_interfaces n f; ret r.1)
  | CLookupMac m n => Some (r ← ncf_lookup_by_mac_string m n; ret r.1)
  | CUndefine p => Some (ncf_if_undefine p)
  | CUp p => Some (ncf_if_up p)
  | CDown p => Some (ncf_if_down p)
  | CStatus p b => Some (r ← ncf_if_status p b; ret r.1)
  | CBegin f => Some (ncf_change_begin f)
  | CRollback f => Some (ncf_change_rollback f)
  | CCommit f => Some (ncf_change_commit f)
  | CLookupName _ | CDefine _ | CName _ | CMac _ | CXmlDesc _ | CXmlState _ | CFree _
  | CError => None
  end.

Lemma reports_fst {A} (m : M (Z * A)) :
  post (fun r s => r.1 < 0 -> failed s) (fun _ => False) m -> reports (r ← m; ret r.1).
Proof. intros Hm. eapply post_bind_dep; [exact Hm|]. by cbn. Qed.

Lemma int_result_reports c m : int_result c = Some m -> reports m.
Proof.
  destruct c; cbn [int_result]; intros [= <-]; try apply reports_fst; unfold reports;
    try (apply post_entry || apply post_entry_if).
  - apply drv_num_of_interfaces_law.
  - destruct (maxnames <? 0); [by intros s|].
    eapply post_bind_dep; [apply drv_list_interfaces_law|]. intros [r names] s [Hr _]. by cbn in *.
  - apply drv_lookup_by_mac_string_law.
  - apply drv_undefine_law.
  - apply drv_if_up_law.
  - apply drv_if_down_law.
  - apply drv_if_status_law.
  - apply drv_change_begin_law.
  - apply drv_change_rollback_law.
  - apply drv_change_commit_law.
Qed.

Lemma ncf_error_run s :
  exists msg, ncf_error s = (Ret (errnum (err s), Some msg, errdetails (ncf s)), s) /\
    errmsgs !! Z.to_nat (errnum (err s)) = Some msg.
Proof.
  unfold ncf_error, bind, gets. destruct (err s); cbn; eexists; split; reflexivity.
Qed.

Lemma errnum_zero c : errnum c = 0 <-> c = NETCF_NOERROR.
Proof. by destruct c. Qed.

Lemma errnum_bound c : 0 <= errnum c < Z.of_nat (length errmsgs).
Proof. by destruct c. Qed.
End results.

(** ** Properties *)

(** C1: whatever sequence of calls is made on an instance, with valid or stale
    interfaces and however the calls end, the reference count stays one more
    than the number of live interfaces, every live interface has one owner, and
    error details never lack a code. *)
Theorem api_invariant `{DriverLaws, !Libxml, !Env} (calls : list call) (s : state)
  (Hwf : refs_wf s) (Herr : err_wf s)
  (Hroom : room (for_each calls run_call s).2) :
  refs_wf (for_each calls run_call s).2 /\ err_wf (for_each calls run_call s).2.
Proof.
  assert (Hs : pres sound (for_each calls run_call)).
  { apply pres_for_each; [apply _|]. intros c. apply run_call_sound. }
  destruct (Hs s) as (He & _ & Hr). auto.
Qed.

Lemma toy_refs_wf os a : refs_wf (toy_state os a).
Proof. split; try done. Defined.

Lemma api_invariant_witness :
  let s := (for_each [CLookupName "eth0"; CDefine "br0"; CList 2 0; CFree (Some 0%nat); CMac 7]
              (run_call (H0 := toy_drv)) (toy_state toy_os toy_empty)).2 in
  refs_wf s /\ err_wf s.
Proof.
  apply (@api_invariant toy_host toy_drv toy_laws toy_libxml toy_env
    [CLookupName "eth0"; CDefine "br0"; CList 2 0; CFree (Some 0%nat); CMac 7]
    (toy_state toy_os toy_empty) (toy_refs_wf _ _)).
  - intros _. reflexivity.
  - vm_compute. reflexivity.
Defined.

(** C2: an instance can be closed exactly when no interface is outstanding; it
    is freed then, and otherwise the call fails with EINUSE and the instance
    stays usable. *)
Theorem ncf_close_spec `{DriverLaws, !Libxml, !Env} (s : state) (Hwf : refs_wf s) :
  exists s', ncf_close s = (Ret (if decide (ifs s = ∅) then 0 else -1), s') /\
    ifs s' = ifs s /\
    if decide (ifs s = ∅) then ncf_freed s' = true
    else err s' = NETCF_EINUSE /\ refs_wf s'.
Proof. by apply ncf_close_run. Qed.

Lemma ncf_close_spec_witness :
  (exists s', ncf_close (H0 := toy_drv) (toy_state toy_os toy_empty) = (Ret 0, s') /\
     ncf_freed s' = true) /\
  (exists s', ncf_close (H0 := toy_drv) (make_netcf_if "eth0" (toy_state toy_os toy_empty)).2
              = (Ret (-1), s') /\ err s' = NETCF_EINUSE).
Proof.
  split.
  - destruct (@ncf_close_spec toy_host toy_drv toy_laws toy_libxml toy_env
      (toy_state toy_os toy_empty) (toy_refs_wf _ _)) as (s' & Hr & _ & Hf).
    exists s'. split; [exact Hr|exact Hf].
  - destruct (@ncf_close_spec toy_host toy_drv toy_laws toy_libxml toy_env
      (make_netcf_if "eth0" (toy_state toy_os toy_empty)).2) as (s' & Hr & _ & He & _).
    { apply (proj2 (proj2 (make_netcf_if_grows "eth0" (toy_state toy_os toy_empty))));
        [vm_compute; reflexivity|apply toy_refs_wf]. }
    exists s'. split; [exact Hr|exact He].
Defined.

(** C36: an application can always finish: after any sequence of calls that left the
    process running, once the interfaces that are still there have been freed, each
    once and in any order, [ncf_close] succeeds and frees the instance. *)
Theorem always_closable `{DriverLaws, !Libxml, !Env} (calls : list call) (s s1 : state) (ps : list nat)
  (Hwf : refs_wf s) (Hrun : for_each calls run_call s = (Ret tt, s1)) (Hroom : room s1)
  (Hnd : NoDup ps) (Hps : forall p, p ∈ ps <-> is_Some (ifs s1 !! p)) :
  exists s2 s3, for_each (Some <$> ps) ncf_if_free s1 = (Ret tt, s2) /\
    ncf_close s2 = (Ret 0, s3) /\ ncf_freed s3 = true.
Proof.
  assert (Hs : pres sound (for_each calls run_call)).
  { apply pres_for_each; [apply _|]. intros c. apply run_call_sound. }
  destruct (Hs s) as (_ & _ & Hr). rewrite Hrun in Hr. specialize (Hr Hroom Hwf).
  destruct (release_all ps _ Hr Hnd (fun p => proj1 (Hps p))) as (s2 & Hf & Hw & Hi).
  assert (He : ifs s2 = ∅).
  { apply map_empty. intros q. rewrite Hi. case_decide as Hq; [done|]. rewrite Hps in Hq.
    by apply eq_None_not_Some. }
  destruct (ncf_close_run s2 Hw) as (s3 & Hc & _ & Hz). rewrite decide_True in Hc by done.
  destruct (decide (ifs s2 = ∅)); [|done].
  exists s2, s3. split; [exact Hf|]. by split.
Qed.

Lemma always_closable_witness :
  let calls := [CLookupName "eth0"; CDefine "br0"; CList 2 0; CFree (Some 0%nat)] in
  let s1 := (for_each calls (run_call (H0 := toy_drv)) (toy_state toy_os toy_empty)).2 in
  exists s2 s3, for_each [Some 1%nat] ncf_if_free s1 = (Ret tt, s2) /\
    ncf_close (H0 := toy_drv) s2 = (Ret 0, s3) /\ ncf_freed s3 = true.
Proof.
  intros calls s1.
  apply (@always_closable toy_host toy_drv toy_laws toy_libxml toy_env
    calls (toy_state toy_os toy_empty) s1 [1%nat] (toy_refs_wf _ _)).
  - vm_compute. reflexivity.
  - vm_compute. reflexivity.
  - apply NoDup_singleton.
  - assert (Hi : ifs s1 = {[1%nat := {| nif_ref := 1; nif_name := "br0"; nif_mac := None |}]})
      by (vm_compute; reflexivity).
    rewrite Hi. intros p. rewrite list_elem_of_singleton. destruct (decide (p = 1%nat)) as [->|Hne].
    + rewrite lookup_singleton_eq. split; [by eexists|done].
    + rewrite lookup_singleton_ne by done. split; [done|by intros []].
Defined.

(** Releasing an interface takes it and one reference of the instance away
    and touches nothing else; releasing it twice is undefined behaviour. *)
Theorem ncf_if_free_spec `{Driver} (s : state) (p : nat) (nif : netcf_if)
  (Hwf : refs_wf s) (Hp : ifs s !! p = Some nif) :
  exists s', ncf_if_free (Some p) s = (Ret tt, s') /\
    ifs s' = delete p (ifs s) /\ ncf_ref (ncf s') = ncf_ref (ncf s) - 1 /\ refs_wf s' /\
    err s' = err s /\ world s' = world s /\
    (exists what, (ncf_if_free (Some p) s').1 = Stop (UB what)).
Proof.
  exists (without_if s p). split; [by apply (unref_netcf_if_run s p nif)|].
  split; [done|]. split; [done|]. split; [by apply (refs_wf_without_if s p nif)|].
  split; [done|]. split; [done|]. eexists.
  unfold ncf_if_free, unref_netcf_if, bind, the_if, gets. cbn. by rewrite lookup_delete_eq.
Qed.

Lemma ncf_if_free_spec_witness :
  let s := (make_netcf_if "eth0" (toy_state toy_os toy_empty)).2 in
  exists s', ncf_if_free (Some 0%nat) s = (Ret tt, s') /\ ifs s' = delete 0%nat (ifs s) /\
    ncf_ref (ncf s') = 1.
Proof.
  destruct (@ncf_if_free_spec toy_host toy_drv (make_netcf_if "eth0" (toy_state toy_os toy_empty)).2
    0%nat {| nif_ref := 1; nif_name := "eth0"; nif_mac := None |}) as (s' & Hr & Hi & Hc & _).
  - apply (proj2 (proj2 (make_netcf_if_grows "eth0" (toy_state toy_os toy_empty))));
      [vm_compute; reflexivity|apply toy_refs_wf].
  - vm_compute. reflexivity.
  - exists s'. split; [exact Hr|]. split; [exact Hi|exact Hc].
Defined.

(** Whenever one of the calls on an open instance that return an int ([call]; [ncf_init]
    and [ncf_close] are none of them) returns a negative one, [ncf_error] afterwards gives a
    code other than 0 and a text for it. *)
Theorem api_failure_is_reported `{DriverLaws, !Libxml, !Env} (c : call) (m : M Z) (s s' : state)
  (r : Z) (Hint : int_result c = Some m) (Hrun : m s = (Ret r, s')) (Hneg : r < 0) :
  exists code msg details, ncf_error s' = (Ret (code, Some msg, details), s') /\
    0 < code < Z.of_nat (length errmsgs) /\ errmsgs !! Z.to_nat code = Some msg.
Proof.
  pose proof (int_result_reports c m Hint s) as Hf. rewrite Hrun in Hf. specialize (Hf Hneg).
  destruct (ncf_error_run s') as (msg & He & Hl). exists (errnum (err s')), msg, (errdetails (ncf s')).
  split; [done|]. split; [|done]. pose proof (errnum_bound (err s')).
  pose proof (errnum_zero (err s')) as Hz. destruct (Z.eq_dec (errnum (err s')) 0) as [E|]; [|lia].
  by apply Hz in E.
Qed.

Lemma api_failure_is_reported_witness :
  let s' := (ncf_list_interfaces (H0 := toy_drv) 2 0 (toy_state toy_os toy_empty)).2 in
  exists code msg details, ncf_error s' = (Ret (code, Some msg, details), s') /\
    0 < code < Z.of_nat (length errmsgs) /\ errmsgs !! Z.to_nat code = Some msg.
Proof.
  eapply (@api_failure_is_reported toy_host toy_drv toy_laws toy_libxml toy_env (CList 2 0) _
    (toy_state toy_os toy_empty) _ (-1) eq_refl); vm_compute; reflexivity.
Defined.

(** When listing fails, none of the names the driver had already stored is
    handed to the caller. *)
Theorem ncf_list_interfaces_failure `{DriverLaws, !Libxml, !Env} (n flags r : Z) (s s' : state)
  (names : list (option string))
  (Hrun : ncf_list_interfaces n flags s = (Ret (r, names), s')) (Hneg : r < 0) :
  0 <= n /\ names = replicate (Z.to_nat n) None /\ failed s'.
Proof.
  unfold ncf_list_interfaces in Hrun.
  apply bind_inv in Hrun as [(a & s1 & _ & Hrun)|[[_ ?]|(w & _ & ?)]]; [|done|done].
  destruct (Z.ltb_spec n 0) as [Hn|Hn]; [done|].
  apply bind_inv in Hrun as [([r1 l] & s2 & Hd & Hrun)|[[_ ?]|(w & _ & ?)]]; [|done|done].
  injection Hrun as -> <- ->. pose proof (proj2 (drv_list_interfaces_law n flags) s1) as Hp.
  rewrite Hd in Hp. destruct Hp as [Hf Hl]. cbn in *. rewrite (proj2 (Z.ltb_lt r 0)) by done.
  split; [done|]. split; [|auto]. rewrite <- Hl. clear.
  induction l as [|x l IH]; cbn; [done|]. by f_equal.
Qed.

Lemma ncf_list_interfaces_failure_witness :
  0 <= 2 /\ [None; None] = replicate (Z.to_nat 2) (@None string) /\
  failed (ncf_list_interfaces (H0 := toy_drv) 2 0 (toy_state toy_os toy_empty)).2.
Proof.
  eapply (@ncf_list_interfaces_failure toy_host toy_drv toy_laws toy_libxml toy_env 2 0 (-1)
    (toy_state toy_os toy_empty) _ [None; None]); vm_compute; reflexivity.
Defined.

(** ** Opening an instance *)

Section init.
Context `{DriverLaws, !Libxml, !Env}.
Implicit Types s : state.

(** The root as it is stored. *)
Definition normal_root (r : string) : string :=
  if decide (last_char r = Some "/"%char) then r else r +:+ "/".

Lemma get_last (r : string) c :
  String.get (String.length r - 1) r = Some c -> exists p, r = p +:+ String c "".
Proof.
  induction r as [|a r IH]; [done|]. destruct r as [|b r].
  - cbn. intros [= ->]. by exists "".
  - intros Hg. destruct IH as [p Hp].
    + rewrite <- Hg. cbn. by rewrite Nat.sub_0_r.
    + exists (String a p). by rewrite app_cons, <- Hp.
Qed.

Lemma normal_root_slash r : exists p, normal_root r = p +:+ "/".
Proof.
  unfold normal_root. case_decide as Hl; [|by eexists]. unfold last_char in Hl.
  destruct (strlen r); [done| |]; by apply get_last.
Qed.

Lemma last_char_Some r : r <> "" -> is_Some (last_char r).
Proof.
  intros Hr. unfold last_char. assert (strlen r <> 0) as Hn by (destruct r; done).
  destruct (strlen r); [done| |];
    (clear Hn; induction r as [|a r IH]; [done|]; destruct r as [|b r]; [by eexists|];
     destruct IH as [c Hc]; [done|]; exists c; rewrite <- Hc; cbn; by rewrite Nat.sub_0_r).
Qed.

(** The instance just before the driver is started. *)
Definition fresh_netcf (root : string) (g : option rng_t) (w : sys) : netcf :=
  {| ncf_ref := 1; ncf_root := Some root;
     data_dir := default (NETCF_DATADIR +:+ "/netcf") (getenv "NETCF_DATADIR" w);
     rng := g; errcode := NETCF_NOERROR; errdetails := None; ncf_driver := None;
     debug := bool_decide (is_Some (getenv "NETCF_DEBUG" w)) |}.

(** Closing the instance that [ncf_init] could not finish. *)
Lemma ncf_close_unfinished s :
  ncf_freed s = false -> ncf_ref (ncf s) = 1 -> ncf_driver (ncf s) = None ->
  exists s', ncf_close s = (Ret 0, s') /\ ncf_freed s' = true.
Proof.
  intros Hf Hr Hd. unfold ncf_close.
  set (s1 := set_ncf (set_err NETCF_NOERROR None (ncf s)) s).
  rewrite (bind_Ret _ _ s tt s1) by (unfold API_ENTRY, bind, gets; cbn; by rewrite Hf; cbn; rewrite Hd).
  destruct (drv_close_total s1) as (s2 & Hs2). pose proof (drv_close_steady s1) as [_ Hr2].
  rewrite Hs2 in Hr2. destruct Hr2 as (Hf2 & Hc2 & _).
  unfold on_error. rewrite (bind_Ret _ _ s1 1 s1) by (unfold gets; cbn; by rewrite Hr).
  rewrite (bind_Ret _ _ s1 tt s1) by (by apply ERR_BAIL_ok).
  rewrite (bind_Ret _ _ _ _ _ Hs2). cbn in Hf2, Hc2.
  unfold unref_netcf, bind, gets. rewrite Hf2, Hf. cbn. rewrite Hc2, Hr. cbn.
  unfold free_netcf, bind, gets. cbn. eauto.
Qed.
Lemma ncf_init_run (root : option string) (s : state) (msgs : list string) (g : option rng_t) :
  root <> Some "" -> mem s = [] ->
  let dir := default (NETCF_DATADIR +:+ "/netcf") (getenv "NETCF_DATADIR" (world s)) in
  let path := dir +:+ "/xml/" +:+ "interface.rng" in
  xmlRelaxNGParse path (world s) = (msgs, g) ->
  if access_r path (world s) && bool_decide (msgs = []) then
    ncf_init root s =
      drv_init (set_freed false (set_ncf (fresh_netcf (normal_root (default "/" root)) g (world s)) s))
  else exists s', ncf_init root s = (Ret (-2), s') /\ ncf_freed s' = true.
Proof.
  intros Hroot Hmem dir path Hparse.
  assert (Hne : default "/" root <> "") by (destruct root; naive_solver).
  apply last_char_Some in Hne as [c Hc].
  set (w := world s) in *. set (root' := normal_root (default "/" root)).
  set (s1 := set_freed false (set_ncf (fresh_netcf root' None w) s)).
  assert (Hpath : forall s0, mem s0 = [] ->
    (if decide (c = "/"%char) then strdup (default "/" root)
     else xasprintf (default "/" root +:+ "/")) s0 = (Ret (Some root'), s0)).
  { intros s0 Hm0. unfold root', normal_root. rewrite Hc. unfold xasprintf, strdup, malloc, bind.
    destruct (decide (c = "/"%char)) as [->|Hs]; rewrite Hm0.
    - by rewrite decide_True.
    - by rewrite decide_False by congruence. }
  assert (Hpre : ncf_init root s = on_error
     (g ← rng_parse "interface.rng";
      modify (fun s => set_ncf (set_rng g (ncf s)) s) ;; ERR_BAIL ;; drv_init)
     (ncf_close ;; modify (set_freed true) ;; ret (-2)) s1).
  { unfold ncf_init. rewrite (bind_Ret _ _ s true s) by (unfold malloc; by rewrite Hmem).
    cbn [negb]. unfold bind at 1, modify at 1. unfold on_error. cbv zeta. rewrite Hc.
    rewrite (bind_Ret _ _ _ _ _ (Hpath (set_freed false (set_ncf zero_netcf s)) Hmem)). done. }
  rewrite Hpre. clear Hpre Hpath Hc.
  assert (Hfail : forall m s2, m s1 = (Bail, s2) -> ncf_freed s2 = false ->
    ncf_ref (ncf s2) = 1 -> ncf_driver (ncf s2) = None ->
    exists s', on_error m (ncf_close ;; modify (set_freed true) ;; ret (-2)) s1 = (Ret (-2), s') /\
               ncf_freed s' = true).
  { intros m s2 Hm2 Hf2 Hr2 Hd2. destruct (ncf_close_unfinished s2 Hf2 Hr2 Hd2) as (s' & Hs' & _).
    rewrite (on_error_Bail _ _ _ _ Hm2). rewrite (bind_Ret _ _ _ _ _ Hs'). by eexists. }
  assert (Hwf1 : err_wf s1) by by intros _.
  pose proof (rng_parse_run "interface.rng" s1 msgs g Hwf1 Hmem Hparse) as Hrun.
  change (access_r _ (world s1)) with (access_r path w) in Hrun.
  destruct (access_r path w); cbn [andb]; [|eapply Hfail; [by rewrite (bind_Ret _ _ _ _ _ Hrun)|done..]].
  destruct msgs as [|m msgs]; [|eapply Hfail; [by rewrite (bind_Ret _ _ _ _ _ Hrun)|done..]].
  apply on_error_closed; [|apply drv_init_closed].
  by rewrite (bind_Ret _ _ _ _ _ Hrun).
Qed.
End init.

(** C3: [ncf_init] stores the root with a trailing slash, finds the data
    directory, parses the schema and then leaves everything to the driver, on
    an instance with one reference and no error. If the schema cannot be read
    or the parser complains about it, -2 is returned and there is no instance. *)
Theorem ncf_init_spec `{DriverLaws, !Libxml, !Env} (root : option string) (s : state)
  (msgs : list string) (g : option rng_t)
  (Hroot : root <> Some "") (Hmem : mem s = []) :
  let dir := default (NETCF_DATADIR +:+ "/netcf") (getenv "NETCF_DATADIR" (world s)) in
  let path := dir +:+ "/xml/" +:+ "interface.rng" in
  forall (Hparse : xmlRelaxNGParse path (world s) = (msgs, g)),
  (exists p, normal_root (default "/" root) = p +:+ "/") /\
  if access_r path (world s) && bool_decide (msgs = []) then
    ncf_init root s =
      drv_init (set_freed false (set_ncf (fresh_netcf (normal_root (default "/" root)) g (world s)) s))
  else exists s', ncf_init root s = (Ret (-2), s') /\ ncf_freed s' = true.
Proof. intros dir path Hparse. split; [apply normal_root_slash|]. by apply (ncf_init_run root s msgs g). Qed.

Lemma ncf_init_spec_witness :
  ncf_init (H0 := toy_drv) (Some "/sysroot") (toy_state toy_os toy_empty) =
    drv_init (Driver := toy_drv) (set_freed false (set_ncf (fresh_netcf "/sysroot/" (Some tt) toy_os)
                                         (toy_state toy_os toy_empty))).
Proof.
  apply (@ncf_init_spec toy_host toy_drv toy_laws toy_libxml toy_env (Some "/sysroot")
           (toy_state toy_os toy_empty) [] (Some tt) ltac:(discriminate) eq_refl eq_refl).
Defined.
