(* ===== verification/Linux.v ===== *)
(** * Linux helpers shared by the initscripts drivers (dutil_linux.c)

    The Augeas instance of the driver and the functions around it, the state of
    interfaces as the kernel reports it, and the netlink half that describes a
    live interface in XML. Augeas, libnl and the kernel are parameters. *)

From S2P Require Import Prelude CStr State Refs Toy Posix Xml.

(** ** Parameters *)

Class Augeas `{Host} := {
  aug_init : option string -> string -> sys -> option aug;      (** root, loadpath *)
  aug_rm : string -> aug -> Z * aug;
  aug_set : string -> option string -> aug -> Z * aug;
  aug_get : string -> aug -> Z * option string;
  aug_match : string -> aug -> option (list string);            (** [None]: negative *)
  aug_insert : string -> string -> bool -> aug -> Z * aug;
  aug_defnode : string -> string -> option string -> aug -> (Z * Z) * aug;
  aug_load : sys -> aug -> Z * aug;
  aug_save : sys -> aug -> (Z * aug) * sys;
  aug_print : string -> aug -> string
}.

Class Kernel `{Host} := {
  stat : string -> sys -> option fmode;
  ioctl_ifflags : Z -> string -> sys -> option Z;               (** [SIOCGIFFLAGS] *)
  ioctl_hwaddr : Z -> string -> sys -> Z * list Z;              (** [SIOCGIFHWADDR] *)
  readdir : string -> sys -> option (list string)
}.

Class Netlink `{Host} := {
  link : Type;
  addr : Type;
  RTNL_LINK_NOT_FOUND : Z;
  nl_socket_alloc : sys -> bool * sys;
  nl_connect : sys -> Z * sys;
  rtnl_link_alloc_cache : sys -> Z * sys;                       (** libnl 3: the status *)
  rtnl_addr_alloc_cache : sys -> Z * sys;
  nl_cache_mngt_provide : sys -> sys;
  nl_socket_get_fd : sys -> Z;
  nl_cache_free : sys -> sys;
  nl_close : sys -> sys;
  nl_cache_refill : bool -> sys -> Z * sys;                     (** the link cache? *)
  nl_links : sys -> list link;                                  (** the link cache *)
  nl_links_of : Z -> sys -> list link;                          (** filtered by ifindex *)
  nl_addrs_of : Z -> sys -> list addr;
  rtnl_addr_alloc : sys -> bool;
  rtnl_link_alloc : sys -> bool;
  rtnl_link_name2i : string -> sys -> Z;
  rtnl_link_get : Z -> sys -> option link;
  rtnl_link_get_type : link -> option string;
  rtnl_link_get_link : link -> Z;
  rtnl_link_get_name : link -> option string;
  rtnl_link_get_ifindex : link -> Z;
  rtnl_link_get_flags : link -> Z;
  rtnl_link_get_master : link -> Z;
  rtnl_link_vlan_get_id : link -> Z;
  rtnl_link_get_addr : link -> option string;                   (** as [nl_addr2str] prints it *)
  nl_addr_iszero : link -> bool;
  nl_addr_get_family : addr -> Z;
  nl_addr_ntop : addr -> string;
  nl_addr_get_prefixlen : addr -> Z
}.

Definition AF_INET : Z := 2.
Definition AF_INET6 : Z := 10.
Definition IFF_UP : Z := 0x1.
Definition IFF_RUNNING : Z := 0x40.
Definition IFF_SLAVE : Z := 0x800.
Definition IFNAMSIZ : nat := 16.

(** [netcf_if_type_t] *)
Inductive netcf_if_type_t :=
| NETCF_IFACE_TYPE_NONE | NETCF_IFACE_TYPE_ETHERNET | NETCF_IFACE_TYPE_BOND
| NETCF_IFACE_TYPE_BRIDGE | NETCF_IFACE_TYPE_VLAN.

#[global] Instance netcf_if_type_dec : EqDecision netcf_if_type_t.
Proof. solve_decision. Defined.

(** ** The driver structure *)

Section driver_fields.
Context `{Host}.

(** [ncf->driver], dereferenced *)
Definition the_driver : M driver :=
  o ← gets (fun s => ncf_driver (ncf s));
  match o with
  | Some d => ret d
  | None => halt (UB "ncf->driver is NULL")
  end.

Definition upd_driver (f : driver -> driver) : M unit :=
  d ← the_driver; modify (fun s => set_ncf (set_driver (Some (f d)) (ncf s)) s).

Definition set_augeas (a : option aug) (d : driver) : driver :=
  {| augeas := a; put := put d; get := get d; ioctl_fd := ioctl_fd d; nl_sock := nl_sock d;
     link_cache := link_cache d; addr_cache := addr_cache d; load_augeas := load_augeas d;
     copy_augeas_xfm := copy_augeas_xfm d; augeas_xfm_tables := augeas_xfm_tables d |}.
Definition set_sheets (g p : option sheet) (d : driver) : driver :=
  {| augeas := augeas d; put := p; get := g; ioctl_fd := ioctl_fd d; nl_sock := nl_sock d;
     link_cache := link_cache d; addr_cache := addr_cache d; load_augeas := load_augeas d;
     copy_augeas_xfm := copy_augeas_xfm d; augeas_xfm_tables := augeas_xfm_tables d |}.
Definition set_ioctl_fd (fd : Z) (d : driver) : driver :=
  {| augeas := augeas d; put := put d; get := get d; ioctl_fd := fd; nl_sock := nl_sock d;
     link_cache := link_cache d; addr_cache := addr_cache d; load_augeas := load_augeas d;
     copy_augeas_xfm := copy_augeas_xfm d; augeas_xfm_tables := augeas_xfm_tables d |}.
Definition set_netlink (sock lc ac : bool) (d : driver) : driver :=
  {| augeas := augeas d; put := put d; get := get d; ioctl_fd := ioctl_fd d; nl_sock := sock;
     link_cache := lc; addr_cache := ac; load_augeas := load_augeas d;
     copy_augeas_xfm := copy_augeas_xfm d; augeas_xfm_tables := augeas_xfm_tables d |}.
Definition set_flags (load copy : bool) (d : driver) : driver :=
  {| augeas := augeas d; put := put d; get := get d; ioctl_fd := ioctl_fd d;
     nl_sock := nl_sock d; link_cache := link_cache d; addr_cache := addr_cache d;
     load_augeas := load; copy_augeas_xfm := copy; augeas_xfm_tables := augeas_xfm_tables d |}.
Definition set_tables (l : list (option augeas_xfm_table)) (d : driver) : driver :=
  {| augeas := augeas d; put := put d; get := get d; ioctl_fd := ioctl_fd d;
     nl_sock := nl_sock d; link_cache := link_cache d; addr_cache := addr_cache d;
     load_augeas := load_augeas d; copy_augeas_xfm := copy_augeas_xfm d;
     augeas_xfm_tables := l |}.
End driver_fields.

(** ** Augeas *)

Section augeas.
Context `{Augeas}.

(** [for (slot = 0; slot < n && tables[slot] != x; slot++)] *)
Fixpoint find_slot (x : option augeas_xfm_table) (l : list (option augeas_xfm_table)) : nat :=
  match l with
  | [] => 0
  | t :: l' =>
      if decide (xfm_id <$> t = xfm_id <$> x) then 0 else S (find_slot x l')
  end.

Definition add_augeas_xfm_table (xfm : augeas_xfm_table) : M Z :=
  on_error
    (d ← the_driver;
     slot ← (if decide (length (augeas_xfm_tables d) = 0)%nat then
               b ← malloc;
               ERR_NOMEM (negb b) ;;
               upd_driver (set_tables [None]) ;;
               ret 0%nat
             else
               let slot := find_slot None (augeas_xfm_tables d) in
               when (bool_decide (slot = length (augeas_xfm_tables d)))
                 (b ← malloc;
                  ERR_NOMEM (negb b) ;;
                  upd_driver (set_tables (augeas_xfm_tables d ++ [None]))) ;;
               ret slot);
     upd_driver (fun d => set_tables (<[slot := Some xfm]> (augeas_xfm_tables d)) d) ;;
     upd_driver (fun d => set_flags (load_augeas d) true d) ;;
     ret 0)
    (ret (-1)).

(** The search stops at the end of the array, and the test after the loop
    then reads one element past it. *)
Definition remove_augeas_xfm_table (xfm : augeas_xfm_table) : M Z :=
  d ← the_driver;
  let slot := find_slot (Some xfm) (augeas_xfm_tables d) in
  if decide (slot = length (augeas_xfm_tables d)) then
    halt (UB "tables[augeas_xfm_num_tables]")
  else
    upd_driver (fun d => set_tables (<[slot := None]> (augeas_xfm_tables d)) d) ;;
    upd_driver (fun d => set_flags (load_augeas d) true d) ;;
    ret 0.

(** A call on [ncf->driver->augeas] *)
Definition with_aug {A} (f : aug -> A * aug) : M A :=
  d ← the_driver;
  match augeas d with
  | None => halt (UB "Augeas called with a NULL instance")
  | Some a => let (r, a') := f a in upd_driver (set_augeas (Some a')) ;; ret r
  end.

Definition ask_aug {A} (f : aug -> A) : M A :=
  d ← the_driver;
  match augeas d with
  | None => halt (UB "Augeas called with a NULL instance")
  | Some a => ret (f a)
  end.

(** The number that [aug_match] returns. *)
Definition nmatches (l : option (list string)) : Z :=
  match l with Some l => Z.of_nat (length l) | None => -1 end.

(** The three stages of [get_augeas]: create the instance, *)
Definition open_augeas : M unit :=
  d ← the_driver;
  match augeas d with
  | Some _ => ret tt
  | None =>
      dir ← gets (fun s => data_dir (ncf s));
      opath ← xasprintf (dir +:+ "/lenses");
      path ← nonnull opath;
      a ← gets (fun s => aug_init (ncf_root (ncf s)) path (world s));
      ERR_THROW (is_null a) NETCF_EOTHER "aug_init failed" ;;
      upd_driver (set_augeas a) ;;
      upd_driver (fun d => set_flags (load_augeas d) true d)
  end.

(** copy the tables into it, *)
Definition copy_xfm : M unit :=
  d ← the_driver;
  when (copy_augeas_xfm d)
    (r ← with_aug (aug_rm "/augeas/load/*");
     ERR_THROW (r <? 0) NETCF_EOTHER "aug_rm failed in get_augeas" ;;
     for_each (augeas_xfm_tables d) (fun t =>
       match t with
       | None => ret tt
       | Some t =>
           for_each (xfm_pv t) (fun pv =>
             r ← with_aug (aug_set (pv_path pv) (Some (pv_value pv)));
             ERR_THROW (r <? 0) NETCF_EOTHER
               ("transform setup failed to set " +:+ pv_path pv))
       end) ;;
     upd_driver (set_flags true false)).

(** and load the files. *)
Definition load_files : M unit :=
  d ← the_driver;
  when (load_augeas d)
    (w ← gets world;
     r ← with_aug (aug_load w);
     ERR_THROW (r <? 0) NETCF_EOTHER "failed to load config files" ;;
     m ← ask_aug (aug_match "/augeas//error");
     dbg ← gets (fun s => debug (ncf s));
     when ((0 <? nmatches m) && dbg)
       (printf ("warning: augeas initialization had errors" +:+ nl) ;;
        printf ("please file a bug with the following lines in the bug report:" +:+ nl) ;;
        errors ← ask_aug (aug_print "/augeas//error");
        printf errors) ;;
     ERR_THROW (0 <? nmatches m) NETCF_EOTHER "errors in loading some config files" ;;
     upd_driver (fun d => set_flags false (copy_augeas_xfm d) d)).

(** [get_augeas]: is the result non-NULL? The instance itself is in the driver. *)
Definition get_augeas : M bool :=
  on_error
    (open_augeas ;; copy_xfm ;; load_files ;; ret true)
    (upd_driver (set_augeas None) ;; ret false).

(** [r] and [created] are not initialised when [get_augeas] fails. *)
Definition defnode (name : string) (value : option string) (expr : string) : M Z :=
  get_augeas ;;
  c ← gets err;
  if decide (c <> NETCF_NOERROR) then halt (UB "r is not initialised") else
  oexpr ← xasprintf expr;
  on_error
    (expr ← nonnull oexpr;
     ' (r, created) ← with_aug (aug_defnode name expr value);
     ERR_THROW (r <? 0) NETCF_EOTHER ("failed to define node " +:+ name) ;;
     ret created)
    (ret (-1)).

Definition aug_fmt_set (value : option string) (path : string) : M Z :=
  on_error
    (get_augeas ;;
     ERR_BAIL ;;
     opath ← xasprintf path;
     path ← nonnull opath;
     r ← with_aug (aug_set path value);
     ERR_COND_BAIL (r <? 0) NETCF_EOTHER ;;
     ret r)
    (ret (-1)).

Definition aug_fmt_rm (path : string) : M Z :=
  on_error
    (get_augeas ;;
     ERR_BAIL ;;
     opath ← xasprintf path;
     path ← nonnull opath;
     r ← with_aug (aug_rm path);
     ERR_COND_BAIL (r <? 0) NETCF_EOTHER ;;
     ret r)
    (ret (-1)).

(** The matches; [None] is the result -1. *)
Definition aug_fmt_match (path : string) : M (option (list string)) :=
  on_error
    (get_augeas ;;
     ERR_BAIL ;;
     opath ← xasprintf path;
     path ← nonnull opath;
     r ← ask_aug (aug_match path);
     ERR_COND_BAIL (nmatches r <? 0) NETCF_EOTHER ;;
     ret r)
    (ret None).

(** A list of matches, once errors have been dealt with. *)
Definition matched (l : option (list string)) : list string := default [] l.

Definition aug_match_mac (mac : string) : M (option (list string)) :=
  on_error
    (omac ← strdup mac;
     mac ← nonnull omac;
     let mac_lower := lower mac in
     m ← aug_fmt_match ("/files/sys/class/net/*[address/content = '" +:+ mac_lower +:+ "']");
     ERR_BAIL ;;
     names ← for_map (matched m) (fun path =>
       n ← match strrchr path "/"%char with
           | None => THROW NETCF_EINTERNAL "missing / in sysfs path"
           | Some n => ret n
           end;
       on ← strdup (string_drop 1 n);
       nonnull on);
     ret (Some names))
    (ret None).

(** [path] is freed and [r] returned uninitialised when [get_augeas] fails. *)
Definition aug_get_mac (intf : string) : M (Z * option string) :=
  get_augeas ;;
  c ← gets err;
  if decide (c <> NETCF_NOERROR) then halt (UB "free of an uninitialised pointer") else
  opath ← xasprintf ("/files/sys/class/net/" +:+ intf +:+ "/address/content");
  on_error
    (path ← nonnull opath;
     ask_aug (aug_get path))
    (ret (-1, None)).

Definition modprobed_alias_bond (name : string) : M unit :=
  on_error
    (get_augeas ;;
     ERR_BAIL ;;
     m ← aug_fmt_match ("/files/etc/modprobe.d/*/alias[ . = '" +:+ name +:+ "']");
     ERR_BAIL ;;
     when (nmatches m =? 0)
       (opath ← xasprintf "/files/etc/modprobe.d/netcf.conf/alias[last()]";
        path ← nonnull opath;
        m ← ask_aug (aug_match path);
        when (0 <? nmatches m)
          (r ← with_aug (aug_insert path "alias" false);
           ERR_COND_BAIL (r <? 0) NETCF_EOTHER) ;;
        with_aug (aug_set path (Some name)) ;;
        ret tt) ;;
     opath ← xasprintf ("/files/etc/modprobe.d/*/alias[ . = '" +:+ name +:+ "']/modulename");
     path ← nonnull opath;
     r ← with_aug (aug_set path (Some "bonding"));
     ERR_COND_BAIL (r <? 0) NETCF_EOTHER)
    (ret tt).

Definition modprobed_unalias_bond (name : string) : M unit :=
  on_error
    (get_augeas ;;
     ERR_BAIL ;;
     opath ← xasprintf ("/files/etc/modprobe.d/*/alias[ . = '" +:+ name +:+
                        "'][modulename = 'bonding']");
     path ← nonnull opath;
     r ← with_aug (aug_rm path);
     ERR_COND_BAIL (r <? 0) NETCF_EOTHER)
    (ret tt).
End augeas.

(** ** Interfaces as the kernel sees them *)

(** [strncpy] into [ifr_name] and the NUL forced at its end *)
Definition ifr_name (intf : string) : string := string_take (IFNAMSIZ - 1) intf.

(** [if_type_str] *)
Definition if_type_str (t : netcf_if_type_t) : option string :=
  match t with
  | NETCF_IFACE_TYPE_ETHERNET => Some "ethernet"
  | NETCF_IFACE_TYPE_BOND => Some "bond"
  | NETCF_IFACE_TYPE_BRIDGE => Some "bridge"
  | NETCF_IFACE_TYPE_VLAN => Some "vlan"
  | NETCF_IFACE_TYPE_NONE => None
  end.

(** [format_mac_addr] from offset [off] on: the text, or nothing when a write
    would leave the buffer ([snprintf] and the separator or NUL take 3 bytes). *)
Fixpoint format_mac_addr (off buflen : Z) (addr : list Z) : option string :=
  match addr with
  | [] => Some ""
  | a :: addr' =>
      if 3 <=? buflen - off then
        match addr' with
        | [] => Some (fmt_02x a)
        | _ =>
            match format_mac_addr (off + 3) buflen addr' with
            | Some rest => Some (fmt_02x a +:+ ":" +:+ rest)
            | None => None
            end
        end
      else None
  end.

Section kernel.
Context `{Kernel}.

Definition if_is_active (intf : string) : M bool :=
  d ← the_driver;
  r ← gets (fun s => ioctl_ifflags (ioctl_fd d) (ifr_name intf) (world s));
  ret match r with
      | None => false
      | Some flags => Z.land flags (Z.lor IFF_UP IFF_RUNNING) =? Z.lor IFF_UP IFF_RUNNING
      end.

(** [stat] one of the paths that give the type away. *)
Definition probe (path : string) (mode : fmode) : M bool :=
  opath ← xasprintf path;
  path ← nonnull opath;
  m ← gets (fun s => stat path (world s));
  ret match m, mode with
      | Some S_IFREG, S_IFREG | Some S_IFDIR, S_IFDIR => true
      | _, _ => false
      end.

Definition if_type (intf : string) : M netcf_if_type_t :=
  on_error
    (vlan ← probe ("/proc/net/vlan/" +:+ intf) S_IFREG;
     if (vlan : bool) then ret NETCF_IFACE_TYPE_VLAN else
     bridge ← probe ("/sys/class/net/" +:+ intf +:+ "/bridge") S_IFDIR;
     if (bridge : bool) then ret NETCF_IFACE_TYPE_BRIDGE else
     bond ← probe ("/sys/class/net/" +:+ intf +:+ "/bonding") S_IFDIR;
     if (bond : bool) then ret NETCF_IFACE_TYPE_BOND else
     ret NETCF_IFACE_TYPE_ETHERNET)
    (ret NETCF_IFACE_TYPE_NONE).

(** The result of the [ioctl] and the text left in [mac]. *)
Definition if_hwaddr (intf : string) (buflen : Z) : M (Z * string) :=
  d ← the_driver;
  ' (r, sa_data) ← gets (fun s => ioctl_hwaddr (ioctl_fd d) (ifr_name intf) (world s));
  match format_mac_addr 0 buflen (take 6 sa_data) with
  | Some text => ret (r, text)
  | None => halt (UB "write past the end of mac")
  end.

Definition if_bridge_phys_name (intf : string) : M (Z * list string) :=
  on_error
    (opath ← xasprintf ("/sys/class/net/" +:+ intf +:+ "/brif");
     dirpath ← nonnull opath;
     entries ← gets (fun s => readdir dirpath (world s));
     names ← for_acc (default [] entries) [] (fun name phys_names =>
       if STRNEQ name "." && STRNEQ name ".." then
         b ← malloc;
         ERR_NOMEM (negb b) ;;
         o ← xasprintf name;
         n ← nonnull o;
         ret (phys_names ++ [n])
       else ret phys_names);
     ret (Z.of_nat (length names), names))
    (ret (-1, [])).
End kernel.

(** ** Netlink *)

Section netlink.
Context `{Netlink, !Posix}.

Definition netlink_close : M Z :=
  d ← the_driver;
  when (addr_cache d)
    (syscall (fun w => (tt, nl_cache_free w)) ;;
     upd_driver (fun d => set_netlink (nl_sock d) (link_cache d) false d)) ;;
  when (link_cache d)
    (syscall (fun w => (tt, nl_cache_free w)) ;;
     upd_driver (fun d => set_netlink (nl_sock d) false (addr_cache d) d)) ;;
  when (nl_sock d)
    (syscall (fun w => (tt, nl_close w)) ;;
     upd_driver (fun d => set_netlink false (link_cache d) (addr_cache d) d)) ;;
  ret 0.

(** The caches, when libnl 3 is used: NULL if the library reports an error *)
Definition __rtnl_link_alloc_cache : M bool := r ← syscall rtnl_link_alloc_cache; ret (negb (r <? 0)).
Definition __rtnl_addr_alloc_cache : M bool := r ← syscall rtnl_addr_alloc_cache; ret (negb (r <? 0)).

(** No error is recorded when this fails. *)
Definition netlink_init : M Z :=
  on_error
    (sock ← syscall nl_socket_alloc;
     upd_driver (fun d => set_netlink sock (link_cache d) (addr_cache d) d) ;;
     when (negb sock) goto_error ;;
     r ← syscall nl_connect;
     when (r <? 0) goto_error ;;
     lc ← __rtnl_link_alloc_cache;
     upd_driver (fun d => set_netlink (nl_sock d) lc (addr_cache d) d) ;;
     when (negb lc) goto_error ;;
     syscall (fun w => (tt, nl_cache_mngt_provide w)) ;;
     ac ← __rtnl_addr_alloc_cache;
     upd_driver (fun d => set_netlink (nl_sock d) (link_cache d) ac d) ;;
     when (negb ac) goto_error ;;
     syscall (fun w => (tt, nl_cache_mngt_provide w)) ;;
     netlink_fd ← gets (fun s => nl_socket_get_fd (world s));
     when (0 <=? netlink_fd) (syscall (fcntl_setfd netlink_fd FD_CLOEXEC) ;; ret tt) ;;
     ret 0)
    (netlink_close ;; ret (-1)).
End netlink.

(** ** Describing a live interface in XML *)

Section state_xml.
Context `{Kernel, !Netlink, !Libxml}.

(** The result of [xmlSetProp] and [xmlNewProp], checked with [ERR_NOMEM] *)
Definition set_prop (n : node) (name value : string) : M unit :=
  prop ← xcall (xmlSetProp n name (Some value));
  ERR_NOMEM (negb prop).

(** The search in [add_ip_info_cb] for a protocol node of the family. *)
Fixpoint find_protocol (cur : list node) (family : string) (x : xmem) : option node :=
  match cur with
  | [] => None
  | n :: cur' =>
      if node_is_element n x && STREQ (node_name n x) "protocol" then
        match xmlGetProp n "family" x with
        | Some f => if STREQ f family then Some n else find_protocol cur' family x
        | None => find_protocol cur' family x
        end
      else find_protocol cur' family x
  end.

(** [add_ip_info_cb]; the callback data are [protov4] and [protov6]. *)
Definition add_ip_info_cb (d : doc) (root : node) (a : addr)
  (cb_data : option node * option node) : M (option node * option node) :=
  let '(protov4, protov6) := cb_data in
  let family := nl_addr_get_family a in
  if decide (family <> AF_INET /\ family <> AF_INET6) then ret cb_data else
  let family_str := if decide (family = AF_INET) then "ipv4" else "ipv6" in
  let put_proto p := if decide (family = AF_INET) then (p, protov6) else (protov4, p) in
  let ip_str := nl_addr_ntop a in
  let prefix := nl_addr_get_prefixlen a in
  proto ← match (if decide (family = AF_INET) then protov4 else protov6) with
          | Some p => ret (Some p)
          | None => xget (fun x => find_protocol (node_children root x) family_str x)
          end;
  proto' ← match proto with
           | Some p => ret (Some p)
           | None => xml_new_node d root "protocol"
           end;
  on_error
    (p ← nonnull proto';
     when (is_null proto) (set_prop p "family" family_str) ;;
     oip ← xml_new_node d p "ip";
     ip_node ← nonnull oip;
     set_prop ip_node "address" ip_str ;;
     set_prop ip_node "prefix" (fmt_d prefix))
    (ret tt) ;;
  ret (put_proto proto').

Definition add_ip_info (ifindex : Z) (d : doc) (root : node) : M unit :=
  on_error
    (filter_addr ← gets (fun s => rtnl_addr_alloc (world s));
     ERR_NOMEM (negb filter_addr) ;;
     addrs ← gets (fun s => nl_addrs_of ifindex (world s));
     for_acc addrs (None, None) (add_ip_info_cb d root) ;;
     ret tt)
    (ret tt).

Definition add_ethernet_info_cb (d : doc) (root : node) (l : link) (mac : option node)
  : M (option node) :=
  match mac, rtnl_link_get_addr l with
  | None, Some mac_str =>
      if nl_addr_iszero l then ret None else
      mac' ← xml_node d root "mac";
      on_error (m ← nonnull mac'; set_prop m "address" mac_str) (ret tt) ;;
      ret mac'
  | _, _ => ret mac
  end.

Definition add_ethernet_info (ifindex : Z) (d : doc) (root : node) : M unit :=
  if decide (ifindex = RTNL_LINK_NOT_FOUND) then ret tt else
  on_error
    (filter_link ← gets (fun s => rtnl_link_alloc (world s));
     ERR_NOMEM (negb filter_link) ;;
     links ← gets (fun s => nl_links_of ifindex (world s));
     for_acc links None (add_ethernet_info_cb d root) ;;
     ret tt)
    (ret tt).

(** The functions below and [add_type_specific_info] are mutually recursive;
    they take it as an argument [rec]: interface name and index, document and
    node. *)
Definition type_info : Type := option string -> Z -> doc -> node -> M unit.

Definition add_vlan_info_cb (rec : type_info) (d : doc) (root : node) (iflink : link)
  (vlan : option node) : M (option node) :=
  if negb (is_null vlan) then ret vlan else
  match rtnl_link_get_type iflink with
  | None => ret vlan
  | Some link_type =>
      if STRNEQ link_type "vlan" then ret vlan else
      let l_link := rtnl_link_get_link iflink in
      if decide (l_link = RTNL_LINK_NOT_FOUND) then ret vlan else
      master_link ← gets (fun s => rtnl_link_get l_link (world s));
      match master_link with
      | None => ret vlan
      | Some ml =>
          match rtnl_link_get_name ml with
          | None => ret vlan
          | Some master_name =>
              vlan' ← xml_node d root "vlan";
              on_error
                (v ← nonnull vlan';
                 set_prop v "tag" (fmt_d (rtnl_link_vlan_get_id iflink)) ;;
                 oi ← xml_new_node d v "interface";
                 interface_node ← nonnull oi;
                 master_ifindex ← gets (fun s => rtnl_link_name2i master_name (world s));
                 ERR_THROW (bool_decide (master_ifindex = RTNL_LINK_NOT_FOUND)) NETCF_ENETLINK
                   ("couldn't find ifindex for vlan master interface `" +:+ master_name +:+ "`") ;;
                 rec (Some master_name) master_ifindex d interface_node)
                (ret tt) ;;
              ret vlan'
          end
      end
  end.

Definition add_vlan_info (rec : type_info) (ifindex : Z) (d : doc) (root : node) : M unit :=
  if decide (ifindex = RTNL_LINK_NOT_FOUND) then ret tt else
  on_error
    (filter_link ← gets (fun s => rtnl_link_alloc (world s));
     ERR_NOMEM (negb filter_link) ;;
     links ← gets (fun s => nl_links_of ifindex (world s));
     for_acc links None (add_vlan_info_cb rec d root) ;;
     ERR_BAIL)
    (ret tt).

Definition add_bridge_info (rec : type_info) (ifname : string) (d : doc) (root : node) : M unit :=
  on_error
    (ob ← xml_node d root "bridge";
     bridge_node ← nonnull ob;
     ' (nphys, phys_names) ← if_bridge_phys_name ifname;
     when (0 <? nphys)
       (for_each phys_names (fun name =>
          oi ← xml_new_node d bridge_node "interface";
          interface_node ← nonnull oi;
          phys_ifindex ← gets (fun s => rtnl_link_name2i name (world s));
          rec (Some name) phys_ifindex d interface_node)))
    (ret tt).

Definition add_bond_info_cb (rec : type_info) (d : doc) (root : node) (master_ifindex : Z)
  (iflink : link) : M unit :=
  if (Z.land (rtnl_link_get_flags iflink) IFF_SLAVE =? 0)
     || negb (rtnl_link_get_master iflink =? master_ifindex) then ret tt else
  on_error
    (ob ← xml_node d root "bond";
     bond ← nonnull ob;
     oi ← xml_new_node d bond "interface";
     interface_node ← nonnull oi;
     rec (rtnl_link_get_name iflink) (rtnl_link_get_ifindex iflink) d interface_node)
    (ret tt).

Definition add_bond_info (rec : type_info) (ifindex : Z) (d : doc) (root : node) : M unit :=
  if decide (ifindex = RTNL_LINK_NOT_FOUND) then ret tt else
  links ← gets (fun s => nl_links (world s));
  for_each links (add_bond_info_cb rec d root ifindex).

(** One level of [add_type_specific_info]. A link without a name would make
    [if_type] format a NULL pointer. *)
Definition type_specific_info (rec : type_info) (ifname : option string) (ifindex : Z)
  (d : doc) (root : node) : M unit :=
  on_error
    (prop ← xcall (xmlNewProp (Some root) "name" ifname);
     ERR_NOMEM (negb prop) ;;
     match ifname with
     | None => halt (UB "%s of a NULL pointer")
     | Some ifname =>
         iftype ← if_type ifname;
         ERR_BAIL ;;
         match if_type_str iftype with
         | Some str => set_prop root "type" str
         | None => ret tt
         end ;;
         match iftype with
         | NETCF_IFACE_TYPE_ETHERNET => add_ethernet_info ifindex d root
         | NETCF_IFACE_TYPE_BRIDGE => add_bridge_info rec ifname d root
         | NETCF_IFACE_TYPE_VLAN => add_vlan_info rec ifindex d root
         | NETCF_IFACE_TYPE_BOND => add_bond_info rec ifindex d root
         | NETCF_IFACE_TYPE_NONE => ret tt
         end
     end)
    (ret tt).

(** [add_type_specific_info]; [fuel] bounds the depth of the recursion. *)
Fixpoint add_type_specific_info (fuel : nat) (ifname : option string) (ifindex : Z)
  (d : doc) (root : node) : M unit :=
  match fuel with
  | O => halt Hang
  | S fuel' => type_specific_info (add_type_specific_info fuel') ifname ifindex d root
  end.

Definition add_state_to_xml_doc (fuel : nat) (nif : nat) (d : doc) : M unit :=
  on_error
    (oroot ← xget (xmlDocGetRootElement (Some d));
     ERR_THROW (is_null oroot) NETCF_EINTERNAL "failed to get document root element" ;;
     root ← nonnull oroot;
     name ← xget (node_name root);
     ERR_THROW (STRNEQ name "interface") NETCF_EINTERNAL "root document is not an interface" ;;
     code ← syscall (nl_cache_refill true);
     ERR_THROW (code <? 0) NETCF_ENETLINK "failed to refill interface index cache" ;;
     code ← syscall (nl_cache_refill false);
     ERR_THROW (code <? 0) NETCF_ENETLINK "failed to refill interface address cache" ;;
     ifname ← if_name nif;
     ifindex ← gets (fun s => rtnl_link_name2i ifname (world s));
     add_type_specific_info fuel (Some ifname) ifindex d root ;;
     ERR_BAIL ;;
     add_ip_info ifindex d root ;;
     ERR_BAIL)
    (ret tt).
End state_xml.

(** ** Laws *)

Section driver_laws.
Context `{Augeas}.

Lemma the_driver_steady : pres steady the_driver.
Proof. unfold the_driver. pres_auto. Qed.
Lemma closed_the_driver : closed the_driver.
Proof. unfold the_driver. fails_auto. Qed.
Hint Resolve the_driver_steady : pres.
Hint Resolve closed_the_driver : fails.
Lemma upd_driver_steady f : pres steady (upd_driver f).
Proof. unfold upd_driver. pres_auto. Qed.
Lemma closed_upd_driver f : closed (upd_driver f).
Proof. unfold upd_driver. fails_auto. Qed.
Hint Resolve upd_driver_steady : pres.
Hint Resolve closed_upd_driver : fails.
Lemma with_aug_steady {A} (f : aug -> A * aug) : pres steady (with_aug f).
Proof. unfold with_aug. pres_auto. Qed.
Lemma closed_with_aug {A} (f : aug -> A * aug) : closed (with_aug f).
Proof. unfold with_aug. fails_auto. Qed.
Lemma ask_aug_steady {A} (f : aug -> A) : pres steady (ask_aug f).
Proof. unfold ask_aug. pres_auto. Qed.
Lemma closed_ask_aug {A} (f : aug -> A) : closed (ask_aug f).
Proof. unfold ask_aug. fails_auto. Qed.
Hint Resolve with_aug_steady ask_aug_steady : pres.
Hint Resolve closed_with_aug closed_ask_aug : fails.

Lemma add_augeas_xfm_table_steady x : pres steady (add_augeas_xfm_table x).
Proof. unfold add_augeas_xfm_table. pres_auto. Qed.
Lemma add_augeas_xfm_table_reports x : reports (add_augeas_xfm_table x).
Proof. unfold add_augeas_xfm_table. fails_auto. Qed.
Lemma remove_augeas_xfm_table_steady x : pres steady (remove_augeas_xfm_table x).
Proof. unfold remove_augeas_xfm_table. pres_auto. Qed.

Lemma open_augeas_steady : pres steady open_augeas.
Proof. unfold open_augeas. pres_auto. Qed.
Lemma copy_xfm_steady : pres steady copy_xfm.
Proof. unfold copy_xfm. pres_auto. Qed.
Lemma load_files_steady : pres steady load_files.
Proof. unfold load_files. pres_auto. Qed.
Lemma fails_open_augeas : fails open_augeas.
Proof. unfold open_augeas. fails_auto. Qed.
Lemma fails_copy_xfm : fails copy_xfm.
Proof. unfold copy_xfm. fails_auto. Qed.
Lemma fails_load_files : fails load_files.
Proof. unfold load_files. fails_auto. Qed.
Hint Resolve open_augeas_steady copy_xfm_steady load_files_steady : pres.
Hint Resolve fails_open_augeas fails_copy_xfm fails_load_files : fails.

Lemma get_augeas_steady : pres steady get_augeas.
Proof. unfold get_augeas. pres_auto. Qed.
Lemma closed_get_augeas : closed get_augeas.
Proof. unfold get_augeas. fails_auto. Qed.
Hint Resolve get_augeas_steady : pres.
Hint Resolve closed_get_augeas : fails.

Lemma defnode_steady n v e : pres steady (defnode n v e).
Proof. unfold defnode. pres_auto. Qed.
Lemma aug_fmt_set_steady v p : pres steady (aug_fmt_set v p).
Proof. unfold aug_fmt_set. pres_auto. Qed.
Lemma aug_fmt_rm_steady p : pres steady (aug_fmt_rm p).
Proof. unfold aug_fmt_rm. pres_auto. Qed.
Lemma aug_fmt_match_steady p : pres steady (aug_fmt_match p).
Proof. unfold aug_fmt_match. pres_auto. Qed.
Lemma closed_defnode n v e : closed (defnode n v e).
Proof. unfold defnode. fails_auto. Qed.
Lemma closed_aug_fmt_set v p : closed (aug_fmt_set v p).
Proof. unfold aug_fmt_set. fails_auto. Qed.
Lemma closed_aug_fmt_rm p : closed (aug_fmt_rm p).
Proof. unfold aug_fmt_rm. fails_auto. Qed.
Lemma closed_aug_fmt_match p : closed (aug_fmt_match p).
Proof. unfold aug_fmt_match. fails_auto. Qed.
Hint Resolve aug_fmt_match_steady : pres.
Hint Resolve closed_aug_fmt_match : fails.

Lemma aug_match_mac_steady m : pres steady (aug_match_mac m).
Proof. unfold aug_match_mac. pres_auto. Qed.
Lemma aug_get_mac_steady i : pres steady (aug_get_mac i).
Proof. unfold aug_get_mac. pres_auto. Qed.
Lemma modprobed_alias_bond_steady n : pres steady (modprobed_alias_bond n).
Proof. unfold modprobed_alias_bond. pres_auto. Qed.
Lemma modprobed_unalias_bond_steady n : pres steady (modprobed_unalias_bond n).
Proof. unfold modprobed_unalias_bond. pres_auto. Qed.
Lemma closed_aug_match_mac m : closed (aug_match_mac m).
Proof. unfold aug_match_mac. fails_auto. Qed.
Lemma closed_aug_get_mac i : closed (aug_get_mac i).
Proof. unfold aug_get_mac. fails_auto. Qed.
Lemma closed_modprobed_alias_bond n : closed (modprobed_alias_bond n).
Proof. unfold modprobed_alias_bond. fails_auto. Qed.
Lemma closed_modprobed_unalias_bond n : closed (modprobed_unalias_bond n).
Proof. unfold modprobed_unalias_bond. fails_auto. Qed.
End driver_laws.

#[export] Hint Resolve the_driver_steady upd_driver_steady with_aug_steady ask_aug_steady
  add_augeas_xfm_table_steady remove_augeas_xfm_table_steady get_augeas_steady defnode_steady
  aug_fmt_set_steady aug_fmt_rm_steady aug_fmt_match_steady aug_match_mac_steady
  aug_get_mac_steady modprobed_alias_bond_steady modprobed_unalias_bond_steady : pres.
#[export] Hint Resolve closed_the_driver closed_upd_driver closed_with_aug closed_ask_aug
  add_augeas_xfm_table_reports closed_get_augeas closed_defnode closed_aug_fmt_set
  closed_aug_fmt_rm closed_aug_fmt_match closed_aug_match_mac closed_aug_get_mac
  closed_modprobed_alias_bond closed_modprobed_unalias_bond : fails.

Section kernel_laws.
Context `{Kernel, !Netlink, !Libxml, !Posix}.

Lemma if_is_active_steady i : pres steady (if_is_active i).
Proof. unfold if_is_active. pres_auto. Qed.
Lemma closed_if_is_active i : closed (if_is_active i).
Proof. unfold if_is_active. fails_auto. Qed.
Lemma if_type_steady i : pres steady (if_type i).
Proof. unfold if_type, probe. pres_auto. Qed.
Lemma closed_if_type i : closed (if_type i).
Proof. unfold if_type, probe. fails_auto. Qed.
Lemma if_bridge_phys_name_steady i : pres steady (if_bridge_phys_name i).
Proof. unfold if_bridge_phys_name. pres_auto. Qed.
Lemma closed_if_bridge_phys_name i : closed (if_bridge_phys_name i).
Proof. unfold if_bridge_phys_name. fails_auto. Qed.
Lemma if_hwaddr_steady i n : pres steady (if_hwaddr i n).
Proof. unfold if_hwaddr. pres_auto. Qed.
Lemma closed_if_hwaddr i n : closed (if_hwaddr i n).
Proof. unfold if_hwaddr. fails_auto. Qed.

Lemma netlink_close_steady : pres steady netlink_close.
Proof. unfold netlink_close. pres_auto. Qed.
Lemma closed_netlink_close : closed netlink_close.
Proof. unfold netlink_close. fails_auto. Qed.
Hint Resolve netlink_close_steady : pres.
Lemma netlink_init_steady : pres steady netlink_init.
Proof. unfold netlink_init, __rtnl_link_alloc_cache, __rtnl_addr_alloc_cache. pres_auto. Qed.

(** [goto error] without an error recorded, which [fails] does not cover. *)
Lemma closed_on_error_any {A} (m h : M A) :
  (forall s, match h s with (Bail, _) => False | _ => True end) -> closed (on_error m h).
Proof.
  intros Hh s. unfold on_error. destruct (m s) as [[]s1]; try done. specialize (Hh s1).
  by destruct (h s1) as [[]?].
Qed.

Lemma closed_netlink_init : closed netlink_init.
Proof.
  unfold netlink_init, __rtnl_link_alloc_cache, __rtnl_addr_alloc_cache. apply closed_on_error_any. intros s.
  pose proof (closed_netlink_close s) as Hc. unfold bind. by destruct (netlink_close s) as [[]?].
Qed.

Hint Resolve if_type_steady if_bridge_phys_name_steady : pres.
Hint Resolve closed_if_type closed_if_bridge_phys_name : fails.

Lemma set_prop_steady n k v : pres steady (set_prop n k v).
Proof. unfold set_prop. pres_auto. Qed.
Lemma fails_set_prop n k v : fails (set_prop n k v).
Proof. unfold set_prop. fails_auto. Qed.
Hint Resolve set_prop_steady : pres.
Hint Resolve fails_set_prop : fails.

Lemma add_ip_info_cb_steady d r a c : pres steady (add_ip_info_cb d r a c).
Proof. unfold add_ip_info_cb. pres_auto. Qed.
Lemma closed_add_ip_info_cb d r a c : closed (add_ip_info_cb d r a c).
Proof. unfold add_ip_info_cb. fails_auto. Qed.
Hint Resolve add_ip_info_cb_steady : pres.
Hint Resolve closed_add_ip_info_cb : fails.
Lemma add_ip_info_steady i d r : pres steady (add_ip_info i d r).
Proof. unfold add_ip_info. pres_auto. Qed.
Lemma closed_add_ip_info i d r : closed (add_ip_info i d r).
Proof. unfold add_ip_info. fails_auto. Qed.

Lemma add_ethernet_info_steady i d r : pres steady (add_ethernet_info i d r).
Proof. unfold add_ethernet_info, add_ethernet_info_cb. pres_auto. Qed.
Lemma closed_add_ethernet_info i d r : closed (add_ethernet_info i d r).
Proof. unfold add_ethernet_info, add_ethernet_info_cb. fails_auto. Qed.

Hint Resolve add_ethernet_info_steady add_ip_info_steady : pres.
Hint Resolve closed_add_ethernet_info closed_add_ip_info : fails.

(** One level keeps what the recursive call keeps. *)
Section level.
Context (rec : type_info).
Hypothesis rec_steady : forall n i d r, pres steady (rec n i d r).
Hypothesis closed_rec : forall n i d r, closed (rec n i d r).
#[local] Hint Resolve rec_steady : pres.
#[local] Hint Resolve closed_rec : fails.

Lemma type_specific_info_steady n i d r : pres steady (type_specific_info rec n i d r).
Proof.
  unfold type_specific_info, add_vlan_info, add_vlan_info_cb, add_bridge_info, add_bond_info,
    add_bond_info_cb. pres_auto.
Qed.

Lemma closed_type_specific_info n i d r : closed (type_specific_info rec n i d r).
Proof.
  unfold type_specific_info, add_vlan_info, add_vlan_info_cb, add_bridge_info, add_bond_info,
    add_bond_info_cb. fails_auto.
Qed.
End level.

Lemma add_type_specific_info_steady k n i d r : pres steady (add_type_specific_info k n i d r).
Proof.
  revert n i d r. induction k as [|k IH]; intros; cbn [add_type_specific_info]; [pres_auto|].
  by apply type_specific_info_steady.
Qed.
Lemma closed_add_type_specific_info k n i d r : closed (add_type_specific_info k n i d r).
Proof.
  revert n i d r. induction k as [|k IH]; intros; cbn [add_type_specific_info]; [fails_auto|].
  by apply closed_type_specific_info.
Qed.
Hint Resolve add_type_specific_info_steady : pres.
Hint Resolve closed_add_type_specific_info : fails.

Lemma add_state_to_xml_doc_steady k p d : pres steady (add_state_to_xml_doc k p d).
Proof. unfold add_state_to_xml_doc. pres_auto. Qed.
Lemma closed_add_state_to_xml_doc k p d : closed (add_state_to_xml_doc k p d).
Proof. unfold add_state_to_xml_doc. fails_auto. Qed.
End kernel_laws.

#[export] Hint Resolve if_is_active_steady if_type_steady if_bridge_phys_name_steady
  if_hwaddr_steady netlink_close_steady netlink_init_steady add_state_to_xml_doc_steady : pres.
#[export] Hint Resolve closed_if_is_active closed_if_type closed_if_bridge_phys_name
  closed_if_hwaddr closed_netlink_close closed_netlink_init closed_add_state_to_xml_doc : fails.

(** ** A concrete Linux *)

Definition toy_log (p v : string) (a : toy_aug) : toy_aug :=
  {| t_match := t_match a; t_value := t_value a; t_ops := t_ops a ++ [(p, v)] |}.

(** A path expression in which a quote is not closed is refused. *)
Fixpoint toy_balanced (p : string) : bool :=
  match p with
  | EmptyString => true
  | String c p' => xorb (Ascii.eqb c "'") (toy_balanced p')
  end.

#[global] Instance toy_augeas : Augeas (H := toy_host) :=
  {| aug_init := fun _ _ _ => Some toy_empty;
     aug_rm := fun p a => (1, toy_log "rm" p a);
     aug_set := fun p v a => (0, toy_log p (default "" v) a);
     aug_get := fun p a => match assoc (t_value a) p with
                           | Some v => (1, Some v) | None => (0, None) end;
     aug_match := fun p a => if toy_balanced p then Some (default [] (assoc (t_match a) p)) else None;
     aug_insert := fun p l _ a => (0, toy_log p l a);
     aug_defnode := fun n p v a => ((1, 1), toy_log p (default "" v) a);
     aug_load := fun _ a => (0, a);
     aug_save := fun w a =>
       ((0, a), {| t_runs := t_runs w; t_exit := t_exit w; t_intr := t_intr w;
                   t_waitfail := t_waitfail w; t_closed := t_closed w; t_flags := t_flags w;
                   t_saved := S (t_saved w);
                   t_files := t_files w; t_disk := t_disk w |});
     aug_print := fun p _ => p |}.

#[global] Instance toy_kernel : Kernel (H := toy_host) :=
  {| stat := fun p _ => if STREQ p "/" || STREQ p "/sys/class/net/br0/bridge" then Some S_IFDIR
                        else None;
     ioctl_ifflags := fun _ n w => assoc (t_flags w) n;
     ioctl_hwaddr := fun _ _ _ => (0, [0x52; 0x54; 0; 0x1a; 0xff; 1; 0; 0]);
     readdir := fun p _ => if STREQ p "/sys/class/net/br0/brif" then Some ["."; ".."; "eth0"]
                           else None |}.

#[global] Instance toy_netlink : Netlink (H := toy_host) :=
  {| link := string; addr := Z * string; RTNL_LINK_NOT_FOUND := 0;
     nl_socket_alloc := fun w => (true, w); nl_connect := fun w => (0, w);
     rtnl_link_alloc_cache := fun w => (0, w); rtnl_addr_alloc_cache := fun w => (0, w);
     nl_cache_mngt_provide := fun w => w; nl_socket_get_fd := fun _ => 7;
     nl_cache_free := fun w => w; nl_close := fun w => w;
     nl_cache_refill := fun _ w => (0, w);
     nl_links := fun _ => ["eth0"; "br0"];
     nl_links_of := fun i _ => if i =? 1 then ["eth0"] else ["br0"];
     nl_addrs_of := fun i _ => [(AF_INET, "192.168.0.5")];
     rtnl_addr_alloc := fun _ => true; rtnl_link_alloc := fun _ => true;
     rtnl_link_name2i := fun n _ => if STREQ n "eth0" then 1 else if STREQ n "br0" then 2 else 0;
     rtnl_link_get := fun _ _ => None; rtnl_link_get_type := fun _ => None;
     rtnl_link_get_link := fun _ => 0; rtnl_link_get_name := fun l => Some l;
     rtnl_link_get_ifindex := fun _ => 1; rtnl_link_get_flags := fun _ => 0;
     rtnl_link_get_master := fun _ => 0; rtnl_link_vlan_get_id := fun _ => 0;
     rtnl_link_get_addr := fun _ => Some "52:54:00:1a:ff:01"; nl_addr_iszero := fun _ => false;
     nl_addr_get_family := fst; nl_addr_ntop := snd; nl_addr_get_prefixlen := fun _ => 24 |}.

(** ** The Augeas instance of a driver *)

Section augeas_spec.
Context `{Augeas}.
Implicit Types s : state.

Definition has_driver s : Prop := is_Some (ncf_driver (ncf s)) /\ err_wf s.

(** The instance exists, with these flags. *)
Definition aug_live (load copy : bool) s : Prop :=
  err_wf s /\ exists d a, ncf_driver (ncf s) = Some d /\ augeas d = Some a /\
    load_augeas d = load /\ copy_augeas_xfm d = copy.

(** The state at the label. *)
Definition at_error s : Prop := failed s /\ has_driver s.

Lemma aug_live_driver l c s : aug_live l c s -> has_driver s.
Proof. intros (Hwf & d & a & Hd & _). split; [by eexists|done]. Qed.

Lemma the_driver_run s d : ncf_driver (ncf s) = Some d -> the_driver s = (Ret d, s).
Proof. intros Hd. unfold the_driver, bind, gets. cbn. by rewrite Hd. Qed.

Lemma upd_driver_run f s d : ncf_driver (ncf s) = Some d ->
  upd_driver f s = (Ret tt, set_ncf (set_driver (Some (f d)) (ncf s)) s).
Proof. intros Hd. unfold upd_driver. by rewrite (bind_Ret _ _ _ _ _ (the_driver_run s d Hd)). Qed.

Lemma with_aug_run {A} (f : aug -> A * aug) s d a :
  ncf_driver (ncf s) = Some d -> augeas d = Some a ->
  with_aug f s = (Ret (f a).1, set_ncf (set_driver (Some (set_augeas (Some (f a).2) d)) (ncf s)) s).
Proof.
  intros Hd Ha. unfold with_aug. rewrite (bind_Ret _ _ _ _ _ (the_driver_run s d Hd)), Ha.
  destruct (f a) as [r a']. by rewrite (bind_Ret _ _ _ _ _ (upd_driver_run _ s d Hd)).
Qed.

Lemma ask_aug_run {A} (f : aug -> A) s d a :
  ncf_driver (ncf s) = Some d -> augeas d = Some a -> ask_aug f s = (Ret (f a), s).
Proof.
  intros Hd Ha. unfold ask_aug. by rewrite (bind_Ret _ _ _ _ _ (the_driver_run s d Hd)), Ha.
Qed.

(** Reporting never stops when no details are left over. *)
Lemma report_error_total c m s : err_wf s -> c <> NETCF_NOERROR ->
  exists s', report_error c m s = (Ret tt, s') /\ failed s' /\ err_wf s' /\
    ncf_driver (ncf s') = ncf_driver (ncf s) /\ world s' = world s /\ xml s' = xml s.
Proof.
  intros Hwf Hc. pose proof (report_error_keep c m Hc s) as [Hk _]. specialize (Hk Hwf).
  revert Hk. unfold report_error, vreport_error, bind, gets. cbn.
  destruct (decide (err s = NETCF_NOERROR)) as [E|E]; [|intros _; by exists s].
  cbn. rewrite (Hwf E). unfold strdup, bind, malloc. cbn. destruct (mem s); cbn; eauto 10.
Qed.

Lemma ERR_THROW_hoare b c m P :
  c <> NETCF_NOERROR -> (forall s, P s -> has_driver s) ->
  hoare P (ERR_THROW b c m) (fun _ s => b = false /\ P s) at_error.
Proof.
  intros Hc HP s Hs. unfold ERR_THROW. destruct b; [|done]. cbn.
  destruct (HP s Hs) as [Hd Hwf].
  destruct (report_error_total c m s Hwf Hc) as (s' & Hr & Hf & Hw & Hd' & _).
  rewrite (bind_Ret _ _ _ _ _ Hr). cbn. split; [done|]. split; [by rewrite Hd'|done].
Qed.

Lemma get_augeas_again s : aug_live false false s -> get_augeas s = (Ret true, s).
Proof.
  intros (Hwf & d & a & Hd & Ha & Hl & Hc).
  unfold get_augeas, open_augeas, copy_xfm, load_files, on_error, bind, the_driver, gets. cbn.
  rewrite Hd. cbn. rewrite Ha. cbn. rewrite Hd. cbn. rewrite Hc. cbn. rewrite Hd. cbn.
  by rewrite Hl.
Qed.
End augeas_spec.

(** ** What [get_augeas] makes *)

Section prepared.
Context `{Augeas}.
Implicit Types s : state.

(** One [aug_set] per entry, until one fails *)
Fixpoint set_all (l : list augeas_pv) (a : aug) : option aug :=
  match l with
  | [] => Some a
  | pv :: l' => let '(r, a') := aug_set (pv_path pv) (Some (pv_value pv)) a in
                if r <? 0 then None else set_all l' a'
  end.

(** The entries of all registered tables *)
Definition transforms (l : list (option augeas_xfm_table)) : list augeas_pv :=
  mjoin (from_option xfm_pv [] <$> l).

Definition opened (d : driver) s : option aug :=
  match augeas d with
  | Some a => Some a
  | None => if default true (head (mem s))
            then aug_init (ncf_root (ncf s)) (data_dir (ncf s) +:+ "/lenses") (world s) else None
  end.

(** The transforms of the library are replaced in a new instance, and when a table
    has changed. *)
Definition copied (must : bool) (d : driver) (a : aug) : option aug :=
  if must then
    let '(r, a') := aug_rm "/augeas/load/*" a in
    if r <? 0 then None else set_all (transforms (augeas_xfm_tables d)) a'
  else Some a.

(** The files are read when they have to be, and must all be understood. *)
Definition loaded (must : bool) s (a : aug) : option aug :=
  if must then
    let '(r, a') := aug_load (world s) a in
    if (r <? 0) || (0 <? nmatches (aug_match "/augeas//error" a')) then None else Some a'
  else Some a.

Definition must_copy (d : driver) : bool := copy_augeas_xfm d || is_null (augeas d).

(** The tree that the driver works on *)
Definition prepared (d : driver) s : option aug :=
  match opened d s with
  | Some a => match copied (must_copy d) d a with Some a' => loaded (load_augeas d || must_copy d) s a' | None => None end
  | None => None
  end.

(** The driver has become [d'], and what matters is as before. *)
Definition turned (d' : driver) s s' : Prop :=
  ncf_driver (ncf s') = Some d' /\ err_wf s' /\ err s' = err s /\ world s' = world s.

Lemma turned_trans d1 d2 s s1 s2 : turned d1 s s1 -> turned d2 s1 s2 -> turned d2 s s2.
Proof. intros (_ & _ & He & Hw) (? & ? & He2 & Hw2). split_and!; [done..|congruence|congruence]. Qed.

Lemma turned_upd f d s s1 : turned d s s1 -> exists s2, upd_driver f s1 = (Ret tt, s2) /\ turned (f d) s s2.
Proof.
  intros (Hd & Hwf & He & Hw). rewrite (upd_driver_run f s1 d Hd). eexists. split; [reflexivity|].
  by split_and!.
Qed.

Lemma turned_with {A} (f : aug -> A * aug) d a s s1 : turned d s s1 -> augeas d = Some a ->
  exists s2, with_aug f s1 = (Ret (f a).1, s2) /\ turned (set_augeas (Some (f a).2) d) s s2.
Proof.
  intros (Hd & Hwf & He & Hw) Ha. rewrite (with_aug_run f s1 d a Hd Ha). eexists. split; [reflexivity|].
  by split_and!.
Qed.

Lemma throw_at_error c msg d s s1 : turned d s s1 -> c <> NETCF_NOERROR ->
  exists s2, ERR_THROW true c msg s1 = (Bail, s2) /\ at_error s2.
Proof.
  intros (Hd & Hwf & _) Hc.
  pose proof (ERR_THROW_hoare true c msg has_driver Hc (fun _ H => H) s1 ltac:(by split; [eexists|])) as Ht.
  destruct (ERR_THROW true c msg s1) as [[[]| |] s2]; [naive_solver|by eexists|done].
Qed.

(** [m] at a driver with the tree [a]: it turns it into the driver [f a] or fails. *)
Definition stage (m : M unit) (d0 : driver) s (o : option driver) : Prop :=
  forall s1, turned d0 s s1 ->
  match o with
  | Some d' => exists s2, m s1 = (Ret tt, s2) /\ turned d' s s2
  | None => exists s2, m s1 = (Bail, s2) /\ at_error s2
  end.

Lemma stage_bind (m k : M unit) d0 s o o' : stage m d0 s o ->
  (forall d', o = Some d' -> stage k d' s o') -> (o = None -> o' = None) -> stage (m ;; k) d0 s o'.
Proof.
  intros Hm Hk Hn s1 Hs. specialize (Hm s1 Hs). destruct o as [d'|].
  - destruct Hm as (s2 & Hm & Hs2). rewrite (bind_Ret _ _ _ _ _ Hm). by apply (Hk d').
  - destruct Hm as (s2 & Hm & He). rewrite Hn by done. exists s2. split; [by apply bind_Bail|done].
Qed.

Lemma stage_set (pv : augeas_pv) msg d s a :
  stage (r ← with_aug (aug_set (pv_path pv) (Some (pv_value pv))); ERR_THROW (r <? 0) NETCF_EOTHER msg)
    (set_augeas (Some a) d) s ((fun a' => set_augeas (Some a') d) <$> set_all [pv] a).
Proof.
  intros s1 Hs. destruct (turned_with (aug_set (pv_path pv) (Some (pv_value pv))) _ a s s1 Hs eq_refl) as (s2 & Hr & Ht).
  rewrite (bind_Ret _ _ _ _ _ Hr). cbn [set_all]. destruct (aug_set _ _ a) as [r a']. cbn [fst snd] in *.
  destruct (r <? 0); cbn; [by eapply throw_at_error|by exists s2].
Qed.

Lemma stage_loop {A} (body : A -> M unit) (f : A -> list augeas_pv) d s :
  (forall x a, stage (body x) (set_augeas (Some a) d) s ((fun a' => set_augeas (Some a') d) <$> set_all (f x) a)) ->
  forall l a, stage (for_each l body) (set_augeas (Some a) d) s
    ((fun a' => set_augeas (Some a') d) <$> set_all (mjoin (f <$> l)) a).
Proof.
  intros Hb l. induction l as [|x l IH]; intros a; [intros s1 Hs; by exists s1|].
  cbn [for_each fmap list_fmap mjoin list_join].
  assert (Happ : forall l1 l2 a, set_all (l1 ++ l2) a = match set_all l1 a with Some a' => set_all l2 a' | None => None end).
  { clear. induction l1 as [|pv l1 IH]; intros l2 a; [done|]. cbn. destruct (aug_set _ _ _) as [r a'].
    destruct (r <? 0); [done|apply IH]. }
  rewrite Happ. eapply stage_bind; [apply Hb| |].
  - intros d'. destruct (set_all (f x) a) as [a'|]; [|done]. intros [= <-]. apply IH.
  - by destruct (set_all (f x) a).
Qed.

Lemma copy_stage d s a : augeas d = Some a ->
  stage copy_xfm d s
    ((fun a' => set_augeas (Some a') (set_flags (load_augeas d || copy_augeas_xfm d) false d)) <$> copied (copy_augeas_xfm d) d a).
Proof.
  intros Ha s1 Hs. unfold copy_xfm, copied. pose proof Hs as [Hd _].
  rewrite (bind_Ret _ _ _ _ _ (the_driver_run s1 d Hd)). destruct (copy_augeas_xfm d) eqn:Hc; cbn [when].
  2:{ exists s1. split; [done|]. cbn. rewrite orb_false_r. destruct d; cbn in *. by subst. }
  rewrite orb_true_r. destruct (turned_with (aug_rm "/augeas/load/*") d a s s1 Hs Ha) as (s2 & Hr & Ht).
  rewrite (bind_Ret _ _ _ _ _ Hr). destruct (aug_rm _ a) as [r a1]. cbn [fst snd] in *. destruct (r <? 0); cbn.
  { destruct (throw_at_error NETCF_EOTHER "aug_rm failed in get_augeas" _ _ _ Ht ltac:(done)) as (s3 & Hth & He).
    exists s3. split; [by apply bind_Bail|done]. }
  clear Hr. revert Ht.
  pose proof (stage_loop (fun t => match t with
       | None => ret tt
       | Some t => for_each (xfm_pv t) (fun pv =>
             r ← with_aug (aug_set (pv_path pv) (Some (pv_value pv)));
             ERR_THROW (r <? 0) NETCF_EOTHER ("transform setup failed to set " +:+ pv_path pv))
       end) (from_option xfm_pv []) d s) as Hloop.
  intros Ht. specialize (Hloop ltac:(
    intros [t|] b; [|intros s0 Hs0; by exists s0];
    pose proof (stage_loop (fun pv => r ← with_aug (aug_set (pv_path pv) (Some (pv_value pv)));
             ERR_THROW (r <? 0) NETCF_EOTHER ("transform setup failed to set " +:+ pv_path pv))
             (fun pv => [pv]) d s ltac:(intros; apply stage_set) (xfm_pv t) b) as Hl;
    replace (mjoin ((fun pv => [pv]) <$> xfm_pv t)) with (xfm_pv t) in Hl;
    [exact Hl|clear; induction (xfm_pv t) as [|? ? IH]; [done|]; cbn; f_equal; exact IH]) (augeas_xfm_tables d) a1 s2 Ht).
  fold (transforms (augeas_xfm_tables d)) in Hloop. destruct (set_all _ a1) as [a2|]; cbn in *.
  - destruct Hloop as (s3 & Hl & Ht3). rewrite (bind_Ret _ _ _ _ _ Hl).
    destruct (turned_upd (set_flags true false) _ _ _ Ht3) as (s4 & Hu & Ht4). by exists s4.
  - destruct Hloop as (s3 & Hl & He). exists s3. split; [by apply bind_Bail|done].
Qed.

Lemma load_stage d s a : augeas d = Some a ->
  stage load_files d s
    ((fun a' => set_augeas (Some a') (set_flags false (copy_augeas_xfm d) d)) <$> loaded (load_augeas d) s a).
Proof.
  intros Ha s1 Hs. unfold load_files, loaded. pose proof Hs as (Hd & _ & _ & Hw).
  rewrite (bind_Ret _ _ _ _ _ (the_driver_run s1 d Hd)). destruct (load_augeas d) eqn:Hl; cbn [when].
  2:{ exists s1. split; [done|]. cbn. destruct d; cbn in *. by subst. }
  rewrite (bind_Ret (gets world) _ _ _ _ eq_refl), Hw.
  destruct (turned_with (aug_load (world s)) d a s s1 Hs Ha) as (s2 & Hr & Ht).
  rewrite (bind_Ret _ _ _ _ _ Hr). destruct (aug_load _ a) as [r a1]. cbn [fst snd] in *. destruct (r <? 0); cbn [orb].
  { cbn. destruct (throw_at_error NETCF_EOTHER "failed to load config files" _ _ _ Ht ltac:(done)) as (s3 & Hth & He).
    exists s3. split; [by apply bind_Bail|done]. }
  clear Hr. pose proof Ht as [Hd2 _].
  set (k := fun m => dbg ← gets (fun s => debug (ncf s)); _).
  assert (Hk : (ERR_THROW false NETCF_EOTHER "failed to load config files" ;;
                m ← ask_aug (aug_match "/augeas//error"); k m) s2 = k (aug_match "/augeas//error" a1) s2).
  { rewrite (bind_Ret (ERR_THROW _ _ _) _ s2 tt s2) by done. by rewrite (bind_Ret _ _ _ _ _ (ask_aug_run _ s2 _ a1 Hd2 eq_refl)). }
  subst k. cbn beta in Hk. rewrite Hk. clear Hk. set (m := aug_match _ a1).
  rewrite (bind_Ret (gets _) _ _ _ _ eq_refl).
  assert (Hp : exists s3, when ((0 <? nmatches m) && debug (ncf s2))
       (printf ("warning: augeas initialization had errors" +:+ nl) ;;
        printf ("please file a bug with the following lines in the bug report:" +:+ nl) ;;
        errors ← ask_aug (aug_print "/augeas//error");
        printf errors) s2 = (Ret tt, s3) /\ turned (set_augeas (Some a1) d) s s3).
  { destruct (_ && _); cbn [when]; [|by exists s2]. do 2 rewrite (bind_Ret (printf _) _ _ _ _ eq_refl).
    erewrite bind_Ret; [|by eapply ask_aug_run]. eexists. split; [reflexivity|exact Ht]. }
  destruct Hp as (s3 & Hp & Ht3). rewrite (bind_Ret _ _ _ _ _ Hp). destruct (0 <? nmatches m).
  - cbn. destruct (throw_at_error NETCF_EOTHER "errors in loading some config files" _ _ _ Ht3 ltac:(done)) as (s4 & Hth & He).
    exists s4. split; [|done]. by apply bind_Bail.
  - cbn. destruct (turned_upd (fun d => set_flags false (copy_augeas_xfm d) d) _ _ _ Ht3) as (s4 & Hu & Ht4).
    exists s4. split; [exact Hu|exact Ht4].
Qed.

Lemma open_stage d s : ncf_driver (ncf s) = Some d -> err_wf s ->
  match opened d s with
  | Some a => exists s2, open_augeas s = (Ret tt, s2) /\
                turned (set_augeas (Some a) (set_flags (load_augeas d) (copy_augeas_xfm d || is_null (augeas d)) d)) s s2
  | None => exists s2, open_augeas s = (Bail, s2) /\ at_error s2
  end.
Proof.
  intros Hd Hwf. assert (Hs : turned d s s) by done. unfold open_augeas, opened.
  rewrite (bind_Ret _ _ _ _ _ (the_driver_run s d Hd)). destruct (augeas d) as [a|] eqn:Ha.
  { exists s. split; [done|]. cbn [is_null]. rewrite orb_false_r. split; [|done]. rewrite Hd. f_equal.
    destruct d; cbn in *. by subst. }
  rewrite (bind_Ret (gets _) _ _ _ _ eq_refl). unfold xasprintf, strdup.
  set (s1 := set_mem (tail (mem s)) s).
  assert (Hm : malloc s = (Ret (default true (head (mem s))), s1)).
  { unfold malloc, s1. destruct s as [? ? ? ? [|b l] ? ? ?]; done. }
  rewrite (bind_Ret (bind malloc _) _ s (if default true (head (mem s)) then Some (data_dir (ncf s) +:+ "/lenses") else None) s1)
    by (by rewrite (bind_Ret _ _ _ _ _ Hm)).
  assert (Ht : turned d s s1) by done.
  destruct (default true _); [|eexists; split; [reflexivity|by split; [|split; [by eexists|]]]].
  set (path := data_dir (ncf s) +:+ "/lenses").
  assert (Hgo : forall k : option aug -> M unit, (path ← nonnull (Some path); a ← gets (fun s => aug_init (ncf_root (ncf s)) path (world s)); k a) s1
                = k (aug_init (ncf_root (ncf s)) path (world s)) s1).
  { intros k. unfold nonnull. by rewrite bind_ret_l. }
  destruct (aug_init (ncf_root (ncf s)) path (world s)) as [a|] eqn:Ei; setoid_rewrite Hgo; rewrite ?Ei; cbn [is_null].
  - setoid_rewrite (bind_Ret (ERR_THROW _ _ _) _ s1 tt s1); [|done..]. destruct (turned_upd (set_augeas (Some a)) _ _ _ Ht) as (s2 & Hu & Ht2).
    rewrite (bind_Ret _ _ _ _ _ Hu). rewrite orb_true_r.
    destruct (turned_upd (fun d => set_flags (load_augeas d) true d) _ _ _ Ht2) as (s3 & Hu3 & Ht3).
    exists s3. split; [exact Hu3|exact Ht3].
  - destruct (throw_at_error NETCF_EOTHER "aug_init failed" _ _ _ Ht ltac:(done)) as (s4 & Hth & He).
    exists s4. split; [by apply bind_Bail|done].
Qed.

Lemma get_augeas_run d s : ncf_driver (ncf s) = Some d -> err_wf s ->
  match prepared d s with
  | Some a => exists s', get_augeas s = (Ret true, s') /\ turned (set_augeas (Some a) (set_flags false false d)) s s'
  | None => exists s' d', get_augeas s = (Ret false, s') /\ failed s' /\ ncf_driver (ncf s') = Some d' /\ augeas d' = None
  end.
Proof.
  intros Hd Hwf. pose proof (open_stage d s Hd Hwf) as Ho. unfold prepared, get_augeas.
  assert (Hfail : forall m s1, m s = (Bail, s1) -> at_error s1 ->
    exists s' d', on_error m (upd_driver (set_augeas None) ;; ret false) s = (Ret false, s') /\ failed s' /\
      ncf_driver (ncf s') = Some d' /\ augeas d' = None).
  { intros m s1 Hm (Hf & [d1 Hd1] & Hw). rewrite (on_error_Bail _ _ _ _ Hm).
    rewrite (bind_Ret _ _ _ _ _ (upd_driver_run _ s1 d1 Hd1)). by eexists _, _. }
  destruct (opened d s) as [a|].
  2:{ destruct Ho as (s1 & Ho & He). eapply Hfail; [|exact He]. by apply bind_Bail. }
  destruct Ho as (s1 & Ho & Ht1). set (d1 := set_augeas (Some a) _) in *.
  pose proof (copy_stage d1 s a eq_refl s1 Ht1) as Hc. change (copied (copy_augeas_xfm d1) d1 a) with (copied (must_copy d) d a) in Hc.
  destruct (copied _ d a) as [a2|]; cbn in Hc.
  2:{ destruct Hc as (s2 & Hc & He). eapply Hfail; [|exact He]. rewrite (bind_Ret _ _ _ _ _ Ho). by apply bind_Bail. }
  destruct Hc as (s2 & Hc & Ht2). set (d2 := set_augeas (Some a2) _) in *.
  pose proof (load_stage d2 s a2 eq_refl s2 Ht2) as Hl. cbn [load_augeas d2 d1 set_augeas set_flags] in Hl.
  change (copy_augeas_xfm d || is_null (augeas d)) with (must_copy d) in Hl.
  destruct (loaded (load_augeas d || must_copy d) s a2) as [a3|]; cbn in Hl.
  - destruct Hl as (s3 & Hl & Ht3). exists s3. split; [|exact Ht3]. apply on_error_Ret.
    by rewrite (bind_Ret _ _ _ _ _ Ho), (bind_Ret _ _ _ _ _ Hc), (bind_Ret _ _ _ _ _ Hl).
  - destruct Hl as (s3 & Hl & He). eapply Hfail; [|exact He].
    rewrite (bind_Ret _ _ _ _ _ Ho), (bind_Ret _ _ _ _ _ Hc). by apply bind_Bail.
Qed.
End prepared.

(** ** Tables, types and addresses *)

Section linux_lemmas.
Context `{Kernel, !Augeas}.
Implicit Types s : state.

Lemma find_slot_lookup x l : (find_slot x l < length l)%nat ->
  exists t, l !! find_slot x l = Some t /\ xfm_id <$> t = xfm_id <$> x.
Proof.
  induction l as [|t l IH]; cbn; [lia|]. case_decide as E; [by exists t|].
  intros Hl. apply IH. lia.
Qed.

Lemma find_slot_le x l : (find_slot x l <= length l)%nat.
Proof. induction l as [|t l IH]; cbn; [done|]. case_decide; lia. Qed.

Lemma find_slot_absent x l : find_slot x l = length l <->
  Forall (fun t => xfm_id <$> t <> xfm_id <$> x) l.
Proof.
  induction l as [|t l IH]; cbn; [done|]. rewrite Forall_cons. case_decide as E.
  - split; [done|]. by intros [].
  - split; [intros [= ?]; split; [done|by apply IH]|]. intros [_ ?]. f_equal. by apply IH.
Qed.

(** The registered tables. *)
Definition registered (l : list (option augeas_xfm_table)) : list augeas_xfm_table := omap id l.

(** The first free slot is reused, or the array grows by one. *)
Lemma registered_fill l x : let slot := find_slot None l in
  registered (<[slot := Some x]> (if decide (slot = length l) then l ++ [None] else l))
  ≡ₚ x :: registered l.
Proof.
  cbn zeta. unfold registered. case_decide as E.
  - rewrite E, insert_app_r_alt by done. rewrite Nat.sub_diag. cbn. rewrite omap_app. cbn.
    by rewrite <- Permutation_cons_append.
  - pose proof (find_slot_le None l) as Hle.
    destruct (find_slot_lookup None l ltac:(lia)) as (t & Ht & Hn). destruct t as [t|]; [done|].
    revert Ht. generalize (find_slot None l). clear. induction l as [|u l IH]; intros [|n]; cbn; try done.
    + by intros [= ->].
    + intros Ht. specialize (IH n Ht). destruct u as [u|]; cbn; [|done]. rewrite IH. by constructor.
Qed.

Lemma registered_clear l x : (find_slot (Some x) l < length l)%nat ->
  exists t, xfm_id t = xfm_id x /\
    registered l ≡ₚ t :: registered (<[find_slot (Some x) l := None]> l).
Proof.
  intros Hlt. destruct (find_slot_lookup (Some x) l Hlt) as ([t|] & Ht & Hid); [|done].
  exists t. split; [by injection Hid|]. revert Ht. generalize (find_slot (Some x) l). clear.
  unfold registered. induction l as [|u l IH]; intros [|n]; cbn; try done.
  - by intros [= ->].
  - intros Ht. specialize (IH n Ht). destruct u as [u|]; cbn; [|done]. rewrite IH. by constructor.
Qed.

(** The driver after its tables changed. *)
Definition with_tables (l : list (option augeas_xfm_table)) (d : driver) s : state :=
  set_ncf (set_driver (Some (set_flags (load_augeas d) true (set_tables l d))) (ncf s)) s.

Lemma upd_driver_then {B} f (k : unit -> M B) s d : ncf_driver (ncf s) = Some d ->
  (upd_driver f ≫= k) s = k tt (set_ncf (set_driver (Some (f d)) (ncf s)) s).
Proof. intros Hd. by rewrite (bind_Ret _ _ _ _ _ (upd_driver_run f s d Hd)). Qed.

Lemma upd_driver_again {B} f (k : unit -> M B) s d n :
  (upd_driver f ≫= k) (set_ncf (set_driver (Some d) n) s)
  = k tt (set_ncf (set_driver (Some (f d)) n) s).
Proof. by rewrite (upd_driver_then f k _ d). Qed.

Lemma add_augeas_xfm_table_run x s d : ncf_driver (ncf s) = Some d -> mem s = [] ->
  let slot := find_slot None (augeas_xfm_tables d) in
  add_augeas_xfm_table x s =
    (Ret 0, with_tables (<[slot := Some x]>
              (if decide (slot = length (augeas_xfm_tables d)) then augeas_xfm_tables d ++ [None]
               else augeas_xfm_tables d)) d s).
Proof.
  intros Hd Hm. cbn zeta. unfold add_augeas_xfm_table, on_error.
  rewrite (bind_Ret _ _ _ _ _ (the_driver_run s d Hd)).
  assert (Hmalloc : forall B (k : bool -> M B), (malloc ≫= k) s = k true s)
    by (intros; unfold bind, malloc; by rewrite Hm).
  destruct d as [a p g fd ns lc ac ld cp l]. cbn [augeas_xfm_tables] in *.
  destruct (decide (length l = 0%nat)) as [E0|E0].
  - destruct l; [|done]. rewrite bind_assoc, Hmalloc.
    change (ERR_NOMEM (negb true)) with (ret tt : M unit).
    rewrite bind_assoc, bind_ret_l, bind_assoc, (upd_driver_then _ _ s _ Hd), bind_ret_l.
    by rewrite !upd_driver_again.
  - case_decide as E; rewrite bind_assoc.
    + rewrite bool_decide_true by done. cbn [when]. rewrite bind_assoc, Hmalloc.
      change (ERR_NOMEM (negb true)) with (ret tt : M unit).
      rewrite bind_assoc, bind_ret_l, (upd_driver_then _ _ s _ Hd), bind_ret_l.
      by rewrite !upd_driver_again.
    + rewrite bool_decide_false by done. cbn [when]. rewrite !bind_ret_l.
      rewrite (upd_driver_then _ _ s _ Hd). by rewrite upd_driver_again.
Qed.

Lemma remove_augeas_xfm_table_run x s d : ncf_driver (ncf s) = Some d ->
  let slot := find_slot (Some x) (augeas_xfm_tables d) in
  slot <> length (augeas_xfm_tables d) ->
  remove_augeas_xfm_table x s =
    (Ret 0, with_tables (<[slot := None]> (augeas_xfm_tables d)) d s).
Proof.
  intros Hd slot Hs. unfold remove_augeas_xfm_table.
  rewrite (bind_Ret _ _ _ _ _ (the_driver_run s d Hd)). fold slot. rewrite decide_False by done.
  rewrite (upd_driver_then _ _ s _ Hd). by rewrite upd_driver_again.
Qed.

(** [probe] with memory available *)
Lemma probe_run path mode s : mem s = [] ->
  probe path mode s = (Ret match stat path (world s), mode with
                           | Some S_IFREG, S_IFREG | Some S_IFDIR, S_IFDIR => true
                           | _, _ => false end, s).
Proof. intros Hm. unfold probe, xasprintf, strdup, malloc, bind, gets. cbn. by rewrite Hm. Qed.
End linux_lemmas.

Lemma format_mac_addr_fits off buflen addr : 0 <= off ->
  format_mac_addr off buflen addr =
    if decide (addr = [] \/ 3 * Z.of_nat (length addr) <= buflen - off)
    then Some (String.concat ":" (fmt_02x <$> addr)) else None.
Proof.
  revert off. induction addr as [|a addr IH]; intros off Hoff; [done|]. cbn [format_mac_addr].
  destruct (Z.leb_spec 3 (buflen - off)) as [Hb|Hb].
  2:{ rewrite decide_False; [done|]. intros [?|Hl]; [done|]. cbn [length] in Hl. lia. }
  destruct addr as [|b addr].
  - rewrite decide_True; [done|]. right. cbn. lia.
  - rewrite IH by lia. cbn [length].
    rewrite (decide_ext (b :: addr = [] \/ _)
      (a :: b :: addr = [] \/ 3 * Z.of_nat (S (S (length addr))) <= buflen - off)).
    2:{ split; intros [?|Hl]; try done; right; cbn [length] in *; lia. }
    by case_decide.
Qed.

Lemma concat_fmt_length addr : addr <> [] ->
  Z.of_nat (String.length (String.concat ":" (fmt_02x <$> addr))) = 3 * Z.of_nat (length addr) - 1.
Proof.
  induction addr as [|a addr IH]; [done|]. intros _. destruct addr as [|b addr]; [done|].
  specialize (IH ltac:(done)). cbn [fmap list_fmap String.concat length] in *.
  rewrite !string_length_app. cbn [String.length fmt_02x] in *. lia.
Qed.

(** ** The recursion over interfaces ends

    [calm w m]: started in the world [w], the program does not run out of fuel
    and leaves [w] alone. *)

Definition calm `{Host} (w : sys) {A} (m : M A) : Prop :=
  forall s, world s = w -> (m s).1 <> Stop Hang /\ world (m s).2 = w.

Create HintDb calm.

Section calm.
Context `{Kernel, !Netlink, !Libxml} (w : sys).

Lemma calm_ret {A} (a : A) : calm w (ret a).
Proof. by intros s. Qed.
Lemma calm_goto {A} : calm w (goto_error : M A).
Proof. by intros s. Qed.
Lemma calm_ub {A} what : calm w (halt (UB what) : M A).
Proof. by intros s. Qed.
Lemma calm_abort {A} : calm w (halt Abort : M A).
Proof. by intros s. Qed.
Lemma calm_gets {A} (f : state -> A) : calm w (gets f).
Proof. by intros s. Qed.
Lemma calm_bind {A B} (m : M A) (k : A -> M B) :
  calm w m -> (forall a, calm w (k a)) -> calm w (m ≫= k).
Proof.
  intros Hm Hk s Hs. destruct (Hm s Hs) as [Hh Hw]. unfold bind.
  destruct (m s) as [[a| |x] s1]; cbn in *; [by apply Hk|done|]. split; [congruence|done].
Qed.
(** The continuation may use what the result satisfies. *)
Lemma calm_bind_dep {A B} (Q : A -> Prop) (m : M A) (k : A -> M B) :
  calm w m -> (forall s a s', world s = w -> m s = (Ret a, s') -> Q a) ->
  (forall a, Q a -> calm w (k a)) -> calm w (m ≫= k).
Proof.
  intros Hm HQ Hk s Hs. destruct (Hm s Hs) as [Hh Hw]. unfold bind. specialize (HQ s).
  destruct (m s) as [[a| |x] s1]; cbn in *; [eapply Hk; eauto|done|]. split; [congruence|done].
Qed.
Lemma calm_world {A B} (f : sys -> A) (k : A -> M B) :
  calm w (k (f w)) -> calm w (gets (fun s => f (world s)) ≫= k).
Proof. intros Hk s Hs. unfold bind, gets. rewrite Hs. by apply Hk. Qed.
Lemma calm_on_error {A} (m h : M A) : calm w m -> calm w h -> calm w (on_error m h).
Proof.
  intros Hm Hh s Hs. destruct (Hm s Hs) as [H1' H2']. unfold on_error.
  destruct (m s) as [[a| |x] s1]; cbn in *; [done|by apply Hh|done].
Qed.
Lemma calm_when b (m : M unit) : calm w m -> calm w (when b m).
Proof. destruct b; [done|]. intros _. apply calm_ret. Qed.
Lemma calm_for_each {A} (l : list A) (body : A -> M unit) :
  (forall x, x ∈ l -> calm w (body x)) -> calm w (for_each l body).
Proof.
  induction l as [|x l IH]; intros Hb; cbn [for_each]; [apply calm_ret|].
  apply calm_bind; [apply Hb; by left|]. intros _. apply IH. intros y Hy. apply Hb. by right.
Qed.
Lemma calm_for_acc {A B} (l : list A) (b : B) (body : A -> B -> M B) :
  (forall x b, x ∈ l -> calm w (body x b)) -> calm w (for_acc l b body).
Proof.
  revert b. induction l as [|x l IH]; intros b Hb; cbn [for_acc]; [apply calm_ret|].
  apply calm_bind; [apply Hb; by left|]. intros b'. apply IH. intros y b'' Hy. apply Hb. by right.
Qed.
Lemma calm_modify (f : state -> state) : (forall s, world (f s) = world s) -> calm w (modify f).
Proof. intros Hf s Hs. by cbn; rewrite Hf. Qed.
Lemma calm_xcall {A} (f : xmem -> A * xmem) : calm w (xcall f).
Proof. intros s Hs. unfold xcall. by destruct (f (xml s)). Qed.
Lemma calm_malloc : calm w malloc.
Proof. intros s Hs. unfold malloc. by destruct (mem s). Qed.
End calm.

#[export] Hint Resolve calm_ret calm_goto calm_ub calm_abort calm_gets calm_xcall calm_malloc : calm.
#[export] Hint Extern 1 (world _ = world _) => reflexivity : calm.

Ltac calm_step :=
  lazymatch goal with
  | |- calm _ (gets (fun s => ?f (world s)) ≫= _) => apply (calm_world _ f)
  | |- calm _ (_ ≫= _) => apply calm_bind; [|intros ?]
  | |- calm _ (on_error _ _) => apply calm_on_error
  | |- calm _ (when _ _) => apply calm_when
  | |- calm _ (for_each _ _) => apply calm_for_each; intros ? ?
  | |- calm _ (for_acc _ _ _) => apply calm_for_acc; intros ? ? ?
  | |- calm _ (match ?x with _ => _ end) => destruct x eqn:?
  | |- calm _ (modify _) => apply calm_modify; intros ?; reflexivity
  end.
Ltac calm_auto := repeat first [calm_step | solve [eauto 3 with calm]].

Section depth.
Context `{Kernel, !Netlink, !Libxml} (w : sys).

Lemma calm_strdup x : calm w (strdup x).
Proof. unfold strdup. calm_auto. Qed.
Lemma calm_xasprintf x : calm w (xasprintf x).
Proof. apply calm_strdup. Qed.
Hint Resolve calm_strdup calm_xasprintf : calm.
Lemma calm_report c m : calm w (report_error c m).
Proof. unfold report_error, vreport_error, set_errcode. calm_auto. Qed.
Hint Resolve calm_report : calm.
Lemma calm_ERR_THROW b c m : calm w (ERR_THROW b c m).
Proof. unfold ERR_THROW. calm_auto. Qed.
Lemma calm_ERR_NOMEM b : calm w (ERR_NOMEM b).
Proof. unfold ERR_NOMEM, set_errcode. calm_auto. Qed.
Lemma calm_ERR_BAIL : calm w ERR_BAIL.
Proof. unfold ERR_BAIL. calm_auto. Qed.
Hint Resolve calm_ERR_THROW calm_ERR_NOMEM calm_ERR_BAIL : calm.
Lemma calm_nonnull {A} (o : option A) : calm w (nonnull o).
Proof. unfold nonnull. calm_auto. Qed.
Lemma calm_set_prop n k v : calm w (set_prop n k v).
Proof. unfold set_prop. calm_auto. Qed.
Lemma calm_xml_new_node d p n : calm w (xml_new_node d p n).
Proof. unfold xml_new_node. calm_auto. Qed.
Hint Resolve calm_nonnull calm_set_prop calm_xml_new_node : calm.
Lemma calm_xml_node d p n : calm w (xml_node d p n).
Proof. unfold xml_node, xget. calm_auto. Qed.
Lemma calm_if_type i : calm w (if_type i).
Proof. unfold if_type, probe. calm_auto. Qed.
Hint Resolve calm_xml_node calm_if_type : calm.
Lemma calm_add_ethernet_info i d r : calm w (add_ethernet_info i d r).
Proof. unfold add_ethernet_info, add_ethernet_info_cb. calm_auto. Qed.
Hint Resolve calm_add_ethernet_info : calm.

(** The ports that [if_bridge_phys_name] lists are directory entries. *)
Definition ports (n : string) : list string :=
  filter (fun x => STRNEQ x "." && STRNEQ x "..")
    (default [] (readdir ("/sys/class/net/" +:+ n +:+ "/brif") w)).

(** One turn of the loop that collects them. *)
Definition port_step (name : string) (phys_names : list string) : M (list string) :=
  if STRNEQ name "." && STRNEQ name ".." then
    b ← malloc;
    ERR_NOMEM (negb b) ;;
    o ← xasprintf name;
    n ← nonnull o;
    ret (phys_names ++ [n])
  else ret phys_names.

Lemma calm_port_step y acc : calm w (port_step y acc).
Proof. unfold port_step. calm_auto. Qed.

Lemma port_step_post y acc :
  post (fun r _ => r = acc \/ r = acc ++ [y] /\ STRNEQ y "." && STRNEQ y ".." = true)
    (fun _ => True) (port_step y acc).
Proof.
  unfold port_step. intros s. destruct (STRNEQ y "." && STRNEQ y ".."); [|by left].
  unfold xasprintf, strdup, malloc, bind.
  destruct (mem s) as [|[] m] eqn:E; cbn; rewrite ?E; try (destruct m as [|[] m]); cbn; auto.
Qed.

Lemma for_acc_ports (l acc : list string) s names s' :
  world s = w -> for_acc l acc port_step s = (Ret names, s') ->
  forall x, x ∈ names -> x ∈ acc \/ x ∈ filter (fun x => STRNEQ x "." && STRNEQ x "..") l.
Proof.
  revert acc s. induction l as [|y l IH]; intros acc s Hs; cbn [for_acc].
  - intros Hr. apply ret_inv in Hr as [-> _]. by left.
  - intros Hr x Hx. apply bind_inv in Hr as [(acc1 & s1 & Hb & Hr)|[[_ ?]|(? & _ & ?)]]; [|done|done].
    pose proof (port_step_post y acc s) as Hacc. pose proof (calm_port_step y acc s Hs) as [_ Hs1].
    rewrite Hb in Hacc, Hs1. cbn in Hacc, Hs1.
    setoid_rewrite list_elem_of_filter. setoid_rewrite list_elem_of_filter in IH.
    destruct (IH acc1 s1 Hs1 Hr x Hx) as [Hin|Hin]; [|set_solver].
    destruct Hacc as [->|[-> Hy]]; [set_solver|].
    apply elem_of_app in Hin as [Hin|Hin]; [by left|]. apply list_elem_of_singleton in Hin as ->.
    right. split; [by rewrite Hy|by left].
Qed.

Lemma if_bridge_phys_name_ports n s r names s' : world s = w ->
  if_bridge_phys_name n s = (Ret (r, names), s') -> forall x, x ∈ names -> x ∈ ports n.
Proof.
  intros Hs Hr x Hx. unfold if_bridge_phys_name in Hr.
  apply on_error_inv in Hr as [[Hr _]|(s1 & _ & Hr)].
  2:{ apply ret_inv in Hr as [[= -> ->] _]. set_solver. }
  apply bind_inv in Hr as [(o & s1 & Ho & Hr)|[[_ ?]|(? & _ & ?)]]; [|done|done].
  assert (Hs1 : world s1 = w) by (pose proof (calm_xasprintf ("/sys/class/net/" +:+ n +:+ "/brif") s Hs) as [_ E]; by rewrite Ho in E).
  assert (Ho' : forall p, o = Some p -> p = "/sys/class/net/" +:+ n +:+ "/brif").
  { revert Ho. unfold xasprintf, strdup, malloc, bind. destruct (mem s) as [|[] m];
      intros [= <- _] p Hp; by inversion Hp. }
  apply bind_inv in Hr as [(p & s2 & Hp & Hr)|[[_ ?]|(? & _ & ?)]]; [|done|done].
  destruct o as [p'|]; [|done]. apply ret_inv in Hp as [-> ->]. rewrite (Ho' p' eq_refl) in Hr.
  unfold bind at 1, gets in Hr.
  apply bind_inv in Hr as [(l & s3 & Hl & Hr)|[[_ ?]|(? & _ & ?)]]; [|done|done].
  apply ret_inv in Hr as [[= _ ->] _]. rewrite Hs1 in Hl.
  destruct (for_acc_ports _ _ _ _ _ Hs1 Hl x Hx) as [Hin|Hin]; [set_solver|done].
Qed.

Lemma calm_if_bridge_phys_name n : calm w (if_bridge_phys_name n).
Proof. unfold if_bridge_phys_name. calm_auto. Qed.

(** Interfaces do not contain themselves: there is a rank that decreases from
    an interface to the ones described inside its element. *)
Record layered (rank : option string -> Z -> nat) : Prop := {
  rank_port : forall n i p, p ∈ ports n ->
    (rank (Some p) (rtnl_link_name2i p w) < rank (Some n) i)%nat;
  rank_master : forall n i l ml mn, l ∈ nl_links_of i w ->
    rtnl_link_get (rtnl_link_get_link l) w = Some ml -> rtnl_link_get_name ml = Some mn ->
    rtnl_link_get_type l = Some "vlan" ->
    (rank (Some mn) (rtnl_link_name2i mn w) < rank n i)%nat;
  rank_slave : forall n i l, l ∈ nl_links w ->
    (Z.land (rtnl_link_get_flags l) IFF_SLAVE =? 0) = false ->
    (rtnl_link_get_master l =? i) = true ->
    (rank (rtnl_link_get_name l) (rtnl_link_get_ifindex l) < rank n i)%nat
}.


Lemma STREQ_STRNEQ a b : STRNEQ a b = false -> a = b.
Proof. unfold STRNEQ. intros Hn. apply negb_false_iff in Hn. by apply STREQ_eq. Qed.

Lemma add_type_specific_info_calm rank (Hrank : layered rank) fuel n i d r :
  (rank n i < fuel)%nat -> calm w (add_type_specific_info fuel n i d r).
Proof.
  revert n i d r. induction fuel as [|fuel IH]; intros n i d r Hlt; [lia|].
  cbn [add_type_specific_info]. unfold type_specific_info.
  assert (Hbridge : forall name, n = Some name ->
    calm w (add_bridge_info (add_type_specific_info fuel) name d r)).
  { intros name ->. unfold add_bridge_info. apply calm_on_error; [|apply calm_ret].
    apply calm_bind; [auto with calm|intros ob]. apply calm_bind; [auto with calm|intros b].
    apply calm_bind_dep with (Q := fun p => forall x, x ∈ p.2 -> x ∈ ports name);
      [apply calm_if_bridge_phys_name|intros s [k l] s' Hs Hr; by apply (if_bridge_phys_name_ports name s k l s')|].
    intros [k names] Hp. apply calm_when, calm_for_each. intros x Hx.
    apply calm_bind; [auto with calm|intros oi]. apply calm_bind; [auto with calm|intros ni].
    calm_step. apply IH. pose proof (rank_port rank Hrank name i x (Hp x Hx)). lia. }
  assert (Hvlan : calm w (add_vlan_info (add_type_specific_info fuel) i d r)).
  { unfold add_vlan_info, add_vlan_info_cb. calm_auto. apply IH.
    match goal with
    | Ht : rtnl_link_get_type ?l = Some ?t, Hn : STRNEQ ?t "vlan" = false,
      Hg : rtnl_link_get _ w = Some ?ml, Hm : rtnl_link_get_name ?ml = Some ?mn |- _ =>
        apply STREQ_STRNEQ in Hn; subst t;
        pose proof (rank_master rank Hrank n i l ml mn ltac:(assumption) Hg Hm Ht); lia
    end. }
  assert (Hbond : calm w (add_bond_info (add_type_specific_info fuel) i d r)).
  { unfold add_bond_info, add_bond_info_cb. calm_auto. apply IH.
    match goal with
    | Hin : ?l ∈ nl_links w, Hb : _ || _ = false |- _ =>
        apply orb_false_iff in Hb as [Hf Hm]; apply negb_false_iff in Hm;
        pose proof (rank_slave rank Hrank n i l Hin Hf Hm); lia
    end. }
  apply calm_on_error; [|apply calm_ret].
  apply calm_bind; [auto with calm|intros p]. apply calm_bind; [auto with calm|intros _].
  destruct n as [name|]; [|auto with calm].
  apply calm_bind; [auto with calm|intros t]. apply calm_bind; [auto with calm|intros _].
  apply calm_bind; [destruct (if_type_str t); auto with calm|intros _].
  destruct t; auto with calm.
Qed.
End depth.

(** ** Properties *)

(** C21: what [get_augeas] makes of the driver. If the instance can be created (with
    the lenses of the data directory) or is there, the transforms of all tables can be
    set in place of those of the library, where that is due, and the files can then be
    loaded without an error in any of them, the driver works on the tree that is the
    result of exactly these steps; nothing else happens, and calling it again does
    nothing at all. If one of the steps fails, an error is recorded and no instance is
    left. *)
Theorem get_augeas_spec `{Augeas} (s : state) (d : driver)
  (Hdriver : ncf_driver (ncf s) = Some d) (Hwf : err_wf s) :
  match prepared d s with
  | Some a => exists s', get_augeas s = (Ret true, s') /\
      ncf_driver (ncf s') = Some (set_augeas (Some a) (set_flags false false d)) /\
      err s' = err s /\ world s' = world s /\ get_augeas s' = (Ret true, s')
  | None => exists s' d', get_augeas s = (Ret false, s') /\ failed s' /\
      ncf_driver (ncf s') = Some d' /\ augeas d' = None
  end.
Proof.
  pose proof (get_augeas_run d s Hdriver Hwf) as Hr. destruct (prepared d s) as [a|]; [|done].
  destruct Hr as (s' & Hr & Hd & Hw & He & Hwd). exists s'. do 4 (split; [done|]).
  apply get_augeas_again. split; [done|]. by eexists _, a.
Qed.

(** Registering a table keeps the ones already there and adds the new one,
    in the first free slot or at the end; unregistering takes exactly that table
    away. Either way the next [get_augeas] copies the transforms again. Taking
    away a table that is not registered reads past the array. *)
Theorem xfm_tables_spec `{Augeas} (x : augeas_xfm_table) (s : state) (d : driver)
  (Hdriver : ncf_driver (ncf s) = Some d) (Hmem : mem s = []) :
  (exists s' d', add_augeas_xfm_table x s = (Ret 0, s') /\ ncf_driver (ncf s') = Some d' /\
     copy_augeas_xfm d' = true /\
     registered (augeas_xfm_tables d') ≡ₚ x :: registered (augeas_xfm_tables d)) /\
  (if decide (Forall (fun t => xfm_id <$> t <> Some (xfm_id x)) (augeas_xfm_tables d)) then
     exists what, remove_augeas_xfm_table x s = (Stop (UB what), s)
   else
     exists s' d' t, remove_augeas_xfm_table x s = (Ret 0, s') /\
       ncf_driver (ncf s') = Some d' /\ copy_augeas_xfm d' = true /\ xfm_id t = xfm_id x /\
       registered (augeas_xfm_tables d) ≡ₚ t :: registered (augeas_xfm_tables d')).
Proof.
  split.
  - rewrite (add_augeas_xfm_table_run x s d Hdriver Hmem). eexists _, _.
    split; [reflexivity|]. split; [reflexivity|]. split; [done|]. apply registered_fill.
  - case_decide as Hin.
    + eexists. unfold remove_augeas_xfm_table.
      rewrite (bind_Ret _ _ _ _ _ (the_driver_run s d Hdriver)).
      apply (find_slot_absent (Some x)) in Hin. by rewrite decide_True.
    + assert (find_slot (Some x) (augeas_xfm_tables d) <> length (augeas_xfm_tables d)) as Hne
        by (intros E; by apply Hin, (find_slot_absent (Some x))).
      rewrite (remove_augeas_xfm_table_run x s d Hdriver Hne).
      pose proof (find_slot_le (Some x) (augeas_xfm_tables d)).
      destruct (registered_clear (augeas_xfm_tables d) x ltac:(lia)) as (t & Ht & Hp).
      eexists _, _, t. split; [reflexivity|]. split; [reflexivity|]. done.
Qed.

Definition toy_table : augeas_xfm_table :=
  {| xfm_id := 3; xfm_pv := [{| pv_path := "/augeas/load/Sysfs/lens"; pv_value := "Netcf.id" |}] |}.

(** A driver with a table of transforms whose instance has yet to be created *)
Definition toy_fresh_driver : driver (H := toy_host) :=
  set_augeas None (set_flags true false (set_tables [None; Some toy_table] (toy_driver toy_empty))).

Lemma get_augeas_spec_witness :
  let s := set_ncf (H := toy_host) (set_driver (Some toy_fresh_driver) (toy_netcf toy_empty)) (toy_state toy_os toy_empty) in
  exists a s', get_augeas s = (Ret true, s') /\
    ncf_driver (ncf s') = Some (set_augeas (Some a) (set_flags false false toy_fresh_driver)) /\
    t_ops a = [("rm", "/augeas/load/*"); ("/augeas/load/Sysfs/lens", "Netcf.id")].
Proof.
  intros s. pose proof (@get_augeas_spec toy_host toy_augeas s toy_fresh_driver eq_refl ltac:(by intros _)) as Hg.
  assert (Hp : exists a, prepared toy_fresh_driver s = Some a /\
                 t_ops a = [("rm", "/augeas/load/*"); ("/augeas/load/Sysfs/lens", "Netcf.id")])
    by (eexists; split; vm_compute; reflexivity).
  destruct Hp as (a & Hp & Ho). rewrite Hp in Hg. destruct Hg as (s' & Hr & Hd & _).
  exists a, s'. split; [exact Hr|]. split; [exact Hd|exact Ho].
Defined.

Lemma xfm_tables_spec_witness :
  exists s' d', add_augeas_xfm_table toy_table (toy_state toy_os toy_empty) = (Ret 0, s') /\
    ncf_driver (ncf s') = Some d' /\ registered (augeas_xfm_tables d') ≡ₚ [toy_table].
Proof.
  destruct (@xfm_tables_spec toy_host toy_augeas toy_table (toy_state toy_os toy_empty)
              (toy_driver toy_empty) eq_refl eq_refl) as [(s' & d' & Hr & Hd & _ & Hp) _].
  exists s', d'. split; [exact Hr|]. split; [exact Hd|exact Hp].
Defined.

(** The type of an interface is decided by the kernel's files, a VLAN before
    a bridge before a bond, and everything else is an ethernet; the type has a
    name, and no error is recorded. *)
Theorem if_type_spec `{Kernel} (intf : string) (s : state) (Hmem : mem s = []) :
  let vlan := stat ("/proc/net/vlan/" +:+ intf) (world s) in
  let bridge := stat ("/sys/class/net/" +:+ intf +:+ "/bridge") (world s) in
  let bond := stat ("/sys/class/net/" +:+ intf +:+ "/bonding") (world s) in
  let t := match vlan, bridge, bond with
           | Some S_IFREG, _, _ => NETCF_IFACE_TYPE_VLAN
           | _, Some S_IFDIR, _ => NETCF_IFACE_TYPE_BRIDGE
           | _, _, Some S_IFDIR => NETCF_IFACE_TYPE_BOND
           | _, _, _ => NETCF_IFACE_TYPE_ETHERNET
           end in
  if_type intf s = (Ret t, s) /\ is_Some (if_type_str t).
Proof.
  cbv zeta. unfold if_type, on_error. rewrite (bind_Ret _ _ _ _ _ (probe_run _ _ s Hmem)).
  destruct (stat ("/proc/net/vlan/" +:+ intf) (world s)) as [[]|]; cbn [probe];
    try (split; [reflexivity|by eexists]);
    rewrite (bind_Ret _ _ _ _ _ (probe_run _ _ s Hmem));
    destruct (stat ("/sys/class/net/" +:+ intf +:+ "/bridge") (world s)) as [[]|];
    try (split; [reflexivity|by eexists]);
    rewrite (bind_Ret _ _ _ _ _ (probe_run _ _ s Hmem));
    destruct (stat ("/sys/class/net/" +:+ intf +:+ "/bonding") (world s)) as [[]|];
    (split; [reflexivity|by eexists]).
Qed.

Lemma if_type_spec_witness :
  if_type "br0" (toy_state toy_os toy_empty)
    = (Ret NETCF_IFACE_TYPE_BRIDGE, toy_state toy_os toy_empty).
Proof. apply (@if_type_spec toy_host toy_kernel "br0" (toy_state toy_os toy_empty) eq_refl). Defined.

(** A MAC address of [n > 0] bytes is printed as [n] two-digit fields joined
    by colons, [3n-1] characters; with a buffer of at least [3n] bytes no write
    leaves it, and with any smaller one some write does. *)
Theorem format_mac_addr_spec (addr : list Z) (buflen : Z) (Hne : addr <> []) :
  format_mac_addr 0 buflen addr =
    (if decide (3 * Z.of_nat (length addr) <= buflen)
     then Some (String.concat ":" (fmt_02x <$> addr)) else None) /\
  strlen (String.concat ":" (fmt_02x <$> addr)) = 3 * Z.of_nat (length addr) - 1.
Proof.
  split; [|by apply concat_fmt_length]. rewrite format_mac_addr_fits by done.
  rewrite Z.sub_0_r. by destruct (decide (addr = [] \/ 3 * Z.of_nat (length addr) <= buflen)) as [[?|?]|Hn];
    [done|rewrite decide_True|rewrite decide_False by tauto].
Qed.

Lemma format_mac_addr_spec_witness :
  format_mac_addr 0 18 [0x52; 0x54; 0; 0x1a; 0xff; 1] = Some "52:54:00:1a:ff:01" /\
  format_mac_addr 0 17 [0x52; 0x54; 0; 0x1a; 0xff; 1] = None.
Proof.
  split.
  - rewrite (proj1 (format_mac_addr_spec [0x52; 0x54; 0; 0x1a; 0xff; 1] 18 ltac:(discriminate))).
    reflexivity.
  - rewrite (proj1 (format_mac_addr_spec [0x52; 0x54; 0; 0x1a; 0xff; 1] 17 ltac:(discriminate))).
    reflexivity.
Defined.

(** C23: describing the live state of an interface ends: when interfaces are
    layered (no bridge, bond or VLAN contains itself, however indirectly), the
    depth of the recursion is at most the rank of the interface, and the state
    of the system is not changed. *)
Theorem add_type_specific_info_ends `{Kernel, !Netlink, !Libxml} (w : sys)
  (rank : option string -> Z -> nat) (fuel : nat) (ifname : option string) (ifindex : Z)
  (d : doc) (root : node) (s : state)
  (Hrank : layered w rank) (Hfuel : (rank ifname ifindex < fuel)%nat) (Hworld : world s = w) :
  (add_type_specific_info fuel ifname ifindex d root s).1 <> Stop Hang /\
  world (add_type_specific_info fuel ifname ifindex d root s).2 = w.
Proof. by apply (add_type_specific_info_calm w rank Hrank fuel ifname ifindex d root Hfuel). Qed.

Lemma add_type_specific_info_ends_witness :
  (add_type_specific_info (H := toy_host) 2 (Some "br0") 2 1%nat 2%nat (toy_parsed "br0")).1
    <> Stop Hang.
Proof.
  apply (@add_type_specific_info_ends toy_host toy_kernel toy_netlink toy_libxml toy_os
    (fun n _ => match n with Some n => if decide (ports (H := toy_host) toy_os n = []) then 0%nat else 1%nat
                | None => 0%nat end) 2 (Some "br0") 2 1%nat 2%nat (toy_parsed "br0")).
  - split.
    + intros n i p Hp. rewrite decide_True.
      * rewrite decide_False; [lia|]. intros E. rewrite E in Hp. inversion Hp.
      * unfold ports in Hp. cbn in Hp. destruct (STREQ _ _); cbn in Hp; [|inversion Hp].
        apply list_elem_of_singleton in Hp as ->. reflexivity.
    + intros n i l ml mn _ Hl. discriminate Hl.
    + intros n i l _ Hf. discriminate Hf.
  - vm_compute. lia.
  - reflexivity.
Defined.
