(* ===== verification/Common.v ===== *)
(** * What the drivers have in common

    Pieces of code that every driver repeats: following a pointer, arrays, the
    zeroed driver structure, the creation of an interface, the choice of the
    interfaces to list and the transactions. *)

From S2P Require Import Prelude CStr XsltExt State Refs Toy Posix Xml Netcf Linux.

Section common.
Context `{Host}.

(** A pointer that is followed without a check. *)
Definition deref {A} (p : option A) : M A :=
  match p with
  | Some a => ret a
  | None => halt (UB "NULL pointer")
  end.

(** [ALLOC_N]: nothing is allocated for an empty array. *)
Definition ALLOC_N (n : nat) : M bool := if decide (n = O) then ret true else malloc.

(** The zeroed [struct driver] of [ALLOC], with the descriptor set *)
Definition new_driver : driver :=
  {| augeas := None; put := None; get := None; ioctl_fd := -1; nl_sock := false;
     link_cache := false; addr_cache := false; load_augeas := false; copy_augeas_xfm := false;
     augeas_xfm_tables := [] |}.

(** [make_netcf_if] and the [ERR_BAIL] after it, with [unref] at the label *)
Definition new_nif (name : string) : M (option nat) :=
  nif ← make_netcf_if name;
  on_error (ERR_BAIL ;; ret nif) (unref_netcf_if nif ;; ret None).
End common.

Definition has_flag (flags bit : Z) : bool := negb (Z.land flags bit =? 0).

(** Is the interface in a state the caller asked for? *)
Definition qualifies `{Kernel} (flags : Z) (name : option string) : M bool :=
  let both := Z.lor NETCF_IFACE_ACTIVE NETCF_IFACE_INACTIVE in
  if Z.land flags both =? both then ret true else
  n ← deref name;
  is_active ← if_is_active n;
  ret ((is_active && has_flag flags NETCF_IFACE_ACTIVE)
       || (negb is_active && has_flag flags NETCF_IFACE_INACTIVE)).

(** [drv_change_begin], [drv_change_rollback] and [drv_change_commit]: they differ
    in the argument of the program. *)
Definition run_transaction `{Posix} (prog : string) (flags : Z) (arg : string) : M Z :=
  on_error
    (ERR_THROW (negb (flags =? 0)) NETCF_EOTHER ("unsupported flags value " +:+ fmt_d (i32 flags)) ;;
     run1 prog arg ;;
     ERR_BAIL ;;
     ret 0)
    (ret (-1)).

(** ** Laws *)

Section common_laws.
Context `{Host}.

Lemma deref_steady {A} (p : option A) : pres steady (deref p).
Proof. unfold deref. pres_auto. Qed.
Lemma closed_deref {A} (p : option A) : closed (deref p).
Proof. unfold deref. fails_auto. Qed.
Lemma ALLOC_N_steady n : pres steady (ALLOC_N n).
Proof. unfold ALLOC_N. pres_auto. Qed.
Lemma closed_ALLOC_N n : closed (ALLOC_N n).
Proof. unfold ALLOC_N. fails_auto. Qed.
Hint Resolve deref_steady ALLOC_N_steady : pres.
Hint Resolve closed_deref closed_ALLOC_N : fails.

Lemma new_nif_grows n : pres grows (new_nif n).
Proof. unfold new_nif. pres_auto. Qed.
Lemma new_nif_post n : post (fun r s => r = None -> failed s) (fun _ => False) (new_nif n).
Proof.
  unfold new_nif. eapply post_bind_dep; [apply make_netcf_if_post|]. intros nif s Hn.
  unfold on_error, bind. pose proof (ERR_BAIL_post s) as Hb. pose proof (ERR_BAIL_keep s) as [_ Hk].
  destruct (ERR_BAIL s) as [[[]| |w] s1]; cbn in *; [intros ->; by apply Hk, Hn| |done].
  pose proof (closed_unref_netcf_if nif s1) as Hc. pose proof (unref_netcf_if_keep nif s1) as [_ Hk'].
  destruct (unref_netcf_if nif s1) as [[]?]; cbn in *; [intros _; by apply Hk'|done|done].
Qed.
Lemma closed_new_nif n : closed (new_nif n).
Proof. eapply post_mono; [apply new_nif_post|done|done]. Qed.
Hint Resolve new_nif_grows : pres.
Hint Resolve closed_new_nif : fails.

(** What [list_interface_ids] promises: the array keeps its size, and -1 comes with
    an error. *)
Definition ids_result (ns : option (list (option string)))
  (r : Z * option (list (option string))) (s : state) : Prop :=
  (r.1 < 0 -> failed s) /\ (length <$> r.2) = (length <$> ns).

Lemma qualifies_steady `{!Kernel} f n : pres steady (qualifies f n).
Proof. unfold qualifies. pres_auto. Qed.
Lemma closed_qualifies `{!Kernel} f n : closed (qualifies f n).
Proof. unfold qualifies. fails_auto. Qed.
Lemma run_transaction_steady `{!Posix} p f a : pres steady (run_transaction p f a).
Proof. unfold run_transaction. pres_auto. Qed.
Lemma run_transaction_reports `{!Posix} p f a : reports (run_transaction p f a).
Proof. unfold run_transaction. fails_auto. Qed.
End common_laws.

#[export] Hint Resolve deref_steady ALLOC_N_steady new_nif_grows qualifies_steady
  run_transaction_steady : pres.
#[export] Hint Resolve closed_deref closed_ALLOC_N closed_new_nif closed_qualifies
  run_transaction_reports : fails.

(** Counting and listing, from the contract of [list_interface_ids] *)
Ltac reports_ids Hids :=
  unfold reports; eapply post_bind_dep; [apply Hids|]; let Hr := fresh in intros [? ?] ? [Hr _]; exact Hr.

Ltac post_list Hids :=
  eapply post_bind_dep; [apply Hids|];
  let Hr := fresh in let Hl := fresh in let ns := fresh in
  intros [? ns] ? [Hr Hl]; split; [exact Hr|]; cbn in *; destruct ns; [|done];
  cbn in *; injection Hl as Hl; rewrite Hl; by rewrite length_replicate.
