(* ===== verification/Redhat.v ===== *)
(** * The initscripts driver for Red Hat systems (drv_redhat.c)

    Interfaces are [ifcfg-*] files under /etc/sysconfig/network-scripts, read
    and written through Augeas; interface XML is turned into the Augeas tree and
    back by style sheets; ifup, ifdown and netcf-transaction do the rest. *)

From S2P Require Import Prelude CStr XsltExt State Refs Toy Posix Xml Netcf Linux Common.

(** Choices of configure, and what the caller's stack holds. *)
Class RedhatConfig := {
  NETCF_TRANSACTION : string;
  (** is the word [i] pointers above the [slaves] variable of the callers of
      [bridge_slaves] a null pointer? (word 0 is the variable itself) *)
  stack_word_null : nat -> bool
}.

Definition network_scripts_path : string := "/files/etc/sysconfig/network-scripts".
Definition ifcfg_path : string := "/files/etc/sysconfig/network-scripts/*".

Definition pv (path value : string) : augeas_pv := {| pv_path := path; pv_value := value |}.

Definition augeas_xfm_common_pv : list augeas_pv :=
  [pv "/augeas/load/Ifcfg/lens" "Sysconfig.lns";
   pv "/augeas/load/Ifcfg/incl" "/etc/sysconfig/network-scripts/ifcfg-*";
   pv "/augeas/load/Ifcfg/excl[1]" "*~";
   pv "/augeas/load/Ifcfg/excl[2]" "*.bak";
   pv "/augeas/load/Ifcfg/excl[3]" "*.orig";
   pv "/augeas/load/Ifcfg/excl[4]" "*.rpmnew";
   pv "/augeas/load/Ifcfg/excl[5]" "*.rpmorig";
   pv "/augeas/load/Ifcfg/excl[6]" "*.rpmsave";
   pv "/augeas/load/Ifcfg/excl[7]" "*.augnew";
   pv "/augeas/load/Ifcfg/excl[8]" "*.augsave";
   pv "/augeas/load/Modprobe/lens" "Modprobe.lns";
   pv "/augeas/load/Modprobe/incl[1]" "/etc/modprobe.d/*";
   pv "/augeas/load/Modprobe/incl[2]" "/etc/modprobe.conf";
   pv "/augeas/load/Modprobe/excl[1]" "*.augnew";
   pv "/augeas/load/Modprobe/excl[2]" "*.augsave";
   pv "/augeas/load/Modprobe/excl[3]" "*.rpmsave";
   pv "/augeas/load/Modprobe/excl[4]" "*.rpmnew";
   pv "/augeas/load/Modprobe/excl[5]" "*~";
   pv "/augeas/load/Sysfs/lens" "Netcf.id";
   pv "/augeas/load/Sysfs/incl" "/sys/class/net/*/address"].

Definition augeas_xfm_common : augeas_xfm_table :=
  {| xfm_id := 0; xfm_pv := augeas_xfm_common_pv |}.

Definition subif_paths : list string := ["MASTER"; "BRIDGE"].

(** The expression for an interface, its ports and its slaves, and the slaves of
    bonds that are ports. *)
Definition related (name : string) : string :=
  "DEVICE = '" +:+ name +:+ "' or BRIDGE = '" +:+ name +:+ "' or MASTER = '" +:+ name +:+ "'".

Section redhat.
Context `{Augeas, !Kernel, !Netlink, !Libxml, !Posix, !RedhatConfig}.

(** ** Slaves and config files *)

Fixpoint is_slave_loop (paths : list string) (intf : string) : M Z :=
  match paths with
  | [] => ret 0
  | s :: paths' =>
      m ← aug_fmt_match (intf +:+ "/" +:+ s);
      if negb (nmatches m =? 0) then ret (nmatches m) else is_slave_loop paths' intf
  end.

Definition is_slave (intf : string) : M Z := is_slave_loop subif_paths intf.

Definition has_ifcfg_file (name : string) : M bool :=
  m ← aug_fmt_match (ifcfg_path +:+ "[ DEVICE = '" +:+ name +:+ "'    or BRIDGE = '" +:+ name +:+
        "'    or MASTER = '" +:+ name +:+ "'    or MASTER = ../*[BRIDGE = '" +:+ name +:+
        "']/DEVICE ]/DEVICE");
  ret (0 <? nmatches m).

Definition hwaddr_str : string := "/HWADDR".

(** The loop over the sorted [HWADDR] nodes; the last match counts. *)
Definition hwaddr_step (mac p : string) (found : option string) : M (option string) :=
  ' (r, addr) ← ask_aug (aug_get p);
  ERR_COND_BAIL (negb (r =? 1)) NETCF_EOTHER ;;
  addr ← deref addr;
  ret (if STRCASEEQ addr mac then Some p else found).

Definition find_ifcfg_path_by_hwaddr (mac : string) : M (option string) :=
  on_error
    (get_augeas ;;
     ERR_BAIL ;;
     m ← aug_fmt_match (ifcfg_path +:+ hwaddr_str);
     ERR_COND_BAIL (nmatches m <? 0) NETCF_EOTHER ;;
     found ← for_acc (qsort_strings (matched m)) None (hwaddr_step mac);
     ret match found with
         | Some path => Some (string_take (String.length path - String.length hwaddr_str) path)
         | None => None
         end)
    (ret None).

Definition find_ifcfg_path_by_device (name : string) : M (option string) :=
  on_error
    (get_augeas ;;
     ERR_BAIL ;;
     m ← aug_fmt_match (ifcfg_path +:+ "[DEVICE = '" +:+ name +:+ "']");
     ERR_COND_BAIL (nmatches m <? 0) NETCF_EOTHER ;;
     ret (last (qsort_strings (matched m))))
    (ret None).

Definition find_ifcfg_path (name : string) : M (option string) :=
  on_error
    (get_augeas ;;
     ERR_BAIL ;;
     opath ← xasprintf (network_scripts_path +:+ "/ifcfg-" +:+ name);
     path ← nonnull opath;
     m ← ask_aug (aug_match path);
     ERR_COND_BAIL (nmatches m <? 0) NETCF_EOTHER ;;
     if nmatches m =? 1 then ret (Some path) else
     ' (r, mac) ← aug_get_mac name;
     ERR_COND_BAIL (r <? 0) NETCF_EOTHER ;;
     by_mac ← (if 0 <? r then
                 mac ← deref mac;
                 p ← find_ifcfg_path_by_hwaddr mac;
                 ERR_BAIL ;;
                 ret p
               else ret None);
     match by_mac with
     | Some p => ret (Some p)
     | None =>
         p ← find_ifcfg_path_by_device name;
         ERR_BAIL ;;
         ret p
     end)
    (ret None).

(** The loop that collects the device names, each once. *)
Definition devname_step (dev : string) (devnames : list string) : M (list string) :=
  ' (r, name) ← ask_aug (aug_get dev);
  ERR_COND_BAIL (negb (r =? 1)) NETCF_EOTHER ;;
  name ← deref name;
  ret (if existsb (STREQ name) devnames then devnames else devnames ++ [name]).

(** The paths of the interfaces; [None] is the result -1. *)
Definition uniq_ifcfg_paths (devs : list string) : M (option (list (option string))) :=
  on_error
    (get_augeas ;;
     ERR_BAIL ;;
     b ← ALLOC_N (length devs);
     ERR_NOMEM (negb b) ;;
     devnames ← for_acc devs [] devname_step;
     b ← ALLOC_N (length devnames);
     ERR_NOMEM (negb b) ;;
     intf ← for_map (qsort_strings devnames) (fun name =>
       p ← find_ifcfg_path name;
       ERR_BAIL ;;
       ret p);
     ret (Some intf))
    (ret None).

Definition list_ifcfg_paths : M (option (list (option string))) :=
  on_error
    (m ← aug_fmt_match (ifcfg_path +:+ "/DEVICE");
     ERR_COND_BAIL (nmatches m <? 0) NETCF_EOTHER ;;
     result ← uniq_ifcfg_paths (matched m);
     ERR_BAIL ;;
     ret result)
    (ret None).

(** [memmove(intf + i, intf + i + 1, (nint - (i + 1)) * sizeof(intf[0]))]: the
    last slot keeps its value. *)
Definition memmove_down {A} (i : nat) (intf : list A) : list A :=
  take i intf ++ drop (S i) intf ++ drop (pred (length intf)) intf.

(** The loop that filters out slaves, in place: the array and how many of its
    slots count. *)
Fixpoint drop_slaves (fuel i result : nat) (intf : list (option string))
  : M (nat * list (option string)) :=
  match fuel with
  | O => ret (result, intf)
  | S fuel' =>
      if decide (result <= i)%nat then ret (result, intf) else
      p ← deref (mjoin (intf !! i));
      s ← is_slave p;
      if negb (s =? 0) then drop_slaves fuel' i (pred result) (memmove_down i intf)
      else drop_slaves fuel' (S i) result intf
  end.

Definition list_interfaces : M (option (list (option string))) :=
  on_error
    (get_augeas ;;
     ERR_BAIL ;;
     ointf ← list_ifcfg_paths;
     ERR_BAIL ;;
     let intf := default [] ointf in
     ' (result, intf) ← drop_slaves (length intf) 0 (length intf) intf;
     ret (Some (take result intf)))
    (ret None).

(** ** Initialisation *)

Definition drv_close : M unit :=
  o ← gets (fun s => ncf_driver (ncf s));
  match o with
  | None => ret tt
  | Some d =>
      netlink_close ;;
      when (0 <=? ioctl_fd d) (close_fd (ioctl_fd d)) ;;
      modify (fun s => set_ncf (set_driver None (ncf s)) s)
  end.

Definition drv_init : M Z :=
  b ← malloc;
  if negb b then ret (-1) else
  modify (fun s => set_ncf (set_driver (Some new_driver) (ncf s)) s) ;;
  on_error
    (r ← add_augeas_xfm_table augeas_xfm_common;
     when (r <? 0) goto_error ;;
     oroot ← gets (fun s => ncf_root (ncf s));
     root ← deref oroot;
     m ← gets (fun s => stat root (world s));
     when (match m with Some S_IFDIR => false | _ => true end)
       (report_error NETCF_EFILE ("invalid root '" +:+ root +:+ "' is not a directory") ;;
        goto_error) ;;
     g ← parse_stylesheet "redhat-get.xsl";
     upd_driver (fun d => set_sheets g (put d) d) ;;
     p ← parse_stylesheet "redhat-put.xsl";
     upd_driver (fun d => set_sheets (get d) p d) ;;
     ERR_BAIL ;;
     fd ← init_ioctl_fd;
     upd_driver (set_ioctl_fd fd) ;;
     when (fd <? 0) goto_error ;;
     r ← netlink_init;
     when (r <? 0) goto_error ;;
     ret 0)
    (drv_close ;; ret (-1)).

Definition drv_entry : M unit := upd_driver (fun d => set_flags true (copy_augeas_xfm d) d).

(** ** Listing and lookup *)

(** One turn of the loop of [list_interface_ids]: the name, if it qualifies. *)
Definition id_step (flags : Z) (id_attr : string) (path : option string)
  : M (option (option string)) :=
  path ← deref path;
  m ← aug_fmt_match (path +:+ "/" +:+ id_attr);
  ERR_BAIL ;;
  match last (matched m) with
  | None => ret None
  | Some node =>
      ' (r, name) ← ask_aug (aug_get node);
      ERR_COND_BAIL (r <? 0) NETCF_EOTHER ;;
      let both := Z.lor NETCF_IFACE_ACTIVE NETCF_IFACE_INACTIVE in
      is_qualified ←
        (if Z.land flags both =? both then ret true else
         n ← deref name;
         is_active ← if_is_active n;
         ret ((is_active && has_flag flags NETCF_IFACE_ACTIVE)
              || (negb is_active && has_flag flags NETCF_IFACE_INACTIVE)));
      ret (if (is_qualified : bool) then Some name else None)
  end.

(** The loop, with the array that the caller passed ([None]: NULL): the number
    of names or -1, and what the array holds. *)
Fixpoint ids_loop (flags : Z) (id_attr : string) (intf : list (option string))
  (maxnames nqualified : Z) (names : option (list (option string)))
  : M (Z * option (list (option string))) :=
  match intf with
  | [] => ret (nqualified, names)
  | path :: intf' =>
      if negb (nqualified <? maxnames) then ret (nqualified, names) else
      q ← on_error (q ← id_step flags id_attr path; ret (Some q)) (ret None);
      match q, names with
      | None, _ => ret (-1, names)
      | Some None, _ => ids_loop flags id_attr intf' maxnames nqualified names
      | Some (Some _), None => ids_loop flags id_attr intf' maxnames (nqualified + 1) None
      | Some (Some name), Some l =>
          n ← deref name;
          o ← strdup n;
          let names' := Some (<[Z.to_nat nqualified := o]> l) in
          if is_null o then set_errcode NETCF_ENOMEM ;; ret (-1, names')
          else ids_loop flags id_attr intf' maxnames (nqualified + 1) names'
      end
  end.

Definition list_interface_ids (maxnames : Z) (names : option (list (option string))) (flags : Z)
  (id_attr : string) : M (Z * option (list (option string))) :=
  on_error
    (get_augeas ;;
     ERR_BAIL ;;
     ointf ← list_interfaces;
     ERR_BAIL ;;
     let intf := default [] ointf in
     let maxnames := if is_null names then Z.of_nat (length intf) else maxnames in
     ids_loop flags id_attr intf maxnames 0 names)
    (ret (-1, names)).

Definition drv_list_interfaces (maxnames flags : Z) : M (Z * list (option string)) :=
  ' (r, names) ← list_interface_ids maxnames (Some (replicate (Z.to_nat maxnames) None)) flags
                   "DEVICE";
  ret (r, default [] names).

Definition drv_num_of_interfaces (flags : Z) : M Z :=
  ' (r, _) ← list_interface_ids 0 None flags "DEVICE";
  ret r.

Definition drv_lookup_by_name (name : string) : M (option nat) :=
  on_error
    (get_augeas ;;
     ERR_BAIL ;;
     pathx ← find_ifcfg_path name;
     ERR_BAIL ;;
     match pathx with
     | None => ret None
     | Some p =>
         s ← is_slave p;
         if negb (s =? 0) then ret None else
         odup ← strdup name;
         name_dup ← nonnull odup;
         new_nif name_dup
     end)
    (ret None).

(** The names that have a config file and are not slaves. *)
Definition mac_step (m : string) (names : list string) : M (list string) :=
  h ← has_ifcfg_file m;
  if negb h then ret names else
  oifcfg ← xasprintf (ifcfg_path +:+ "[DEVICE = '" +:+ m +:+ "']");
  ifcfg ← nonnull oifcfg;
  s ← is_slave ifcfg;
  ret (if s =? 0 then names ++ [m] else names).

(** [for (i = 0; i < cnt && i < maxifaces; i++)]: did it come to its end, and
    what the array holds. *)
Fixpoint mac_ifaces (names : list string) (i maxifaces : Z) (ifaces : list (option nat))
  : M (bool * list (option nat)) :=
  match names with
  | [] => ret (true, ifaces)
  | n :: names' =>
      if negb (i <? maxifaces) then ret (true, ifaces) else
      oname ← strdup n;
      match oname with
      | None => set_errcode NETCF_ENOMEM ;; ret (false, ifaces)
      | Some name =>
          nif ← make_netcf_if name;
          let ifaces' := <[Z.to_nat i := nif]> ifaces in
          c ← gets err;
          if decide (c <> NETCF_NOERROR) then ret (false, ifaces')
          else mac_ifaces names' (i + 1) maxifaces ifaces'
      end
  end.

(** The label of [drv_lookup_by_mac_string]. *)
Definition release_ifaces (ifaces : list (option nat)) : M (Z * list (option nat)) :=
  for_each ifaces unref_netcf_if ;; ret (-1, (fun _ => None) <$> ifaces).

Definition drv_lookup_by_mac_string (mac : string) (maxifaces : Z) : M (Z * list (option nat)) :=
  if maxifaces <? 0 then halt (UB "memset of a negative size") else
  let ifaces := replicate (Z.to_nat maxifaces) None in
  on_error
    (get_augeas ;;
     ERR_BAIL ;;
     om ← aug_match_mac mac;
     ERR_BAIL ;;
     let matches := matched om in
     if decide (length matches = O) then ret (0, ifaces) else
     b ← ALLOC_N (length matches);
     ERR_NOMEM (negb b) ;;
     names ← for_acc matches [] mac_step;
     ' (ok, ifaces') ← mac_ifaces names 0 maxifaces ifaces;
     if (ok : bool) then ret (Z.of_nat (length names), ifaces') else release_ifaces ifaces')
    (release_ifaces ifaces).

(** ** XML *)

Definition aug_get_xml_node (tree : option node) (intf m : string) : M unit :=
  n ← xcall (xmlNewChild tree "node");
  xcall (xmlNewProp n "label" (Some (string_drop (String.length intf + 1) m))) ;;
  ' (r, value) ← ask_aug (aug_get m);
  ERR_COND_BAIL (r <? 0) NETCF_EOTHER ;;
  xcall (xmlNewProp n "value" value) ;;
  ret tt.

(** One [<tree>] of [aug_get_xml]. The error test after [aug_fmt_match] looks at
    [nint], but bails out on any recorded error. *)
Definition aug_get_xml_tree (root : option node) (nint : Z) (opath : option string) : M unit :=
  tree ← xcall (xmlNewChild root "tree");
  xcall (xmlNewProp tree "path" opath) ;;
  path ← deref opath;
  m ← aug_fmt_match (path +:+ "/" +:+ "*");
  ERR_COND_BAIL (nint <? 0) NETCF_EOTHER ;;
  for_each (matched m) (aug_get_xml_node tree path).

Definition aug_get_xml (nint : Z) (intf : list (option string)) : M (option doc) :=
  on_error
    (get_augeas ;;
     ERR_BAIL ;;
     result ← xcall xmlNewDoc;
     on_error
       (root ← xcall (xmlNewNode "forest");
        xcall (fun x => (tt, xmlDocSetRootElement result root x)) ;;
        for_each intf (aug_get_xml_tree root nint) ;;
        ret result)
       (free_doc result ;; ret None))
    (ret None).

(** One [<tree>] of [aug_put_xml]. *)
Definition aug_put_tree (tree : node) : M unit :=
  tname ← xget (node_name tree);
  ERR_THROW (STRNEQ tname "tree") NETCF_EINTERNAL
    ("expected node labeled 'tree', not '" +:+ tname +:+ "'") ;;
  opath ← xml_prop tree "path";
  path ← deref opath;
  r ← with_aug (aug_rm path);
  ERR_THROW (r <? 0) NETCF_EINTERNAL ("aug_rm of '" +:+ path +:+ "' failed") ;;
  nodes ← xget (node_children tree);
  for_each nodes (fun n =>
    olabel ← xml_prop n "label";
    value ← xml_prop n "value";
    label ← deref olabel;
    olpath ← xasprintf (path +:+ "/" +:+ label);
    lpath ← nonnull olpath;
    r ← with_aug (aug_set lpath value);
    ERR_THROW (r <? 0) NETCF_EOTHER ("aug_set of '" +:+ lpath +:+ "' failed")).

Definition aug_put_xml (xml : option doc) : M Z :=
  on_error
    (get_augeas ;;
     ERR_BAIL ;;
     oforest ← xget (xmlDocGetRootElement xml);
     ERR_THROW (is_null oforest) NETCF_EINTERNAL "missing root element" ;;
     forest ← nonnull oforest;
     fname ← xget (node_name forest);
     ERR_THROW (STRNEQ fname "forest") NETCF_EINTERNAL
       ("expected root node labeled 'forest', not '" +:+ fname +:+ "'") ;;
     trees ← xget (node_children forest);
     for_each trees aug_put_tree ;;
     ret 0)
    (ret (-1)).

Definition aug_get_xml_for_nif (nif : nat) : M (option doc) :=
  name ← if_name nif;
  on_error
    (m ← aug_fmt_match (ifcfg_path +:+ "[ " +:+ related name +:+ "    or MASTER = ../*[BRIDGE = '"
                          +:+ name +:+ "']/DEVICE ]/DEVICE");
     ERR_BAIL ;;
     ointf ← uniq_ifcfg_paths (matched m);
     ERR_BAIL ;;
     let intf := default [] ointf in
     aug_get_xml (Z.of_nat (length intf)) intf)
    (ret None).

Definition drv_xml_desc (nif : nat) : M (option string) :=
  aug_xml ← aug_get_xml_for_nif nif;
  result ← on_error
    (ERR_BAIL ;;
     d ← the_driver;
     apply_stylesheet_to_string (put d) aug_xml)
    (ret None);
  free_doc aug_xml ;;
  ret result.

(** [fuel]: how deep interfaces may be nested, see [add_type_specific_info]. *)
Definition drv_xml_state (fuel : nat) (nif : nat) : M (option string) :=
  ncf_xml ← xcall xmlNewDoc;
  result ← on_error
    (d ← nonnull ncf_xml;
     oroot ← xcall (xmlNewNode "interface");
     root ← nonnull oroot;
     xcall (fun x => (tt, xmlDocSetRootElement ncf_xml (Some root) x)) ;;
     add_state_to_xml_doc fuel nif d ;;
     ERR_BAIL ;;
     dr ← the_driver;
     ' (r, result) ← xget (xsltSaveResultToString ncf_xml (put dr));
     ERR_NOMEM (r <? 0) ;;
     ret result)
    (ret None);
  free_doc ncf_xml ;;
  ret result.

(** The result and the value of [*flags]; is [flags] non-NULL? *)
Definition drv_if_status (nif : nat) (flags : bool) : M (Z * Z) :=
  on_error
    (ERR_THROW (negb flags) NETCF_EOTHER "NULL pointer for flags in ncf_if_status" ;;
     name ← if_name nif;
     is_active ← if_is_active name;
     ret (0, if (is_active : bool) then Z.lor 0 NETCF_IFACE_ACTIVE
             else Z.lor 0 NETCF_IFACE_INACTIVE))
    (ret (-1, 0)).

(** ** Bonds and bridges *)

(** When the name is missing it is computed for a VLAN, but the property set in
    the document is the still unset result. *)
Definition device_name_from_xml (ncf_xml : option doc) : M (option string) :=
  on_error
    (context ← xget (xmlXPathNewContext ncf_xml);
     ERR_NOMEM (negb context) ;;
     obj ← xget (xpath_string "string(/interface/@name)" ncf_xml);
     stringval ← nonnull obj;
     stringval ←
       (if strlen stringval =? 0 then
          obj ← xget (xpath_string
                  "concat(/interface/vlan/interface/@name, '.', /interface/vlan/@tag)" ncf_xml);
          stringval ← nonnull obj;
          ERR_COND_BAIL (strlen stringval =? 0) NETCF_EINTERNAL ;;
          iface ← xget (xmlDocGetRootElement ncf_xml);
          ERR_COND_BAIL (is_null iface) NETCF_EINTERNAL ;;
          i ← deref iface;
          xcall (xmlSetProp i "name" None) ;;
          ret stringval
        else ret stringval);
     strdup stringval)
    (ret None).

Definition is_bond (name : string) : M bool :=
  m ← aug_fmt_match (ifcfg_path +:+ "[ MASTER = '" +:+ name +:+ "']");
  ret (0 <? nmatches m).

Definition is_bridge (name : string) : M bool :=
  m ← aug_fmt_match (ifcfg_path +:+ "[ DEVICE = '" +:+ name +:+ "' and TYPE = 'Bridge']");
  ret (0 <? nmatches m).

(** The loop of [bridge_slaves]. The copy is not checked: [slaves[i]] is the
    word [i] pointers above the caller's variable, not [( *slaves)[i]]. *)
Fixpoint slaves_loop (i : nat) (paths : list string) : M (list (option string)) :=
  match paths with
  | [] => ret []
  | p :: paths' =>
      ' (r, dev) ← ask_aug (aug_get p);
      ERR_COND_BAIL (r <? 0) NETCF_EOTHER ;;
      dev ← deref dev;
      s ← strdup dev;
      ERR_NOMEM (stack_word_null i) ;;
      rest ← slaves_loop (S i) paths';
      ret (s :: rest)
  end.

Definition bridge_slaves (name : string) : M (option (list (option string))) :=
  on_error
    (get_augeas ;;
     ERR_BAIL ;;
     m ← aug_fmt_match (ifcfg_path +:+ "[ BRIDGE = '" +:+ name +:+ "' ]/DEVICE");
     ERR_BAIL ;;
     slaves ← slaves_loop 0 (matched m);
     ret (Some slaves))
    (ret None).

Definition rm_interface (name : string) : M unit :=
  on_error
    (get_augeas ;;
     ERR_BAIL ;;
     opath ← xasprintf (ifcfg_path +:+ "[ " +:+ related name +:+ "     or MASTER = ../*[BRIDGE = '"
                          +:+ name +:+ "']/DEVICE ]");
     path ← nonnull opath;
     r ← with_aug (aug_rm path);
     ERR_COND_BAIL (r <? 0) NETCF_EOTHER)
    (ret tt).

Definition rm_all_interfaces (ncf_xml : option doc) : M unit :=
  on_error
    (context ← xget (xmlXPathNewContext ncf_xml);
     ERR_NOMEM (negb context) ;;
     obj ← xget (xpath_nodes "//interface[count(parent::vlan) = 0]" ncf_xml);
     ns ← nonnull obj;
     for_each ns (fun n =>
       oname ← xget (xmlGetProp n "name");
       name ← nonnull oname;
       rm_interface name ;;
       ERR_BAIL))
    (ret tt).

Definition setup (alias : bool) (name : string) : M unit :=
  if alias then modprobed_alias_bond name else modprobed_unalias_bond name.

Definition bond_setup (name : string) (alias : bool) : M unit :=
  on_error
    (b ← is_bond name;
     when b (setup alias name ;; ERR_BAIL) ;;
     br ← is_bridge name;
     when br
       (oslaves ← bridge_slaves name;
        ERR_BAIL ;;
        for_each (default [] oslaves) (fun s =>
          slave ← deref s;
          b ← is_bond slave;
          when b (setup alias slave ;; ERR_BAIL))))
    (ret tt).

(** ** Changing the configuration *)

(** [aug_save] *)
Definition save_augeas : M Z :=
  w ← gets world;
  d ← the_driver;
  match augeas d with
  | None => halt (UB "Augeas called with a NULL instance")
  | Some a =>
      let '((r, a'), w') := aug_save w a in
      upd_driver (set_augeas (Some a')) ;;
      modify (set_world w') ;;
      ret r
  end.

(** [drv_define] from the transformed document on. *)
Definition define_aug (name : string) (aug_xml : option doc) : M (option nat) :=
  on_error
    (ERR_BAIL ;;
     aug_put_xml aug_xml ;;
     ERR_BAIL ;;
     bond_setup name true ;;
     ERR_BAIL ;;
     r ← save_augeas;
     dbg ← gets (fun s => debug (ncf s));
     when ((r <? 0) && dbg)
       (printf ("Errors from aug_save:" +:+ nl) ;;
        errors ← ask_aug (aug_print "/augeas//error");
        printf errors) ;;
     ERR_THROW (r <? 0) NETCF_EOTHER "aug_save failed" ;;
     new_nif name)
    (ret None).

Definition drv_define (xml_str : string) : M (option nat) :=
  get_augeas ;;
  on_error
    (ERR_BAIL ;;
     ncf_xml ← parse_xml xml_str;
     ' (result, aug_xml) ← on_error
       (ERR_BAIL ;;
        rng_validate ncf_xml ;;
        ERR_BAIL ;;
        oname ← device_name_from_xml ncf_xml;
        ERR_COND_BAIL (is_null oname) NETCF_EINTERNAL ;;
        name ← deref oname;
        rm_all_interfaces ncf_xml ;;
        ERR_BAIL ;;
        d ← the_driver;
        aug_xml ← apply_stylesheet (get d) ncf_xml;
        result ← define_aug name aug_xml;
        ret (result, aug_xml))
       (ret (None, None));
     free_doc ncf_xml ;;
     free_doc aug_xml ;;
     ret result)
    (ret None).

Definition drv_undefine (nif : nat) : M Z :=
  name ← if_name nif;
  on_error
    (get_augeas ;;
     ERR_BAIL ;;
     bond_setup name false ;;
     ERR_BAIL ;;
     rm_interface name ;;
     ERR_BAIL ;;
     r ← save_augeas;
     ERR_COND_BAIL (r <? 0) NETCF_EOTHER ;;
     ret 0)
    (ret (-1)).

Definition drv_mac_string (nif : nat) : M (option string) :=
  name ← if_name nif;
  on_error
    (' (r, mac) ← aug_get_mac name;
     ERR_THROW (r <? 0) NETCF_EOTHER ("could not lookup MAC of " +:+ name) ;;
     match mac with
     | Some m =>
         i ← the_if nif;
         if decide (nif_mac i = Some m) then ret tt else
         o ← strdup m;
         set_mac nif o ;;
         ERR_NOMEM (is_null o)
     | None => set_mac nif None
     end)
    (ret tt) ;;
  i ← the_if nif;
  ret (nif_mac i).

(** ** Bringing interfaces up and down *)

(** [for (i = 0; i < nslaves; i++) { run1(ncf, prog, slaves[i]); ERR_BAIL(ncf); }] *)
Definition run_slaves (prog name : string) : M unit :=
  oslaves ← bridge_slaves name;
  ERR_BAIL ;;
  for_each (default [] oslaves) (fun s =>
    slave ← deref s;
    run1 prog slave ;;
    ERR_BAIL).

Definition drv_if_up (nif : nat) : M Z :=
  name ← if_name nif;
  on_error
    (br ← is_bridge name;
     when br (run_slaves "ifup" name) ;;
     run1 "ifup" name ;;
     ERR_BAIL ;;
     active ← if_is_active name;
     ERR_THROW (negb active) NETCF_EOTHER
       ("interface " +:+ name +:+ " failed to become active - possible disconnected cable.") ;;
     ret 0)
    (ret (-1)).

Definition drv_if_down (nif : nat) : M Z :=
  name ← if_name nif;
  on_error
    (run1 "ifdown" name ;;
     ERR_BAIL ;;
     br ← is_bridge name;
     when br (run_slaves "ifdown" name) ;;
     ret 0)
    (ret (-1)).

(** ** Transactions *)

Definition drv_change_begin (flags : Z) : M Z := run_transaction NETCF_TRANSACTION flags "change-begin".

Definition drv_change_rollback (flags : Z) : M Z := run_transaction NETCF_TRANSACTION flags "change-rollback".

Definition drv_change_commit (flags : Z) : M Z := run_transaction NETCF_TRANSACTION flags "change-commit".

(** ** Test interface: the result and the string *)

Definition drv_get_aug (ncf_xml : string) : M (Z * option string) :=
  ncf_doc ← parse_xml ncf_xml;
  r ← on_error
    (ERR_BAIL ;;
     rng_validate ncf_doc ;;
     ERR_BAIL ;;
     d ← the_driver;
     aug_xml ← apply_stylesheet_to_string (get d) ncf_doc;
     ERR_BAIL ;;
     ret (0, aug_xml))
    (ret (-1, None));
  free_doc ncf_doc ;;
  ret r.

Definition drv_put_aug (aug_xml : string) : M (Z * option string) :=
  aug_doc ← parse_xml aug_xml;
  r ← on_error
    (ERR_BAIL ;;
     d ← the_driver;
     ncf_xml ← apply_stylesheet_to_string (put d) aug_doc;
     ERR_BAIL ;;
     ret (0, ncf_xml))
    (ret (-1, None));
  free_doc aug_doc ;;
  ret r.
End redhat.

(** The driver, as netcf.c sees it. *)
#[global] Instance redhat_driver `{Augeas, !Kernel, !Netlink, !Libxml, !Posix, !RedhatConfig}
  (fuel : nat) : Driver :=
  {| Netcf.drv_init := drv_init; Netcf.drv_close := drv_close; Netcf.drv_entry := drv_entry;
     Netcf.drv_num_of_interfaces := drv_num_of_interfaces;
     Netcf.drv_list_interfaces := drv_list_interfaces;
     Netcf.drv_lookup_by_name := drv_lookup_by_name;
     Netcf.drv_lookup_by_mac_string := drv_lookup_by_mac_string;
     Netcf.drv_xml_desc := drv_xml_desc; Netcf.drv_xml_state := drv_xml_state fuel;
     Netcf.drv_if_status := drv_if_status; Netcf.drv_change_begin := drv_change_begin;
     Netcf.drv_change_rollback := drv_change_rollback;
     Netcf.drv_change_commit := drv_change_commit; Netcf.drv_mac_string := drv_mac_string;
     Netcf.drv_define := drv_define; Netcf.drv_undefine := drv_undefine;
     Netcf.drv_if_up := drv_if_up; Netcf.drv_if_down := drv_if_down |}.

Section test_interface.
Context `{Augeas, !Kernel, !Netlink, !Libxml, !Posix, !RedhatConfig} (fuel : nat).

Definition ncf_get_aug (ncf_xml : string) : M (Z * option string) :=
  API_ENTRY (H0 := redhat_driver fuel) ;; drv_get_aug ncf_xml.

Definition ncf_put_aug (aug_xml : string) : M (Z * option string) :=
  API_ENTRY (H0 := redhat_driver fuel) ;; drv_put_aug aug_xml.
End test_interface.

(** ** Laws *)

Create HintDb redhat.

(** The shapes that the operations have in every driver over Augeas: a result that
    says failure comes with an error. *)
Ltac post_define_aug :=
  eapply post_on_error with (E := failed); [|by intros ? ?; cbn];
  do 9 (apply post_bind; [fails_auto|intros ?]);
  eapply post_mono; [apply new_nif_post|done|done].

Ltac post_define tail :=
  apply post_bind; [fails_auto|intros _];
  eapply post_on_error with (E := failed); [|by intros ? ?; cbn];
  do 2 (apply post_bind; [fails_auto|intros ?]);
  apply post_bind_dep with (Q1 := fun r s => r.1 = None -> failed s);
  [ eapply post_on_error with (E := failed); [|by intros ? ?; cbn];
    do 10 (apply post_bind; [fails_auto|intros ?]);
    eapply post_bind_dep; [eapply post_mono; [apply tail|done|done]|]; by cbn
  | intros [? ?] ? ?; unfold bind, free_doc, xcall, ret; cbn in *;
    repeat match goal with o : option _ |- _ => destruct o end; cbn; done ].

(** The lookup by MAC address, [n] being the size of the array *)
Ltac post_lookup_mac n Hrel Hmac :=
  destruct (n <? 0); [by intros ?|];
  eapply post_on_error with (E := failed);
  [| let s := fresh "s" in let Hs := fresh in
     intros s Hs; generalize (Hrel (replicate (Z.to_nat n) None) s Hs);
     destruct (release_ifaces _ s) as [[]?]; naive_solver];
  repeat lazymatch goal with
    | |- post _ _ (if decide _ then _ else _) => destruct (decide _); [by apply post_ret|]
    | |- post _ _ (mac_ifaces _ _ _ _ ≫= _) => fail
    | |- post _ _ (_ ≫= _) => apply post_bind; [fails_auto|intros ?]
    end;
  eapply post_bind_dep; [eapply post_mono; [apply Hmac|done|done]|];
  let l := fresh "l" in let s := fresh "s" in let Hs := fresh in
  intros [[] l] s [Hs _]; cbn in *; [lia|];
  generalize (Hrel l s (Hs eq_refl));
  destruct (release_ifaces l s) as [[]?]; naive_solver.

(** A function that looks up the name of the interface first *)
Ltac reports_named :=
  unfold reports; apply post_bind; [fails_auto|intros ?];
  match goal with |- post _ _ ?m => change (reports m) end; fails_auto.

Ltac closed_init Hclose :=
  fails_step; [fails_auto|];
  match goal with |- closed (if ?b then _ else _) => destruct b end; [fails_auto|];
  fails_step; [fails_auto|]; apply closed_on_error_any; intros s;
  let Hc := fresh in pose proof (Hclose s) as Hc; unfold bind;
  match goal with |- context [match ?m with _ => _ end] => by destruct m as [[]?] end.

Section redhat_laws.
Context `{Augeas, !Kernel, !Netlink, !Libxml, !Posix, !RedhatConfig}.

Lemma is_slave_steady i : pres steady (is_slave i).
Proof. unfold is_slave. induction subif_paths; cbn [is_slave_loop]; pres_auto. Qed.
Lemma closed_is_slave i : closed (is_slave i).
Proof. unfold is_slave. induction subif_paths; cbn [is_slave_loop]; fails_auto. Qed.
Lemma has_ifcfg_file_steady n : pres steady (has_ifcfg_file n).
Proof. unfold has_ifcfg_file. pres_auto. Qed.
Lemma closed_has_ifcfg_file n : closed (has_ifcfg_file n).
Proof. unfold has_ifcfg_file. fails_auto. Qed.
Lemma find_ifcfg_path_by_hwaddr_steady m : pres steady (find_ifcfg_path_by_hwaddr m).
Proof. unfold find_ifcfg_path_by_hwaddr, hwaddr_step. pres_auto. Qed.
Lemma closed_find_ifcfg_path_by_hwaddr m : closed (find_ifcfg_path_by_hwaddr m).
Proof. unfold find_ifcfg_path_by_hwaddr, hwaddr_step. fails_auto. Qed.
Lemma find_ifcfg_path_by_device_steady n : pres steady (find_ifcfg_path_by_device n).
Proof. unfold find_ifcfg_path_by_device. pres_auto. Qed.
Lemma closed_find_ifcfg_path_by_device n : closed (find_ifcfg_path_by_device n).
Proof. unfold find_ifcfg_path_by_device. fails_auto. Qed.
Hint Resolve is_slave_steady has_ifcfg_file_steady find_ifcfg_path_by_hwaddr_steady
  find_ifcfg_path_by_device_steady : pres.
Hint Resolve closed_is_slave closed_has_ifcfg_file closed_find_ifcfg_path_by_hwaddr
  closed_find_ifcfg_path_by_device : fails.
Lemma find_ifcfg_path_steady n : pres steady (find_ifcfg_path n).
Proof. unfold find_ifcfg_path. pres_auto. Qed.
Lemma closed_find_ifcfg_path n : closed (find_ifcfg_path n).
Proof. unfold find_ifcfg_path. fails_auto. Qed.
Hint Resolve find_ifcfg_path_steady : pres.
Hint Resolve closed_find_ifcfg_path : fails.
Lemma uniq_ifcfg_paths_steady l : pres steady (uniq_ifcfg_paths l).
Proof. unfold uniq_ifcfg_paths, devname_step. pres_auto. Qed.
Lemma closed_uniq_ifcfg_paths l : closed (uniq_ifcfg_paths l).
Proof. unfold uniq_ifcfg_paths, devname_step. fails_auto. Qed.
Hint Resolve uniq_ifcfg_paths_steady : pres.
Hint Resolve closed_uniq_ifcfg_paths : fails.
Lemma drop_slaves_steady k i r l : pres steady (drop_slaves k i r l).
Proof.
  revert i r l. induction k as [|k IH]; intros i r l; cbn [drop_slaves]; [pres_auto|].
  destruct (decide _); [pres_auto|]. pres_step; [pres_auto|]. pres_step; [pres_auto|].
  destruct (negb _); apply IH.
Qed.
Lemma closed_drop_slaves k i r l : closed (drop_slaves k i r l).
Proof.
  revert i r l. induction k as [|k IH]; intros i r l; cbn [drop_slaves]; [fails_auto|].
  destruct (decide _); [fails_auto|]. fails_step; [fails_auto|]. fails_step; [fails_auto|].
  destruct (negb _); apply IH.
Qed.
Hint Resolve drop_slaves_steady : pres.
Hint Resolve closed_drop_slaves : fails.
Lemma list_interfaces_steady : pres steady list_interfaces.
Proof. unfold list_interfaces, list_ifcfg_paths. pres_auto. Qed.
Lemma closed_list_interfaces : closed list_interfaces.
Proof. unfold list_interfaces, list_ifcfg_paths. fails_auto. Qed.
Hint Resolve list_interfaces_steady : pres.
Hint Resolve closed_list_interfaces : fails.
Lemma id_step_steady f a p : pres steady (id_step f a p).
Proof. unfold id_step. pres_auto. Qed.
Lemma fails_id_step f a p : fails (id_step f a p).
Proof. unfold id_step. fails_auto. Qed.
Hint Resolve id_step_steady : pres.
Hint Resolve fails_id_step : fails.
Lemma ids_loop_steady f a l m q ns : pres steady (ids_loop f a l m q ns).
Proof.
  revert q ns. induction l as [|p l IH]; intros q ns; cbn [ids_loop]; pres_auto.
Qed.
Hint Resolve ids_loop_steady : pres.
Lemma list_interface_ids_steady m ns f a : pres steady (list_interface_ids m ns f a).
Proof. unfold list_interface_ids. pres_auto. Qed.
Hint Resolve list_interface_ids_steady : pres.

Lemma ids_loop_post f a l m q ns : 0 <= q ->
  post (ids_result ns) (fun _ => False) (ids_loop f a l m q ns).
Proof.
  revert q ns. induction l as [|p l IH]; intros q ns Hq; cbn [ids_loop];
    [apply post_ret; intros s; split; cbn; [lia|done]|].
  destruct (negb (q <? m)); [apply post_ret; intros s; split; cbn; [lia|done]|].
  apply post_bind_dep with (Q1 := fun r s => r = None -> failed s).
  { eapply post_on_error with (E := failed); [|by intros s Hs; cbn].
    apply post_bind; [apply fails_id_step|intros x; by apply post_ret]. }
  intros r s Hr. destruct r as [[name|]|]; [|by apply IH|by split; [intros _; apply Hr|]].
  destruct ns as [l'|]; [|by apply IH; lia].
  revert s Hr. intros s _. unfold bind at 1. destruct name as [n|]; [|done]. cbn [deref ret].
  unfold strdup, malloc, bind.
  destruct (mem s) as [|[] ?]; cbn -[ids_loop].
  - pose proof (IH (q + 1) (Some (<[Z.to_nat q := Some n]> l')) ltac:(lia) s) as Hp.
    unfold ids_result in *. cbn in *. rewrite length_insert in Hp.
    by destruct (ids_loop f a l m (q + 1) _ s) as [[]?].
  - match goal with |- context [ids_loop f a l m (q + 1) _ ?s1] =>
      pose proof (IH (q + 1) (Some (<[Z.to_nat q := Some n]> l')) ltac:(lia) s1) as Hp end.
    unfold ids_result in *. cbn in *. rewrite length_insert in Hp.
    by destruct (ids_loop f a l m (q + 1) _ _) as [[]?].
  - cbn. split; [done|]. cbn. by rewrite length_insert.
Qed.

Lemma list_interface_ids_post m ns f a :
  post (ids_result ns) (fun _ => False) (list_interface_ids m ns f a).
Proof.
  unfold list_interface_ids. eapply post_on_error with (E := failed); [|by intros s Hs; cbn].
  apply post_bind; [fails_auto|intros _]. apply post_bind; [fails_auto|intros _].
  apply post_bind; [fails_auto|intros o]. apply post_bind; [fails_auto|intros _].
  eapply post_mono; [by apply ids_loop_post|done|done].
Qed.

Lemma drv_lookup_by_name_grows n : pres grows (drv_lookup_by_name n).
Proof. unfold drv_lookup_by_name. pres_auto. Qed.
Lemma closed_drv_lookup_by_name n : closed (drv_lookup_by_name n).
Proof. unfold drv_lookup_by_name. fails_auto. Qed.

Lemma mac_step_steady m l : pres steady (mac_step m l).
Proof. unfold mac_step. pres_auto. Qed.
Lemma fails_mac_step m l : fails (mac_step m l).
Proof. unfold mac_step. fails_auto. Qed.
Hint Resolve mac_step_steady : pres.
Hint Resolve fails_mac_step : fails.

Lemma mac_ifaces_grows names i m l : pres grows (mac_ifaces names i m l).
Proof.
  revert i l. induction names as [|n names IH]; intros i l; cbn [mac_ifaces]; pres_auto.
Qed.
Lemma mac_ifaces_post names i m l :
  post (fun r s => (r.1 = false -> failed s) /\ length r.2 = length l) (fun _ => False)
    (mac_ifaces names i m l).
Proof.
  revert i l. induction names as [|n names IH]; intros i l; cbn [mac_ifaces];
    [by apply post_ret|].
  destruct (negb (i <? m)); [by apply post_ret|]. apply post_bind; [fails_auto|intros [name|]]; [|by intros s].
  eapply post_bind_dep; [apply make_netcf_if_post|]. intros nif s Hn. unfold bind, gets.
  destruct (decide (err s <> NETCF_NOERROR)) as [Hf|Hf]; cbn -[mac_ifaces].
  - split; [done|]. by rewrite length_insert.
  - specialize (IH (i + 1) (<[Z.to_nat i := nif]> l) s). rewrite length_insert in IH. exact IH.
Qed.
Hint Resolve mac_ifaces_grows : pres.

Lemma release_ifaces_grows l : pres grows (release_ifaces l).
Proof. unfold release_ifaces. pres_auto. Qed.
Lemma release_ifaces_post l : forall s, failed s ->
  match release_ifaces l s with
  | (Ret r, s') => (r.1 < 0 -> failed s') /\ length r.2 = length l
  | (Bail, _) => False
  | (Stop _, _) => True
  end.
Proof.
  intros s Hs. unfold release_ifaces, bind.
  assert (closed (for_each l unref_netcf_if)) as Hc by fails_auto.
  assert (pres err_keep (for_each l unref_netcf_if)) as Hk by pres_auto.
  specialize (Hc s). destruct (Hk s) as [_ Hf].
  destruct (for_each l unref_netcf_if s) as [[]?]; cbn in *; [|done|done].
  split; [auto|]. by rewrite length_fmap.
Qed.
Hint Resolve release_ifaces_grows : pres.

Lemma drv_lookup_by_mac_string_grows mac n : pres grows (drv_lookup_by_mac_string mac n).
Proof. unfold drv_lookup_by_mac_string. pres_auto. Qed.
Lemma drv_lookup_by_mac_string_post mac n :
  post (fun r s => r.1 < 0 -> failed s) (fun _ => False) (drv_lookup_by_mac_string mac n).
Proof. unfold drv_lookup_by_mac_string. post_lookup_mac n release_ifaces_post mac_ifaces_post. Qed.

Lemma aug_get_xml_steady n l : pres steady (aug_get_xml n l).
Proof. unfold aug_get_xml, aug_get_xml_tree, aug_get_xml_node. pres_auto. Qed.
Lemma closed_aug_get_xml n l : closed (aug_get_xml n l).
Proof. unfold aug_get_xml, aug_get_xml_tree, aug_get_xml_node. fails_auto. Qed.
Hint Resolve aug_get_xml_steady : pres.
Hint Resolve closed_aug_get_xml : fails.
Lemma aug_put_xml_steady d : pres steady (aug_put_xml d).
Proof. unfold aug_put_xml, aug_put_tree. pres_auto. Qed.
Lemma aug_put_xml_reports d : reports (aug_put_xml d).
Proof. unfold aug_put_xml, aug_put_tree. fails_auto. Qed.
Lemma aug_get_xml_for_nif_steady p : pres steady (aug_get_xml_for_nif p).
Proof. unfold aug_get_xml_for_nif. pres_auto. Qed.
Lemma closed_aug_get_xml_for_nif p : closed (aug_get_xml_for_nif p).
Proof. unfold aug_get_xml_for_nif. fails_auto. Qed.
Hint Resolve aug_get_xml_for_nif_steady : pres.
Hint Resolve closed_aug_get_xml_for_nif : fails.
Lemma drv_xml_desc_steady p : pres steady (drv_xml_desc p).
Proof. unfold drv_xml_desc. pres_auto. Qed.
Lemma closed_drv_xml_desc p : closed (drv_xml_desc p).
Proof. unfold drv_xml_desc. fails_auto. Qed.
Lemma drv_xml_state_steady k p : pres steady (drv_xml_state k p).
Proof. unfold drv_xml_state. pres_auto. Qed.
Lemma closed_drv_xml_state k p : closed (drv_xml_state k p).
Proof. unfold drv_xml_state. fails_auto. Qed.
Lemma drv_if_status_steady p b : pres steady (drv_if_status p b).
Proof. unfold drv_if_status. pres_auto. Qed.
Lemma drv_if_status_post p b :
  post (fun r s => r.1 < 0 -> failed s) (fun _ => False) (drv_if_status p b).
Proof.
  unfold drv_if_status. eapply post_on_error with (E := failed); [|by intros s Hs; cbn].
  do 3 (apply post_bind; [fails_auto|intros ?]). apply post_ret. cbn. intros; lia.
Qed.

Lemma device_name_from_xml_steady d : pres steady (device_name_from_xml d).
Proof. unfold device_name_from_xml. pres_auto. Qed.
Lemma closed_device_name_from_xml d : closed (device_name_from_xml d).
Proof. unfold device_name_from_xml. fails_auto. Qed.
Lemma is_bond_steady n : pres steady (is_bond n).
Proof. unfold is_bond. pres_auto. Qed.
Lemma closed_is_bond n : closed (is_bond n).
Proof. unfold is_bond. fails_auto. Qed.
Lemma is_bridge_steady n : pres steady (is_bridge n).
Proof. unfold is_bridge. pres_auto. Qed.
Lemma closed_is_bridge n : closed (is_bridge n).
Proof. unfold is_bridge. fails_auto. Qed.
Lemma slaves_loop_steady i l : pres steady (slaves_loop i l).
Proof. revert i. induction l as [|p l IH]; intros i; cbn [slaves_loop]; pres_auto. Qed.
Lemma fails_slaves_loop i l : fails (slaves_loop i l).
Proof. revert i. induction l as [|p l IH]; intros i; cbn [slaves_loop]; fails_auto. Qed.
Hint Resolve slaves_loop_steady is_bond_steady is_bridge_steady : pres.
Hint Resolve fails_slaves_loop closed_is_bond closed_is_bridge : fails.
Lemma bridge_slaves_steady n : pres steady (bridge_slaves n).
Proof. unfold bridge_slaves. pres_auto. Qed.
Lemma closed_bridge_slaves n : closed (bridge_slaves n).
Proof. unfold bridge_slaves. fails_auto. Qed.
Hint Resolve bridge_slaves_steady : pres.
Hint Resolve closed_bridge_slaves : fails.
Lemma rm_interface_steady n : pres steady (rm_interface n).
Proof. unfold rm_interface. pres_auto. Qed.
Lemma closed_rm_interface n : closed (rm_interface n).
Proof. unfold rm_interface. fails_auto. Qed.
Hint Resolve rm_interface_steady : pres.
Hint Resolve closed_rm_interface : fails.
Lemma rm_all_interfaces_steady d : pres steady (rm_all_interfaces d).
Proof. unfold rm_all_interfaces. pres_auto. Qed.
Lemma closed_rm_all_interfaces d : closed (rm_all_interfaces d).
Proof. unfold rm_all_interfaces. fails_auto. Qed.
Lemma bond_setup_steady n b : pres steady (bond_setup n b).
Proof. unfold bond_setup, setup. pres_auto. Qed.
Lemma closed_bond_setup n b : closed (bond_setup n b).
Proof. unfold bond_setup, setup. fails_auto. Qed.
Lemma save_augeas_steady : pres steady save_augeas.
Proof. unfold save_augeas. pres_auto. Qed.
Lemma closed_save_augeas : closed save_augeas.
Proof. unfold save_augeas. fails_auto. Qed.
Hint Resolve device_name_from_xml_steady rm_all_interfaces_steady bond_setup_steady
  save_augeas_steady aug_put_xml_steady : pres.
Hint Resolve closed_device_name_from_xml closed_rm_all_interfaces closed_bond_setup
  closed_save_augeas aug_put_xml_reports : fails.

Lemma define_aug_grows n d : pres grows (define_aug n d).
Proof. unfold define_aug. pres_auto. Qed.
Lemma define_aug_post n d : post (fun r s => r = None -> failed s) (fun _ => False) (define_aug n d).
Proof. unfold define_aug. post_define_aug. Qed.
Hint Resolve define_aug_grows : pres.

Lemma drv_define_grows x : pres grows (drv_define x).
Proof. unfold drv_define. pres_auto. Qed.

(** Releasing documents does not forget an error. *)
Lemma free_doc_failed d s : failed s ->
  match free_doc d s with (Ret _, s') => failed s' | (Bail, _) => False | _ => True end.
Proof. intros Hs. unfold free_doc, ret, xcall. destruct d; cbn; done. Qed.

Lemma drv_define_post x : post (fun r s => r = None -> failed s) (fun _ => False) (drv_define x).
Proof. unfold drv_define. post_define define_aug_post. Qed.

Lemma drv_undefine_steady p : pres steady (drv_undefine p).
Proof. unfold drv_undefine. pres_auto. Qed.
Lemma drv_undefine_reports p : reports (drv_undefine p).
Proof. unfold drv_undefine. reports_named. Qed.
Lemma drv_mac_string_grows p : pres grows (drv_mac_string p).
Proof. unfold drv_mac_string. pres_auto. Qed.
Lemma closed_drv_mac_string p : closed (drv_mac_string p).
Proof. unfold drv_mac_string. fails_auto. Qed.
Lemma run_slaves_steady g n : pres steady (run_slaves g n).
Proof. unfold run_slaves. pres_auto. Qed.
Lemma fails_run_slaves g n : fails (run_slaves g n).
Proof. unfold run_slaves. fails_auto. Qed.
Hint Resolve run_slaves_steady : pres.
Hint Resolve fails_run_slaves : fails.
Lemma drv_if_up_steady p : pres steady (drv_if_up p).
Proof. unfold drv_if_up. pres_auto. Qed.
Lemma drv_if_up_reports p : reports (drv_if_up p).
Proof. unfold drv_if_up. reports_named. Qed.
Lemma drv_if_down_steady p : pres steady (drv_if_down p).
Proof. unfold drv_if_down. pres_auto. Qed.
Lemma drv_if_down_reports p : reports (drv_if_down p).
Proof. unfold drv_if_down. reports_named. Qed.
Lemma drv_change_begin_steady f : pres steady (drv_change_begin f).
Proof. unfold drv_change_begin. pres_auto. Qed.
Lemma drv_change_begin_reports f : reports (drv_change_begin f).
Proof. unfold drv_change_begin. fails_auto. Qed.
Lemma drv_change_rollback_steady f : pres steady (drv_change_rollback f).
Proof. unfold drv_change_rollback. pres_auto. Qed.
Lemma drv_change_rollback_reports f : reports (drv_change_rollback f).
Proof. unfold drv_change_rollback. fails_auto. Qed.
Lemma drv_change_commit_steady f : pres steady (drv_change_commit f).
Proof. unfold drv_change_commit. pres_auto. Qed.
Lemma drv_change_commit_reports f : reports (drv_change_commit f).
Proof. unfold drv_change_commit. fails_auto. Qed.
Lemma drv_entry_keeps : pres steady drv_entry.
Proof. unfold drv_entry. pres_auto. Qed.
Lemma drv_close_keeps : pres steady drv_close.
Proof. unfold drv_close, close_fd. pres_auto. Qed.
Lemma closed_drv_close : closed drv_close.
Proof. unfold drv_close. fails_auto. Qed.
Lemma drv_init_steady : pres steady drv_init.
Proof. pose proof drv_close_keeps. unfold drv_init. pres_auto. Qed.
Lemma closed_drv_init : closed drv_init.
Proof. unfold drv_init. closed_init closed_drv_close. Qed.

(** Closing and entering cannot go wrong. *)
Definition driven (s : state) : Prop := is_Some (ncf_driver (ncf s)).

Lemma syscall_driven {A} (f : sys -> A * sys) E :
  hoare driven (syscall f) (fun _ => driven) E.
Proof. intros s Hs. unfold syscall, bind, gets. by destruct (f (world s)). Qed.

Lemma upd_driver_driven f E : hoare driven (upd_driver f) (fun _ => driven) E.
Proof. intros s [d Hd]. rewrite (upd_driver_run f s d Hd). by eexists. Qed.

Lemma hoare_driven_when (b : bool) (m : M unit) E :
  hoare driven m (fun _ => driven) E -> hoare driven (when b m) (fun _ => driven) E.
Proof. intros Hm. apply hoare_when; [done|by intros _]. Qed.

Lemma the_driver_driven {B} (k : driver -> M B) Q E :
  (forall d, hoare driven (k d) Q E) -> hoare driven (the_driver ≫= k) Q E.
Proof.
  intros Hk s [d Hd]. rewrite (bind_Ret _ _ _ _ _ (the_driver_run s d Hd)). apply Hk. by eexists.
Qed.

Lemma netlink_close_driven E : hoare driven netlink_close (fun _ => driven) E.
Proof.
  unfold netlink_close. apply the_driver_driven. intros d.
  do 3 (eapply hoare_bind; [apply hoare_driven_when;
    (eapply hoare_bind; [apply syscall_driven|intros ?; apply upd_driver_driven])|intros []]).
  by apply hoare_ret.
Qed.

Lemma drv_close_runs s : exists s', drv_close s = (Ret tt, s').
Proof.
  unfold drv_close, bind at 1, gets. destruct (ncf_driver (ncf s)) as [d|] eqn:Hd; [|by eexists].
  pose proof (netlink_close_driven (fun _ => False) s ltac:(by eexists)) as Hn.
  unfold bind at 1. destruct (netlink_close s) as [[]s1]; [|done|done]. clear s Hd.
  unfold bind. destruct (0 <=? ioctl_fd d); cbn [when]; [|by eexists].
  unfold close_fd, syscall, bind, gets. by eexists.
Qed.

Lemma drv_entry_runs s : is_Some (ncf_driver (ncf s)) ->
  exists s', drv_entry s = (Ret tt, s') /\ err s' = err s.
Proof.
  intros [d Hd]. eexists. unfold drv_entry. by rewrite (upd_driver_run _ s d Hd).
Qed.

Lemma drv_num_of_interfaces_steady f : pres steady (drv_num_of_interfaces f).
Proof. pose proof list_interface_ids_steady. unfold drv_num_of_interfaces. pres_auto. Qed.
Lemma drv_num_of_interfaces_reports f : reports (drv_num_of_interfaces f).
Proof. unfold drv_num_of_interfaces. reports_ids list_interface_ids_post. Qed.
Lemma drv_list_interfaces_steady n f : pres steady (drv_list_interfaces n f).
Proof. pose proof list_interface_ids_steady. unfold drv_list_interfaces. pres_auto. Qed.
Lemma drv_list_interfaces_post n f :
  post (fun r s => (r.1 < 0 -> failed s) /\ length r.2 = Z.to_nat n) (fun _ => False)
    (drv_list_interfaces n f).
Proof. unfold drv_list_interfaces. post_list list_interface_ids_post. Qed.
End redhat_laws.

#[export] Hint Resolve is_slave_steady has_ifcfg_file_steady
  find_ifcfg_path_steady uniq_ifcfg_paths_steady list_interfaces_steady mac_step_steady
  mac_ifaces_grows release_ifaces_grows bridge_slaves_steady rm_interface_steady
  run_slaves_steady : pres.

#[export] Hint Resolve drv_num_of_interfaces_steady drv_list_interfaces_steady
  drv_lookup_by_name_grows drv_lookup_by_mac_string_grows drv_xml_desc_steady
  drv_xml_state_steady drv_if_status_steady drv_change_begin_steady drv_change_rollback_steady
  drv_change_commit_steady drv_mac_string_grows drv_define_grows drv_undefine_steady
  drv_if_up_steady drv_if_down_steady drv_init_steady drv_close_keeps drv_entry_keeps : redhat.
#[export] Hint Resolve drv_num_of_interfaces_reports drv_list_interfaces_post
  closed_drv_lookup_by_name drv_lookup_by_mac_string_post closed_drv_xml_desc
  closed_drv_xml_state drv_if_status_post drv_change_begin_reports drv_change_rollback_reports
  drv_change_commit_reports closed_drv_mac_string drv_define_post drv_undefine_reports
  drv_if_up_reports drv_if_down_reports closed_drv_init : redhat.

(** The driver keeps every promise netcf.c relies on. *)
#[global] Instance redhat_laws `{Augeas, !Kernel, !Netlink, !Libxml, !Posix, !RedhatConfig}
  (fuel : nat) : DriverLaws (H0 := redhat_driver fuel).
Proof.
  split; cbn [Netcf.drv_init Netcf.drv_close Netcf.drv_entry Netcf.drv_num_of_interfaces
    Netcf.drv_list_interfaces Netcf.drv_lookup_by_name Netcf.drv_lookup_by_mac_string
    Netcf.drv_xml_desc Netcf.drv_xml_state Netcf.drv_if_status Netcf.drv_change_begin
    Netcf.drv_change_rollback Netcf.drv_change_commit Netcf.drv_mac_string Netcf.drv_define
    Netcf.drv_undefine Netcf.drv_if_up Netcf.drv_if_down redhat_driver]; intros;
    first [apply drv_close_runs | by apply drv_entry_runs
          | solve [eauto 4 with redhat pres] | split; eauto 4 with redhat pres].
Qed.

(** ** Properties *)

(** C4: the driver keeps what netcf.c relies on: initialisation and every
    operation respect the error discipline and the reference counts, a failing
    result comes with an error, closing and entering always come back, and a
    listing never writes outside the caller's array. *)
Theorem redhat_refines_driver `{Augeas, !Kernel, !Netlink, !Libxml, !Posix, !RedhatConfig}
  (fuel : nat) : DriverLaws (H0 := redhat_driver fuel).
Proof. apply redhat_laws. Qed.

(** A configuration for the witnesses. *)
#[global] Instance toy_config : RedhatConfig :=
  {| NETCF_TRANSACTION := "/usr/libexec/netcf-transaction.sh"; stack_word_null := fun _ => false |}.
