(* ===== verification/Live.v ===== *)
(** * The description of a live interface

    [drv_xml_state] describes an interface as the kernel has it: its type, the
    interfaces below it, its addresses. Here: a reference function that computes the
    description as a tree from what the kernel's files and netlink answer
    ([describe], [live_tree]), and that the code of dutil_linux.c and drv_redhat.c
    makes a document which is this tree. *)

From S2P Require Import Prelude CStr XsltExt State Refs Toy Posix Xml XmlTree Netcf Linux Common Redhat.

(** ** The reference *)

Section reference.
Context `{Kernel, !Netlink} (w : sys).

(** The type of an interface *)
Definition kind (intf : string) : netcf_if_type_t :=
  match stat ("/proc/net/vlan/" +:+ intf) w, stat ("/sys/class/net/" +:+ intf +:+ "/bridge") w,
        stat ("/sys/class/net/" +:+ intf +:+ "/bonding") w with
  | Some S_IFREG, _, _ => NETCF_IFACE_TYPE_VLAN
  | _, Some S_IFDIR, _ => NETCF_IFACE_TYPE_BRIDGE
  | _, _, Some S_IFDIR => NETCF_IFACE_TYPE_BOND
  | _, _, _ => NETCF_IFACE_TYPE_ETHERNET
  end.

(** The address of a link that has one *)
Definition mac_of (l : link) : option string :=
  match rtnl_link_get_addr l with
  | Some m => if nl_addr_iszero l then None else Some m
  | None => None
  end.

(** The name of the device under a link that is a VLAN *)
Definition device_under (l : link) : option string :=
  match rtnl_link_get_type l with
  | Some t =>
      if STRNEQ t "vlan" then None else
      if decide (rtnl_link_get_link l = RTNL_LINK_NOT_FOUND) then None else
      match rtnl_link_get (rtnl_link_get_link l) w with Some ml => rtnl_link_get_name ml | None => None end
  | None => None
  end.

(** The links with the index [i], of which there are none when [i] says so *)
Definition links_at (i : Z) : list link :=
  if decide (i = RTNL_LINK_NOT_FOUND) then [] else nl_links_of i w.

Definition is_slave_of (i : Z) (l : link) : bool :=
  negb ((Z.land (rtnl_link_get_flags l) IFF_SLAVE =? 0) || negb (rtnl_link_get_master l =? i)).

Definition slaves_of (i : Z) : list link :=
  if decide (i = RTNL_LINK_NOT_FOUND) then [] else List.filter (is_slave_of i) (nl_links w).

Definition mac_trees (i : Z) : list xtree :=
  match omap mac_of (links_at i) with m :: _ => [Elem "mac" (<["address" := m]> ∅) []] | [] => [] end.

Section level.
Context (below : string -> Z -> option xtree).

Definition vlan_trees (i : Z) : option (list xtree) :=
  match omap (fun l => pair l <$> device_under l) (links_at i) with
  | [] => Some []
  | (l, n) :: _ =>
      if decide (rtnl_link_name2i n w = RTNL_LINK_NOT_FOUND) then None else
      (fun t => [Elem "vlan" (<["tag" := fmt_d (rtnl_link_vlan_get_id l)]> ∅) [t]])
        <$> below n (rtnl_link_name2i n w)
  end.

Definition bridge_trees (name : string) : option (list xtree) :=
  (fun ts => [Elem "bridge" ∅ ts]) <$> mapM (fun p => below p (rtnl_link_name2i p w)) (ports w name).

(** A bond without slaves has no element. *)
Definition bond_trees (i : Z) : option (list xtree) :=
  (fun ts => match ts with [] => [] | _ => [Elem "bond" ∅ ts] end)
    <$> mapM (fun l => match rtnl_link_get_name l with
                       | Some n => below n (rtnl_link_get_ifindex l)
                       | None => None
                       end) (slaves_of i).
End level.

(** What [add_type_specific_info] adds to an element [<interface>], for interfaces that
    are nested at most [fuel] deep. There is none when a link has no name or the device
    under a VLAN no index. *)
Fixpoint describe (fuel : nat) (name : string) (i : Z) : option xtree :=
  match fuel with
  | O => None
  | S fuel' =>
      Elem "interface" (<["type" := default "" (if_type_str (kind name))]> (<["name" := name]> ∅))
        <$> match kind name with
            | NETCF_IFACE_TYPE_ETHERNET => Some (mac_trees i)
            | NETCF_IFACE_TYPE_BRIDGE => bridge_trees (describe fuel') name
            | NETCF_IFACE_TYPE_VLAN => vlan_trees (describe fuel') i
            | NETCF_IFACE_TYPE_BOND => bond_trees (describe fuel') i
            | NETCF_IFACE_TYPE_NONE => Some []
            end
  end.
End reference.

(** There is a description when interfaces are layered, slaves have names and the devices
    under VLANs an index. *)
Section defined.
Context `{Kernel, !Netlink} (w : sys) (rank : option string -> Z -> nat) (Hrank : layered w rank).
Context (Hnamed : forall l, l ∈ nl_links w -> is_Some (rtnl_link_get_name l)).
Context (Hindexed : forall l n, device_under w l = Some n -> rtnl_link_name2i n w <> RTNL_LINK_NOT_FOUND).

Lemma device_under_spec l n : device_under w l = Some n ->
  rtnl_link_get_type l = Some "vlan" /\
  exists ml, rtnl_link_get (rtnl_link_get_link l) w = Some ml /\ rtnl_link_get_name ml = Some n.
Proof.
  unfold device_under. destruct (rtnl_link_get_type l) as [t|]; [|done].
  destruct (STRNEQ t "vlan") eqn:Ht; [done|]. apply STREQ_STRNEQ in Ht as ->. case_decide; [done|].
  destruct (rtnl_link_get _ w) as [ml|]; [|done]. eauto.
Qed.

Lemma describe_defined fuel name i : (rank (Some name) i < fuel)%nat -> is_Some (describe w fuel name i).
Proof.
  revert name i. induction fuel as [|fuel IH]; intros name i Hlt; [lia|]. cbn [describe].
  apply fmap_is_Some. destruct (kind w name); [by eexists|by eexists|..].
  - unfold bond_trees. apply fmap_is_Some, mapM_is_Some, Forall_forall. intros l Hl. unfold slaves_of in Hl.
    case_decide; [by apply elem_of_nil in Hl|]. apply list_elem_of_In, filter_In in Hl as [Hl%list_elem_of_In Hs].
    apply negb_true_iff, orb_false_iff in Hs as [Hf Hm%negb_false_iff].
    pose proof (rank_slave w rank Hrank (Some name) i l Hl Hf Hm) as Hr.
    destruct (Hnamed l Hl) as [n Hn]. cbn. rewrite Hn in *. apply IH. lia.
  - unfold bridge_trees. apply fmap_is_Some, mapM_is_Some, Forall_forall. intros p Hp. apply IH.
    pose proof (rank_port w rank Hrank name i p Hp). lia.
  - unfold vlan_trees, links_at. case_decide; [by eexists|].
    destruct (omap _ _) as [|[l n] rest] eqn:E; [by eexists|].
    assert (Hin : (l, n) ∈ omap (fun l => pair l <$> device_under w l) (nl_links_of i w)) by (rewrite E; by left).
    apply list_elem_of_omap in Hin as (l' & Hl & (n' & Hn & [= -> ->])%fmap_Some).
    rewrite decide_False by (by eapply Hindexed). apply fmap_is_Some, IH.
    destruct (device_under_spec _ _ Hn) as (Ht & ml & Hml & Hname).
    pose proof (rank_master w rank Hrank (Some name) i _ ml n' Hl Hml Hname Ht). lia.
Qed.
End defined.

(** ** The code *)

Section code.
Context `{Kernel, !Netlink, !Libxml, !XmlBuild _} (w : sys).

(** There is memory, no error, and the world is [w]. *)
Record quiet (s : state) : Prop := {
  q_mem : mem s = [];
  q_ok : err s = NETCF_NOERROR;
  q_world : world s = w
}.

Lemma quiet_xml s x : quiet s -> quiet (set_xml x s).
Proof. by intros []. Qed.

Lemma set_prop_run n k v s : alive n (xml s) ->
  exists x', set_prop n k v s = (Ret tt, set_xml x' s) /\ prop_put alive n k v (xml s) x'.
Proof.
  intros Hn. destruct (setprop_law n k v (xml s) Hn) as (x' & Hput & Hp). exists x'. split; [|done].
  unfold set_prop. by rewrite (bind_Ret _ _ _ _ _ (xcall_run _ s _ _ Hput)).
Qed.

Lemma xml_node_run dd p name s :
  alive p (xml s) -> name ∈ element_names -> find_child (node_children p (xml s)) name (xml s) = None ->
  exists n x', xml_node dd p name s = (Ret (Some n), set_xml x' s) /\ child_added alive p name n (xml s) x'.
Proof.
  intros Hp Hname Hnone. destruct (xml_new_node_run dd p name s Hp Hname) as (n & x' & Hrun & Hc).
  exists n, x'. split; [|done]. unfold xml_node. rewrite (bind_Ret (xget _) _ s None s); [done|].
  unfold xget, gets. by rewrite Hnone.
Qed.

Lemma if_type_run name s : quiet s -> if_type name s = (Ret (kind w name), s).
Proof. intros [Hm _ <-]. exact (proj1 (if_type_spec name s Hm)). Qed.

Lemma if_type_str_kind name : if_type_str (kind w name) = Some (default "" (if_type_str (kind w name))).
Proof. destruct (kind w name) eqn:E; try done. unfold kind in E. by repeat case_match. Qed.

Lemma for_ports_run l acc s : mem s = [] ->
  for_acc l acc port_step s = (Ret (acc ++ filter (fun x => STRNEQ x "." && STRNEQ x "..") l), s).
Proof.
  intros Hm. revert acc. induction l as [|y l IH]; intros acc; [by rewrite app_nil_r|]. cbn [for_acc].
  assert (Hy : port_step y acc s = (Ret (acc ++ (if STRNEQ y "." && STRNEQ y ".." then [y] else [])), s)).
  { unfold port_step. destruct (STRNEQ y "." && STRNEQ y ".."); [|by rewrite app_nil_r].
    unfold xasprintf, strdup, malloc, bind. rewrite Hm. cbn. by rewrite Hm. }
  rewrite (bind_Ret _ _ _ _ _ Hy), IH, <- app_assoc. rewrite filter_cons.
  destruct (STRNEQ y "." && STRNEQ y ".."); [rewrite decide_True by done|rewrite decide_False by (by intros ?)]; done.
Qed.

Lemma ports_run name s : quiet s ->
  if_bridge_phys_name name s = (Ret (Z.of_nat (length (ports w name)), ports w name), s).
Proof.
  intros [Hm _ <-]. unfold if_bridge_phys_name, on_error.
  rewrite (bind_Ret _ _ s (Some ("/sys/class/net/" +:+ name +:+ "/brif")) s)
    by (unfold xasprintf, strdup, malloc, bind; by rewrite Hm).
  unfold nonnull at 1. rewrite bind_ret_l. erewrite bind_Ret by done.
  by rewrite (bind_Ret _ _ _ _ _ (for_ports_run (default [] (readdir ("/sys/class/net/" +:+ name +:+ "/brif") (world s))) [] s Hm)).
Qed.

(** Nothing is found below an element without children. *)
Lemma fresh_child_run dd p name s :
  alive p (xml s) -> name ∈ element_names -> node_children p (xml s) = [] ->
  exists n x', xml_node dd p name s = (Ret (Some n), set_xml x' s) /\ child_added alive p name n (xml s) x'.
Proof. intros Hp Hname Hc. apply xml_node_run; [done..|by rewrite Hc]. Qed.

(** ** Ethernet *)

Lemma mac_done d root links m s : for_acc links (Some m) (add_ethernet_info_cb d root) s = (Ret (Some m), s).
Proof. induction links as [|l links IH]; [done|]. cbn [for_acc]. by erewrite bind_Ret. Qed.

Lemma mac_loop d root links s : alive root (xml s) -> node_children root (xml s) = [] ->
  exists o, hangs (for_acc links None (add_ethernet_info_cb d root)) s o root
    match omap mac_of links with m :: _ => [Elem "mac" (<["address" := m]> ∅) []] | [] => [] end.
Proof.
  intros Hr Hc. induction links as [|l links IH]; [eexists; apply hangs_nothing|].
  cbn [for_acc omap list_omap]. unfold mac_of at 1. unfold add_ethernet_info_cb at 1.
  destruct (rtnl_link_get_addr l) as [m|]; [|destruct IH as (o & x' & Hrun & Hh); exists o, x'; by rewrite (bind_Ret _ _ s None s)].
  destruct (nl_addr_iszero l); [destruct IH as (o & x' & Hrun & Hh); exists o, x'; by rewrite (bind_Ret _ _ s None s)|].
  destruct (fresh_child_run d root "mac" s Hr ltac:(set_solver) Hc) as (n & x1 & Hnode & Hca).
  pose proof (ca_new _ _ _ _ _ _ Hca) as Hne. pose proof (ne_alive _ _ _ _ Hne) as Hn.
  destruct (set_prop_run n "address" m (set_xml x1 s) Hn) as (x2 & Hput & Hp).
  exists (Some n), x2. split.
  - rewrite bind_assoc, (bind_Ret _ _ _ _ _ Hnode), bind_assoc.
    rewrite (bind_Ret (on_error _ _) _ (set_xml x1 s) tt (set_xml x2 s)).
    + rewrite bind_ret_l. apply mac_done.
    + unfold on_error, nonnull. rewrite bind_ret_l. by rewrite Hput.
  - eapply hung_child; [done|exact Hca|]. eapply built_prop; [done|by apply built_new|exact Hp].
Qed.

Lemma ethernet_run i d root s : quiet s -> rtnl_link_alloc w = true ->
  alive root (xml s) -> node_children root (xml s) = [] ->
  hangs (add_ethernet_info i d root) s tt root (mac_trees w i).
Proof.
  intros [_ _ Hw] Hf Hr Hc. unfold add_ethernet_info, mac_trees, links_at.
  destruct (decide (i = RTNL_LINK_NOT_FOUND)); [apply hangs_nothing|].
  destruct (mac_loop d root (nl_links_of i w) s Hr Hc) as (o & x' & Hrun & Hh). exists x'. split; [|done].
  unfold on_error. rewrite (bind_Ret _ _ s true s) by (unfold gets; by rewrite Hw, Hf).
  cbn [negb ERR_NOMEM when]. unfold ERR_NOMEM, when. rewrite bind_ret_l.
  rewrite (bind_Ret _ _ s (nl_links_of i w) s) by (unfold gets; by rewrite Hw).
  by rewrite (bind_Ret _ _ _ _ _ Hrun).
Qed.

(** ** What describes the interfaces below *)

Section level.
Context (rec : type_info) (below : string -> Z -> option xtree).

(** The recursive call describes a new element [<interface>]. *)
Context (Hrec : forall name i t d p s, quiet s -> new_element alive "interface" p (xml s) ->
  below name i = Some t ->
  exists x', rec (Some name) i d p s = (Ret tt, set_xml x' s) /\ built (xml s) p x' t).
Context (Hfilter : rtnl_link_alloc w = true).

(** A new element below [p], described *)
Lemma interface_run name i t d p s : quiet s -> alive p (xml s) -> below name i = Some t ->
  exists n x1 x2, xml_new_node d p "interface" s = (Ret (Some n), set_xml x1 s) /\
    rec (Some name) i d n (set_xml x1 s) = (Ret tt, set_xml x2 s) /\ hung (xml s) p x2 [t].
Proof.
  intros Hs Hp Ht. destruct (xml_new_node_run d p "interface" s Hp ltac:(set_solver)) as (n & x1 & Hnode & Hca).
  destruct (Hrec name i t d n (set_xml x1 s) (quiet_xml _ _ Hs) (ca_new _ _ _ _ _ _ Hca) Ht) as (x2 & Hrun & Hb).
  exists n, x1, x2. split; [done|]. split; [done|]. by eapply hung_child.
Qed.

(** A loop over things that are all described *)
Lemma described_loop {A} (g : A -> option xtree) (l : list A) ts (body : A -> prog state unit) p s :
  mapM g l = Some ts ->
  (forall y t s', y ∈ l -> g y = Some t -> quiet s' -> alive p (xml s') -> hangs (body y) s' tt p [t]) ->
  quiet s -> alive p (xml s) -> hangs (for_each l body) s tt p ts.
Proof.
  intros Hts%mapM_Some Hb Hs Hp.
  destruct (hung_for_each p quiet body (fun y => from_option (fun t => [t]) [] (g y)) l) with (s := s) as (x' & Hrun & Hh);
    [apply quiet_xml| |done|done|].
  - intros y s' Hy. pose proof Hy as [k Hk]%list_elem_of_lookup_1.
    destruct (Forall2_lookup_l _ _ _ _ _ Hts Hk) as (t & _ & Ht). rewrite Ht. by apply Hb.
  - exists x'. split; [done|]. replace ts with (mjoin ((fun y => from_option (fun t => [t]) [] (g y)) <$> l)); [done|].
    unfold mjoin. clear -Hts. induction Hts as [|y t l ts Hy _ IH]; [done|]. cbn. rewrite Hy. cbn. by f_equal.
Qed.

(** ** Bridges *)

Lemma bridge_run name ts d root s : quiet s -> alive root (xml s) -> node_children root (xml s) = [] ->
  bridge_trees w below name = Some ts -> hangs (add_bridge_info rec name d root) s tt root ts.
Proof.
  intros Hs Hr Hc Hts. unfold bridge_trees in Hts. apply fmap_Some in Hts as (ps & Hps & ->).
  destruct (fresh_child_run d root "bridge" s Hr ltac:(set_solver) Hc) as (b & x1 & Hnode & Hca).
  pose proof (ca_new _ _ _ _ _ _ Hca) as Hne. pose proof (ne_alive _ _ _ _ Hne) as Hb.
  destruct (described_loop _ _ ps (fun name =>
          oi ← xml_new_node d b "interface";
          interface_node ← nonnull oi;
          phys_ifindex ← gets (fun s => rtnl_link_name2i name (world s));
          rec (Some name) phys_ifindex d interface_node) b (set_xml x1 s) Hps) as (x2 & Hrun & Hh); [|by apply quiet_xml|done|].
  - intros p t s' _ Ht Hs' Hb'.
    destruct (interface_run p (rtnl_link_name2i p w) t d b s' Hs' Hb' Ht) as (n & y1 & y2 & Hn & Hrec' & Hh).
    exists y2. split; [|done]. rewrite (bind_Ret _ _ _ _ _ Hn). unfold nonnull. rewrite bind_ret_l.
    erewrite bind_Ret by done. cbn [world set_xml]. by rewrite (q_world _ Hs').
  - exists x2. split.
    + unfold add_bridge_info, on_error. rewrite (bind_Ret _ _ _ _ _ Hnode). unfold nonnull at 1. rewrite bind_ret_l.
      rewrite (bind_Ret _ _ _ _ _ (ports_run name _ (quiet_xml _ x1 Hs))).
      destruct (ports w name) as [|p l]; [|by rewrite (proj2 (Z.ltb_lt _ _)) by (cbn; lia); cbn [when]; rewrite Hrun].
      cbn in Hrun. injection Hrun as Hx. cbn. by rewrite <- Hx.
    + eapply hung_child; [done|exact Hca|]. apply (built_hung _ b x1 x2 "bridge" ∅ []); [done|by apply built_new|done].
Qed.

(** ** VLANs *)

Lemma vlan_done d root links v s : for_acc links (Some v) (add_vlan_info_cb rec d root) s = (Ret (Some v), s).
Proof. induction links as [|l links IH]; [done|]. cbn [for_acc]. by erewrite bind_Ret. Qed.

Lemma vlan_skip d root l s : quiet s -> device_under w l = None ->
  add_vlan_info_cb rec d root l None s = (Ret None, s).
Proof.
  intros [_ _ Hw] Hl. unfold device_under in Hl. unfold add_vlan_info_cb. cbn [is_null negb].
  destruct (rtnl_link_get_type l) as [t|]; [|done]. destruct (STRNEQ t "vlan"); [done|].
  case_decide; [done|]. erewrite bind_Ret by done. rewrite Hw.
  destruct (rtnl_link_get (rtnl_link_get_link l) w) as [ml|]; [|done]. by rewrite Hl.
Qed.

(** The first link that is a VLAN *)
Lemma vlan_first d root l n t s : quiet s -> alive root (xml s) -> node_children root (xml s) = [] ->
  device_under w l = Some n -> rtnl_link_name2i n w <> RTNL_LINK_NOT_FOUND ->
  below n (rtnl_link_name2i n w) = Some t ->
  exists v, hangs (add_vlan_info_cb rec d root l None) s (Some v) root
    [Elem "vlan" (<["tag" := fmt_d (rtnl_link_vlan_get_id l)]> ∅) [t]].
Proof.
  intros Hs Hr Hc Hl Hidx Ht.
  destruct (fresh_child_run d root "vlan" s Hr ltac:(set_solver) Hc) as (v & x1 & Hnode & Hca).
  pose proof (ca_new _ _ _ _ _ _ Hca) as Hne. pose proof (ne_alive _ _ _ _ Hne) as Hv.
  destruct (set_prop_run v "tag" (fmt_d (rtnl_link_vlan_get_id l)) (set_xml x1 s) Hv) as (x2 & Hput & Hp).
  assert (Hv2 : alive v x2) by (by apply (pp_keeps _ _ _ _ _ _ Hp)).
  destruct (interface_run n _ t d v (set_xml x2 s) (quiet_xml _ _ Hs) Hv2 Ht) as (m & x3 & x4 & Hm & Hrun & Hh).
  exists v, x4. split.
  - unfold device_under in Hl. unfold add_vlan_info_cb. cbn [is_null negb].
    destruct (rtnl_link_get_type l) as [ty|]; [|done]. destruct (STRNEQ ty "vlan"); [done|].
    destruct (decide (rtnl_link_get_link l = RTNL_LINK_NOT_FOUND)); [done|]. erewrite bind_Ret by done. rewrite (q_world _ Hs).
    destruct (rtnl_link_get (rtnl_link_get_link l) w) as [ml|]; [|done]. rewrite Hl.
    rewrite (bind_Ret _ _ _ _ _ Hnode). rewrite (bind_Ret (on_error _ _) _ (set_xml x1 s) tt (set_xml x4 s)); [done|].
    unfold on_error, nonnull at 1. rewrite bind_ret_l, (bind_Ret _ _ _ _ _ Hput). cbn [xml set_xml] in *.
    change (set_xml x2 (set_xml x1 s)) with (set_xml x2 s). rewrite (bind_Ret _ _ _ _ _ Hm).
    unfold nonnull. rewrite bind_ret_l. erewrite bind_Ret by done. cbn [world set_xml]. rewrite (q_world _ Hs).
    rewrite bool_decide_false by done. rewrite (bind_Ret _ _ _ _ _ (ERR_THROW_false _ _ _)).
    by rewrite Hrun.
  - eapply hung_child; [done|exact Hca|]. apply (built_hung _ v x2 x4 "vlan" _ []); [done| |done].
    eapply built_prop; [done|by apply built_new|exact Hp].
Qed.

Lemma vlan_loop links ts d root s : quiet s -> alive root (xml s) -> node_children root (xml s) = [] ->
  match omap (fun l => pair l <$> device_under w l) links with
  | [] => Some []
  | (l, n) :: _ =>
      if decide (rtnl_link_name2i n w = RTNL_LINK_NOT_FOUND) then None else
      (fun t => [Elem "vlan" (<["tag" := fmt_d (rtnl_link_vlan_get_id l)]> ∅) [t]]) <$> below n (rtnl_link_name2i n w)
  end = Some ts ->
  exists o, hangs (for_acc links None (add_vlan_info_cb rec d root)) s o root ts.
Proof.
  intros Hs Hr Hc. induction links as [|l links IH]; [intros [= <-]; eexists; apply hangs_nothing|].
  cbn [for_acc omap list_omap]. destruct (device_under w l) as [n|] eqn:Hl; cbn [fmap option_fmap option_map].
  - case_decide as Hidx; [done|]. intros (t & Ht & ->)%fmap_Some.
    destruct (vlan_first d root l n t s Hs Hr Hc Hl Hidx Ht) as (v & x1 & Hrun & Hh).
    exists (Some v), x1. split; [|done]. rewrite (bind_Ret _ _ _ _ _ Hrun). apply vlan_done.
  - intros (o & x' & Hrun & Hh)%IH. exists o, x'. split; [|done].
    by rewrite (bind_Ret _ _ _ _ _ (vlan_skip d root l s Hs Hl)).
Qed.

Lemma vlan_run i ts d root s : quiet s -> alive root (xml s) -> node_children root (xml s) = [] ->
  vlan_trees w below i = Some ts -> hangs (add_vlan_info rec i d root) s tt root ts.
Proof.
  intros Hs Hr Hc Hts. unfold vlan_trees, links_at in Hts. unfold add_vlan_info.
  destruct (decide (i = RTNL_LINK_NOT_FOUND)); [injection Hts as <-; apply hangs_nothing|].
  destruct (vlan_loop _ ts d root s Hs Hr Hc Hts) as (o & x' & Hrun & Hh). exists x'. split; [|done].
  pose proof Hs as [_ Hok Hw]. unfold on_error. rewrite (bind_Ret _ _ s true s) by (unfold gets; by rewrite Hw, Hfilter).
  unfold ERR_NOMEM, when. cbn [negb]. rewrite bind_ret_l.
  rewrite (bind_Ret _ _ s (nl_links_of i w) s) by (unfold gets; by rewrite Hw).
  rewrite (bind_Ret _ _ _ _ _ Hrun). by rewrite (ERR_BAIL_ok (set_xml x' s) Hok).
Qed.

(** ** Bonds *)

(** The slaves after the first: the element is there. *)
Lemma bond_rest i d root b x0 links ts0 ts s :
  quiet s -> alive b x0 -> alive root x0 -> root <> b -> node_children root x0 = [b] ->
  built x0 b (xml s) (Elem "bond" ∅ ts0) ->
  mapM (fun l => match rtnl_link_get_name l with Some n => below n (rtnl_link_get_ifindex l) | None => None end)
    (List.filter (is_slave_of i) links) = Some ts ->
  exists x', for_each links (add_bond_info_cb rec d root i) s = (Ret tt, set_xml x' s) /\
    built x0 b x' (Elem "bond" ∅ (ts0 ++ ts)).
Proof.
  intros Hs Hb Hr Hne Hroot. revert ts0 ts s Hs. induction links as [|l links IH]; intros ts0 ts s Hs Hbuilt.
  { intros [= <-]. exists (xml s). rewrite app_nil_r. split; [by destruct s|done]. }
  cbn [List.filter for_each]. unfold add_bond_info_cb at 1, is_slave_of at 1.
  destruct (_ || _); cbn [negb]; [by rewrite bind_ret_l; apply IH|].
  intros Hts. apply bind_Some in Hts as (t & Ht & Hts). apply bind_Some in Hts as (ts' & Hts' & [= <-]).
  destruct (rtnl_link_get_name l) as [n|] eqn:Hn; [|done].
  destruct Hbuilt as (Hk & Hb' & Hbt). pose proof Hbt as (Hbn & Hbe & _).
  destruct (proj2 (proj1 Hk root Hr) Hne) as (_ & _ & Hc & _). rewrite Hroot in Hc.
  destruct (interface_run n _ t d b s Hs Hb' Ht) as (m & x1 & x2 & Hm & Hrun & Hh).
  destruct (IH (ts0 ++ [t]) ts' (set_xml x2 s)) as (x' & Hrun' & Hbuilt'); [by apply quiet_xml| |done|].
  { by apply (built_hung x0 b (xml s)). }
  exists x'. rewrite <- app_assoc in Hbuilt'. split; [|done].
  rewrite (bind_Ret (on_error _ _) _ s tt (set_xml x2 s)); [done|]. unfold on_error.
  rewrite (bind_Ret (xml_node _ _ _) _ s (Some b) s).
  2:{ unfold xml_node, xget. rewrite (bind_Ret _ _ s (Some b) s); [done|]. unfold gets. rewrite Hc. cbn. by rewrite Hbe, Hbn. }
  unfold nonnull. rewrite bind_ret_l, (bind_Ret _ _ _ _ _ Hm), bind_ret_l. by rewrite Hrun.
Qed.

Lemma bond_loop i d root links ts s : quiet s -> alive root (xml s) -> node_children root (xml s) = [] ->
  mapM (fun l => match rtnl_link_get_name l with Some n => below n (rtnl_link_get_ifindex l) | None => None end)
    (List.filter (is_slave_of i) links) = Some ts ->
  hangs (for_each links (add_bond_info_cb rec d root i)) s tt root (match ts with [] => [] | _ => [Elem "bond" ∅ ts] end).
Proof.
  intros Hs Hr Hc. induction links as [|l links IH]; [intros [= <-]; apply hangs_nothing|].
  cbn [List.filter for_each]. unfold add_bond_info_cb at 1, is_slave_of at 1.
  destruct (_ || _); cbn [negb]; [by unfold hangs; rewrite bind_ret_l|].
  intros Hts. apply bind_Some in Hts as (t & Ht & Hts). apply bind_Some in Hts as (ts' & Hts' & [= <-]).
  destruct (rtnl_link_get_name l) as [n|] eqn:Hn; [|done].
  destruct (fresh_child_run d root "bond" s Hr ltac:(set_solver) Hc) as (b & x1 & Hnode & Hca).
  pose proof (ca_new _ _ _ _ _ _ Hca) as Hne. pose proof (ne_alive _ _ _ _ Hne) as Hb.
  destruct (interface_run n _ t d b (set_xml x1 s) (quiet_xml _ _ Hs) Hb Ht) as (m & x2 & x3 & Hm & Hrun & Hh).
  destruct (bond_rest i d root b x1 links [t] ts' (set_xml x3 s)) as (x' & Hrun' & Hbuilt); try done.
  { by apply quiet_xml. }
  { by apply (ca_keeps _ _ _ _ _ _ Hca). }
  { intros ->. by apply (ca_fresh _ _ _ _ _ _ Hca). }
  { by rewrite (ca_children _ _ _ _ _ _ Hca), Hc. }
  { apply (built_hung x1 b x1 x3 "bond" ∅ []); [done|by apply built_new|done]. }
  exists x'. split; [|by eapply hung_child].
  rewrite (bind_Ret (on_error _ _) _ s tt (set_xml x3 s)); [done|]. unfold on_error.
  rewrite (bind_Ret _ _ _ _ _ Hnode). unfold nonnull. rewrite bind_ret_l, (bind_Ret _ _ _ _ _ Hm), bind_ret_l.
  by rewrite Hrun.
Qed.

Lemma bond_run i ts d root s : quiet s -> alive root (xml s) -> node_children root (xml s) = [] ->
  bond_trees w below i = Some ts -> hangs (add_bond_info rec i d root) s tt root ts.
Proof.
  intros Hs Hr Hc Hts. unfold bond_trees, slaves_of in Hts. apply fmap_Some in Hts as (ts' & Hts & ->).
  unfold add_bond_info. destruct (decide (i = RTNL_LINK_NOT_FOUND)); [injection Hts as <-; apply hangs_nothing|].
  destruct (bond_loop i d root _ ts' s Hs Hr Hc Hts) as (x' & Hrun & Hh). exists x'. split; [|done].
  rewrite (bind_Ret _ _ s (nl_links w) s) by (unfold gets; by rewrite (q_world _ Hs)). by rewrite Hrun.
Qed.
End level.

(** ** The recursion *)

Lemma describe_run fuel name i t d p s : rtnl_link_alloc w = true ->
  quiet s -> new_element alive "interface" p (xml s) -> describe w fuel name i = Some t ->
  exists x', add_type_specific_info fuel (Some name) i d p s = (Ret tt, set_xml x' s) /\ built (xml s) p x' t.
Proof.
  intros Hf. revert name i t d p s. induction fuel as [|fuel IH]; intros name i t d p s Hs Hnew Ht; [done|].
  cbn [describe] in Ht. apply fmap_Some in Ht as (ts & Hts & ->).
  pose proof (ne_alive _ _ _ _ Hnew) as Hp.
  destruct (newprop_law p "name" (Some name) (xml s) Hp (ne_props _ _ _ _ Hnew _)) as (x1 & Hname & Hput1).
  destruct (set_prop_run p "type" (default "" (if_type_str (kind w name))) (set_xml x1 s)) as (x2 & Htype & Hput2).
  { by apply (pp_keeps _ _ _ _ _ _ Hput1). }
  set (s2 := set_xml x2 s). assert (Hs2 : quiet s2) by by apply quiet_xml.
  assert (Hp2 : alive p (xml s2)) by (apply (pp_keeps _ _ _ _ _ _ Hput2); by apply (pp_keeps _ _ _ _ _ _ Hput1)).
  assert (Hc2 : node_children p (xml s2) = []).
  { cbn. rewrite (pp_children _ _ _ _ _ _ Hput2). cbn. rewrite (pp_children _ _ _ _ _ _ Hput1). apply (ne_children _ _ _ _ Hnew). }
  assert (Hsub : hangs match kind w name with
      | NETCF_IFACE_TYPE_ETHERNET => add_ethernet_info i d p
      | NETCF_IFACE_TYPE_BRIDGE => add_bridge_info (add_type_specific_info fuel) name d p
      | NETCF_IFACE_TYPE_VLAN => add_vlan_info (add_type_specific_info fuel) i d p
      | NETCF_IFACE_TYPE_BOND => add_bond_info (add_type_specific_info fuel) i d p
      | NETCF_IFACE_TYPE_NONE => ret tt
      end s2 tt p ts).
  { destruct (kind w name); [injection Hts as <-; apply hangs_nothing|injection Hts as <-; by apply ethernet_run|..].
    - eapply bond_run; eauto.
    - eapply bridge_run; eauto.
    - eapply vlan_run; eauto. }
  destruct Hsub as (x3 & Hrun & Hh). exists x3. split.
  - cbn [add_type_specific_info]. unfold type_specific_info, on_error.
    rewrite (bind_Ret _ _ _ _ _ (xcall_run _ s _ _ Hname)).
    unfold ERR_NOMEM at 1, when at 1. cbn [negb]. rewrite bind_ret_l.
    rewrite (bind_Ret _ _ _ _ _ (if_type_run name _ (quiet_xml _ x1 Hs))).
    rewrite (bind_Ret _ _ _ _ _ (ERR_BAIL_ok (set_xml x1 s) (q_ok _ Hs))).
    rewrite if_type_str_kind. rewrite (bind_Ret _ _ _ _ _ Htype).
    change (set_xml x2 (set_xml x1 s)) with s2. by rewrite Hrun.
  - apply (built_hung (xml s) p x2 x3 "interface" _ []); [done| |exact Hh].
    eapply built_prop; [done| |exact Hput2]. eapply built_prop; [done|by apply built_new|exact Hput1].
Qed.
End code.
