(* ===== verification/LiveState.v ===== *)
(** * The addresses of a live interface, and its whole description

    [add_ip_info] groups the addresses by their protocol; [drv_xml_state] makes the
    document and has it printed. Here: the reference [live_tree] for the whole
    document, and that the code computes it. *)

From S2P Require Import Prelude CStr XsltExt State Refs Toy Posix Xml XmlTree Netcf Linux Common Redhat Live.

(** ** The reference *)

Section reference.
Context `{Netlink}.

(** The protocol of an address that is described *)
Definition family_of (a : addr) : option string :=
  if decide (nl_addr_get_family a = AF_INET) then Some "ipv4" else
  if decide (nl_addr_get_family a = AF_INET6) then Some "ipv6" else None.

Definition ip_tree (a : addr) : xtree :=
  Elem "ip" (<["prefix" := fmt_d (nl_addr_get_prefixlen a)]> (<["address" := nl_addr_ntop a]> ∅)) [].

(** The protocols in the order in which they are first met *)
Definition families (addrs : list addr) : list string :=
  foldl (fun fs a => match family_of a with
                     | Some f => if decide (f ∈ fs) then fs else fs ++ [f]
                     | None => fs
                     end) [] addrs.

Definition of_family (f : string) (addrs : list addr) : list addr := filter (fun a => family_of a = Some f) addrs.

Definition protocol_tree (addrs : list addr) (f : string) : xtree :=
  Elem "protocol" (<["family" := f]> ∅) (ip_tree <$> of_family f addrs).

Definition addr_trees (addrs : list addr) : list xtree := protocol_tree addrs <$> families addrs.

Lemma families_snoc l a : families (l ++ [a]) =
  match family_of a with
  | Some f => if decide (f ∈ families l) then families l else families l ++ [f]
  | None => families l
  end.
Proof. unfold families. by rewrite foldl_app. Qed.

Lemma families_nodup l : NoDup (families l).
Proof.
  induction l as [|a l IH] using rev_ind; [constructor|]. rewrite families_snoc.
  destruct (family_of a) as [f|]; [|done]. case_decide; [done|].
  apply NoDup_app. split; [done|]. split; [set_solver|apply NoDup_singleton].
Qed.

Lemma of_family_snoc f l a : of_family f (l ++ [a]) =
  of_family f l ++ (if decide (family_of a = Some f) then [a] else []).
Proof.
  unfold of_family. by rewrite filter_app.
Qed.

Lemma of_family_none f l : f ∉ families l -> of_family f l = [].
Proof.
  induction l as [|a l IH] using rev_ind; [done|]. rewrite families_snoc, of_family_snoc.
  destruct (family_of a) as [g|]; [|rewrite decide_False by done; rewrite app_nil_r; apply IH].
  intros Hf. assert (Hne : g <> f) by (intros ->; case_decide; set_solver).
  rewrite decide_False by congruence. rewrite app_nil_r. apply IH. case_decide; set_solver.
Qed.
End reference.

(** ** The code *)

Lemma assoc_elem {A} (l : list (string * A)) k v : assoc l k = Some v -> (k, v) ∈ l.
Proof.
  induction l as [|[k' v'] l IH]; [done|]. cbn. destruct (STREQ k k') eqn:E.
  - apply STREQ_eq in E as ->. intros [= ->]. by left.
  - intros Hl. right. auto.
Qed.

Lemma assoc_none {A} (l : list (string * A)) k : assoc l k = None -> k ∉ l.*1.
Proof.
  induction l as [|[k' v'] l IH]; [set_solver|]. cbn. destruct (STREQ k k') eqn:E; [done|].
  apply STREQ_neq in E. intros Hl. apply not_elem_of_cons. auto.
Qed.

Lemma assoc_snoc {A} (l : list (string * A)) k k' v : k ∉ l.*1 ->
  assoc (l ++ [(k, v)]) k' = if decide (k' = k) then Some v else assoc l k'.
Proof.
  induction l as [|[j u] l IH]; cbn.
  - intros _. case_decide as E; [subst; by rewrite STREQ_refl|]. by rewrite (proj2 (STREQ_neq k' k) E).
  - intros [Hj Hl]%not_elem_of_cons. rewrite (IH Hl). destruct (STREQ k' j) eqn:E; [|done].
    apply STREQ_eq in E as ->. by rewrite decide_False.
Qed.

Lemma NoDup_fst_inj {A} (l : list (string * A)) k u v : NoDup l.*1 -> (k, u) ∈ l -> (k, v) ∈ l -> u = v.
Proof.
  induction l as [|[j r] l IH]; [set_solver|]. cbn. intros [Hj Hnd]%NoDup_cons.
  intros [Hu|Hu]%elem_of_cons [Hv|Hv]%elem_of_cons; simplify_eq; auto.
  - destruct Hj. by apply (list_elem_of_fmap_2 fst _ (j, v)).
  - destruct Hj. by apply (list_elem_of_fmap_2 fst _ (j, u)).
Qed.

Section code.
Context `{Kernel, !Netlink, !Libxml, !XmlBuild _} (w : sys).

(** [add_ip_info_cb] for one protocol, whose node is [slot] if it is known *)
Definition add_ip (d : doc) (root : node) (a : addr) (f : string) (slot : option node) : prog state (option node) :=
  proto ← match slot with
          | Some p => ret (Some p)
          | None => xget (fun x => find_protocol (node_children root x) f x)
          end;
  proto' ← match proto with Some p => ret (Some p) | None => xml_new_node d root "protocol" end;
  on_error
    (p ← nonnull proto';
     when (is_null proto) (set_prop p "family" f) ;;
     oip ← xml_new_node d p "ip";
     ip_node ← nonnull oip;
     set_prop ip_node "address" (nl_addr_ntop a) ;;
     set_prop ip_node "prefix" (fmt_d (nl_addr_get_prefixlen a)))
    (ret tt) ;;
  ret proto'.

Lemma add_ip_cb d root a p4 p6 s :
  add_ip_info_cb d root a (p4, p6) s =
    match family_of a with
    | None => (Ret (p4, p6), s)
    | Some f => (o ← add_ip d root a f (if decide (f = "ipv4") then p4 else p6);
                 ret (if decide (f = "ipv4") then (o, p6) else (p4, o))) s
    end.
Proof.
  unfold add_ip_info_cb, family_of, add_ip.
  destruct (decide (nl_addr_get_family a = AF_INET)) as [E|E]; [rewrite decide_False by tauto|].
  - rewrite !decide_True by done. rewrite bind_assoc. apply bind_ext. intros o s1.
    rewrite bind_assoc. apply bind_ext. intros o' s2. by rewrite bind_assoc.
  - destruct (decide (nl_addr_get_family a = AF_INET6)) as [E'|E']; [rewrite decide_False by tauto|by rewrite decide_True].
    rewrite !decide_False by done. rewrite bind_assoc. apply bind_ext. intros o s1.
    rewrite bind_assoc. apply bind_ext. intros o' s2. by rewrite bind_assoc.
Qed.

(** ** Protocols *)

Context (root : node) (x0 : xmem).

(** What is below the root at the beginning is no protocol. *)
Record starts : Prop := {
  st_alive : alive root x0;
  st_children n : n ∈ node_children root x0 -> alive n x0 /\ n <> root /\ node_name n x0 <> "protocol"
}.

(** The node [p] is the element of the protocol [f], with the addresses [ips]; none of
    its nodes is one of [ps]. *)
Record protocol (ps : list node) (x : xmem) (f : string) (ips : list addr) (p : node) : Prop := {
  pr_new : new_in x0 x p;
  pr_name : node_name p x = "protocol";
  pr_element : node_is_element p x = true;
  pr_props k : xmlGetProp p k x = (<["family" := f]> ∅ : gmap string string) !! k;
  pr_ips : Forall2 (reps x (fun m => new_in x0 x m /\ m ∉ ps)) (node_children p x) (ip_tree <$> ips)
}.

(** The protocols [fps] with their nodes, after the addresses [seen]. *)
Record protocols (fps : list (string * node)) (seen : list addr) (x : xmem) : Prop := {
  ps_keeps : keeps alive root x0 x;
  ps_root : node_name root x = node_name root x0 /\ node_is_element root x = node_is_element root x0;
  ps_props k : xmlGetProp root k x = xmlGetProp root k x0;
  ps_children : node_children root x = node_children root x0 ++ fps.*2;
  ps_nodup : NoDup fps.*1;
  ps_nodes f p : (f, p) ∈ fps -> protocol fps.*2 x f (of_family f seen) p
}.

Lemma protocols_alive fps seen x : starts -> protocols fps seen x -> alive root x.
Proof. intros [Hr _] [Hk _ _ _ _ _]. by apply Hk. Qed.

Lemma protocol_frame ps ps' x x' f ips p (q : node) :
  (forall m, m ∈ ps' -> m ∈ ps \/ ~ alive m x) -> keeps alive q x x' -> q = root \/ q ∈ ps -> alive root x0 -> p <> q ->
  protocol ps x f ips p -> protocol ps' x' f ips p.
Proof.
  intros Hps Hk Hq Hr Hpq [[Ha Hn] Hname He Hp Hips].
  destruct (proj1 Hk p Ha) as [Ha' (Hname' & He' & Hc' & Hp')%(fun H => H Hpq)].
  split; [by split|congruence|congruence|intros k; by rewrite Hp'|].
  rewrite Hc'. eapply Forall2_impl; [exact Hips|]. intros m t. apply reps_mono. intros m' [[Ham Hnm] Hnot].
  destruct (proj1 Hk m' Ham) as [Ham' Hs]. split; [split; [by split|]|].
  - intros [?|?]%Hps; done.
  - apply Hs. intros ->. destruct Hq as [->|?]; done.
Qed.

(** A new protocol *)
Lemma protocol_added fps seen x f p x1 x2 : starts -> protocols fps seen x -> f ∉ fps.*1 -> of_family f seen = [] ->
  child_added alive root "protocol" p x x1 -> prop_put alive p "family" f x1 x2 ->
  protocols (fps ++ [(f, p)]) seen x2.
Proof.
  intros Hst Hps Hf Hnone Hca Hput. pose proof (protocols_alive _ _ _ Hst Hps) as Hrx.
  pose proof Hst as [Hr _]. pose proof Hps as [Hk [Hrn Hre] Hrp Hrc Hnd Hnodes].
  pose proof Hca as [Hfr Hnew [Hpn Hpe] Hpc Hpp Hk1]. pose proof Hnew as [Ha1 Hn1 He1 Hc1 Hp1].
  pose proof Hput as [Hv Ho [Hn2 He2] Hc2 Hk2].
  assert (Hpr : root <> p) by (by intros ->).
  destruct (proj2 (proj1 Hk2 root (proj1 (proj1 Hk1 root Hrx))) Hpr) as (Hrn2 & Hre2 & Hrc2 & Hrp2).
  assert (Hkx : keeps alive root x x2) by (by eapply keeps_fresh).
  split.
  - by etransitivity.
  - split; congruence.
  - intros k. by rewrite Hrp2, Hpp.
  - by rewrite Hrc2, Hpc, Hrc, fmap_app, app_assoc.
  - rewrite fmap_app. apply NoDup_app. split; [done|]. split; [set_solver|apply NoDup_singleton].
  - rewrite fmap_app. intros g q [Hin|Hin]%elem_of_app.
    + pose proof (Hnodes g q Hin) as Hq. apply (protocol_frame fps.*2 _ x x2 _ _ _ root); try done; [|by left|].
      * intros m [?|Hm]%elem_of_app; [by left|]. apply list_elem_of_singleton in Hm as ->. by right.
      * intros ->. by apply Hq.
    + apply list_elem_of_singleton in Hin as [= -> ->]. rewrite Hnone. cbn [fmap list_fmap].
      assert (Hpx0 : ~ alive p x0) by (intros Hpx; apply Hfr; by apply Hk).
      split; [split; [by apply Hk2|done]|congruence|congruence| |by rewrite Hc2, Hc1].
      intros k. destruct (decide (k = "family")) as [->|Hne]; [by rewrite lookup_insert_eq|].
      by rewrite lookup_insert_ne, lookup_empty, Ho, Hp1.
Qed.

(** A new address of a protocol *)
Lemma address_added fps seen x f p a x' : starts -> protocols fps seen x -> (f, p) ∈ fps -> family_of a = Some f ->
  hung x p x' [ip_tree a] -> protocols fps (seen ++ [a]) x'.
Proof.
  intros Hst Hps Hin Hfa (Hkp & Hpn & Hpe & Hpp & ns & Hpc & Hns). pose proof (protocols_alive _ _ _ Hst Hps) as Hrx.
  pose proof Hst as [Hr _]. pose proof Hps as [Hk [Hrn Hre] Hrp Hrc Hnd Hnodes].
  pose proof (Hnodes f p Hin) as Hp. pose proof Hp as [[Hpx Hpx0] Hname He Hpr Hips].
  assert (Hne : root <> p) by (by intros ->).
  destruct (proj2 (proj1 Hkp root Hrx) Hne) as (Hrn2 & Hre2 & Hrc2 & Hrp2).
  split; [by eapply keeps_fresh|split; congruence|intros k; by rewrite Hrp2|by rewrite Hrc2|done|].
  intros g q Hgq. destruct (decide (g = f)) as [->|Hgf].
  - assert (q = p) as -> by (by eapply NoDup_fst_inj).
    rewrite of_family_snoc, decide_True by done.
    split; [split; [by apply Hkp|done]|congruence|congruence|intros k; by rewrite Hpp|].
    rewrite Hpc, fmap_app. apply Forall2_app.
    + eapply Forall2_impl; [exact Hips|]. intros m t. apply reps_mono. intros m' [[Ham Hnm] Hnot].
      destruct (proj1 Hkp m' Ham) as [Ham' Hs]. split; [by split|]. apply Hs. intros ->. apply Hnot.
      by apply (list_elem_of_fmap_2 snd _ (f, p)).
    + eapply Forall2_impl; [exact Hns|]. intros m t. apply reps_mono. intros m' [Ham Hnm].
      split; [|apply same_node_refl]. split; [split; [done|]|].
      * intros Hm0. apply Hnm. by apply Hk.
      * intros ([h r] & -> & Hhr)%list_elem_of_fmap. apply Hnm. by apply (Hnodes h r Hhr).
  - assert (Hqp : q <> p).
    { intros ->. pose proof (pr_props _ _ _ _ _ (Hnodes g p Hgq) "family") as Hg.
      rewrite Hpr, !lookup_insert_eq in Hg. by injection Hg. }
    rewrite of_family_snoc, decide_False by congruence. rewrite app_nil_r.
    apply (protocol_frame fps.*2 _ x x' _ _ _ p); auto. right. by apply (list_elem_of_fmap_2 snd _ (f, p)).
Qed.

Lemma find_protocol_none l f x :
  (forall n, n ∈ l -> node_name n x = "protocol" -> exists g, xmlGetProp n "family" x = Some g /\ g <> f) ->
  find_protocol l f x = None.
Proof.
  induction l as [|n l IH]; intros Hl; [done|]. cbn [find_protocol].
  assert (IH' : find_protocol l f x = None) by (apply IH; intros m Hm; apply Hl; by right).
  destruct (node_is_element n x && STREQ (node_name n x) "protocol") eqn:E; [|done].
  apply andb_prop in E as [_ E%STREQ_eq]. destruct (Hl n ltac:(by left) E) as (g & -> & Hg).
  by rewrite (proj2 (STREQ_neq g f) Hg).
Qed.

(** A protocol that has not been met is not found. *)
Lemma protocols_absent fps seen f x : starts -> protocols fps seen x -> f ∉ fps.*1 ->
  find_protocol (node_children root x) f x = None.
Proof.
  intros [Hr Hc] [Hk _ _ Hrc _ Hnodes] Hf. apply find_protocol_none. rewrite Hrc.
  intros n [Hn|Hn]%elem_of_app Hname.
  - destruct (Hc n Hn) as (Ha & Hne & Hnp). destruct (proj2 (proj1 Hk n Ha) Hne) as (Hn' & _). congruence.
  - apply list_elem_of_fmap in Hn as ([g p] & -> & Hin). cbn in *. pose proof (pr_props _ _ _ _ _ (Hnodes g p Hin) "family") as Hg.
    rewrite lookup_insert_eq in Hg. exists g. split; [done|]. intros ->. apply Hf.
    by apply (list_elem_of_fmap_2 fst _ (f, p)).
Qed.

Lemma ip_run d p a s : alive p (xml s) ->
  hangs (oip ← xml_new_node d p "ip";
         ip_node ← nonnull oip;
         set_prop ip_node "address" (nl_addr_ntop a) ;;
         set_prop ip_node "prefix" (fmt_d (nl_addr_get_prefixlen a))) s tt p [ip_tree a].
Proof.
  intros Hp. destruct (xml_new_node_run d p "ip" s Hp ltac:(set_solver)) as (n & x1 & Hnode & Hca).
  pose proof (ca_new _ _ _ _ _ _ Hca) as Hne. pose proof (ne_alive _ _ _ _ Hne) as Hn.
  destruct (set_prop_run n "address" (nl_addr_ntop a) (set_xml x1 s) Hn) as (x2 & Hput2 & Hp2).
  destruct (set_prop_run n "prefix" (fmt_d (nl_addr_get_prefixlen a)) (set_xml x2 s)) as (x3 & Hput3 & Hp3).
  { by apply (pp_keeps _ _ _ _ _ _ Hp2). }
  exists x3. split.
  - rewrite (bind_Ret _ _ _ _ _ Hnode). unfold nonnull. rewrite bind_ret_l, (bind_Ret _ _ _ _ _ Hput2). exact Hput3.
  - eapply hung_child; [done|exact Hca|]. eapply built_prop; [done| |exact Hp3].
    eapply built_prop; [done|by apply built_new|exact Hp2].
Qed.

Lemma add_ip_run d a f fps seen s :
  starts -> protocols fps seen (xml s) -> fps.*1 = families seen -> family_of a = Some f ->
  exists x' p fps', add_ip d root a f (assoc fps f) s = (Ret (Some p), set_xml x' s) /\
    protocols fps' (seen ++ [a]) x' /\ fps'.*1 = families (seen ++ [a]) /\
    forall g, assoc fps' g = if decide (g = f) then Some p else assoc fps g.
Proof.
  intros Hst Hps Hfam Ha. rewrite families_snoc, Ha. pose proof (protocols_alive _ _ _ Hst Hps) as Hr.
  destruct (assoc fps f) as [p|] eqn:Hslot.
  - pose proof (assoc_elem _ _ _ Hslot) as Hin. pose proof (ps_nodes _ _ _ Hps _ _ Hin) as Hp.
    destruct (ip_run d p a s) as (x' & Hrun & Hh); [apply Hp|]. exists x', p, fps. split; [|split; [|split]].
    + unfold add_ip. rewrite !bind_ret_l. rewrite (bind_Ret (on_error _ _) _ s tt (set_xml x' s)); [done|].
      unfold on_error, nonnull at 1. rewrite bind_ret_l. cbn [is_null when]. rewrite bind_ret_l. by rewrite Hrun.
    + by eapply address_added.
    + rewrite decide_True; [done|]. rewrite <- Hfam. by apply (list_elem_of_fmap_2 fst _ (f, p)).
    + intros g. case_decide; by subst.
  - pose proof (assoc_none _ _ Hslot) as Hf.
    destruct (xml_new_node_run d root "protocol" s Hr ltac:(set_solver)) as (p & x1 & Hnode & Hca).
    pose proof (ca_new _ _ _ _ _ _ Hca) as Hne. pose proof (ne_alive _ _ _ _ Hne) as Hp.
    destruct (set_prop_run p "family" f (set_xml x1 s) Hp) as (x2 & Hput & Hpp).
    assert (Hnone : of_family f seen = []) by (apply of_family_none; by rewrite <- Hfam).
    pose proof (protocol_added fps seen (xml s) f p x1 x2 Hst Hps Hf Hnone Hca Hpp) as Hps2.
    destruct (ip_run d p a (set_xml x2 s)) as (x' & Hrun & Hh); [by apply (pp_keeps _ _ _ _ _ _ Hpp)|].
    exists x', p, (fps ++ [(f, p)]). split; [|split; [|split]].
    + unfold add_ip. rewrite (bind_Ret (xget _) _ s None s); [|unfold xget, gets; by rewrite (protocols_absent fps seen)].
      rewrite (bind_Ret _ _ _ _ _ Hnode). rewrite (bind_Ret (on_error _ _) _ (set_xml x1 s) tt (set_xml x' s)); [done|].
      unfold on_error, nonnull at 1. rewrite bind_ret_l. cbn [is_null when]. rewrite (bind_Ret _ _ _ _ _ Hput).
      change (set_xml x2 (set_xml x1 s)) with (set_xml x2 s). by rewrite Hrun.
    + eapply address_added; [done|exact Hps2| |done|done]. apply elem_of_app. right. by left.
    + rewrite fmap_app, Hfam. by rewrite decide_False by (by rewrite <- Hfam).
    + intros g. by apply assoc_snoc.
Qed.

Definition slots (fps : list (string * node)) : option node * option node := (assoc fps "ipv4", assoc fps "ipv6").

Lemma addrs_run d l fps seen s :
  starts -> quiet w s -> protocols fps seen (xml s) -> fps.*1 = families seen ->
  exists x' fps', for_acc l (slots fps) (add_ip_info_cb d root) s = (Ret (slots fps'), set_xml x' s) /\
    protocols fps' (seen ++ l) x' /\ fps'.*1 = families (seen ++ l).
Proof.
  intros Hst. revert fps seen s. induction l as [|a l IH]; intros fps seen s Hs Hps Hfam.
  { exists (xml s), fps. rewrite app_nil_r. by destruct s. }
  assert (Hstep : exists x1 fps1, add_ip_info_cb d root a (slots fps) s = (Ret (slots fps1), set_xml x1 s) /\
    protocols fps1 (seen ++ [a]) x1 /\ fps1.*1 = families (seen ++ [a])).
  { unfold slots at 1. rewrite add_ip_cb. destruct (family_of a) as [f|] eqn:Ha.
    - destruct (add_ip_run d a f fps seen s Hst Hps Hfam Ha) as (x1 & p & fps1 & Hrun & Hps1 & Hfam1 & Hassoc).
      exists x1, fps1. split; [|done].
      assert (Hf : f = "ipv4" \/ f = "ipv6") by (unfold family_of in Ha; repeat case_decide; simplify_eq; auto).
      destruct Hf as [-> | ->]; cbn [decide]; rewrite ?decide_True, ?decide_False by done;
        rewrite (bind_Ret _ _ _ _ _ Hrun); unfold slots; by rewrite !Hassoc.
    - exists (xml s), fps. split; [by destruct s|]. rewrite families_snoc, Ha. split; [|done].
      destruct Hps as [? ? ? ? ? Hnodes]. split; try done. intros f p Hin. rewrite of_family_snoc.
      rewrite decide_False by congruence. rewrite app_nil_r. auto. }
  destruct Hstep as (x1 & fps1 & Hrun & Hps1 & Hfam1).
  destruct (IH fps1 (seen ++ [a]) (set_xml x1 s)) as (x' & fps' & Hrun' & Hps' & Hfam'); [by apply quiet_xml|done..|].
  exists x', fps'. rewrite <- app_assoc in Hps', Hfam'. split; [|done]. cbn [for_acc]. by rewrite (bind_Ret _ _ _ _ _ Hrun).
Qed.

(** The protocols are hung below the root. *)
Lemma protocols_start : starts -> protocols [] [] x0.
Proof.
  intros _. split; [reflexivity|done|done|by rewrite app_nil_r|constructor|]. intros f p Hin. by apply elem_of_nil in Hin.
Qed.

Lemma protocols_hung fps seen x :
  protocols fps seen x -> fps.*1 = families seen -> hung x0 root x (addr_trees seen).
Proof.
  intros [Hk [Hn He] Hp Hc _ Hnodes] Hfam. do 4 (split; [done|]). exists (fps.*2). split; [done|].
  unfold addr_trees. rewrite <- Hfam, <- list_fmap_compose. apply Forall2_fmap. apply Forall_Forall2_diag, Forall_forall.
  intros [f p] Hin. destruct (Hnodes f p Hin) as [Hnew Hname Hel Hprops Hips]. constructor; try done.
  eapply Forall2_impl; [exact Hips|]. intros m t. apply reps_mono. intros m' [? _]. split; [done|apply same_node_refl].
Qed.

Lemma add_ip_info_run i d s : starts -> quiet w s -> xml s = x0 -> rtnl_addr_alloc w = true ->
  hangs (add_ip_info i d root) s tt root (addr_trees (nl_addrs_of i w)).
Proof.
  intros Hst Hs Hx Hf. pose proof (protocols_start Hst) as Hps.
  destruct (addrs_run d (nl_addrs_of i w) [] [] s Hst Hs) as (x' & fps & Hrun & Hps' & Hfam); [by rewrite Hx|done|].
  exists x'. split; [|rewrite Hx; by eapply protocols_hung]. pose proof Hs as [_ _ Hw]. unfold add_ip_info, on_error.
  rewrite (bind_Ret _ _ s true s) by (unfold gets; by rewrite Hw, Hf). unfold ERR_NOMEM, when. cbn [negb]. rewrite bind_ret_l.
  rewrite (bind_Ret _ _ s (nl_addrs_of i w) s) by (unfold gets; by rewrite Hw).
  by rewrite (bind_Ret _ _ _ _ _ Hrun).
Qed.
End code.

(** ** The document *)

Section document.
Context `{Kernel, !Netlink}.

(** The whole description of the interface [name] *)
Definition live_tree (w : sys) (fuel : nat) (name : string) : option xtree :=
  let i := rtnl_link_name2i name w in
  match describe w fuel name i with
  | Some (Elem e props ts) => Some (Elem e props (ts ++ addr_trees (nl_addrs_of i w)))
  | None => None
  end.

Definition elem_name (t : xtree) : string := match t with Elem name _ _ => name end.

Lemma describe_children w fuel name i e props ts t :
  describe w fuel name i = Some (Elem e props ts) -> t ∈ ts -> elem_name t <> "protocol".
Proof.
  destruct fuel as [|fuel]; [done|]. cbn [describe]. intros (ts' & Hts & [= _ _ <-])%fmap_Some Ht.
  destruct (kind w name).
  - injection Hts as <-. by apply elem_of_nil in Ht.
  - injection Hts as <-. unfold mac_trees in Ht. case_match; [by apply elem_of_nil in Ht|].
    by apply list_elem_of_singleton in Ht as ->.
  - unfold bond_trees in Hts. apply fmap_Some in Hts as (l & _ & ->). case_match; [by apply elem_of_nil in Ht|].
    by apply list_elem_of_singleton in Ht as ->.
  - unfold bridge_trees in Hts. apply fmap_Some in Hts as (l & _ & ->). by apply list_elem_of_singleton in Ht as ->.
  - unfold vlan_trees in Hts. case_match; [injection Hts as <-; by apply elem_of_nil in Ht|]. case_match. case_decide; [done|].
    apply fmap_Some in Hts as (u & _ & ->). by apply list_elem_of_singleton in Ht as ->.
Qed.

Context `{!Libxml, !XmlBuild _}.

(** The description of the type leaves no protocol. *)
Lemma starts_built w fuel name i x root x1 e props ts : alive root x ->
  describe w fuel name i = Some (Elem e props ts) -> built x root x1 (Elem e props ts) -> starts root x1.
Proof.
  intros Hr Hd (_ & Ha & _ & _ & _ & Hts). split; [done|]. intros n Hn.
  apply list_elem_of_lookup_1 in Hn as [k Hk]. destruct (Forall2_lookup_l _ _ _ _ _ Hts Hk) as ([en ps us] & Ht & Hreps).
  apply reps_inv in Hreps as ([Hn Hnx] & Hname & _). split; [done|]. split; [by intros ->|]. rewrite Hname.
  apply (describe_children _ _ _ _ _ _ _ _ Hd (list_elem_of_lookup_2 _ _ _ Ht)).
Qed.

Lemma add_state_run fuel p nif d root s c1 w1 c2 w2 t :
  mem s = [] -> err s = NETCF_NOERROR -> ifs s !! p = Some nif ->
  xmlDocGetRootElement (Some d) (xml s) = Some root -> new_element alive "interface" root (xml s) ->
  nl_cache_refill true (world s) = (c1, w1) -> 0 <= c1 -> nl_cache_refill false w1 = (c2, w2) -> 0 <= c2 ->
  rtnl_link_alloc w2 = true -> rtnl_addr_alloc w2 = true -> live_tree w2 fuel (nif_name nif) = Some t ->
  exists x', add_state_to_xml_doc fuel p d s = (Ret tt, set_xml x' (set_world w2 s)) /\ built (xml s) root x' t.
Proof.
  intros Hm Hok Hp Hroot Hnew Hw1 Hc1 Hw2 Hc2 Hfl Hfa Ht. unfold live_tree in Ht.
  set (s2 := set_world w2 s). assert (Hs2 : quiet w2 s2) by done.
  destruct (describe w2 fuel _ _) as [[e props ts]|] eqn:Hd; [|done]. injection Ht as <-.
  pose proof (ne_alive _ _ _ _ Hnew) as Hr.
  destruct (describe_run w2 fuel _ _ _ d root s2 Hfl Hs2 Hnew Hd) as (x1 & Hrun1 & Hb).
  pose proof (starts_built _ _ _ _ _ _ _ _ _ _ Hr Hd Hb) as Hst.
  destruct (add_ip_info_run w2 root x1 (rtnl_link_name2i (nif_name nif) w2) d (set_xml x1 s2) Hst) as (x2 & Hrun2 & Hh);
    [by apply quiet_xml|done|done|].
  exists x2. split; [|by eapply built_hung]. unfold add_state_to_xml_doc, on_error.
  rewrite (bind_Ret _ _ s (Some root) s) by (unfold xget, gets; by rewrite Hroot).
  rewrite (bind_Ret _ _ _ _ _ (ERR_THROW_false _ _ _)). unfold nonnull. rewrite bind_ret_l.
  rewrite (bind_Ret _ _ s "interface" s) by (unfold xget, gets; by rewrite (ne_name _ _ _ _ Hnew)).
  rewrite (bind_Ret _ _ _ _ _ (ERR_THROW_false _ _ _)).
  rewrite (bind_Ret _ _ s c1 (set_world w1 s)) by (unfold syscall; by rewrite Hw1).
  rewrite (proj2 (Z.ltb_ge _ _) Hc1), (bind_Ret _ _ _ _ _ (ERR_THROW_false _ _ _)).
  rewrite (bind_Ret _ _ (set_world w1 s) c2 s2) by (unfold syscall; cbn [world set_world]; by rewrite Hw2).
  rewrite (proj2 (Z.ltb_ge _ _) Hc2), (bind_Ret _ _ _ _ _ (ERR_THROW_false _ _ _)).
  rewrite (bind_Ret _ _ _ _ _ (if_name_ret s2 p nif Hp)). erewrite bind_Ret by done.
  rewrite (bind_Ret _ _ _ _ _ Hrun1). rewrite (bind_Ret _ _ _ _ _ (ERR_BAIL_ok (set_xml x1 s2) Hok)).
  rewrite (bind_Ret _ _ _ _ _ Hrun2). by rewrite (ERR_BAIL_ok (set_xml x2 (set_xml x1 s2)) Hok).
Qed.
End document.

(** ** Properties *)

(** C22: the description of a live interface is the reference [live_tree] of what the
    kernel's files and the refilled netlink caches say: the type of the interface, the
    interfaces below it described in the same way, and its addresses grouped by
    protocol. The document that stands for this tree is printed and the text returned. *)
Theorem live_description `{Kernel, !Netlink, !Libxml, !XmlBuild _} (fuel : nat) (p : nat) (nif : netcf_if)
  (dr : driver) (s : state) (c1 c2 : Z) (w1 w2 : sys) (t : xtree)
  (Hmem : mem s = []) (Hok : err s = NETCF_NOERROR) (Hdr : ncf_driver (ncf s) = Some dr) (Hp : ifs s !! p = Some nif)
  (Hw1 : nl_cache_refill true (world s) = (c1, w1)) (Hc1 : 0 <= c1)
  (Hw2 : nl_cache_refill false w1 = (c2, w2)) (Hc2 : 0 <= c2)
  (Hlink : rtnl_link_alloc w2 = true) (Haddr : rtnl_addr_alloc w2 = true)
  (Ht : live_tree w2 fuel (nif_name nif) = Some t) :
  exists dd root x, xmlDocGetRootElement (Some dd) x = Some root /\ reps x (fun m => alive m x) root t /\
    (drv_xml_state fuel p s).1 =
      Ret (if (xsltSaveResultToString (Some dd) (put dr) x).1 <? 0 then None
           else (xsltSaveResultToString (Some dd) (put dr) x).2).
Proof.
  destruct (new_document "interface" (xml s) ltac:(set_solver)) as (dd & root & x1 & x2 & x3 & Hnewdoc & Hnode & Hset & Hroot & Hne3).
  pose proof (ne_alive _ _ _ _ Hne3) as Hr3.
  destruct (add_state_run fuel p nif dd root (set_xml x3 s) c1 w1 c2 w2 t) as (x & Hrun & Hb); try done.
  exists dd, root, x. split; [by apply Hb|]. split; [by eapply built_reps|].
  unfold drv_xml_state. rewrite (bind_Ret _ _ _ _ _ (xcall_run _ s _ _ Hnewdoc)).
  set (s' := set_xml x (set_world w2 s)).
  assert (Hbody : forall h, on_error
    (d ← nonnull (Some dd);
     oroot ← xcall (xmlNewNode "interface");
     root ← nonnull oroot;
     xcall (fun x => (tt, xmlDocSetRootElement (Some dd) (Some root) x)) ;;
     add_state_to_xml_doc fuel p d ;;
     ERR_BAIL ;;
     dr ← the_driver;
     ' (r, result) ← xget (xsltSaveResultToString (Some dd) (put dr));
     ERR_NOMEM (r <? 0) ;;
     ret result) h (set_xml x1 s)
    = on_error (ERR_NOMEM ((xsltSaveResultToString (Some dd) (put dr) x).1 <? 0) ;;
                ret (xsltSaveResultToString (Some dd) (put dr) x).2) h s').
  { intros h. unfold on_error, nonnull at 1. rewrite bind_ret_l.
    rewrite (bind_Ret _ _ _ _ _ (xcall_run _ (set_xml x1 s) _ _ Hnode)). unfold nonnull. rewrite bind_ret_l.
    rewrite (bind_Ret (xcall _) _ (set_xml x2 (set_xml x1 s)) tt (set_xml x3 s)) by (by rewrite Hset).
    rewrite (bind_Ret _ _ _ _ _ Hrun). change (set_xml x (set_world w2 (set_xml x3 s))) with s'.
    rewrite (bind_Ret _ _ _ _ _ (ERR_BAIL_ok s' Hok)). rewrite (bind_Ret _ _ _ _ _ (the_driver_run s' dr Hdr)).
    rewrite (bind_Ret (xget _) _ s' (xsltSaveResultToString (Some dd) (put dr) x) s') by done.
    by destruct (xsltSaveResultToString (Some dd) (put dr) x). }
  unfold bind at 1. rewrite Hbody. unfold on_error, ERR_NOMEM, when.
  by destruct (_ <? 0).
Qed.

(** A bridge with one port *)
Definition live_if : netcf_if := {| nif_ref := 1; nif_name := "br0"; nif_mac := None |}.
Definition live_start : state (H := toy_host) := set_ifs (H := toy_host) {[ 0%nat := live_if ]} (toy_state toy_os toy_empty).

Lemma live_description_witness :
  exists dd root x, xmlDocGetRootElement (Libxml := toy_libxml) (Some dd) x = Some root /\
    reps (H0 := toy_libxml) x (fun m => alive m x) root
      (Elem "interface" (<["type" := "bridge"]> (<["name" := "br0"]> ∅))
        [Elem "bridge" ∅
          [Elem "interface" (<["type" := "ethernet"]> (<["name" := "eth0"]> ∅))
            [Elem "mac" (<["address" := "52:54:00:1a:ff:01"]> ∅) []]];
         Elem "protocol" (<["family" := "ipv4"]> ∅)
          [Elem "ip" (<["prefix" := "24"]> (<["address" := "192.168.0.5"]> ∅)) []]]) /\
    (drv_xml_state 2 0 live_start).1 =
      Ret (if (xsltSaveResultToString (Libxml := toy_libxml) (Some dd) None x).1 <? 0 then None
           else (xsltSaveResultToString (Libxml := toy_libxml) (Some dd) None x).2).
Proof.
  exact (@live_description toy_host toy_kernel toy_netlink toy_libxml toy_build 2 0 live_if (toy_driver toy_empty) live_start
    0 0 toy_os toy_os _ eq_refl eq_refl eq_refl eq_refl eq_refl ltac:(lia) eq_refl ltac:(lia) eq_refl eq_refl
    ltac:(vm_compute; reflexivity)).
Defined.
