(* ===== verification/RedhatSpec.v ===== *)
(** * What the Red Hat driver computes

    Reference functions over the Augeas tree for the queries of drv_redhat.c,
    the theorems that the code computes them, and the theorems on the order in
    which the driver changes the world. *)

From S2P Require Import Prelude CStr XsltExt State Refs Toy Posix Xml Netcf Linux Common Redhat.

(** ** A loaded tree *)

Section ready.
Context `{Augeas, !Kernel}.
Implicit Types s : state.

(** No error is pending, memory suffices, and the tree [a] is loaded. *)
Record ready (d : driver) (a : aug) s : Prop := {
  rd_ok : err s = NETCF_NOERROR;
  rd_wf : err_wf s;
  rd_mem : mem s = [];
  rd_driver : ncf_driver (ncf s) = Some d;
  rd_augeas : augeas d = Some a;
  rd_load : load_augeas d = false;
  rd_copy : copy_augeas_xfm d = false
}.

(** The answers of the tree. *)
Definition matches (a : aug) (p : string) : list string := default [] (aug_match p a).
Definition value (a : aug) (p : string) : string := default "" (aug_get p a).2.

(** Augeas answers the query: it is a path expression. A name in it that has a quote,
    for one, may spoil it, and then the result of [aug_match] is negative. *)
Definition answers (a : aug) (p : string) : Prop := is_Some (aug_match p a).
Definition answered (a : aug) (p : string) : bool := bool_decide (is_Some (aug_match p a)).

Lemma answered_spec a p : answered a p = true <-> answers a p.
Proof. apply bool_decide_eq_true. Qed.

(** A node that exists and has a value. *)
Definition valued (a : aug) (p : string) : Prop := exists v, aug_get p a = (1, Some v).

Lemma valued_get a p : valued a p -> aug_get p a = (1, Some (value a p)).
Proof. intros [v Hv]. unfold value. by rewrite Hv. Qed.

Context (d : driver) (a : aug) (s : state) (Hs : ready d a s).

Lemma ready_live : aug_live false false s.
Proof. destruct Hs. split; [done|]. by exists d, a. Qed.

Lemma ready_get : get_augeas s = (Ret true, s).
Proof. apply get_augeas_again, ready_live. Qed.

Lemma ready_bail : ERR_BAIL s = (Ret tt, s).
Proof. apply ERR_BAIL_ok, Hs. Qed.

Lemma ready_cond c : ERR_COND_BAIL false c s = (Ret tt, s).
Proof. apply ready_bail. Qed.

Lemma ready_str x : xasprintf x s = (Ret (Some x), s).
Proof. unfold xasprintf, strdup, malloc, bind. by rewrite (rd_mem _ _ _ Hs). Qed.

Lemma ready_strdup x : strdup x s = (Ret (Some x), s).
Proof. apply ready_str. Qed.

Lemma ready_alloc n : ALLOC_N n s = (Ret true, s).
Proof. unfold ALLOC_N, malloc. case_decide; [done|]. by rewrite (rd_mem _ _ _ Hs). Qed.

Lemma ready_ask {A} (f : aug -> A) : ask_aug f s = (Ret (f a), s).
Proof. eapply ask_aug_run; apply Hs. Qed.

Lemma ready_fmt_match p : answers a p -> aug_fmt_match p s = (Ret (Some (matches a p)), s).
Proof.
  intros [l Hl]. unfold aug_fmt_match, on_error.
  rewrite (bind_Ret _ _ _ _ _ ready_get), (bind_Ret _ _ _ _ _ ready_bail).
  rewrite (bind_Ret _ _ _ _ _ (ready_str p)). unfold nonnull. rewrite bind_ret_l.
  rewrite (bind_Ret _ _ _ _ _ (ready_ask _)), Hl. cbn [nmatches].
  rewrite (proj2 (Z.ltb_ge _ 0)) by lia. rewrite (bind_Ret _ _ _ _ _ (ready_cond _)).
  unfold matches. by rewrite Hl.
Qed.

(** An error that has no details *)
Definition refused : state := set_ncf (set_err NETCF_EOTHER (errdetails (ncf s)) (ncf s)) s.

Lemma ready_fmt_refused p : ~ answers a p -> aug_fmt_match p s = (Ret None, refused).
Proof.
  intros Hn. unfold aug_fmt_match, on_error.
  rewrite (bind_Ret _ _ _ _ _ ready_get), (bind_Ret _ _ _ _ _ ready_bail).
  rewrite (bind_Ret _ _ _ _ _ (ready_str p)). unfold nonnull. rewrite bind_ret_l.
  rewrite (bind_Ret _ _ _ _ _ (ready_ask _)). unfold answers in Hn. destruct (aug_match p a); [by destruct Hn|].
  done.
Qed.

Lemma ready_get_mac name :
  aug_get_mac name s
  = (Ret (aug_get ("/files/sys/class/net/" +:+ name +:+ "/address/content") a), s).
Proof.
  unfold aug_get_mac. rewrite (bind_Ret _ _ _ _ _ ready_get).
  rewrite (bind_Ret _ _ s (err s) s) by done. rewrite (rd_ok _ _ _ Hs).
  rewrite decide_False by tauto. rewrite (bind_Ret _ _ _ _ _ (ready_str _)).
  unfold on_error, nonnull. rewrite bind_ret_l. by rewrite ready_ask.
Qed.

(** Is the interface up and running? *)
Definition active (name : string) : bool :=
  match ioctl_ifflags (ioctl_fd d) (ifr_name name) (world s) with
  | None => false
  | Some flags => Z.land flags (Z.lor IFF_UP IFF_RUNNING) =? Z.lor IFF_UP IFF_RUNNING
  end.

Lemma ready_active name : if_is_active name s = (Ret (active name), s).
Proof.
  unfold if_is_active. by rewrite (bind_Ret _ _ _ _ _ (the_driver_run s d (rd_driver _ _ _ Hs))).
Qed.
End ready.

(** Run the next call on a loaded tree. *)
Ltac ready_step Hs :=
  first [ rewrite (bind_Ret _ _ _ _ _ (ready_get _ _ _ Hs))
        | rewrite (bind_Ret _ _ _ _ _ (ready_bail _ _ _ Hs))
        | rewrite (bind_Ret _ _ _ _ _ (ready_cond _ _ _ Hs _))
        | rewrite (bind_Ret _ _ _ _ _ (ready_str _ _ _ Hs _))
        | rewrite (bind_Ret _ _ _ _ _ (ready_strdup _ _ _ Hs _))
        | rewrite (bind_Ret _ _ _ _ _ (ready_alloc _ _ _ Hs _))
        | match goal with
          | |- context [bind (aug_fmt_match ?p) _ _] =>
              let Hq := fresh in
              match type of Hs with ready _ ?a _ => assert (Hq : answers a p) by solve [auto] end;
              rewrite (bind_Ret _ _ _ _ _ (ready_fmt_match _ _ _ Hs p Hq)); clear Hq
          end
        | rewrite (bind_Ret _ _ _ _ _ (ready_get_mac _ _ _ Hs _))
        | rewrite (bind_Ret _ _ _ _ _ (ready_active _ _ _ Hs _))
        | rewrite (bind_Ret _ _ _ _ _ (ready_ask _ _ _ Hs _))
        | progress (rewrite bind_ret_l)
        | progress (unfold nonnull at 1; rewrite bind_ret_l)
        | progress (unfold deref at 1; rewrite bind_ret_l)
        | progress (cbn [negb nmatches matched default id is_null ERR_NOMEM when])
        | rewrite bind_assoc ].

(** ** Where an interface is configured *)

Section find.
Context `{Augeas}.

(** The MAC address of a device, if it has one. *)
Definition sysfs_mac (a : aug) (name : string) : option string :=
  let '(r, m) := aug_get ("/files/sys/class/net/" +:+ name +:+ "/address/content") a in
  if 0 <? r then m else None.

Definition strip_hwaddr (path : string) : string :=
  string_take (String.length path - String.length hwaddr_str) path.

(** The last of the files, in alphabetical order, that carry the address. *)
Definition by_hwaddr (a : aug) (mac : string) : option string :=
  strip_hwaddr <$> last (filter (fun p => STRCASEEQ (value a p) mac = true)
                           (qsort_strings (matches a (ifcfg_path +:+ hwaddr_str)))).

Definition by_device (a : aug) (name : string) : option string :=
  last (qsort_strings (matches a (ifcfg_path +:+ "[DEVICE = '" +:+ name +:+ "']"))).

(** First the file named after the interface, then a file with its address,
    then a file for the device. *)
Definition ifcfg_of (a : aug) (name : string) : option string :=
  let file := network_scripts_path +:+ "/ifcfg-" +:+ name in
  if decide (length (matches a file) = 1%nat) then Some file else
  match sysfs_mac a name ≫= by_hwaddr a with
  | Some p => Some p
  | None => by_device a name
  end%stdpp.

(** Are all queries answered that are made to find the file of [name]? They depend on
    the answers before. *)
Definition find_answered (a : aug) (name : string) : bool :=
  let file := network_scripts_path +:+ "/ifcfg-" +:+ name in
  let device := ifcfg_path +:+ "[DEVICE = '" +:+ name +:+ "']" in
  answered a file &&
  (bool_decide (length (matches a file) = 1%nat) ||
   ((0 <=? (aug_get ("/files/sys/class/net/" +:+ name +:+ "/address/content") a).1) &&
    match sysfs_mac a name with
    | Some mac => answered a (ifcfg_path +:+ hwaddr_str) && (negb (is_null (by_hwaddr a mac)) || answered a device)
    | None => answered a device
    end)).

(** Nodes with a MAC address have a value. *)
Definition hwaddr_valued (a : aug) : Prop := forall p, p ∈ matches a (ifcfg_path +:+ hwaddr_str) -> valued a p.
Definition mac_valued (a : aug) (name : string) : Prop :=
  let '(r, m) := aug_get ("/files/sys/class/net/" +:+ name +:+ "/address/content") a in 0 < r -> is_Some m.
End find.

Section find_run.
Context `{Augeas, !Kernel}.
Context (d : driver) (a : aug) (s : state) (Hs : ready d a s) (Hv : hwaddr_valued a).

Lemma hwaddr_loop mac l found :
  (forall p, p ∈ l -> valued a p) ->
  for_acc l found (hwaddr_step mac) s
  = (Ret match last (filter (fun p => STRCASEEQ (value a p) mac = true) l) with
         | Some p => Some p | None => found end, s).
Proof.
  revert found. induction l as [|p l IH]; intros found Hl; [done|]. cbn [for_acc].
  unfold hwaddr_step at 1. rewrite bind_assoc.
  rewrite (bind_Ret _ _ _ _ _ (ready_ask _ _ _ Hs _)), (valued_get a p) by (apply Hl; by left).
  change (negb (1 =? 1)) with false. repeat ready_step Hs.
  rewrite IH by (intros q Hq; apply Hl; by right). rewrite filter_cons.
  destruct (STRCASEEQ (value a p) mac); [rewrite decide_True by done|by rewrite decide_False].
  rewrite last_cons. by destruct (last _).
Qed.

Lemma by_hwaddr_run mac : answers a (ifcfg_path +:+ hwaddr_str) ->
  find_ifcfg_path_by_hwaddr mac s = (Ret (by_hwaddr a mac), s).
Proof.
  intros Hq. unfold find_ifcfg_path_by_hwaddr, on_error. repeat ready_step Hs.
  rewrite (proj2 (Z.ltb_ge _ 0)) by lia. repeat ready_step Hs.
  erewrite bind_Ret.
  2:{ apply hwaddr_loop. intros p Hp. apply Hv. by rewrite elem_of_qsort in Hp. }
  unfold by_hwaddr. by destruct (last _).
Qed.

Lemma by_device_run name : answers a (ifcfg_path +:+ "[DEVICE = '" +:+ name +:+ "']") ->
  find_ifcfg_path_by_device name s = (Ret (by_device a name), s).
Proof.
  intros Hq. unfold find_ifcfg_path_by_device, on_error. repeat ready_step Hs.
  rewrite (proj2 (Z.ltb_ge _ 0)) by lia. by repeat ready_step Hs.
Qed.

Lemma by_hwaddr_refused mac : ~ answers a (ifcfg_path +:+ hwaddr_str) ->
  find_ifcfg_path_by_hwaddr mac s = (Ret None, refused s).
Proof.
  intros Hq. unfold find_ifcfg_path_by_hwaddr, on_error. repeat ready_step Hs.
  by rewrite (bind_Ret _ _ _ _ _ (ready_fmt_refused d a s Hs _ Hq)).
Qed.

Lemma by_device_refused name : ~ answers a (ifcfg_path +:+ "[DEVICE = '" +:+ name +:+ "']") ->
  find_ifcfg_path_by_device name s = (Ret None, refused s).
Proof.
  intros Hq. unfold find_ifcfg_path_by_device, on_error. repeat ready_step Hs.
  by rewrite (bind_Ret _ _ _ _ _ (ready_fmt_refused d a s Hs _ Hq)).
Qed.

Lemma answers_nmatches p : answers a p -> nmatches (aug_match p a) = Z.of_nat (length (matches a p)).
Proof. intros [l Hl]. unfold matches. by rewrite Hl. Qed.

Lemma refused_nmatches p : answered a p = false -> nmatches (aug_match p a) = -1.
Proof. unfold answered. destruct (aug_match p a); [by rewrite bool_decide_true by (by eexists)|done]. Qed.

Lemma refused_not p : answered a p = false -> ~ answers a p.
Proof. intros Hp Hq%answered_spec. congruence. Qed.

(** The search by device, which comes last *)
Lemma last_try_run name : answers a (ifcfg_path +:+ "[DEVICE = '" +:+ name +:+ "']") ->
  (p ← find_ifcfg_path_by_device name; ERR_BAIL ;; ret p) s = (Ret (by_device a name), s).
Proof. intros Hq. rewrite (bind_Ret _ _ _ _ _ (by_device_run name Hq)). by repeat ready_step Hs. Qed.

Lemma last_try_refused name : answered a (ifcfg_path +:+ "[DEVICE = '" +:+ name +:+ "']") = false ->
  (p ← find_ifcfg_path_by_device name; ERR_BAIL ;; ret p) s = (Bail, refused s).
Proof. intros Hq. by rewrite (bind_Ret _ _ _ _ _ (by_device_refused name (refused_not _ Hq))). Qed.

Lemma find_ifcfg_path_cases name : mac_valued a name ->
  find_ifcfg_path name s = (if find_answered a name then (Ret (ifcfg_of a name), s) else (Ret None, refused s)).
Proof.
  intros Hmac. unfold find_ifcfg_path, find_answered, ifcfg_of, sysfs_mac. unfold on_error at 1. repeat ready_step Hs.
  set (file := network_scripts_path +:+ "/ifcfg-" +:+ name).
  destruct (answered a file) eqn:Hfile; cbn [andb].
  2:{ by rewrite (refused_nmatches _ Hfile). }
  rewrite (answers_nmatches file) by (by apply answered_spec).
  rewrite (proj2 (Z.ltb_ge (Z.of_nat _) 0)) by lia. repeat ready_step Hs.
  case_bool_decide as Hone; [rewrite Hone; by rewrite decide_True|].
  rewrite (proj2 (Z.eqb_neq _ 1)) by lia. rewrite decide_False by done. cbn [orb]. repeat ready_step Hs.
  unfold mac_valued in Hmac. destruct (aug_get _ a) as [r m]. cbn [fst].
  destruct (Z.leb_spec 0 r) as [Hr|Hr]; cbn [andb].
  2:{ by rewrite (proj2 (Z.ltb_lt r 0)). }
  rewrite (proj2 (Z.ltb_ge r 0)) by done. repeat ready_step Hs.
  set (device := ifcfg_path +:+ "[DEVICE = '" +:+ name +:+ "']").
  pose proof (last_try_run name) as Hd. pose proof (last_try_refused name) as Hnd. fold device in Hd, Hnd.
  rewrite <- answered_spec in Hd.
  assert (Hlast : match (p ← find_ifcfg_path_by_device name; ERR_BAIL ;; ret p) s with
                  | (Bail, s') => ret None s' | r => r end
                = if answered a device then (Ret (by_device a name), s) else (Ret None, refused s)).
  { destruct (answered a device); [by rewrite Hd|by rewrite Hnd]. }
  destruct (Z.ltb_spec 0 r) as [Hp|Hp].
  2:{ cbn [mbind option_bind]. repeat ready_step Hs. exact Hlast. }
  destruct (Hmac Hp) as [v ->]. cbn [mbind option_bind]. repeat ready_step Hs.
  destruct (answered a (ifcfg_path +:+ hwaddr_str)) eqn:Hh; cbn [andb].
  2:{ by rewrite (bind_Ret _ _ _ _ _ (by_hwaddr_refused v (refused_not _ Hh))). }
  rewrite (bind_Ret _ _ _ _ _ (by_hwaddr_run v (proj1 (answered_spec _ _) Hh))). repeat ready_step Hs.
  destruct (by_hwaddr a v); [done|exact Hlast].
Qed.

Lemma find_ifcfg_path_run name : mac_valued a name -> find_answered a name = true ->
  find_ifcfg_path name s = (Ret (ifcfg_of a name), s).
Proof. intros Hmac Hf. by rewrite (find_ifcfg_path_cases name Hmac), Hf. Qed.
End find_run.

(** ** Listing *)

Section list_spec.
Context `{Augeas}.

(** The device names in the files, each once, in alphabetical order. *)
Definition devices (a : aug) : list string :=
  qsort_strings (remove_dups (value a <$> matches a (ifcfg_path +:+ "/DEVICE"))).

(** Is the interface configured at [p] part of a bond or a bridge? *)
Definition enslaved (a : aug) (p : string) : bool :=
  existsb (fun k => bool_decide (matches a (p +:+ "/" +:+ k) <> [])) subif_paths.

(** The interfaces to list. *)
Definition toplevel (a : aug) : list string :=
  filter (fun p => enslaved a p = false) (omap (ifcfg_of a) (devices a)).

(** What is asked about the configuration of an interface at [p] is answered. *)
Record config_ok (a : aug) (p : string) : Prop := {
  co_below k : k ∈ "DEVICE" :: subif_paths -> answers a (p +:+ "/" +:+ k);
  co_device m : m ∈ matches a (p +:+ "/DEVICE") -> valued a m
}.

(** What Augeas promises for the queries that a listing makes, on a tree that its
    lenses built: about the files, the devices that the files name, and the places where
    these are configured. *)
Record sane (a : aug) : Prop := {
  sane_devices : answers a (ifcfg_path +:+ "/DEVICE");
  sane_valued p : p ∈ matches a (ifcfg_path +:+ "/DEVICE") -> valued a p;
  sane_hwaddr : hwaddr_valued a;
  sane_mac n : n ∈ devices a -> mac_valued a n;
  sane_find n : n ∈ devices a -> find_answered a n = true;
  sane_config n p : n ∈ devices a -> ifcfg_of a n = Some p -> config_ok a p
}.

(** Every device in a file is found again. *)
Definition findable (a : aug) : Prop :=
  forall p, p ∈ matches a (ifcfg_path +:+ "/DEVICE") -> is_Some (ifcfg_of a (value a p)).
End list_spec.

(** Sorting forgets the order of the elements. *)
Lemma str_le_trans : Transitive str_le.
Proof.
  intros x y z Hxy Hyz. unfold str_le in *. destruct (String.leb x z) eqn:E; [done|].
  exfalso. unfold String.leb in *. destruct (String.compare x z) eqn:C; try done. clear E.
  revert y z C Hxy Hyz. induction x as [|c x IH]; intros [|b y] [|e z]; cbn; try done.
  unfold Ascii.compare. 
  destruct (N.compare_spec (N_of_ascii c) (N_of_ascii e)) as [E1|E1|E1], (N.compare_spec (N_of_ascii c) (N_of_ascii b)) as [E2|E2|E2],
    (N.compare_spec (N_of_ascii b) (N_of_ascii e)) as [E3|E3|E3]; try done; try lia. apply IH.
Qed.

Lemma str_le_antisym x y : str_le x y -> str_le y x -> x = y.
Proof.
  unfold str_le, String.leb. rewrite (String.compare_antisym x y).
  destruct (String.compare y x) eqn:E; cbn; try done. by apply String.compare_eq_iff in E.
Qed.

Lemma sorted_unique l1 l2 :
  StronglySorted str_le l1 -> StronglySorted str_le l2 -> l1 ≡ₚ l2 -> l1 = l2.
Proof.
  revert l2. induction l1 as [|x l1 IH]; intros l2 H1 H2 Hp.
  { by apply Permutation_nil_l in Hp. }
  destruct l2 as [|y l2]; [by apply Permutation_nil_r in Hp|].
  apply StronglySorted_inv in H1 as [H1 F1], H2 as [H2 F2].
  assert (x = y) as ->.
  { assert (x ∈ y :: l2) as Hx by (rewrite <- Hp; by left).
    assert (y ∈ x :: l1) as Hy by (rewrite Hp; by left).
    apply elem_of_cons in Hx as [->|Hx]; [done|]. apply elem_of_cons in Hy as [->|Hy]; [done|].
    rewrite Forall_forall in F1, F2. apply str_le_antisym; auto. }
  f_equal. apply IH; [done..|]. by apply Permutation_cons_inv in Hp.
Qed.

Lemma qsort_perm l1 l2 : l1 ≡ₚ l2 -> qsort_strings l1 = qsort_strings l2.
Proof.
  intros Hp. apply sorted_unique.
  1,2: apply Sorted_StronglySorted; [exact str_le_trans|apply qsort_strings_sorted].
  by rewrite !qsort_strings_perm.
Qed.

Lemma memmove_down_middle {A} (l1 l2 : list A) x :
  memmove_down (length l1) (l1 ++ x :: l2)
  = l1 ++ l2 ++ drop (length l1 + length l2) (l1 ++ x :: l2).
Proof.
  unfold memmove_down. rewrite take_app_length, length_app. cbn [length].
  f_equal. f_equal; [|f_equal; lia]. induction l1; [done|]. cbn. done.
Qed.

Section devnames.
Context `{Augeas, !Kernel}.
Context (d : driver) (a : aug) (s : state) (Hs : ready d a s).

Lemma existsb_STREQ n l : existsb (STREQ n) l = bool_decide (n ∈ l).
Proof.
  induction l as [|x l IH]; [done|]. cbn [existsb]. rewrite IH.
  destruct (STREQ n x) eqn:E; cbn.
  - apply STREQ_eq in E as ->. rewrite bool_decide_true; [done|by left].
  - apply STREQ_neq in E. apply bool_decide_ext. rewrite elem_of_cons. tauto.
Qed.

(** The loop adds what is not there yet. *)
Lemma devnames_loop devs acc : NoDup acc -> (forall p, p ∈ devs -> valued a p) ->
  exists l, for_acc devs acc devname_step s = (Ret l, s) /\ NoDup l /\
    forall x, x ∈ l <-> x ∈ acc \/ x ∈ value a <$> devs.
Proof.
  revert acc. induction devs as [|p devs IH]; intros acc Hnd Hv.
  { exists acc. split; [done|]. split; [done|]. intros x. set_solver. }
  cbn [for_acc]. unfold devname_step at 1. ready_step Hs. ready_step Hs.
  rewrite (valued_get a p) by (apply Hv; by left). change (negb (1 =? 1)) with false.
  repeat ready_step Hs. rewrite existsb_STREQ.
  assert (Hv' : forall q, q ∈ devs -> valued a q) by (intros q Hq; apply Hv; by right).
  case_bool_decide as Hin.
  - destruct (IH acc Hnd Hv') as (l & Hr & Hl & Hx). exists l. split; [done|]. split; [done|].
    intros x. rewrite Hx. cbn. rewrite elem_of_cons. naive_solver.
  - destruct (IH (acc ++ [value a p])) as (l & Hr & Hl & Hx); [|done|].
    { apply NoDup_app. split; [done|]. split; [set_solver|apply NoDup_singleton]. }
    exists l. split; [done|]. split; [done|]. intros x. rewrite Hx. cbn. set_solver.
Qed.
End devnames.

Section list_run.
Context `{Augeas, !Kernel}.
Context (d : driver) (a : aug) (s : state) (Hs : ready d a s) (Ha : sane a).
Let Hdevices := sane_devices a Ha.
Hint Resolve Hdevices : core.

Lemma uniq_paths_run :
  uniq_ifcfg_paths (matches a (ifcfg_path +:+ "/DEVICE")) s = (Ret (Some (ifcfg_of a <$> devices a)), s).
Proof.
  pose proof (sane_valued a Ha) as Hv. set (devs := matches a _) in *. unfold uniq_ifcfg_paths, on_error. repeat ready_step Hs.
  destruct (devnames_loop d a s Hs devs []) as (l & Hr & Hl & Hx); [apply NoDup_nil_2|done|].
  rewrite (bind_Ret _ _ _ _ _ Hr). repeat ready_step Hs.
  assert (Hq : qsort_strings l = devices a).
  { unfold devices. apply qsort_perm, NoDup_Permutation; [done|apply NoDup_remove_dups|].
    intros x. rewrite Hx, elem_of_remove_dups. set_solver. }
  rewrite Hq. erewrite bind_Ret; [|apply (for_map_pure _ _ (ifcfg_of a))]; [done|].
  intros n Hn. rewrite (bind_Ret _ _ _ _ _ (find_ifcfg_path_run d a s Hs (sane_hwaddr a Ha) n
    (sane_mac a Ha n Hn) (sane_find a Ha n Hn))). by repeat ready_step Hs.
Qed.

Lemma list_ifcfg_paths_run : list_ifcfg_paths s = (Ret (Some (ifcfg_of a <$> devices a)), s).
Proof.
  unfold list_ifcfg_paths, on_error. repeat ready_step Hs.
  rewrite (proj2 (Z.ltb_ge _ 0)) by lia. repeat ready_step Hs.
  rewrite (bind_Ret _ _ _ _ _ uniq_paths_run). by repeat ready_step Hs.
Qed.

Lemma toplevel_ok : Forall (config_ok a) (omap (ifcfg_of a) (devices a)).
Proof.
  apply Forall_forall. intros p (n & Hn & Hp)%list_elem_of_omap. by apply (sane_config a Ha n).
Qed.
End list_run.

Section slaves_run.
Context `{Augeas, !Kernel}.
Context (d : driver) (a : aug) (s : state) (Hs : ready d a s).

Lemma is_slave_run p : (forall k, k ∈ subif_paths -> answers a (p +:+ "/" +:+ k)) ->
  exists n, is_slave p s = (Ret n, s) /\ negb (n =? 0) = enslaved a p.
Proof.
  unfold is_slave, enslaved. induction subif_paths as [|k ks IH]; intros Hq; cbn [is_slave_loop existsb];
    [by exists 0|]. assert (answers a (p +:+ "/" +:+ k)) by (apply Hq; by left). repeat ready_step Hs. cbn [nmatches].
  destruct (matches a (p +:+ "/" +:+ k)) as [|m l]; cbn [length];
    [apply IH; intros k' Hk; apply Hq; by right|].
  rewrite (proj2 (Z.eqb_neq _ 0)) by lia. cbn [negb].
  exists (Z.of_nat (S (length l))). split; [done|]. by rewrite (proj2 (Z.eqb_neq _ 0)) by lia.
Qed.

(** The array while the loop runs: what is kept, what is left to look at, and
    what is past the end. *)
Lemma drop_slaves_run fuel kept todo rest :
  (length todo <= fuel)%nat -> Forall (config_ok a) todo ->
  exists tail, drop_slaves fuel (length kept) (length kept + length todo)
    (kept ++ (Some <$> todo) ++ rest) s
  = (Ret ((length kept + length (filter (fun p => enslaved a p = false) todo))%nat,
          kept ++ (Some <$> filter (fun p => enslaved a p = false) todo) ++ tail), s).
Proof.
  revert kept todo rest. induction fuel as [|fuel IH]; intros kept todo rest Hl Hok.
  { destruct todo; [|cbn in Hl; lia]. by exists rest. }
  cbn [drop_slaves]. destruct Hok as [|p todo Hp Hok].
  { rewrite decide_True by (cbn; lia). by exists rest. }
  rewrite decide_False by (cbn; lia). cbn [fmap list_fmap app] in *.
  rewrite list_lookup_middle by done. cbn [mjoin option_join]. repeat ready_step Hs.
  destruct (is_slave_run p) as (n & Hr & Hn); [intros k Hk; apply Hp; by right|]. rewrite (bind_Ret _ _ _ _ _ Hr), Hn.
  rewrite filter_cons. cbn in Hl. destruct (enslaved a p).
  - rewrite decide_False by done. rewrite memmove_down_middle, <- app_assoc.
    cbn [length]. replace (pred (length kept + S (length todo))) with (length kept + length todo)%nat by lia.
    apply (IH kept todo); [lia|done].
  - rewrite decide_True by done. cbn [fmap list_fmap length].
    destruct (IH (kept ++ [Some p]) todo rest ltac:(lia) Hok) as [tail Ht]. exists tail.
    rewrite length_app in Ht. cbn [length] in Ht. rewrite <- !app_assoc in Ht. cbn [app] in *.
    replace (length kept + 1)%nat with (S (length kept)) in Ht by lia.
    replace (length kept + S (length todo))%nat with (S (length kept) + length todo)%nat by lia.
    rewrite Ht. do 3 f_equal. lia.
Qed.
End slaves_run.

Section list_all.
Context `{Augeas, !Kernel}.
Context (d : driver) (a : aug) (s : state) (Hs : ready d a s) (Ha : sane a).

Lemma findable_omap : findable a -> ifcfg_of a <$> devices a = Some <$> omap (ifcfg_of a) (devices a).
Proof.
  intros Hf. assert (Forall (fun n => is_Some (ifcfg_of a n)) (devices a)) as Hall.
  { apply Forall_forall. intros n Hn. unfold devices in Hn.
    apply elem_of_qsort, elem_of_remove_dups, list_elem_of_fmap in Hn as (p & -> & Hp). by apply Hf. }
  induction Hall as [|n l [p Hp] _ IH]; [done|]. cbn. rewrite Hp. cbn. by f_equal.
Qed.

Lemma list_interfaces_run : findable a -> list_interfaces s = (Ret (Some (Some <$> toplevel a)), s).
Proof.
  intros Hf. unfold list_interfaces, on_error. repeat ready_step Hs.
  rewrite (bind_Ret _ _ _ _ _ (list_ifcfg_paths_run d a s Hs Ha)). repeat ready_step Hs.
  rewrite (findable_omap Hf). set (l := omap (ifcfg_of a) (devices a)).
  destruct (drop_slaves_run d a s Hs (length (Some <$> l)) [] l []) as [tail Ht];
    [by rewrite length_fmap|by apply toplevel_ok|].
  cbn [length app Nat.add] in Ht. rewrite app_nil_r in Ht.
  rewrite length_fmap in *. rewrite (bind_Ret _ _ _ _ _ Ht). unfold ret. do 4 f_equal.
  rewrite take_app_length' by (by rewrite length_fmap). done.
Qed.

Lemma toplevel_configs : Forall (config_ok a) (toplevel a).
Proof.
  pose proof (toplevel_ok a Ha) as Hall. unfold toplevel. rewrite Forall_forall in *.
  intros p [_ Hp]%list_elem_of_filter. by apply Hall.
Qed.
End list_all.

(** ** Names *)

Section names_spec.
Context `{Augeas, !Kernel}.

Definition device_at (a : aug) (p : string) : option string :=
  value a <$> last (matches a (p +:+ "/DEVICE")).

(** Do the flags ask for an interface in this state? *)
Definition wanted (flags : Z) (act : bool) : bool :=
  let both := Z.lor NETCF_IFACE_ACTIVE NETCF_IFACE_INACTIVE in
  (Z.land flags both =? both) || (act && has_flag flags NETCF_IFACE_ACTIVE)
  || (negb act && has_flag flags NETCF_IFACE_INACTIVE).

Definition listed (d : driver) (a : aug) (s : state) (flags : Z) (p : string) : option string :=
  match device_at a p with
  | Some n => if wanted flags (active d s n) then Some n else None
  | None => None
  end.

(** The names of the interfaces the flags ask for. *)
Definition names (d : driver) (a : aug) (s : state) (flags : Z) : list string :=
  omap (listed d a s flags) (toplevel a).

Context (d : driver) (a : aug) (s : state) (Hs : ready d a s).

Lemma id_step_run flags p : config_ok a p ->
  exists q, id_step flags "DEVICE" (Some p) s = (Ret q, s) /\
    q = Some <$> listed d a s flags p.
Proof.
  intros Hp. assert (answers a (p +:+ "/" +:+ "DEVICE")) by (apply Hp; by left).
  unfold id_step, listed, device_at. repeat ready_step Hs.
  change ("/" +:+ "DEVICE") with "/DEVICE". pose proof (co_device a p Hp) as Hd.
  destruct (last (matches a (p +:+ "/DEVICE"))) as [m|] eqn:Hl; [|exists None; split; reflexivity].
  cbn [fmap option_fmap option_map].
  apply last_Some_elem_of, Hd in Hl. ready_step Hs. rewrite (valued_get a m Hl).
  change (1 <? 0) with false. repeat ready_step Hs. unfold wanted.
  destruct (_ =? Z.lor _ _); cbn [orb]; repeat ready_step Hs;
    [eexists; split; [reflexivity|done]|].
  eexists. split; [reflexivity|].
  by destruct (active d s (value a m)), (has_flag flags NETCF_IFACE_ACTIVE), (has_flag flags NETCF_IFACE_INACTIVE).
Qed.

(** Counting. *)
Lemma ids_loop_count flags ps q :
  Forall (config_ok a) ps -> 0 <= q -> ids_loop flags "DEVICE" (Some <$> ps) (q + Z.of_nat (length ps)) q None s
  = (Ret (q + Z.of_nat (length (omap (listed d a s flags) ps)), None), s).
Proof.
  intros Hok. assert (Hgo : forall m q, 0 <= q -> q + Z.of_nat (length ps) <= m ->
    ids_loop flags "DEVICE" (Some <$> ps) m q None s
    = (Ret (q + Z.of_nat (length (omap (listed d a s flags) ps)), None), s)).
  2:{ intros Hq. by apply Hgo. }
  induction Hok as [|p ps Hp _ IH]; intros m r Hr Hle; cbn -[Z.of_nat].
  { by rewrite Z.add_0_r. }
  cbn [length] in Hle. rewrite (proj2 (Z.ltb_lt r m)) by lia. cbn [negb].
  destruct (id_step_run flags p Hp) as (o & Ho & ->).
  erewrite bind_Ret; [|apply on_error_Ret; by rewrite (bind_Ret _ _ _ _ _ Ho)].
  destruct (listed d a s flags p); cbn [fmap option_fmap option_map].
  - rewrite IH by lia. cbn [length]. do 3 f_equal. lia.
  - by rewrite IH by lia.
Qed.

(** Filling the array. *)
Lemma ids_loop_fill flags ps got k : Forall (config_ok a) ps ->
  ids_loop flags "DEVICE" (Some <$> ps) (Z.of_nat (length got + k)) (Z.of_nat (length got))
    (Some ((Some <$> got) ++ replicate k None)) s
  = (let l := omap (listed d a s flags) ps in
     (Ret (Z.of_nat (length got + min k (length l)),
           Some ((Some <$> got ++ take k l) ++ replicate (k - length l) None)), s)).
Proof.
  intros Hok. revert got k. induction Hok as [|p ps Hp _ IH]; intros got k.
  { cbn. by rewrite take_nil, app_nil_r, Nat.sub_0_r, Nat.min_0_r, Nat.add_0_r. }
  cbn -[Z.of_nat min take]. destruct k as [|k].
  { rewrite (proj2 (Z.ltb_ge _ _)) by lia. cbn. by rewrite !app_nil_r, Nat.add_0_r. }
  rewrite (proj2 (Z.ltb_lt _ _)) by lia. cbn [negb].
  destruct (id_step_run flags p Hp) as (o & Ho & ->).
  erewrite bind_Ret; [|apply on_error_Ret; by rewrite (bind_Ret _ _ _ _ _ Ho)].
  destruct (listed d a s flags p) as [n|]; cbn [fmap option_fmap option_map]; [|apply (IH got (S k))].
  repeat ready_step Hs. rewrite Nat2Z.id. cbn [replicate].
  rewrite insert_app_r_alt by (rewrite length_fmap; lia). rewrite length_fmap, Nat.sub_diag. cbn [insert list_insert].
  rewrite cons_middle, app_assoc. change [Some n] with (Some <$> [n]). rewrite <- fmap_app.
  specialize (IH (got ++ [n]) k). rewrite length_app in IH. cbn [length] in IH.
  replace (Z.of_nat (length got) + 1) with (Z.of_nat (length got + 1)) by lia.
  replace (length got + S k)%nat with (length got + 1 + k)%nat by lia. rewrite IH.
  cbn [length take Nat.sub]. rewrite <- app_assoc. cbn [app]. do 3 f_equal. lia.
Qed.

Context (Ha : sane a) (Hf : findable a).

Lemma num_run flags : drv_num_of_interfaces flags s = (Ret (Z.of_nat (length (names d a s flags))), s).
Proof.
  unfold drv_num_of_interfaces, list_interface_ids. unfold bind at 1, on_error.
  repeat ready_step Hs. rewrite (bind_Ret _ _ _ _ _ (list_interfaces_run d a s Hs Ha Hf)).
  repeat ready_step Hs. rewrite length_fmap.
  pose proof (ids_loop_count flags (toplevel a) 0 (toplevel_configs a Ha) ltac:(done)) as Hr. rewrite !Z.add_0_l in Hr.
  by rewrite Hr.
Qed.

Lemma list_run n flags : 0 <= n ->
  drv_list_interfaces n flags s =
  (let l := names d a s flags in let k := Z.to_nat n in
   (Ret (Z.of_nat (min k (length l)), (Some <$> take k l) ++ replicate (k - length l) None), s)).
Proof.
  intros Hn. unfold drv_list_interfaces, list_interface_ids. unfold bind at 1, on_error.
  repeat ready_step Hs. rewrite (bind_Ret _ _ _ _ _ (list_interfaces_run d a s Hs Ha Hf)).
  repeat ready_step Hs. pose proof (ids_loop_fill flags (toplevel a) [] (Z.to_nat n) (toplevel_configs a Ha)) as Hr.
  cbn [length Nat.add] in Hr. rewrite Z2Nat.id in Hr by done.
  change (Z.of_nat 0) with 0 in Hr. cbn [fmap list_fmap app] in Hr. by rewrite Hr.
Qed.
End names_spec.

(** ** Bringing interfaces up and down *)

Section order.
Context `{Augeas, !Kernel, !Posix, !RedhatConfig}.
Implicit Types s : state.

(** The program succeeds for each of the names, one after the other. *)
Inductive runs (prog : string) : list string -> state -> state -> Prop :=
| runs_nil s : runs prog [] s s
| runs_cons n l s s1 s2 :
    run1 prog n s = (Ret tt, s1) -> err s1 = NETCF_NOERROR -> runs prog l s1 s2 ->
    runs prog (n :: l) s s2.

(** What a program does outside leaves the driver alone. *)
Definition keeps s s' : Prop :=
  ncf_driver (ncf s') = ncf_driver (ncf s) /\ (mem s = [] -> mem s' = []).

#[global] Instance keeps_preorder : PreOrder keeps.
Proof. split; unfold keeps; [done|]. intros x y z [] []. split; [congruence|auto]. Qed.

Lemma keeps_malloc : pres keeps malloc.
Proof. intros s. unfold malloc, keeps. destruct (mem s) eqn:E; cbn; [auto|]. by split. Qed.
Hint Resolve keeps_malloc : pres.
Hint Extern 1 (keeps _ _) => split; [reflexivity|intros ?; assumption] : pres.
Lemma keeps_strdup x : pres keeps (strdup x).
Proof. unfold strdup. pres_auto. Qed.
Hint Resolve keeps_strdup : pres.
Lemma keeps_xasprintf x : pres keeps (xasprintf x).
Proof. apply keeps_strdup. Qed.
Lemma keeps_vreport c m : pres keeps (vreport_error c m).
Proof. unfold vreport_error, set_errcode. pres_auto. Qed.
Hint Resolve keeps_vreport : pres.
Lemma keeps_report c m : pres keeps (report_error c m).
Proof. apply keeps_vreport. Qed.
Hint Resolve keeps_xasprintf keeps_report : pres.
Lemma keeps_ERR_THROW b c m : pres keeps (ERR_THROW b c m).
Proof. unfold ERR_THROW. pres_auto. Qed.
Lemma keeps_ERR_NOMEM b : pres keeps (ERR_NOMEM b).
Proof. unfold ERR_NOMEM, set_errcode. pres_auto. Qed.
Lemma keeps_ERR_BAIL : pres keeps ERR_BAIL.
Proof. unfold ERR_BAIL. pres_auto. Qed.
Lemma keeps_ERR_COND_BAIL b c : pres keeps (ERR_COND_BAIL b c).
Proof. unfold ERR_COND_BAIL, ERR_COND, set_errcode. pose proof keeps_ERR_BAIL. pres_auto. Qed.
Lemma keeps_nonnull {A} (o : option A) : pres keeps (nonnull o).
Proof. unfold nonnull. pose proof keeps_ERR_NOMEM. pres_auto. Qed.
Lemma keeps_syscall {A} (f : sys -> A * sys) : pres keeps (syscall f).
Proof. intros s. unfold syscall. by destruct (f (world s)). Qed.
Hint Resolve keeps_ERR_THROW keeps_ERR_NOMEM keeps_ERR_BAIL keeps_ERR_COND_BAIL keeps_nonnull
  keeps_syscall : pres.
Lemma keeps_run1 prog arg : pres keeps (run1 prog arg).
Proof.
  unfold run1, run_program, collect_child, check_status, exec_program, exec_child, close_fd,
    argv_to_string, printf. pres_auto.
Qed.
Hint Resolve keeps_run1 : pres.

Lemma keeps_ready s s' d a : ready d a s -> keeps s s' -> err_keep s s' -> err s' = NETCF_NOERROR ->
  ready d a s'.
Proof. intros [? ? ? ? ? ? ?] [Hd Hm] [Hk _] He. split; auto; congruence. Qed.

Lemma ready_run1 s s' d a prog n : ready d a s -> run1 prog n s = (Ret tt, s') ->
  err s' = NETCF_NOERROR -> ready d a s'.
Proof.
  intros Hs Hr He. pose proof (keeps_run1 prog n s) as Hk. rewrite Hr in Hk.
  assert (pres steady (run1 prog n)) as Hst by auto with pres.
  specialize (Hst s). rewrite Hr in Hst. destruct Hst as [He' _]. by apply (keeps_ready s).
Qed.

Lemma runs_ready prog l s s' d a : runs prog l s s' -> ready d a s -> ready d a s'.
Proof. induction 1 as [|n l s s1 s2 Hr He _ IH]; [done|]. intros Hs. by eapply IH, ready_run1. Qed.

Lemma runs_app prog l1 l2 s s' :
  runs prog (l1 ++ l2) s s' <-> exists s1, runs prog l1 s s1 /\ runs prog l2 s1 s'.
Proof.
  revert s. induction l1 as [|n l1 IH]; intros s; cbn.
  - split; [intros ?; exists s; by split; [constructor|]|]. intros (s1 & Hr & ?). by inversion Hr.
  - split.
    + inversion 1; subst. destruct (proj1 (IH _) ltac:(eassumption)) as (s2 & ? & ?).
      exists s2. split; [by econstructor|done].
    + intros (s1 & Hr & ?). inversion Hr; subst. econstructor; [eassumption..|]. apply IH. eauto.
Qed.

(** The loop over the slaves, when all goes well and when one of them fails. *)
Definition slave_body (prog : string) (o : option string) : M unit :=
  slave ← deref o; run1 prog slave ;; ERR_BAIL.

Lemma slaves_ok prog l s s' : runs prog l s s' ->
  for_each (Some <$> l) (slave_body prog) s = (Ret tt, s').
Proof.
  induction 1 as [|n l s s1 s2 Hr He _ IH]; [done|]. cbn [fmap list_fmap for_each].
  erewrite bind_Ret; [exact IH|]. unfold slave_body, deref. rewrite bind_ret_l.
  rewrite (bind_Ret _ _ _ _ _ Hr). by apply ERR_BAIL_ok.
Qed.

Lemma slaves_fail prog l1 x l2 s s1 s2 : runs prog l1 s s1 -> run1 prog x s1 = (Ret tt, s2) ->
  failed s2 -> for_each (Some <$> l1 ++ x :: l2) (slave_body prog) s = (Bail, s2).
Proof.
  intros Hr Hx Hf. revert Hx. induction Hr as [s|n l s s0 s1 Hn He _ IH]; intros Hx;
    cbn [app fmap list_fmap for_each].
  - apply bind_Bail. unfold slave_body, deref. rewrite bind_ret_l, (bind_Ret _ _ _ _ _ Hx).
    unfold ERR_BAIL, bind, gets. by rewrite decide_False.
  - erewrite bind_Ret; [by apply IH|]. unfold slave_body, deref.
    rewrite bind_ret_l, (bind_Ret _ _ _ _ _ Hn). by apply ERR_BAIL_ok.
Qed.
End order.

#[export] Hint Extern 1 (keeps _ _) => split; [reflexivity|intros ?; assumption] : pres.
#[export] Hint Resolve keeps_malloc keeps_strdup keeps_xasprintf keeps_vreport keeps_report keeps_ERR_THROW
  keeps_ERR_NOMEM keeps_ERR_BAIL keeps_ERR_COND_BAIL keeps_nonnull keeps_syscall keeps_run1 : pres.

(** ** Bridges and their ports *)

Section ports.
Context `{Augeas, !Kernel, !Posix, !RedhatConfig}.

Definition bridge (a : aug) (name : string) : bool :=
  bool_decide (matches a (ifcfg_path +:+ "[ DEVICE = '" +:+ name +:+ "' and TYPE = 'Bridge']") <> []).

Definition bridge_ports (a : aug) (name : string) : list string :=
  value a <$> matches a (ifcfg_path +:+ "[ BRIDGE = '" +:+ name +:+ "' ]/DEVICE").

(** No word that [bridge_slaves] reads above its caller's variable is null. *)
Definition stack_clear (n : nat) : bool := forallb (fun i => negb (stack_word_null i)) (seq 0 n).

(** The order in which ifup is run. *)
Definition up_order (a : aug) (name : string) : list string :=
  (if bridge a name then bridge_ports a name else []) ++ [name].

(** The order in which ifdown is run. *)
Definition down_order (a : aug) (name : string) : list string :=
  name :: (if bridge a name then bridge_ports a name else []).

(** The two queries about the bridge [name] are answered. *)
Record bridge_ok (a : aug) (name : string) : Prop := {
  bo_bridge : answers a (ifcfg_path +:+ "[ DEVICE = '" +:+ name +:+ "' and TYPE = 'Bridge']");
  bo_ports : answers a (ifcfg_path +:+ "[ BRIDGE = '" +:+ name +:+ "' ]/DEVICE");
  bo_valued m : m ∈ matches a (ifcfg_path +:+ "[ BRIDGE = '" +:+ name +:+ "' ]/DEVICE") -> valued a m
}.

Section run.
Context (d : driver) (a : aug) (s : state) (Hs : ready d a s).
Hint Resolve bo_bridge bo_ports : core.

Lemma is_bridge_run name : bridge_ok a name -> is_bridge name s = (Ret (bridge a name), s).
Proof.
  intros Hb. unfold is_bridge, bridge. repeat ready_step Hs. unfold ret.
  destruct (matches a _) as [|m l]; [done|]. cbn [nmatches length].
  rewrite bool_decide_true by done. by rewrite (proj2 (Z.ltb_lt _ _)) by lia.
Qed.

Lemma slaves_loop_run l i : (forall p, p ∈ l -> valued a p) ->
  slaves_loop i l s =
  (if forallb (fun i => negb (stack_word_null i)) (seq i (length l))
   then (Ret (Some <$> (value a <$> l)), s)
   else (Bail, set_ncf (set_err NETCF_ENOMEM (errdetails (ncf s)) (ncf s)) s)).
Proof.
  revert i. induction l as [|p l IH]; intros i Hv; [done|].
  cbn [slaves_loop length seq forallb]. ready_step Hs. rewrite (valued_get a p) by (apply Hv; by left).
  change (1 <? 0) with false. repeat ready_step Hs.
  destruct (stack_word_null i); cbn [negb andb]; [done|]. repeat ready_step Hs.
  unfold bind. rewrite (IH (S i)) by (intros q Hq; apply Hv; by right).
  by destruct (forallb _ _).
Qed.

Lemma bridge_slaves_run name : bridge_ok a name ->
  bridge_slaves name s =
  (if stack_clear (length (bridge_ports a name))
   then (Ret (Some (Some <$> bridge_ports a name)), s)
   else (Ret None, set_ncf (set_err NETCF_ENOMEM (errdetails (ncf s)) (ncf s)) s)).
Proof.
  intros Hb. unfold bridge_slaves, on_error. repeat ready_step Hs. unfold bind at 1.
  rewrite slaves_loop_run by apply Hb.
  unfold stack_clear, bridge_ports. rewrite length_fmap. by destruct (forallb _ _).
Qed.

Lemma run_slaves_run prog name : bridge_ok a name -> stack_clear (length (bridge_ports a name)) = true ->
  run_slaves prog name s = for_each (Some <$> bridge_ports a name) (slave_body prog) s.
Proof.
  intros Hok Hc. unfold run_slaves. pose proof (bridge_slaves_run name Hok) as Hb. rewrite Hc in Hb.
  rewrite (bind_Ret _ _ _ _ _ Hb). by repeat ready_step Hs.
Qed.
End run.
End ports.

Section up_down.
Context `{Augeas, !Kernel, !Posix, !RedhatConfig}.
Context (d : driver) (a : aug) (s : state) (p : nat) (nif : netcf_if).
Context (Hs : ready d a s) (Ha : bridge_ok a (nif_name nif)) (Hp : ifs s !! p = Some nif).
Let name := nif_name nif.
Let ports := if bridge a name then bridge_ports a name else [].
Context (Hc : stack_clear (length ports) = true).

Lemma if_name_run : if_name p s = (Ret name, s).
Proof. by apply (if_name_ret s p nif). Qed.

(** The slaves of a bridge, in a state that still has the same tree. *)
Lemma when_slaves prog s0 : ready d a s0 ->
  when (bridge a name) (run_slaves prog name) s0 = for_each (Some <$> ports) (slave_body prog) s0.
Proof.
  intros Hr0. subst ports. destruct (bridge a name) eqn:Hb; [|done]. cbn [when].
  by apply (run_slaves_run d a s0 Hr0).
Qed.

Lemma if_up_ok s' : runs "ifup" (ports ++ [name]) s s' ->
  drv_if_up p s =
  (if active d s' name then (Ret 0, s')
   else (Ret (-1), (report_error NETCF_EOTHER ("interface " +:+ name +:+
           " failed to become active - possible disconnected cable.") s').2)).
Proof.
  intros Hr. pose proof (runs_ready _ _ _ _ d a Hr Hs) as Hs'.
  apply runs_app in Hr as (s1 & Hr1 & Hr2). pose proof (runs_ready _ _ _ _ d a Hr1 Hs) as Hs1.
  inversion Hr2 as [|? ? ? ? ? Hn He Hnil]; subst. inversion Hnil; subst.
  unfold drv_if_up. rewrite (bind_Ret _ _ _ _ _ if_name_run). unfold on_error.
  rewrite (bind_Ret _ _ _ _ _ (is_bridge_run d a s Hs name Ha)).
  rewrite (bind_Ret _ _ s tt s1) by (rewrite when_slaves by done; by apply slaves_ok).
  rewrite (bind_Ret _ _ _ _ _ Hn). repeat ready_step Hs'.
  destruct (active d s' name) eqn:Hact; cbn [negb]; [done|].
  unfold ERR_THROW, when, bind at 1. unfold bind at 1.
  destruct (report_error_total NETCF_EOTHER ("interface " +:+ name +:+
    " failed to become active - possible disconnected cable.") s' (rd_wf _ _ _ Hs') ltac:(done))
    as (s2 & Hr & _). fold name. by rewrite Hr.
Qed.

Lemma if_up_fail l1 x l2 s1 s2 : ports ++ [name] = l1 ++ x :: l2 -> runs "ifup" l1 s s1 ->
  run1 "ifup" x s1 = (Ret tt, s2) -> failed s2 -> drv_if_up p s = (Ret (-1), s2).
Proof.
  intros Heq Hr Hx Hf. unfold drv_if_up. rewrite (bind_Ret _ _ _ _ _ if_name_run). unfold on_error.
  rewrite (bind_Ret _ _ _ _ _ (is_bridge_run d a s Hs name Ha)).
  destruct l2 as [|y l2 _] using rev_ind.
  - apply app_inj_tail in Heq as [<- <-].
    rewrite (bind_Ret _ _ s tt s1) by (rewrite when_slaves by done; by apply slaves_ok).
    rewrite (bind_Ret _ _ _ _ _ Hx). unfold ERR_BAIL, bind, gets. by rewrite decide_False.
  - rewrite app_comm_cons, app_assoc in Heq. apply app_inj_tail in Heq as [Heq _].
    erewrite bind_Bail; [done|]. rewrite when_slaves, Heq by done. by eapply slaves_fail.
Qed.

Lemma if_down_ok s' : runs "ifdown" (name :: ports) s s' -> drv_if_down p s = (Ret 0, s').
Proof.
  inversion 1 as [|? ? ? s1 ? Hn He Hr]; subst. pose proof (ready_run1 _ _ d a _ _ Hs Hn He) as Hs1.
  unfold drv_if_down. rewrite (bind_Ret _ _ _ _ _ if_name_run). unfold on_error.
  rewrite (bind_Ret _ _ _ _ _ Hn). repeat ready_step Hs1.
  rewrite (bind_Ret _ _ _ _ _ (is_bridge_run d a s1 Hs1 name Ha)).
  by rewrite (bind_Ret _ _ s1 tt s') by (rewrite when_slaves by done; by apply slaves_ok).
Qed.

Lemma if_down_fail l1 x l2 s1 s2 : name :: ports = l1 ++ x :: l2 -> runs "ifdown" l1 s s1 ->
  run1 "ifdown" x s1 = (Ret tt, s2) -> failed s2 -> drv_if_down p s = (Ret (-1), s2).
Proof.
  intros Heq Hr Hx Hf. unfold drv_if_down. rewrite (bind_Ret _ _ _ _ _ if_name_run). unfold on_error.
  destruct l1 as [|n l1]; cbn in Heq; injection Heq as Hn Heq.
  - subst x. inversion Hr; subst. rewrite (bind_Ret _ _ _ _ _ Hx).
    unfold ERR_BAIL, bind, gets. by rewrite decide_False.
  - subst n. inversion Hr as [|? ? ? s0 ? Hn0 He Hr']; subst.
    pose proof (ready_run1 _ _ d a _ _ Hs Hn0 He) as Hs0. rewrite (bind_Ret _ _ _ _ _ Hn0).
    repeat ready_step Hs0. rewrite (bind_Ret _ _ _ _ _ (is_bridge_run d a s0 Hs0 name Ha)).
    erewrite bind_Bail; [done|]. rewrite when_slaves, Heq by done. by eapply slaves_fail.
Qed.
End up_down.

(** ** A bridge with one port, for the witnesses *)

Definition toy_ifcfg (n : string) : string := network_scripts_path +:+ "/ifcfg-" +:+ n.

Definition toy_net : toy_aug :=
  {| t_match :=
       [(ifcfg_path +:+ "/DEVICE", [toy_ifcfg "eth0/DEVICE"; toy_ifcfg "br0/DEVICE"]);
        (toy_ifcfg "br0", [toy_ifcfg "br0"]);
        (ifcfg_path +:+ hwaddr_str, [toy_ifcfg "eth0/HWADDR"]);
        (toy_ifcfg "eth0/BRIDGE", [toy_ifcfg "eth0/BRIDGE"]);
        (toy_ifcfg "br0/DEVICE", [toy_ifcfg "br0/DEVICE"]);
        (ifcfg_path +:+ "[ DEVICE = 'br0' and TYPE = 'Bridge']", [toy_ifcfg "br0"]);
        (ifcfg_path +:+ "[ BRIDGE = 'br0' ]/DEVICE", [toy_ifcfg "eth0/DEVICE"]);
        ("/files/sys/class/net/*[address/content = '52:54:00:1a:ff:01']",
         ["/files/sys/class/net/br0"; "/files/sys/class/net/eth1"]);
        (ifcfg_path +:+ "[ DEVICE = 'br0'    or BRIDGE = 'br0'    or MASTER = 'br0'    or MASTER = ../*[BRIDGE = 'br0']/DEVICE ]/DEVICE",
         [toy_ifcfg "br0/DEVICE"; toy_ifcfg "eth0/DEVICE"])];
     t_value :=
       [(toy_ifcfg "eth0/DEVICE", "eth0"); (toy_ifcfg "br0/DEVICE", "br0");
        (toy_ifcfg "eth0/HWADDR", "52:54:00:1A:FF:01"); (toy_ifcfg "eth0/BRIDGE", "br0");
        (toy_ifcfg "br0", ""); ("/files/sys/class/net/br0", ""); ("/files/sys/class/net/eth1", "");
        ("/files/sys/class/net/eth0/address/content", "52:54:00:1a:ff:01")];
     t_ops := [] |}.

Lemma assoc_In {A} (l : list (string * A)) k v : assoc l k = Some v -> (k, v) ∈ l.
Proof.
  induction l as [|[k' v'] l IH]; [done|]. cbn. destruct (STREQ k k') eqn:E.
  - apply STREQ_eq in E as ->. intros [= ->]. by left.
  - intros Hl. right. by apply IH.
Qed.

(** A tree all of whose matched nodes have values behaves. *)
Lemma toy_valued (a : toy_aug) :
  Forall (fun kv => Forall (fun m => is_Some (assoc (t_value a) m)) kv.2) (t_match a) ->
  forall p m, m ∈ matches (H0 := toy_augeas) a p -> valued (H0 := toy_augeas) a m.
Proof.
  intros Hall p m Hm. unfold matches, aug_match in Hm. cbn in Hm.
  destruct (toy_balanced p); [|by apply not_elem_of_nil in Hm].
  destruct (assoc (t_match a) p) as [l|] eqn:El; [|by apply not_elem_of_nil in Hm].
  apply assoc_In in El. rewrite Forall_forall in Hall. specialize (Hall _ El). cbn in Hall, Hm.
  rewrite Forall_forall in Hall. destruct (Hall m Hm) as [v Hv]. exists v. unfold aug_get. cbn. by rewrite Hv.
Defined.

Lemma toy_answers (a : toy_aug) p : toy_balanced p = true -> answers (H0 := toy_augeas) a p.
Proof. intros Hp. unfold answers, aug_match. cbn. rewrite Hp. by eexists. Defined.

Lemma toy_mac_valued (a : toy_aug) n : mac_valued (H0 := toy_augeas) a n.
Proof. unfold mac_valued, aug_get. cbn. by destruct (assoc _ _). Defined.

(** What is to be shown of each element of a list that can be computed *)
Lemma each_elem {A} (P : A -> Prop) l l' : l = l' -> Forall P l' -> forall x, x ∈ l -> P x.
Proof. intros -> Hl. by apply Forall_forall. Defined.

Definition toy_up : state (H := toy_host) :=
  (make_netcf_if "br0" (toy_state toy_os toy_net)).2.

Lemma toy_ready (s : state) : s = toy_state toy_os toy_net \/ s = toy_up ->
  ready (H := toy_host) (toy_driver toy_net) toy_net s.
Proof. intros [-> | ->]; split; try reflexivity; intros _; reflexivity. Defined.

Lemma toy_net_valued :
  Forall (fun kv => Forall (fun m => is_Some (assoc (t_value toy_net) m)) kv.2) (t_match toy_net).
Proof. repeat constructor; vm_compute; eexists; reflexivity. Defined.

Lemma toy_net_devices : devices (H0 := toy_augeas) toy_net = ["br0"; "eth0"].
Proof. vm_compute. reflexivity. Defined.

Lemma toy_net_sane : sane (H0 := toy_augeas) toy_net.
Proof.
  pose proof (toy_valued toy_net toy_net_valued) as Hv. split.
  - by apply toy_answers.
  - exact (Hv _).
  - exact (Hv _).
  - intros n _. apply toy_mac_valued.
  - apply (each_elem _ _ _ toy_net_devices). repeat constructor.
  - intros n p Hn. revert n Hn p.
    apply (each_elem (fun n => forall p, ifcfg_of (H0 := toy_augeas) toy_net n = Some p -> config_ok (H0 := toy_augeas) toy_net p) _ _ toy_net_devices).
    apply Forall_cons; split; [|apply Forall_cons; split; [|by apply Forall_nil]]; intros p Hp; vm_compute in Hp; injection Hp as <-;
      (split; [apply (proj1 (Forall_forall _ ("DEVICE" :: subif_paths))); repeat constructor; by apply toy_answers|exact (Hv _)]).
Defined.

Lemma toy_bridge_ok : bridge_ok (H0 := toy_augeas) toy_net "br0".
Proof.
  split; [by apply toy_answers..|]. exact (toy_valued toy_net toy_net_valued _).
Defined.

(** ** Properties *)

(** C17: the configuration of an interface is the file named after it, or else the
    last file with its MAC address, or else the last file for its device, and looking it
    up changes nothing; a name for which one of the queries made is no path expression
    (say, since it has a quote) or whose address cannot be asked for has none, and the
    error is EOTHER. *)
Theorem find_ifcfg_path_spec `{Augeas, !Kernel} (d : driver) (a : aug) (name : string) (s : state)
  (Hs : ready d a s) (Hv : hwaddr_valued a) (Hmac : mac_valued a name) :
  if find_answered a name then find_ifcfg_path name s = (Ret (ifcfg_of a name), s)
  else exists s', find_ifcfg_path name s = (Ret None, s') /\ err s' = NETCF_EOTHER.
Proof.
  rewrite (find_ifcfg_path_cases d a s Hs Hv name Hmac).
  destruct (find_answered a name); [done|by eexists].
Qed.

Lemma find_ifcfg_path_spec_witness :
  find_ifcfg_path "eth0" (toy_state toy_os toy_net)
    = (Ret (Some (toy_ifcfg "eth0")), toy_state toy_os toy_net) /\
  exists s', find_ifcfg_path "eth'0" (toy_state toy_os toy_net) = (Ret None, s') /\ err s' = NETCF_EOTHER.
Proof.
  pose proof (fun n => @find_ifcfg_path_spec toy_host toy_augeas toy_kernel (toy_driver toy_net) toy_net n
    _ (toy_ready _ (or_introl eq_refl)) (toy_valued toy_net toy_net_valued _) (toy_mac_valued toy_net n)) as Hf.
  split; [exact (Hf "eth0")|exact (Hf "eth'0")].
Defined.

(** C12: [drv_num_of_interfaces] counts, and [drv_list_interfaces] lists in order
    and up to the size of the array, the names of exactly those configured
    interfaces that are not slaves and whose state the flags ask for; the rest of
    the array is NULL. *)
Theorem list_interfaces_spec `{Augeas, !Kernel} (d : driver) (a : aug) (s : state) (n flags : Z)
  (Hs : ready d a s) (Ha : sane a) (Hf : findable a) (Hn : 0 <= n) :
  let l := names d a s flags in let k := Z.to_nat n in
  drv_num_of_interfaces flags s = (Ret (Z.of_nat (length l)), s) /\
  drv_list_interfaces n flags s =
    (Ret (Z.of_nat (min k (length l)), (Some <$> take k l) ++ replicate (k - length l) None), s).
Proof. split; [by apply num_run|by apply list_run]. Qed.

Lemma toy_findable : findable (H0 := toy_augeas) toy_net.
Proof.
  intros p Hp. unfold matches in Hp. cbn in Hp.
  apply elem_of_cons in Hp as [->|Hp]; [vm_compute; by eexists|].
  apply list_elem_of_singleton in Hp as ->. vm_compute. by eexists.
Defined.

Lemma list_interfaces_spec_witness :
  drv_num_of_interfaces NETCF_IFACE_ACTIVE (toy_state toy_os toy_net)
    = (Ret 1, toy_state toy_os toy_net) /\
  drv_list_interfaces 2 NETCF_IFACE_ACTIVE (toy_state toy_os toy_net)
    = (Ret (1, [Some "br0"; None]), toy_state toy_os toy_net).
Proof.
  exact (@list_interfaces_spec toy_host toy_augeas toy_kernel (toy_driver toy_net) toy_net _ 2
    NETCF_IFACE_ACTIVE (toy_ready _ (or_introl eq_refl)) toy_net_sane toy_findable ltac:(lia)).
Defined.

(** [bridge_slaves] gives the devices of the ports of the bridge, but only if
    none of as many pointers, read from the stack above the caller's variable, is
    null; otherwise it fails with ENOMEM although no allocation failed. *)
Theorem bridge_slaves_spec `{Augeas, !Kernel, !Posix, !RedhatConfig} (d : driver) (a : aug)
  (name : string) (s : state) (Hs : ready d a s) (Ha : bridge_ok a name) :
  let l := bridge_ports a name in
  if forallb (fun i => negb (stack_word_null i)) (seq 0 (length l))
  then bridge_slaves name s = (Ret (Some (Some <$> l)), s)
  else exists s', bridge_slaves name s = (Ret None, s') /\ err s' = NETCF_ENOMEM.
Proof.
  cbv zeta. pose proof (bridge_slaves_run d a s Hs name Ha) as Hb. unfold stack_clear in Hb.
  destruct (forallb _ _); [done|]. eexists. by rewrite Hb.
Qed.

Lemma bridge_slaves_spec_witness :
  bridge_slaves "br0" (toy_state toy_os toy_net) = (Ret (Some [Some "eth0"]), toy_state toy_os toy_net) /\
  exists s', bridge_slaves (H5 := {| NETCF_TRANSACTION := ""; stack_word_null := Nat.eqb 0 |})
               "br0" (toy_state toy_os toy_net) = (Ret None, s') /\ err s' = NETCF_ENOMEM.
Proof.
  split.
  - exact (@bridge_slaves_spec toy_host toy_augeas toy_kernel toy_posix toy_config
      (toy_driver toy_net) toy_net "br0" _ (toy_ready _ (or_introl eq_refl)) toy_bridge_ok).
  - exact (@bridge_slaves_spec toy_host toy_augeas toy_kernel toy_posix
      {| NETCF_TRANSACTION := ""; stack_word_null := Nat.eqb 0 |}
      (toy_driver toy_net) toy_net "br0" _ (toy_ready _ (or_introl eq_refl)) toy_bridge_ok).
Defined.

(** C11: the ports of a bridge are brought up before it and taken down after it,
    one program at a time. The first program that fails ends the call with -1;
    when none fails, taking down succeeds, and bringing up succeeds if the
    interface is then active. *)
Theorem if_up_down_order `{Augeas, !Kernel, !Posix, !RedhatConfig} (d : driver) (a : aug)
  (s s' : state) (p : nat) (nif : netcf_if)
  (Hs : ready d a s) (Ha : bridge_ok a (nif_name nif)) (Hp : ifs s !! p = Some nif)
  (Hc : stack_clear (length (if bridge a (nif_name nif) then bridge_ports a (nif_name nif) else [])) = true) :
  (runs "ifup" (up_order a (nif_name nif)) s s' ->
   if active d s' (nif_name nif) then drv_if_up p s = (Ret 0, s')
   else exists s2, drv_if_up p s = (Ret (-1), s2) /\ failed s2 /\ world s2 = world s') /\
  (runs "ifdown" (down_order a (nif_name nif)) s s' -> drv_if_down p s = (Ret 0, s')) /\
  (forall l1 x l2 s1, up_order a (nif_name nif) = l1 ++ x :: l2 -> runs "ifup" l1 s s1 ->
     run1 "ifup" x s1 = (Ret tt, s') -> failed s' -> drv_if_up p s = (Ret (-1), s')) /\
  (forall l1 x l2 s1, down_order a (nif_name nif) = l1 ++ x :: l2 -> runs "ifdown" l1 s s1 ->
     run1 "ifdown" x s1 = (Ret tt, s') -> failed s' -> drv_if_down p s = (Ret (-1), s')).
Proof.
  split_and!.
  - intros Hr. rewrite (if_up_ok d a s p nif Hs Ha Hp Hc s' Hr). destruct (active d s' _); [done|].
    eexists. split; [reflexivity|].
    destruct (report_error_total NETCF_EOTHER ("interface " +:+ nif_name nif +:+
      " failed to become active - possible disconnected cable.") s'
      (rd_wf _ _ _ (runs_ready _ _ _ _ d a Hr Hs)) ltac:(done)) as (s2 & Hr2 & Hf & _ & _ & Hw & _).
    by rewrite Hr2.
  - intros Hr. by apply (if_down_ok d a s p nif Hs Ha Hp Hc).
  - intros l1 x l2 s1 Heq Hr. by apply (if_up_fail d a s p nif Hs Ha Hp Hc l1 x l2 s1 s').
  - intros l1 x l2 s1 Heq Hr. by apply (if_down_fail d a s p nif Hs Ha Hp Hc l1 x l2 s1 s').
Qed.

(** [ifup eth0; ifup br0] on the toy host. *)
Lemma if_up_down_order_witness :
  let s' := (run1 "ifup" "br0" (run1 "ifup" "eth0" toy_up).2).2 in
  drv_if_up 0 toy_up = (Ret 0, s') /\ t_runs (world s') = [["ifup"; "eth0"]; ["ifup"; "br0"]].
Proof.
  set (s' := (run1 "ifup" "br0" (run1 "ifup" "eth0" toy_up).2).2).
  split; [|vm_compute; reflexivity].
  pose proof (proj1 (@if_up_down_order toy_host toy_augeas toy_kernel toy_posix toy_config
    (toy_driver toy_net) toy_net toy_up s' 0%nat {| nif_ref := 1; nif_name := "br0"; nif_mac := None |}
    (toy_ready _ (or_intror eq_refl)) toy_bridge_ok eq_refl eq_refl)) as Hup.
  cbn [nif_name] in Hup.
  assert (Hact : active (toy_driver toy_net) s' "br0" = true) by (vm_compute; reflexivity).
  rewrite Hact in Hup. apply Hup.
  refine (runs_cons _ "eth0" ["br0"] _ _ _ _ _ (runs_cons _ "br0" [] _ _ _ _ _ (runs_nil _ _)));
    vm_compute; reflexivity.
Defined.
