(* ===== verification/RedhatSave.v ===== *)
(** * The Red Hat driver writes configuration files once, and last

    [drv_define] and [drv_undefine] change the Augeas tree in many steps; the
    files on disk only change in [aug_save]. Here: everything else leaves the
    world outside the process alone. Which tree is saved is the matter of
    [RedhatDefine] and [RedhatUndefine]. *)

From S2P Require Import Prelude CStr XsltExt State Refs Toy Posix Xml Netcf Linux Common Redhat RedhatSpec.

Section quiet.
Context `{Augeas, !Kernel, !Netlink, !Libxml, !Posix, !RedhatConfig}.
Implicit Types s : state.

(** Nothing outside the process changes. *)
Definition same_world s s' : Prop := world s' = world s.

#[global] Instance same_world_preorder : PreOrder same_world.
Proof. split; unfold same_world; [done|]. intros x y z. congruence. Qed.

(** [saves ok m]: either [m] leaves the world alone and does not succeed, or it
    saves a tree exactly once, when no error is pending, and succeeds only if
    it was saved. How the tree came about is left open. *)
Definition saves {A} (ok : A -> Prop) (m : M A) : Prop := forall s,
  let '(o, s') := m s in
  (world s' = world s /\ forall x, o = Ret x -> ~ ok x) \/
  (exists s1 r s2, world s1 = world s /\ err s1 = NETCF_NOERROR /\
     save_augeas s1 = (Ret r, s2) /\ world s' = world s2 /\
     forall x, o = Ret x -> ok x -> 0 <= r).

(** ** Rules *)

Lemma saves_after {A B} (ok : B -> Prop) (m : M A) (k : A -> M B) :
  pres same_world m -> (forall a, saves ok (k a)) -> saves ok (m ≫= k).
Proof.
  intros Hm Hk s. specialize (Hm s). unfold bind. destruct (m s) as [[a| |w] s1]; cbn in Hm;
    [|by left..]. specialize (Hk a s1). destruct (k a s1) as [o s'].
  destruct Hk as [[Hw Ho]|(s2 & r & s3 & Hw & Hrest)]; [left|right].
  - split; [by rewrite Hw|done].
  - exists s2, r, s3. split; [by rewrite Hw|done].
Qed.

Lemma saves_before {A B} (ok1 : A -> Prop) (ok : B -> Prop) (m : M A) (k : A -> M B) :
  saves ok1 m -> (forall a, pres same_world (k a)) ->
  (forall a s b s', k a s = (Ret b, s') -> ok b -> ok1 a) -> saves ok (m ≫= k).
Proof.
  intros Hm Hk Hok s. specialize (Hm s). unfold bind. destruct (m s) as [[a| |w] s1].
  2,3: destruct Hm as [[Hw _]|(s2 & r & s3 & ? & ? & ? & ? & _)];
    [left; by split|right; exists s2, r, s3; by repeat split].
  specialize (Hk a s1). destruct (k a s1) as [o s'] eqn:E. cbn in Hk. unfold same_world in Hk.
  destruct Hm as [[Hw Ho]|(s2 & r & s3 & ? & ? & ? & Hw & Ho)]; [left|right].
  - split; [congruence|]. intros b -> Hb. apply (Ho a); [done|]. by eapply Hok.
  - exists s2, r, s3. repeat (split; [congruence|]). intros b -> Hb. apply (Ho a); [done|]. by eapply Hok.
Qed.

Lemma saves_on_error {A} (ok : A -> Prop) (m h : M A) :
  saves ok m -> pres same_world h -> (forall s a s', h s = (Ret a, s') -> ~ ok a) ->
  saves ok (on_error m h).
Proof.
  intros Hm Hh Hno s. specialize (Hm s). unfold on_error. destruct (m s) as [[a| |w] s1]; [done| |done].
  specialize (Hh s1). destruct (h s1) as [o s'] eqn:E. cbn in Hh. unfold same_world in Hh.
  assert (forall x, o = Ret x -> ~ ok x) as Hx by (intros x ->; by eapply Hno).
  destruct Hm as [[Hw _]|(s2 & r & s3 & ? & ? & ? & Hw & _)]; [left|right].
  - split; [congruence|done].
  - exists s2, r, s3. repeat (split; [congruence|]). intros x Hr Hok. by destruct (Hx x).
Qed.

(** The save itself, behind an [ERR_BAIL]. *)
Lemma saves_point {A} (ok : A -> Prop) (k : Z -> M A) :
  (forall r, pres same_world (k r)) ->
  (forall r s b s', k r s = (Ret b, s') -> ok b -> 0 <= r) ->
  saves ok (ERR_BAIL ;; r ← save_augeas; k r).
Proof.
  intros Hk Hok s. unfold ERR_BAIL. unfold bind at 1 2, gets at 1.
  destruct (decide (err s = NETCF_NOERROR)) as [He|He]; cbn [ret goto_error]; [|by left].
  unfold ret. destruct (save_augeas s) as [[r| |w] s2] eqn:E.
  - rewrite (bind_Ret _ _ _ _ _ E). specialize (Hk r s2). destruct (k r s2) as [o s'] eqn:Ek.
    cbn in Hk. right. exists s, r, s2. repeat (split; [done|]). intros b -> Hb. by eapply Hok.
  - exfalso. revert E. unfold save_augeas, the_driver, upd_driver, bind, gets, modify. cbn.
    destruct (ncf_driver (ncf s)) as [d|] eqn:Hd; cbn; [|done]. destruct (augeas d); [|done].
    destruct (aug_save _ _) as [[r a'] w']. cbn. by rewrite Hd.
  - rewrite (bind_Stop _ _ _ _ _ E). left. split; [|done]. revert E.
    unfold save_augeas, the_driver, upd_driver, bind, gets, modify. cbn.
    destruct (ncf_driver (ncf s)) as [d|] eqn:Hd; cbn; [|by intros [= _ <-]].
    destruct (augeas d); [|by intros [= _ <-]].
    destruct (aug_save _ _) as [[r a'] w']. cbn. by rewrite Hd.
Qed.
End quiet.

(** ** Everything but the save is quiet *)

#[export] Hint Extern 1 (same_world _ _) => reflexivity : pres.

Section quiet_ops.
Context `{Augeas, !Kernel, !Netlink, !Libxml, !Posix, !RedhatConfig}.

Lemma quiet_malloc : pres same_world malloc.
Proof. intros s. unfold malloc. by destruct (mem s). Qed.
Lemma quiet_xcall {A} (f : xmem -> A * xmem) : pres same_world (xcall f).
Proof. intros s. unfold xcall. by destruct (f (xml s)). Qed.
Hint Resolve quiet_malloc quiet_xcall : pres.
Lemma quiet_strdup x : pres same_world (strdup x).
Proof. unfold strdup. pres_auto. Qed.
Lemma quiet_xasprintf x : pres same_world (xasprintf x).
Proof. apply quiet_strdup. Qed.
Hint Resolve quiet_strdup quiet_xasprintf : pres.
Lemma quiet_vreport c m : pres same_world (vreport_error c m).
Proof. unfold vreport_error, set_errcode. pres_auto. Qed.
Hint Resolve quiet_vreport : pres.
Lemma quiet_report c m : pres same_world (report_error c m).
Proof. apply quiet_vreport. Qed.
Lemma quiet_ERR_BAIL : pres same_world ERR_BAIL.
Proof. unfold ERR_BAIL. pres_auto. Qed.
Lemma quiet_ERR_NOMEM b : pres same_world (ERR_NOMEM b).
Proof. unfold ERR_NOMEM, set_errcode. pres_auto. Qed.
Hint Resolve quiet_report quiet_ERR_BAIL quiet_ERR_NOMEM : pres.
Lemma quiet_ERR_THROW b c m : pres same_world (ERR_THROW b c m).
Proof. unfold ERR_THROW. pres_auto. Qed.
Lemma quiet_ERR_COND_BAIL b c : pres same_world (ERR_COND_BAIL b c).
Proof. unfold ERR_COND_BAIL, ERR_COND, set_errcode. pres_auto. Qed.
Lemma quiet_nonnull {A} (o : option A) : pres same_world (nonnull o).
Proof. unfold nonnull. pres_auto. Qed.
Lemma quiet_deref {A} (o : option A) : pres same_world (deref o).
Proof. unfold deref. pres_auto. Qed.
Lemma quiet_the_driver : pres same_world the_driver.
Proof. unfold the_driver. pres_auto. Qed.
Hint Resolve quiet_ERR_THROW quiet_ERR_COND_BAIL quiet_nonnull quiet_deref quiet_the_driver : pres.
Lemma quiet_upd_driver f : pres same_world (upd_driver f).
Proof. unfold upd_driver. pres_auto. Qed.
Hint Resolve quiet_upd_driver : pres.
Lemma quiet_with_aug {A} (f : aug -> A * aug) : pres same_world (with_aug f).
Proof. unfold with_aug. pres_auto. Qed.
Lemma quiet_ask_aug {A} (f : aug -> A) : pres same_world (ask_aug f).
Proof. unfold ask_aug. pres_auto. Qed.
Hint Resolve quiet_with_aug quiet_ask_aug : pres.
Lemma quiet_get_augeas : pres same_world get_augeas.
Proof. unfold get_augeas, open_augeas, copy_xfm, load_files, printf. pres_auto. Qed.
Hint Resolve quiet_get_augeas : pres.
Lemma quiet_fmt_match p : pres same_world (aug_fmt_match p).
Proof. unfold aug_fmt_match. pres_auto. Qed.
Hint Resolve quiet_fmt_match : pres.

Lemma quiet_if_name p : pres same_world (if_name p).
Proof. unfold if_name, the_if. pres_auto. Qed.
Lemma quiet_unref o : pres same_world (unref_netcf_if o).
Proof. unfold unref_netcf_if, free_netcf_if, unref_netcf, free_netcf, the_if, put_if. pres_auto. Qed.
Hint Resolve quiet_if_name quiet_unref : pres.
Lemma quiet_make n : pres same_world (make_netcf_if n).
Proof. unfold make_netcf_if, make_ref_if, the_if, put_if. pres_auto. Qed.
Hint Resolve quiet_make : pres.
Lemma quiet_new_nif n : pres same_world (new_nif n).
Proof. unfold new_nif. pres_auto. Qed.

Lemma quiet_free_doc o : pres same_world (free_doc o).
Proof. unfold free_doc. pres_auto. Qed.
Lemma quiet_xget {A} (f : xmem -> A) : pres same_world (xget f).
Proof. unfold xget. pres_auto. Qed.
Hint Resolve quiet_new_nif quiet_free_doc quiet_xget : pres.
Lemma quiet_parse_xml x : pres same_world (parse_xml x).
Proof. unfold parse_xml, parse_check, catch_xml_error. pres_auto. Qed.
Lemma quiet_rng_validate o : pres same_world (rng_validate o).
Proof. unfold rng_validate, rng_error. pres_auto. Qed.
Lemma quiet_apply_stylesheet st o : pres same_world (apply_stylesheet st o).
Proof. unfold apply_stylesheet, xslt_register_exts, apply_stylesheet_error. pres_auto. Qed.
Lemma quiet_device_name o : pres same_world (device_name_from_xml o).
Proof. unfold device_name_from_xml. pres_auto. Qed.
Lemma quiet_rm_interface n : pres same_world (rm_interface n).
Proof. unfold rm_interface. pres_auto. Qed.
Hint Resolve quiet_rm_interface : pres.
Lemma quiet_rm_all o : pres same_world (rm_all_interfaces o).
Proof. unfold rm_all_interfaces. pres_auto. Qed.
Lemma quiet_aug_put_xml o : pres same_world (aug_put_xml o).
Proof. unfold aug_put_xml, aug_put_tree, xml_prop. pres_auto. Qed.
Lemma quiet_is_bond n : pres same_world (is_bond n).
Proof. unfold is_bond. pres_auto. Qed.
Lemma quiet_is_bridge n : pres same_world (is_bridge n).
Proof. unfold is_bridge. pres_auto. Qed.
Lemma quiet_slaves_loop i l : pres same_world (slaves_loop i l).
Proof. revert i. induction l as [|p l IH]; intros i; cbn [slaves_loop]; pres_auto. Qed.
Hint Resolve quiet_is_bond quiet_is_bridge quiet_slaves_loop : pres.
Lemma quiet_bridge_slaves n : pres same_world (bridge_slaves n).
Proof. unfold bridge_slaves. pres_auto. Qed.
Lemma quiet_setup b n : pres same_world (setup b n).
Proof. unfold setup, modprobed_alias_bond, modprobed_unalias_bond. pres_auto. Qed.
Hint Resolve quiet_bridge_slaves quiet_setup : pres.
Lemma quiet_bond_setup n b : pres same_world (bond_setup n b).
Proof. unfold bond_setup. pres_auto. Qed.
End quiet_ops.

#[export] Hint Resolve quiet_ERR_BAIL quiet_ERR_NOMEM quiet_ERR_THROW quiet_ERR_COND_BAIL
  quiet_nonnull quiet_deref quiet_the_driver quiet_upd_driver quiet_with_aug quiet_ask_aug
  quiet_get_augeas quiet_fmt_match quiet_if_name quiet_unref quiet_make quiet_new_nif
  quiet_free_doc quiet_xget quiet_parse_xml quiet_rng_validate quiet_apply_stylesheet
  quiet_device_name quiet_rm_interface quiet_rm_all quiet_aug_put_xml quiet_bond_setup : pres.

Section saving.
Context `{Augeas, !Kernel, !Netlink, !Libxml, !Posix, !RedhatConfig}.
Implicit Types s : state.

Lemma ERR_THROW_Ret b c m s s' : ERR_THROW b c m s = (Ret tt, s') -> b = false.
Proof.
  destruct b; [|done]. unfold ERR_THROW, when, bind. by destruct (report_error c m s) as [[]?].
Qed.

Lemma ERR_COND_BAIL_Ret b c s s' : c <> NETCF_NOERROR -> ERR_COND_BAIL b c s = (Ret tt, s') -> b = false.
Proof.
  intros Hc. destruct b; [|done]. unfold ERR_COND_BAIL, ERR_COND, when, set_errcode, ERR_BAIL, bind, gets, modify.
  cbn. by rewrite decide_False.
Qed.

(** A [bind] that returns. *)
Lemma bind_Ret_inv {A B} (m : M A) (k : A -> M B) s b s' :
  (m ≫= k) s = (Ret b, s') -> exists a s1, m s = (Ret a, s1) /\ k a s1 = (Ret b, s').
Proof. intros Hr. by apply bind_inv in Hr as [?|[[_ ?]|(w & _ & ?)]]. Qed.

End saving.

(** The functions that save have the same shape in every driver: what comes after
    the save only looks at its result. *)
Ltac saves_tail :=
  apply saves_on_error; [|pres_auto|intros ? ? ? [= <- <-]; tauto];
  do 4 (apply saves_after; [pres_auto|intros ?]); apply saves_point;
  [intros ?; unfold printf; pres_auto|];
  let Hr := fresh in let Ht := fresh in
  intros ? ? ? ? Hr _;
  apply bind_Ret_inv in Hr as (? & ? & _ & Hr); apply bind_Ret_inv in Hr as (? & ? & _ & Hr);
  apply bind_Ret_inv in Hr as ([] & ? & Ht & _); by apply ERR_THROW_Ret, Z.ltb_ge in Ht.

Ltac saves_define tail :=
  apply saves_after; [pres_auto|intros _];
  apply saves_on_error; [|pres_auto|intros ? ? ? [= <- <-]; tauto];
  do 2 (apply saves_after; [pres_auto|intros ?]);
  apply saves_before with (ok1 := fun r => r.1 <> None);
  [ apply saves_on_error; [|pres_auto|intros ? ? ? [= <- <-]; cbn; tauto];
    do 10 (apply saves_after; [pres_auto|intros ?]);
    apply saves_before with (ok1 := fun r => r <> None);
    [apply tail|intros ?; pres_auto|by intros ? ? ? ? [= <- <-]]
  | intros [? ?]; pres_auto
  | let Hr := fresh in
    intros [? ?] ? ? ? Hr; apply bind_Ret_inv in Hr as (? & ? & _ & Hr);
    apply bind_Ret_inv in Hr as (? & ? & _ & Hr); by injection Hr as <- <- ].

Ltac saves_undefine :=
  apply saves_after; [pres_auto|intros ?];
  apply saves_on_error; [|pres_auto|intros ? ? ? [= <- <-]; lia];
  do 5 (apply saves_after; [pres_auto|intros ?]); apply saves_point;
  [intros ?; pres_auto|];
  let Hr := fresh in let Ht := fresh in
  intros ? ? ? ? Hr _; apply bind_Ret_inv in Hr as ([] & ? & Ht & _);
  apply ERR_COND_BAIL_Ret, Z.ltb_ge in Ht; done.

Section redhat_saves.
Context `{Augeas, !Kernel, !Netlink, !Libxml, !Posix, !RedhatConfig}.

Lemma define_aug_saves n o : saves (fun r => r <> None) (define_aug n o).
Proof. unfold define_aug. saves_tail. Qed.
Lemma drv_define_saves x : saves (fun r => r <> None) (drv_define x).
Proof. unfold drv_define. saves_define define_aug_saves. Qed.
Lemma drv_undefine_saves p : saves (fun r => 0 <= r) (drv_undefine p).
Proof. unfold drv_undefine. saves_undefine. Qed.
End redhat_saves.

Section rejected.
Context `{Augeas, !Kernel, !Netlink, !Libxml, !Posix, !RedhatConfig}.

Lemma keeps_xcall {A} (f : xmem -> A * xmem) : pres keeps (xcall f).
Proof. intros s. unfold xcall. by destruct (f (xml s)). Qed.
Lemma keeps_xget {A} (f : xmem -> A) : pres keeps (xget f).
Proof. unfold xget. pres_auto. Qed.
Hint Resolve keeps_xcall keeps_xget : pres.
Lemma keeps_free_doc d : pres keeps (free_doc d).
Proof. unfold free_doc. pres_auto. Qed.
Hint Resolve keeps_free_doc : pres.
Lemma keeps_parse_xml x : pres keeps (parse_xml x).
Proof. unfold parse_xml, parse_check, catch_xml_error. pres_auto. Qed.
Lemma keeps_rng_validate d : pres keeps (rng_validate d).
Proof. unfold rng_validate, rng_error. pres_auto. Qed.

Lemma ERR_BAIL_failed s : failed s -> ERR_BAIL s = (Bail, s).
Proof. intros Hf. unfold ERR_BAIL, bind, gets. by rewrite decide_False. Qed.

(** Freeing a document only changes the memory of libxml2. *)
Lemma free_doc_run d s : exists x, free_doc d s = (Ret tt, set_xml x s).
Proof. unfold free_doc, xcall. destruct d; [by eexists|]. exists (xml s). by destruct s. Qed.
End rejected.

(** ** Properties *)

(** Neither defining nor undefining an interface touches anything outside the process
    except by at most one [aug_save], made when no error is pending; an interface is
    returned (or 0) only if that did not fail. This holds in every state and whatever
    Augeas does; what is in the tree that is saved is said in [RedhatDefine] and
    [RedhatUndefine]. *)
Theorem changes_saved_once `{Augeas, !Kernel, !Netlink, !Libxml, !Posix, !RedhatConfig}
  (xml_str : string) (p : nat) :
  saves (fun r => r <> None) (drv_define xml_str) /\ saves (fun r => 0 <= r) (drv_undefine p).
Proof. split; [apply drv_define_saves|apply drv_undefine_saves]. Qed.

(** Both happen on the toy host: a document is saved, and an invalid one is not. *)
Lemma changes_saved_once_witness :
  (exists p s', drv_define "eth7" (toy_state toy_os toy_empty) = (Ret (Some p), s') /\
     t_saved (world s') = 1%nat) /\
  (exists s', drv_define "invalid" (toy_state toy_os toy_empty) = (Ret None, s') /\
     t_saved (world s') = 0%nat).
Proof.
  pose proof (@changes_saved_once toy_host toy_augeas toy_kernel toy_netlink toy_libxml toy_posix
                toy_config "eth7" 0%nat) as [_ _].
  split.
  - eexists _, _. split; vm_compute; reflexivity.
  - eexists. split; vm_compute; reflexivity.
Defined.

(** C15: a document that cannot be parsed or is not valid changes nothing: no
    interface is returned, the error of the parser or the validator stays, and
    the world and the tree are as they were. *)
Theorem drv_define_rejects `{Augeas, !Kernel, !Netlink, !Libxml, !Posix, !RedhatConfig}
  (xml_str : string) (s s0 s1 s2 : state) (b : bool) (d : option doc)
  (Hget : get_augeas s = (Ret b, s0)) (Hok : err s0 = NETCF_NOERROR)
  (Hparse : parse_xml xml_str s0 = (Ret d, s1)) (Hvalid : rng_validate d s1 = (Ret tt, s2))
  (Hbad : failed s1 \/ failed s2) :
  exists s', drv_define xml_str s = (Ret None, s') /\
    err s' = (if decide (failed s1) then err s1 else err s2) /\ failed s' /\
    same_world s s' /\ ncf_driver (ncf s') = ncf_driver (ncf s0).
Proof.
  pose proof (quiet_get_augeas s) as Hw0. rewrite Hget in Hw0.
  pose proof (quiet_parse_xml xml_str s0) as Hw1. rewrite Hparse in Hw1.
  pose proof (quiet_rng_validate d s1) as Hw2. rewrite Hvalid in Hw2.
  pose proof (keeps_parse_xml xml_str s0) as [Hk1 _]. rewrite Hparse in Hk1.
  pose proof (keeps_rng_validate d s1) as [Hk2 _]. rewrite Hvalid in Hk2.
  unfold same_world in *. cbn in *.
  unfold drv_define. rewrite (bind_Ret _ _ _ _ _ Hget). unfold on_error at 1.
  rewrite (bind_Ret _ _ _ _ _ (ERR_BAIL_ok s0 Hok)), (bind_Ret (parse_xml xml_str) _ _ _ _ Hparse).
  destruct (decide (failed s1)) as [Hf|Hf].
  - erewrite bind_Ret; [|by apply on_error_Bail, bind_Bail, ERR_BAIL_failed].
    destruct (free_doc_run d s1) as [x Hx]. rewrite (bind_Ret _ _ _ _ _ Hx).
    eexists. split; [reflexivity|]. cbn. repeat split; [done|congruence..].
  - assert (Hf2 : failed s2) by tauto. assert (Hok1 : err s1 = NETCF_NOERROR).
    { destruct (decide (err s1 = NETCF_NOERROR)); [done|]. by destruct Hf. }
    erewrite bind_Ret.
    2:{ apply on_error_Bail. rewrite (bind_Ret _ _ _ _ _ (ERR_BAIL_ok s1 Hok1)).
        rewrite (bind_Ret (rng_validate d) _ _ _ _ Hvalid). by apply bind_Bail, ERR_BAIL_failed. }
    destruct (free_doc_run d s2) as [x Hx]. rewrite (bind_Ret _ _ _ _ _ Hx).
    eexists. split; [reflexivity|]. cbn. repeat split; [done|congruence..].
Qed.

Lemma drv_define_rejects_witness :
  exists s', drv_define "invalid" (toy_state toy_os toy_empty) = (Ret None, s') /\
    err s' = NETCF_EXMLINVALID.
Proof.
  destruct (@drv_define_rejects toy_host toy_augeas toy_kernel toy_netlink toy_libxml toy_posix
    toy_config "invalid" (toy_state toy_os toy_empty) (toy_state toy_os toy_empty)
    (parse_xml (H0 := toy_libxml) "invalid" (toy_state toy_os toy_empty)).2
    (rng_validate (H0 := toy_libxml) (Some 1%nat) (parse_xml (H0 := toy_libxml) "invalid" (toy_state toy_os toy_empty)).2).2
    true (Some 1%nat) eq_refl eq_refl ltac:(vm_compute; reflexivity) ltac:(vm_compute; reflexivity)
    ltac:(right; discriminate)) as (s' & Hr & He & _).
  exists s'. split; [exact Hr|exact He].
Defined.
