(* ===== verification/TransactionHost.v ===== *)
(** * Transactions through the library

    [ncf_change_begin], [ncf_change_rollback] and [ncf_change_commit] with the Red Hat
    driver, on a host where the program they run is the script of [Transaction]. *)

From S2P Require Import Prelude CStr State Refs Transaction TransactionSpec Toy Posix Xml Netcf Linux Common Redhat RedhatSpec RedhatSave.

(** The host runs the script: [execvp] of the program with one argument is a run of
    [script] on the files; no other call of the library changes the directories of
    the script, and [waitpid] of a child does not fail. *)
Class ScriptHost `{Posix} `{Shell} (prog : string) := {
  disk_of : sys -> fs;
  exec_script arg w st w' :
    execvp [prog; arg] w = (ExecRan st, w') ->
    exists code t, script [arg] {| disk := disk_of w; out := [] |} = (Stop (Exit code), t) /\
      st = exit_status code /\ disk_of w' = disk t;
  disk_pipe w : disk_of (pipe w).2 = disk_of w;
  disk_block w : disk_of (sigmask_block w).2 = disk_of w;
  disk_fork w : disk_of (fork w).2 = disk_of w;
  disk_restore w : disk_of (sigmask_restore w).2 = disk_of w;
  disk_close fd w : disk_of (close fd w) = disk_of w;
  wait_succeeds pid w0 w : (fork w0).1 = pid -> 0 <= pid -> WaitFailed ∉ waitpid pid w
}.

(** ** Exit statuses *)

Section statuses.
Context `{ShellLaws}.

Definition ranged (m : prog sh Z) : Prop := post (fun r _ => 0 <= r < 256) (fun _ => True) m.

Lemma ranged_ret r : 0 <= r < 256 -> ranged (ret r).
Proof. intros Hr. by apply post_ret. Qed.
Lemma ranged_bind {A} (m : prog sh A) k : (forall a, ranged (k a)) -> ranged (m ≫= k).
Proof. intros Hk. apply post_bind; [|done]. intros s. by destruct (m s) as [[] ?]. Qed.
Lemma ranged_attempt f msg r : 0 <= r < 256 -> ranged (attempt f msg r).
Proof.
  intros Hr. unfold attempt. apply ranged_bind. intros st. destruct (st =? 0); [by apply ranged_ret|].
  apply ranged_bind. intros _. by apply ranged_ret.
Qed.
Lemma ranged_for_acc {A} (l : list A) (body : A -> Z -> prog sh Z) r :
  (forall x b, 0 <= b < 256 -> ranged (body x b)) -> 0 <= r < 256 -> ranged (for_acc l r body).
Proof.
  intros Hb. revert r. induction l as [|x l IH]; intros r Hr; [by apply ranged_ret|]. cbn [for_acc].
  eapply post_bind_dep; [by apply Hb|]. intros b s Hrb. by apply IH.
Qed.
Lemma ranged_on_error m r : ranged m -> 0 <= r < 256 -> ranged (on_error m (ret r)).
Proof. intros Hm Hr. eapply post_on_error; [exact Hm|]. done. Qed.

Lemma ranged_restore f r : 0 <= r < 256 -> ranged (restore_current f r).
Proof.
  intros Hr. unfold restore_current. apply ranged_bind. intros b. destruct (negb b); [by apply ranged_ret|].
  apply ranged_bind. intros []; [|by apply ranged_attempt]. apply ranged_bind. intros d. apply ranged_bind.
  intros _. by apply ranged_attempt.
Qed.

Lemma ranged_begin : ranged change_begin.
Proof.
  unfold change_begin. apply ranged_bind. intros []; [apply ranged_bind; intros _; by apply ranged_ret|].
  apply ranged_bind. intros st. destruct (negb _); [apply ranged_bind; intros _; by apply ranged_ret|].
  apply ranged_on_error; [|done]. apply ranged_bind. intros _ s. unfold cmd.
  pose proof (date_range (snapshotdir, "date") (disk s)) as Hd. revert Hd. by destruct (date_to _ _).
Qed.

Lemma ranged_rollback : ranged change_rollback.
Proof.
  unfold change_rollback. apply ranged_bind. intros b.
  destruct (negb b); [apply ranged_bind; intros _; by apply ranged_ret|].
  eapply (post_bind_dep (fun r _ => 0 <= r < 256)).
  { unfold prune. apply ranged_bind. intros rs.
    eapply post_bind_dep; [apply ranged_for_acc; [intros; by apply ranged_attempt|done]|].
    intros r s Hr. cbn. by destruct lastpipe. }
  intros r s Hr. change (0 <= r < 256) in Hr. revert s. apply ranged_bind. intros stamp. apply ranged_bind. intros st.
  destruct (negb _); [apply ranged_bind; intros _; by apply ranged_ret|]. apply ranged_on_error; [|done].
  apply ranged_bind. intros _. unfold restore_config. apply ranged_bind. intros files.
  eapply post_bind_dep; [apply ranged_for_acc; [apply ranged_restore|exact Hr]|].
  intros r1 s1 Hr1. change (0 <= r1 < 256) in Hr1. revert s1. apply ranged_bind. intros l. apply ranged_bind. intros _.
  apply ranged_bind. intros _. by apply ranged_attempt.
Qed.

Lemma ranged_commit : ranged change_commit.
Proof.
  unfold change_commit. apply ranged_bind. intros b.
  destruct (negb b); [apply ranged_bind; intros _; by apply ranged_ret|].
  apply ranged_bind. intros st. apply ranged_bind. intros _. by apply ranged_ret.
Qed.

(** A run of the script is a run of its function. *)
Lemma script_exit arg (m : prog sh Z) s code t :
  run_command arg = m -> ranged m -> (forall w s', m s <> (Stop w, s')) ->
  script [arg] s = (Stop (Exit code), t) -> m s = (Ret code, t) /\ 0 <= code < 256.
Proof.
  intros Hc Hm Hns. unfold script. rewrite Hc. unfold bind. intros Hr. specialize (Hm s).
  destruct (m s) as [[r| |w] s1]; cbn in Hr; [injection Hr as -> ->; done|done|].
  simplify_eq. by destruct (Hns (Exit code) t).
Qed.

Lemma begin_never_stops s w s' : change_begin s <> (Stop w, s').
Proof.
  intros Hr. destruct (decide (kind_of snapshotdir (disk s) = Nothing)) as [Hn|Hn].
  - destruct (change_begin_run _ _ _ Hr Hn) as (_ & [r [=]] & _).
  - destruct (change_begin_pending s Hn) as [o Ho]. rewrite Ho in Hr. discriminate.
Qed.

Lemma rollback_never_stops s w s' : kind_of netconfdir (disk s) = IsDir -> change_rollback s <> (Stop w, s').
Proof. intros Hc Hr. destruct (change_rollback_total s Hc) as (r & s2 & Ho). rewrite Ho in Hr. discriminate. Qed.
End statuses.

(** ** What a successful [run_program] has done *)

Section runs.
Context `{Posix} `{Shell} (program : string) `{!ScriptHost program}.
Implicit Types s : state.

Definition same_disk (s s' : state) : Prop := disk_of (world s') = disk_of (world s).

#[export] Instance same_disk_preorder : PreOrder same_disk.
Proof. split; unfold same_disk; [done|]. intros x y z. congruence. Qed.

Lemma same_world_disk {A} (m : M A) : pres same_world m -> pres same_disk m.
Proof. intros Hm s. unfold same_disk. by rewrite (Hm s). Qed.

Lemma syscall_disk {A} (f : sys -> A * sys) :
  (forall w, disk_of (f w).2 = disk_of w) -> pres same_disk (syscall f).
Proof.
  intros Hf s. unfold same_disk, syscall. specialize (Hf (world s)). revert Hf. by destruct (f (world s)).
Qed.

Lemma close_fd_disk fd : pres same_disk (close_fd fd).
Proof. apply syscall_disk. intros w. apply disk_close. Qed.

Hint Resolve close_fd_disk : pres.
Hint Resolve quiet_malloc quiet_report quiet_strdup quiet_nonnull : pres.

Lemma throw_passes b c m s u s' : ERR_THROW b c m s = (Ret u, s') -> b = false /\ s' = s.
Proof.
  destruct b; cbn; [|by intros [= _ <-]]. unfold ERR_THROW, when. unfold bind at 1.
  destruct (report_error c m s) as [[]?]; done.
Qed.
(** Partial correctness, for runs that return *)
Definition returns {A} (P : state -> Prop) (m : M A) (Q : A -> state -> Prop) : Prop :=
  forall s a s', P s -> m s = (Ret a, s') -> Q a s'.

Lemma returns_bind {A B} P (R : A -> state -> Prop) (Q : B -> state -> Prop) (m : M A) k :
  returns P m R -> (forall a, returns (R a) (k a) Q) -> returns P (m ≫= k) Q.
Proof.
  intros Hm Hk s b s' Hs [(a & s1 & Ha & Hb)|[[_ [=]]|(w & _ & [=])]]%bind_inv.
  by eapply Hk; [eapply Hm|].
Qed.

Lemma returns_ret {A} P (Q : A -> state -> Prop) a : (forall s, P s -> Q a s) -> returns P (ret a) Q.
Proof. intros HPQ s a' s' Hs [-> ->]%ret_inv. auto. Qed.

Definition at_disk (d : fs) (s : state) : Prop := disk_of (world s) = d.

Lemma returns_disk {A} d (m : M A) : pres same_disk m -> returns (at_disk d) m (fun _ => at_disk d).
Proof. intros Hm s a s' Hs Hr. specialize (Hm s). rewrite Hr in Hm. unfold at_disk, same_disk in *. cbn in Hm. congruence. Qed.

Lemma returns_quiet {A B} d (m : M A) (k : A -> M B) Q :
  pres same_disk m -> (forall a, returns (at_disk d) (k a) Q) -> returns (at_disk d) (m ≫= k) Q.
Proof. intros Hm. apply returns_bind. by apply returns_disk. Qed.

Lemma returns_on_error {A} P (m h : M A) Q :
  returns P m Q -> returns (fun _ => True) h Q -> returns P (on_error m h) Q.
Proof.
  intros Hm Hh s a s' Hs [[Hr _]|(s1 & Hb & Hr)]%on_error_inv; [by eapply Hm|by eapply Hh].
Qed.

Lemma returns_throw {B} d b c msg (k : M B) Q :
  (b = false -> returns (at_disk d) k Q) -> returns (at_disk d) (ERR_THROW b c msg ;; k) Q.
Proof.
  intros Hk s a s' Hs [([] & s1 & Hm & Hr)|[[_ [=]]|(w & _ & [=])]]%bind_inv.
  destruct (throw_passes _ _ _ _ _ _ Hm) as [-> ->]. by eapply Hk.
Qed.

(** Has the program run, with this status? *)
Definition has_run (argv : list string) (d : fs) (st : Z) (s : state) : Prop :=
  exists w w', disk_of w = d /\ exec_child argv w = (st, w') /\ at_disk (disk_of w') s.

Lemma has_run_pres {A} argv d st (m : M A) :
  pres same_disk m -> returns (has_run argv d st) m (fun _ => has_run argv d st).
Proof.
  intros Hm s a s' (w & w' & Hw & He & Hs) Hr. exists w, w'. split; [done|]. split; [done|].
  by apply (returns_disk _ m Hm s a s').
Qed.

Lemma quiet_disk_gets {A} (f : state -> A) : pres same_disk (gets f).
Proof. by intros s. Qed.
Hint Resolve quiet_disk_gets : pres.

(** The number of a child *)
Definition forked (pid : Z) : Prop := 0 <= pid /\ exists w, (fork w).1 = pid.

Lemma exec_program_returns argv str d :
  returns (at_disk d) (exec_program argv str)
    (fun oc s => match oc with
                 | Some c => forked (child_pid c) /\ has_run argv d (child_status c) s
                 | None => True end).
Proof.
  unfold exec_program. apply returns_quiet; [apply syscall_disk, disk_pipe|]. intros [[rd wr]|].
  2:{ do 2 (apply (returns_bind _ (fun _ _ => True)); [done|]; intros ?). by apply returns_ret. }
  apply returns_on_error.
  - apply returns_quiet; [apply syscall_disk, disk_block|]. intros b.
    apply returns_quiet; [apply same_world_disk; pres_auto|]. intros ?.
    apply (returns_bind _ (fun pid s => at_disk d s /\ exists w, (fork w).1 = pid)).
    { intros s pid s' Hs Hr. split; [by eapply (returns_disk _ _ (syscall_disk _ disk_fork))|].
      unfold syscall in Hr. destruct (fork (world s)) as [q w] eqn:Ef. injection Hr as <- _. exists (world s). by rewrite Ef. }
    intros pid s0 r0 s0' [Hs0 Hpid]. revert s0 r0 s0' Hs0.
    apply returns_quiet; [auto with pres|]. intros e. apply returns_throw. intros Hge%Z.ltb_ge.
    apply returns_quiet; [auto with pres|]. intros text.
    apply (returns_bind _ (fun st => has_run argv d st)).
    { intros s st s' Hs. unfold syscall. destruct (exec_child argv (world s)) as [st' w'] eqn:He.
      intros [= <- <-]. by exists (world s), w'. }
    intros st. eapply returns_bind; [apply has_run_pres, syscall_disk, disk_restore|]. intros r.
    eapply returns_bind; [apply has_run_pres; auto with pres|]. intros e2.
    eapply returns_bind; [apply has_run_pres, same_world_disk; auto with pres|]. intros ?.
    eapply returns_bind; [apply has_run_pres; auto with pres|]. intros ?. by apply returns_ret.
  - do 2 (apply (returns_bind _ (fun _ _ => True)); [done|]; intros ?). by apply returns_ret.
Qed.

Lemma wait_loop_done rs status junk wr st :
  WaitFailed ∉ rs -> wait_loop rs status junk = Some (wr, st) -> st = status.
Proof.
  induction rs as [|[] rs IH]; cbn; intros Hrs; [done|apply IH; set_solver|set_solver|by intros [= _ <-]].
Qed.

Lemma has_run_throw {B} argv d st b c msg (k : M B) Q :
  (b = false -> returns (has_run argv d st) k Q) -> returns (has_run argv d st) (ERR_THROW b c msg ;; k) Q.
Proof.
  intros Hk s a s' Hs [([] & s1 & Hm & Hr)|[[_ [=]]|(w & _ & [=])]]%bind_inv.
  destruct (throw_passes _ _ _ _ _ _ Hm) as [-> ->]. by eapply Hk.
Qed.

(** The program ended with exit code 0. *)
Definition exited_0 (st : Z) : Prop := WIFEXITED st = true /\ WEXITSTATUS st = 0.

Lemma check_status_returns {B} argv d st str out (k : M B) Q :
  (exited_0 st -> returns (has_run argv d st) k Q) ->
  returns (has_run argv d st) (check_status str out st ;; k) Q.
Proof.
  intros Hk. apply (returns_bind _ (fun _ s => exited_0 st /\ has_run argv d st s)).
  - unfold check_status. do 7 (apply has_run_throw; intros ?).
    intros s [] s' Hs Hr. apply throw_passes in Hr as [Hz ->]. split; [|done].
    split; [by apply negb_false_iff|]. apply negb_false_iff in Hz. by apply Z.eqb_eq.
  - intros []. intros s b s' [He Hs]. by apply Hk.
Qed.

Lemma collect_child_returns argv d str c : forked (child_pid c) ->
  returns (has_run argv d (child_status c)) (collect_child str (Some c))
    (fun r s => r = 0 /\ exited_0 (child_status c) /\ has_run argv d (child_status c) s).
Proof.
  intros [Hge [w0 Hw0]]. unfold collect_child.
  eapply returns_bind; [apply has_run_pres, same_world_disk; auto with pres|]. intros ?.
  eapply returns_bind; [apply has_run_pres, same_world_disk; unfold printf; pres_auto|]. intros ?.
  do 2 (eapply returns_bind; [apply has_run_pres; auto with pres|]; intros ?). apply has_run_throw. intros ?.
  do 2 (eapply returns_bind; [apply has_run_pres; auto with pres|]; intros ?). apply has_run_throw. intros ?.
  eapply returns_bind; [apply has_run_pres; auto with pres|]. intros ?.
  apply (returns_bind _ (fun rs s => (WaitFailed ∉ rs) /\ has_run argv d (child_status c) s)).
  { intros s rs s' Hs [= <- <-]. split; [by eapply wait_succeeds|done]. }
  intros rs s r s' [Hrs Hs]. destruct (wait_loop rs (child_status c) stack_status) as [[wr st]|] eqn:Hw; [|done].
  apply wait_loop_done in Hw as ->; [|done]. revert s r s' Hs.
  eapply returns_bind; [apply has_run_pres; auto with pres|]. intros e. apply has_run_throw. intros ?.
  apply check_status_returns. intros He. by apply returns_ret.
Qed.

(** 0 means that the program has run and ended with exit code 0. *)
Definition ran (argv : list string) (d : fs) (r : Z) (s : state) : Prop :=
  r = -1 \/ r = 0 /\ exists st, exited_0 st /\ has_run argv d st s.

Lemma ran_pres argv d r (m : M unit) : pres same_disk m -> returns (ran argv d r) m (fun _ => ran argv d r).
Proof.
  intros Hm s u s' [Hr|(Hr & st & He & Hs)] Hrun; [by left|]. right. split; [done|]. exists st. split; [done|].
  by eapply (has_run_pres argv d st m Hm s u s').
Qed.

Lemma run_program_returns argv d : returns (at_disk d) (run_program argv) (ran argv d).
Proof.
  unfold run_program. apply returns_quiet; [unfold argv_to_string; apply same_world_disk; pres_auto|]. intros o.
  apply returns_on_error; [|apply returns_ret; by left].
  apply returns_quiet; [apply same_world_disk; auto with pres|]. intros str.
  eapply returns_bind; [apply exec_program_returns|]. intros oc.
  apply (returns_bind _ (ran argv d)).
  - apply returns_on_error; [|apply returns_ret; by left]. destruct oc as [c|].
    + intros s r s' [Hf Hs] Hr. destruct (collect_child_returns _ _ _ _ Hf _ _ _ Hs Hr) as (-> & He & Hh).
      right. split; [done|]. by exists (child_status c).
    + intros s r s' _ Hr. unfold collect_child in Hr.
      apply bind_inv in Hr as [(? & ? & _ & [=])|[[_ [=]]|(? & _ & [=])]].
  - intros r. eapply returns_bind; [apply ran_pres; destruct oc; pres_auto|]. intros ?.
    by apply returns_ret.
Qed.

(** What a call of the driver that returns 0 has done *)
Lemma run_transaction_returns f arg d :
  returns (at_disk d) (run_transaction program f arg)
    (fun r s => r = 0 -> exists st, exited_0 st /\ has_run [program; arg] d st s).
Proof.
  unfold run_transaction, run1. apply returns_on_error; [|by apply returns_ret]. apply returns_throw. intros ?.
  apply (returns_bind _ (fun _ s => err s = NETCF_NOERROR -> exists st, exited_0 st /\ has_run [program; arg] d st s)).
  - intros s u s' Hs Hr. apply bind_inv in Hr as [(r & s1 & Hr & [_ ->]%ret_inv)|[[_ [=]]|(? & _ & [=])]].
    intros He. pose proof (run_program_reports [program; arg] s) as Hrep. rewrite Hr in Hrep.
    destruct (run_program_returns _ _ _ _ _ Hs Hr) as [->|[_ ?]]; [|done]. by destruct (Hrep ltac:(lia)).
  - intros u. apply (returns_bind _ (fun _ s => exists st, exited_0 st /\ has_run [program; arg] d st s)).
    + intros s u' s' Hs Hr. unfold ERR_BAIL, bind, gets in Hr. case_decide as He; [|done].
      injection Hr as _ <-. by apply Hs.
    + intros ?. by apply returns_ret.
Qed.

Lemma exited_0_code code : 0 <= code < 256 -> exited_0 (exit_status code) -> code = 0.
Proof. intros Hc [_ Hz]. by destruct (exit_status_decode code Hc) as [_ <-]. Qed.

Lemma run_transaction_ok f arg s s' :
  run_transaction program f arg s = (Ret 0, s') ->
  exists code t, script [arg] {| disk := disk_of (world s); out := [] |} = (Stop (Exit code), t) /\
    exited_0 (exit_status code) /\ disk_of (world s') = disk t.
Proof.
  intros Hr. destruct (run_transaction_returns f arg (disk_of (world s)) s 0 s' eq_refl Hr eq_refl)
    as (st & Hst & w & w' & Hw & He & Hs'). unfold exec_child in He.
  destruct (child_unmask w); [|injection He as <- <-; by destruct Hst as [_ ?]].
  destruct (child_dup2 w); [|injection He as <- <-; by destruct Hst as [_ ?]]. cbn [negb] in He.
  destruct (execvp [program; arg] w) as [[[]|st0] w0] eqn:Hx; injection He as <- <-;
    [by destruct Hst as [_ ?]..|].
  destruct (exec_script _ _ _ _ Hx) as (code & t & Hrun & -> & Hd). rewrite Hw in Hrun.
  exists code, t. split; [done|]. split; [done|]. by rewrite Hs', Hd.
Qed.
End runs.

(** ** The calls of the library *)

Section library.
Context `{Augeas, !Kernel, !Netlink, !Libxml, !Posix, !RedhatConfig} `{ShellLaws} `{!ScriptHost NETCF_TRANSACTION}
  (fuel : nat).

#[local] Existing Instance redhat_driver.

(** A command of the script that has ended with 0 *)
Lemma script_ok arg (m : prog sh Z) f (s s' : state) :
  run_command arg = m -> ranged m ->
  (forall w t, m {| disk := disk_of (world s); out := [] |} <> (Stop w, t)) ->
  (API_ENTRY (H0 := redhat_driver fuel) ;; run_transaction NETCF_TRANSACTION f arg) s = (Ret 0, s') ->
  exists t, m {| disk := disk_of (world s); out := [] |} = (Ret 0, t) /\ disk_of (world s') = disk t.
Proof.
  intros Hm Hrange Hns Hr.
  apply bind_inv in Hr as [(u & s1 & He & Hr)|[[_ [=]]|(w & _ & [=])]].
  assert (Hw : world s1 = world s).
  { assert (Hp : pres same_world (API_ENTRY (H0 := redhat_driver fuel))).
    { unfold API_ENTRY, drv_entry. cbn. unfold Redhat.drv_entry. pres_auto. }
    specialize (Hp s). by rewrite He in Hp. }
  destruct (run_transaction_ok _ _ _ _ _ Hr) as (code & t & Hrun & He0 & Hd). rewrite Hw in Hrun.
  destruct (script_exit arg m _ code t Hm Hrange Hns Hrun) as [Hmr Hc].
  apply exited_0_code in He0 as ->; [|done]. by exists t.
Qed.

Lemma change_begin_ok f s s' :
  ncf_change_begin (H0 := redhat_driver fuel) f s = (Ret 0, s') ->
  exists t, change_begin {| disk := disk_of (world s); out := [] |} = (Ret 0, t) /\ disk_of (world s') = disk t.
Proof. apply script_ok; [reflexivity|apply ranged_begin|intros w t; apply begin_never_stops]. Qed.

Lemma change_rollback_done f s s' :
  kind_of netconfdir (disk_of (world s)) = IsDir ->
  ncf_change_rollback (H0 := redhat_driver fuel) f s = (Ret 0, s') ->
  exists t, change_rollback {| disk := disk_of (world s); out := [] |} = (Ret 0, t) /\ disk_of (world s') = disk t.
Proof. intros Hk. apply script_ok; [reflexivity|apply ranged_rollback|intros w t; by apply rollback_never_stops]. Qed.
End library.

(** ** A concrete host that runs the script *)

Definition set_disk (d : toy_fs) (w : toy_sys) : toy_sys :=
  {| t_runs := t_runs w; t_exit := t_exit w; t_intr := t_intr w; t_waitfail := t_waitfail w;
     t_closed := t_closed w; t_flags := t_flags w; t_saved := t_saved w; t_files := t_files w; t_disk := d |}.

Definition script_exec (argv : list string) (w : toy_sys) : exec_result * toy_sys :=
  match script (tail argv) {| disk := t_disk w; out := [] |} with
  | (Stop (Exit code), t) => (ExecRan (exit_status code), set_disk (disk t) w)
  | _ => (ExecFailed true, w)
  end.

Definition script_posix : Posix (H := toy_host) :=
  {| strerror := strerror; pipe := pipe; sigmask_block := sigmask_block; fork := fork;
     sigmask_restore := sigmask_restore; close := close; child_unmask := child_unmask;
     child_dup2 := child_dup2; execvp := script_exec; child_output := child_output; fdopen := fdopen;
     fread_file := fread_file; waitpid := fun _ _ => [WaitEINTR; WaitDone]; stack_status := 0;
     socket_inet := socket_inet; fcntl_getfd := fcntl_getfd; fcntl_setfd := fcntl_setfd |}.

#[global] Instance toy_script_host p : ScriptHost (H0 := script_posix) p.
Proof.
  refine {| disk_of := t_disk : @sys toy_host -> @fs toy_shell |}; try done.
  - intros arg w st w'. cbn. unfold script_exec. cbn [tail].
    destruct (script [arg] _) as [[]t] eqn:Hs; try discriminate.
    destruct why as [| |code|]; try discriminate. intros [= <- <-]. by exists code, t.
  - intros pid w0 w _ _. cbn. set_solver.
Defined.

(** ** Property *)

(** C5: on a host that runs the script, when [ncf_change_begin] and later
    [ncf_change_rollback] return 0, the configuration files of interfaces are what
    they were before the first of the two calls, whatever happened in between outside
    the snapshot; other files keep their changes, no transaction is open any more, and
    what was discarded is kept in a rollback directory. *)
Theorem ncf_rollback_restores
  `{Augeas, !Kernel, !Netlink, !Libxml, !Posix, !RedhatConfig} `{ShellLaws} `{!ScriptHost NETCF_TRANSACTION}
  (fuel : nat) (f1 f2 : Z) (s0 s1 s2 s3 : state)
  (Hbegin : ncf_change_begin (H0 := redhat_driver fuel) f1 s0 = (Ret 0, s1))
  (Hsnap : forall x, entry_at (snapshotdir, x) (disk_of (world s2)) = entry_at (snapshotdir, x) (disk_of (world s1)))
  (Hconf : kind_of netconfdir (disk_of (world s2)) = IsDir)
  (Hfiles : forall d x, managed x = true ->
     entry_at (d, x) (disk_of (world s0)) <> Some Other /\ entry_at (d, x) (disk_of (world s2)) <> Some Other)
  (Hrollback : ncf_change_rollback (H0 := redhat_driver fuel) f2 s2 = (Ret 0, s3)) :
  (forall x, entry_at (netconfdir, x) (disk_of (world s3))
     = if managed x then entry_at (netconfdir, x) (disk_of (world s0))
       else entry_at (netconfdir, x) (disk_of (world s2))) /\
  kind_of snapshotdir (disk_of (world s3)) = Nothing /\
  exists r, forall x c, managed x = true ->
    file_at (netconfdir, x) (disk_of (world s2)) = Some c -> file_at (rollbackdir r, x) (disk_of (world s3)) = Some c.
Proof.
  destruct (change_begin_ok fuel f1 s0 s1 Hbegin) as (t1 & Hb & Hd1).
  destruct (change_rollback_done fuel f2 s2 s3 Hconf Hrollback) as (t3 & Hr & Hd3).
  rewrite Hd3. rewrite Hd1 in Hsnap.
  by apply (rollback_after_begin {| disk := disk_of (world s0); out := [] |} t1
              {| disk := disk_of (world s2); out := [] |} t3).
Qed.

(** The library opens a transaction, an administrator edits the files, and the library
    rolls back. *)
Lemma ncf_rollback_restores_witness :
  let drv := @redhat_driver toy_host toy_augeas toy_kernel toy_netlink toy_libxml script_posix toy_config 9 in
  let s0 := toy_state toy_os toy_empty in
  let s1 := (ncf_change_begin (H0 := drv) 0 s0).2 in
  let s2 := set_world (set_disk (disk toy_edited) (world s1)) s1 in
  let s3 := (ncf_change_rollback (H0 := drv) 0 s2).2 in
  (forall x, entry_at (Shell := toy_shell) (netconfdir, x) (t_disk (world s3))
     = if managed x then entry_at (netconfdir, x) (t_disk (world s0))
       else entry_at (Shell := toy_shell) (netconfdir, x) (t_disk (world s2))) /\
  z_conf (t_disk (world s3)) !! "ifcfg-eth1" = Some "DEVICE=eth1".
Proof.
  intros drv s0 s1 s2 s3. split; [|vm_compute; reflexivity].
  assert (Hsnap : z_snap (t_disk (world s1)) = Some toy_snapshot) by (vm_compute; reflexivity).
  refine (proj1 (@ncf_rollback_restores toy_host toy_augeas toy_kernel toy_netlink toy_libxml script_posix toy_config
           toy_shell toy_shell_laws (toy_script_host _) 9 0 0 s0 s1 s2 s3 (run_eq _ _ _ _) _ eq_refl _ (run_eq _ _ _ _))).
  - vm_compute. reflexivity.
  - intros x. change (Reg <$> match z_snap (disk toy_edited) with Some m => m !! x | None => None end
      = Reg <$> match z_snap (t_disk (world s1)) with Some m => m !! x | None => None end). by rewrite Hsnap.
  - intros d x _. split; apply toy_regular.
  - vm_compute. reflexivity.
Defined.
