(* ===== verification/RedhatInit.v ===== *)
(** * Starting the Red Hat driver, and the name of an interface in a document *)

From S2P Require Import Prelude CStr XsltExt State Refs Toy Posix Xml Netcf Linux Common Redhat RedhatSpec.

Section init_run.
Context `{Augeas, !Kernel, !Netlink, !Libxml, !Posix, !RedhatConfig}.
Implicit Types s : state.

Lemma strdup_run x s : mem s = [] -> strdup x s = (Ret (Some x), s).
Proof. intros Hm. unfold strdup, malloc, bind. by rewrite Hm. Qed.

(** A style sheet that is there and well formed. *)
Definition sheet_ok s (fname : string) (g : sheet) : Prop :=
  let path := data_dir (ncf s) +:+ "/xml/" +:+ fname in
  access_r path (world s) = true /\ xsltParseStylesheetFile path (world s) = Some g.

Lemma parse_stylesheet_run fname g s : mem s = [] -> sheet_ok s fname g ->
  parse_stylesheet fname s = (Ret (Some g), s).
Proof.
  intros Hm [Ha Hp]. unfold parse_stylesheet, on_error, xasprintf.
  rewrite (bind_Ret _ _ s (data_dir (ncf s)) s) by done.
  rewrite (bind_Ret _ _ _ _ _ (strdup_run _ s Hm)). unfold nonnull. rewrite bind_ret_l.
  rewrite (bind_Ret _ _ s true s) by (unfold gets; by rewrite Ha). cbn [negb when]. rewrite bind_ret_l.
  by rewrite (bind_Ret _ _ s (Some g) s) by (unfold gets; by rewrite Hp).
Qed.

(** The socket for interface ioctls: the world after it is open. *)
Definition ioctl_opens (w : sys) (fd : Z) (w' : sys) : Prop :=
  exists w1 r, socket_inet w = (fd, w1) /\ 0 <= fd /\ 0 <= fcntl_getfd fd w1 /\
    fcntl_setfd fd (Z.lor (fcntl_getfd fd w1) FD_CLOEXEC) w1 = (r, w') /\ 0 <= r.

Lemma init_ioctl_fd_run s fd w' : ioctl_opens (world s) fd w' ->
  init_ioctl_fd s = (Ret fd, set_world w' s).
Proof.
  intros (w1 & r & Hs & Hfd & Hg & Hset & Hr). unfold init_ioctl_fd, on_error.
  rewrite (bind_Ret _ _ s fd (set_world w1 s)) by (unfold syscall; by rewrite Hs).
  rewrite (proj2 (Z.ltb_ge fd 0)), bind_Ret with (a := tt) (s' := set_world w1 s) by done.
  rewrite (bind_Ret _ _ _ (fcntl_getfd fd w1) (set_world w1 s)) by done.
  rewrite (proj2 (Z.ltb_ge _ 0)), bind_Ret with (a := tt) (s' := set_world w1 s) by done.
  rewrite (bind_Ret _ _ _ r (set_world w' s)) by (unfold syscall; cbn; by rewrite Hset).
  by rewrite (proj2 (Z.ltb_ge _ 0)), bind_Ret with (a := tt) (s' := set_world w' s) by done.
Qed.

(** The driver when its socket has just been opened. *)
Definition started (fd : Z) (g p : sheet) : driver :=
  {| augeas := None; put := Some p; get := Some g; ioctl_fd := fd; nl_sock := false;
     link_cache := false; addr_cache := false; load_augeas := false; copy_augeas_xfm := true;
     augeas_xfm_tables := [Some augeas_xfm_common] |}.

Lemma set_driver_twice d1 d2 s :
  set_ncf (set_driver d2 (ncf (set_ncf (set_driver d1 (ncf s)) s))) (set_ncf (set_driver d1 (ncf s)) s)
  = set_ncf (set_driver d2 (ncf s)) s.
Proof. done. Qed.

(** [drv_init] up to [netlink_init]. *)
Lemma drv_init_started s root fd g p w' :
  mem s = [] -> err s = NETCF_NOERROR -> ncf_root (ncf s) = Some root ->
  stat root (world s) = Some S_IFDIR -> sheet_ok s "redhat-get.xsl" g ->
  sheet_ok s "redhat-put.xsl" p -> ioctl_opens (world s) fd w' ->
  drv_init s = on_error (r ← netlink_init; when (r <? 0) goto_error ;; ret 0) (drv_close ;; ret (-1))
    (set_world w' (set_ncf (set_driver (Some (started fd g p)) (ncf s)) s)).
Proof.
  intros Hm He Hroot Hst Hg Hp Hio. unfold drv_init.
  rewrite (bind_Ret _ _ s true s) by (unfold malloc; by rewrite Hm). cbn [negb].
  set (s1 := set_ncf (set_driver (Some new_driver) (ncf s)) s).
  rewrite (bind_Ret _ _ s tt s1) by done. unfold on_error.
  rewrite (bind_Ret _ _ _ _ _ (add_augeas_xfm_table_run augeas_xfm_common s1 new_driver eq_refl Hm)).
  cbn [find_slot augeas_xfm_tables new_driver length app insert list_insert].
  rewrite decide_True by done. cbn [app insert list_insert].
  set (s2 := with_tables _ _ _). change (0 <? 0) with false. cbn [when]. rewrite bind_ret_l.
  rewrite (bind_Ret _ _ s2 (Some root) s2) by (unfold gets; cbn; by rewrite Hroot).
  unfold deref. rewrite bind_ret_l.
  rewrite (bind_Ret _ _ s2 (Some S_IFDIR) s2) by (unfold gets; cbn; by rewrite Hst). cbn [when]. rewrite bind_ret_l.
  rewrite (bind_Ret _ _ _ _ _ (parse_stylesheet_run _ g s2 Hm Hg)).
  rewrite (bind_Ret _ _ _ _ _ (upd_driver_run _ s2 _ eq_refl)). set (s3 := set_ncf _ _).
  rewrite (bind_Ret _ _ _ _ _ (parse_stylesheet_run _ p s3 Hm Hp)).
  rewrite (bind_Ret _ _ _ _ _ (upd_driver_run _ s3 _ eq_refl)). set (s4 := set_ncf _ s3).
  rewrite (bind_Ret _ _ _ _ _ (ERR_BAIL_ok s4 He)).
  rewrite (bind_Ret _ _ _ _ _ (init_ioctl_fd_run s4 fd w' Hio)).
  rewrite (bind_Ret _ _ _ _ _ (upd_driver_run _ (set_world w' s4) _ eq_refl)).
  destruct Hio as (? & ? & _ & Hfd & _). rewrite (proj2 (Z.ltb_ge fd 0)) by done. cbn [when].
  rewrite bind_ret_l. done.
Qed.
End init_run.

Section init_fail.
Context `{Augeas, !Kernel, !Netlink, !Libxml, !Posix, !RedhatConfig}.
Implicit Types s : state.

(** Closing a driver that never got a netlink socket. *)
Lemma drv_close_run s d : ncf_driver (ncf s) = Some d ->
  nl_sock d = false -> link_cache d = false -> addr_cache d = false ->
  drv_close s = (Ret tt, set_ncf (set_driver None (ncf s))
    (if 0 <=? ioctl_fd d then set_world (close (ioctl_fd d) (world s)) s else s)).
Proof.
  intros Hd Hn Hl Ha. unfold drv_close. rewrite (bind_Ret _ _ s (Some d) s) by (unfold gets; by rewrite Hd).
  rewrite (bind_Ret _ _ s 0 s).
  - destruct (0 <=? ioctl_fd d); done.
  - unfold netlink_close. rewrite (bind_Ret _ _ _ _ _ (the_driver_run s d Hd)). by rewrite Hn, Hl, Ha.
Qed.

Lemma drv_init_no_root s root : mem s = [] -> err_wf s -> err s = NETCF_NOERROR ->
  ncf_root (ncf s) = Some root -> stat root (world s) <> Some S_IFDIR ->
  exists s', drv_init s = (Ret (-1), s') /\ err s' = NETCF_EFILE /\ ncf_driver (ncf s') = None /\
    world s' = world s.
Proof.
  intros Hm Hwf He Hroot Hst. unfold drv_init.
  rewrite (bind_Ret _ _ s true s) by (unfold malloc; by rewrite Hm). cbn [negb].
  set (s1 := set_ncf (set_driver (Some new_driver) (ncf s)) s).
  rewrite (bind_Ret _ _ s tt s1) by done. unfold on_error.
  rewrite (bind_Ret _ _ _ _ _ (add_augeas_xfm_table_run augeas_xfm_common s1 new_driver eq_refl Hm)).
  cbn [find_slot augeas_xfm_tables new_driver length app insert list_insert].
  rewrite decide_True by done. cbn [app insert list_insert].
  set (s2 := with_tables _ _ _). change (0 <? 0) with false. cbn [when]. rewrite bind_ret_l.
  rewrite (bind_Ret _ _ s2 (Some root) s2) by (unfold gets; cbn; by rewrite Hroot).
  unfold deref. rewrite bind_ret_l. unfold bind at 1, gets at 1.
  change (world s2) with (world s).
  assert ((match stat root (world s) with Some S_IFDIR => false | _ => true end) = true) as ->
    by (destruct (stat root (world s)) as [[]|]; done).
  cbn [when]. rewrite bind_assoc.
  set (m := "invalid root '" +:+ root +:+ "' is not a directory").
  assert (Hrep : report_error NETCF_EFILE m s2
    = (Ret tt, set_ncf (set_err NETCF_EFILE (Some m) (ncf s2)) s2)).
  { unfold report_error, vreport_error, strdup, malloc, bind, gets. cbn.
    rewrite decide_True by exact He. cbn. rewrite (Hwf He). cbn. by rewrite Hm. }
  rewrite (bind_Ret _ _ _ _ _ Hrep).
  set (s3 := set_ncf (set_err NETCF_EFILE (Some m) (ncf s2)) s2). unfold bind at 1, goto_error at 1.
  rewrite (bind_Ret _ _ _ _ _ (drv_close_run s3 _ eq_refl eq_refl eq_refl eq_refl)).
  eexists. split; [reflexivity|]. done.
Qed.

Lemma drv_init_no_socket s fd d w' : ncf_driver (ncf s) = Some d -> ioctl_fd d = fd -> 0 <= fd ->
  nl_sock d = false -> link_cache d = false -> addr_cache d = false ->
  nl_socket_alloc (world s) = (false, w') ->
  exists s', on_error (r ← netlink_init; when (r <? 0) goto_error ;; ret 0) (drv_close ;; ret (-1)) s
    = (Ret (-1), s') /\ err s' = err s /\ ncf_driver (ncf s') = None /\ world s' = close fd w'.
Proof.
  intros Hd <- Hfd Hn Hl Ha Hs.
  set (s1 := set_ncf (set_driver (Some (set_netlink false false false d)) (ncf s)) (set_world w' s)).
  assert (Hinit : netlink_init s = (Ret (-1), s1)).
  { unfold netlink_init, __rtnl_link_alloc_cache, __rtnl_addr_alloc_cache, on_error.
    rewrite (bind_Ret _ _ s false (set_world w' s)) by (unfold syscall; by rewrite Hs).
    rewrite (bind_Ret _ _ _ _ _ (upd_driver_run _ (set_world w' s) d Hd)), Hl, Ha. fold s1.
    change (when (negb false) goto_error) with (goto_error (S := state) (A := unit)).
    unfold bind at 1, goto_error at 1.
    assert (netlink_close s1 = (Ret 0, s1)) as Hc.
    { unfold netlink_close. by rewrite (bind_Ret _ _ _ _ _ (the_driver_run s1 _ eq_refl)). }
    by rewrite (bind_Ret _ _ _ _ _ Hc). }
  unfold on_error. rewrite (bind_Ret _ _ _ _ _ Hinit). change (-1 <? 0) with true. cbn [when].
  unfold bind at 1, goto_error at 1.
  rewrite (bind_Ret _ _ _ _ _ (drv_close_run s1 _ eq_refl eq_refl eq_refl eq_refl)).
  cbn [ioctl_fd set_netlink]. rewrite (proj2 (Z.leb_le 0 _)) by done.
  eexists. split; [reflexivity|]. done.
Qed.
End init_fail.

(** ** Properties *)

(** C16: on a root that is no directory starting fails with EFILE. On a good one
    with good style sheets, everything depends on the netlink socket: when it
    cannot be had, starting fails without any error recorded, and when netlink
    comes up the driver is ready. A driver that fails is taken down again. *)
Theorem drv_init_spec `{Augeas, !Kernel, !Netlink, !Libxml, !Posix, !RedhatConfig}
  (s : state) (root : string) (fd : Z) (g p : sheet) (w' : sys)
  (Hmem : mem s = []) (Hwf : err_wf s) (Hok : err s = NETCF_NOERROR)
  (Hroot : ncf_root (ncf s) = Some root) :
  (stat root (world s) <> Some S_IFDIR ->
   exists s', drv_init s = (Ret (-1), s') /\ err s' = NETCF_EFILE /\ ncf_driver (ncf s') = None /\
     world s' = world s) /\
  (stat root (world s) = Some S_IFDIR -> sheet_ok s "redhat-get.xsl" g ->
   sheet_ok s "redhat-put.xsl" p -> ioctl_opens (world s) fd w' ->
   let s1 := set_world w' (set_ncf (set_driver (Some (started fd g p)) (ncf s)) s) in
   if (nl_socket_alloc w').1
   then forall s2, netlink_init s1 = (Ret 0, s2) -> drv_init s = (Ret 0, s2)
   else exists s', drv_init s = (Ret (-1), s') /\ err s' = NETCF_NOERROR /\
          ncf_driver (ncf s') = None /\ world s' = close fd (nl_socket_alloc w').2).
Proof.
  split; [by apply drv_init_no_root|]. intros Hst Hg Hp Hio. cbv zeta.
  rewrite (drv_init_started s root fd g p w') by done. set (s1 := set_world _ _).
  destruct (nl_socket_alloc w') as [[] w2] eqn:Hs; cbn [fst snd].
  - intros s2 Hn. unfold on_error. by rewrite (bind_Ret _ _ _ _ _ Hn).
  - destruct Hio as (? & ? & _ & Hfd & _).
    destruct (drv_init_no_socket s1 fd (started fd g p) w2 eq_refl eq_refl Hfd eq_refl eq_refl eq_refl Hs)
      as (s' & Hr & He & Hd & Hw). exists s'. split_and!; [exact Hr|by rewrite He|done|done].
Qed.

(** The toy host without netlink. *)
Definition toy_no_netlink : Netlink (H := toy_host) :=
  {| link := string; addr := Z * string; RTNL_LINK_NOT_FOUND := 0;
     nl_socket_alloc := fun w => (false, w); nl_connect := fun w => (0, w);
     rtnl_link_alloc_cache := fun w => (0, w); rtnl_addr_alloc_cache := fun w => (0, w);
     nl_cache_mngt_provide := fun w => w; nl_socket_get_fd := fun _ => 7;
     nl_cache_free := fun w => w; nl_close := fun w => w;
     nl_cache_refill := fun _ w => (0, w); nl_links := fun _ => []; nl_links_of := fun _ _ => [];
     nl_addrs_of := fun _ _ => []; rtnl_addr_alloc := fun _ => true; rtnl_link_alloc := fun _ => true;
     rtnl_link_name2i := fun _ _ => 0; rtnl_link_get := fun _ _ => None;
     rtnl_link_get_type := fun _ => None; rtnl_link_get_link := fun _ => 0;
     rtnl_link_get_name := fun l => Some l; rtnl_link_get_ifindex := fun _ => 1;
     rtnl_link_get_flags := fun _ => 0; rtnl_link_get_master := fun _ => 0;
     rtnl_link_vlan_get_id := fun _ => 0; rtnl_link_get_addr := fun _ => None;
     nl_addr_iszero := fun _ => true; nl_addr_get_family := fst; nl_addr_ntop := snd;
     nl_addr_get_prefixlen := fun _ => 24 |}.

Lemma drv_init_spec_witness :
  exists s', drv_init (H2 := toy_no_netlink) (toy_state toy_os toy_empty) = (Ret (-1), s') /\
    err s' = NETCF_NOERROR /\ t_closed (world s') = [5].
Proof.
  destruct (proj2 (@drv_init_spec toy_host toy_augeas toy_kernel toy_no_netlink toy_libxml toy_posix
    toy_config (toy_state toy_os toy_empty) "/" 5 "/usr/share/netcf/xml/redhat-get.xsl"
    "/usr/share/netcf/xml/redhat-put.xsl" toy_os eq_refl ltac:(by intros _) eq_refl eq_refl)
    eq_refl) as (s' & Hr & He & _ & Hw).
  - split; reflexivity.
  - split; reflexivity.
  - exists toy_os, 0. repeat split; reflexivity || lia.
  - exists s'. split; [exact Hr|]. split; [exact He|]. rewrite Hw. reflexivity.
Defined.

(** Where the name of an interface is found in its document. *)
Definition name_expr : string := "string(/interface/@name)".
Definition vlan_expr : string :=
  "concat(/interface/vlan/interface/@name, '.', /interface/vlan/@tag)".

Section device_name.
Context `{Augeas, !Kernel, !Netlink, !Libxml, !Posix, !RedhatConfig}.
Context (d : option doc) (s : state) (Hmem : mem s = []) (Hok : err s = NETCF_NOERROR).
Context (Hctx : xmlXPathNewContext d (xml s) = true).

Lemma strlen_zero x : (strlen x =? 0) = bool_decide (x = "").
Proof.
  destruct x; [done|]. rewrite bool_decide_false by done. apply Z.eqb_neq. unfold strlen.
  cbn [String.length]. lia.
Qed.

Lemma device_named name : xpath_string name_expr d (xml s) = Some name ->
  name <> "" -> device_name_from_xml d s = (Ret (Some name), s).
Proof.
  unfold name_expr. intros Hname Hn. unfold device_name_from_xml, on_error.
  rewrite (bind_Ret _ _ s true s) by (unfold xget, gets; by rewrite Hctx).
  cbn [negb ERR_NOMEM when]. rewrite bind_ret_l.
  rewrite (bind_Ret _ _ s (Some name) s) by (unfold xget, gets; by rewrite Hname).
  unfold nonnull at 1. rewrite bind_ret_l, strlen_zero, bool_decide_false by done.
  by rewrite bind_ret_l, strdup_run.
Qed.

(** What follows when there is no name. *)
Lemma device_unnamed vlan : xpath_string name_expr d (xml s) = Some "" ->
  xpath_string vlan_expr d (xml s) = Some vlan ->
  device_name_from_xml d s = on_error
    (ERR_COND_BAIL (bool_decide (vlan = "")) NETCF_EINTERNAL ;;
     iface ← xget (xmlDocGetRootElement d);
     ERR_COND_BAIL (is_null iface) NETCF_EINTERNAL ;;
     i ← deref iface;
     xcall (xmlSetProp i "name" None) ;;
     strdup vlan) (ret None) s.
Proof.
  unfold name_expr, vlan_expr. intros Hname Hvlan. unfold device_name_from_xml, on_error.
  rewrite (bind_Ret _ _ s true s) by (unfold xget, gets; by rewrite Hctx).
  cbn [negb ERR_NOMEM when]. rewrite bind_ret_l.
  rewrite (bind_Ret _ _ s (Some "") s) by (unfold xget, gets; by rewrite Hname).
  unfold nonnull at 1. rewrite bind_ret_l. change (strlen "" =? 0) with true. cbv iota.
  rewrite bind_assoc.
  rewrite (bind_Ret _ _ s (Some vlan) s) by (unfold xget, gets; by rewrite Hvlan).
  unfold nonnull at 1. rewrite bind_assoc, bind_ret_l, strlen_zero.
  unfold bind. destruct (ERR_COND_BAIL _ _ s) as [[]s1]; [|done..]. unfold xget, gets.
  destruct (ERR_COND_BAIL (is_null _) _ s1) as [[]s2]; [|done..].
  destruct (deref _ s2) as [[]s3]; [|done..]. by destruct (xcall _ s3) as [[]s4].
Qed.

Lemma unnamed_fails {A} (k : unit -> M (option A)) :
  exists s', on_error (ERR_COND_BAIL true NETCF_EINTERNAL ≫= k) (ret None) s = (Ret None, s') /\
    err s' = NETCF_EINTERNAL.
Proof. eexists. split; reflexivity. Qed.
End device_name.

(** The name of the interface in a document is the one of its root element;
    without it, it is made of the name and the tag of a VLAN. In that case the
    name is meant to be put into the document, but the property set is NULL. *)
Theorem device_name_from_xml_spec `{Augeas, !Kernel, !Netlink, !Libxml, !Posix, !RedhatConfig}
  (d : option doc) (s : state) (name vlan : string) (root : option node)
  (Hmem : mem s = []) (Hok : err s = NETCF_NOERROR)
  (Hctx : xmlXPathNewContext d (xml s) = true)
  (Hname : xpath_string name_expr d (xml s) = Some name)
  (Hvlan : xpath_string vlan_expr d (xml s) = Some vlan)
  (Hroot : xmlDocGetRootElement d (xml s) = root) :
  if decide (name <> "") then device_name_from_xml d s = (Ret (Some name), s) else
  match root with
  | Some r =>
      if decide (vlan <> "") then
        device_name_from_xml d s = (Ret (Some vlan), set_xml (xmlSetProp r "name" None (xml s)).2 s)
      else exists s', device_name_from_xml d s = (Ret None, s') /\ err s' = NETCF_EINTERNAL
  | None => exists s', device_name_from_xml d s = (Ret None, s') /\ err s' = NETCF_EINTERNAL
  end.
Proof.
  case_decide as Hn; [by apply (device_named d s Hmem Hctx)|].
  assert (name = "") as -> by (destruct (decide (name = "")); tauto).
  rewrite (device_unnamed d s Hctx vlan Hname Hvlan). case_decide as Hv.
  - rewrite bool_decide_false by done. unfold on_error.
    rewrite (bind_Ret _ _ _ _ _ (ERR_BAIL_ok s Hok : ERR_COND_BAIL false NETCF_EINTERNAL s = _)).
    rewrite (bind_Ret _ _ s root s) by (unfold xget, gets; by rewrite Hroot).
    destruct root as [r|]; [|by eexists].
    rewrite (bind_Ret _ _ _ _ _ (ERR_BAIL_ok s Hok : ERR_COND_BAIL false NETCF_EINTERNAL s = _)).
    unfold deref. rewrite bind_ret_l. unfold bind at 1, xcall.
    destruct (xmlSetProp r "name" None (xml s)) as [b x]. by rewrite strdup_run.
  - rewrite bool_decide_true by (destruct (decide (vlan = "")); tauto).
    destruct root; apply (unnamed_fails s).
Qed.

Lemma device_name_from_xml_spec_witness :
  device_name_from_xml (Some 1%nat : option (doc (Host := toy_host))) (toy_parsed "eth0")
  = (Ret (Some "eth0"), toy_parsed "eth0").
Proof.
  exact (@device_name_from_xml_spec toy_host toy_augeas toy_kernel toy_netlink toy_libxml toy_posix
    toy_config (Some 1%nat) (toy_parsed "eth0") "eth0" "eth0" (Some 2%nat) eq_refl eq_refl eq_refl
    eq_refl eq_refl eq_refl).
Defined.
