(* ===== verification/AugEdit.v ===== *)
(** * What the drivers do to the Augeas tree

    A document that describes configuration files is put into the tree by a
    sequence of edits, made in order until one of them fails. Here: the edits,
    rules that compute them from the code, and the theorem for drv_redhat.c. *)

From S2P Require Import Prelude CStr XsltExt State Refs Toy Posix Xml Netcf Linux Common Redhat RedhatSpec.

(** Putting the same tree back changes nothing. *)
Lemma tree_self `{Augeas} (d : driver) (a : aug) (s : state) :
  ncf_driver (ncf s) = Some d -> augeas d = Some a ->
  set_ncf (set_driver (Some (set_augeas (Some a) d)) (ncf s)) s = s.
Proof. destruct s as [[? ? ? ? ? ? od ?] ? ? ? ? ? ? ?], d. cbn. by intros -> [= ->]. Qed.

(** [aug_rm] of a path, [aug_set] of a path to a value. *)
Inductive edit :=
  | Remove (path : string)
  | Assign (path : string) (value : option string).

Section edits.
Context `{Augeas, !Kernel}.

Definition make_edit (e : edit) (a : aug) : Z * aug :=
  match e with Remove p => aug_rm p a | Assign p v => aug_set p v a end.

(** The error that the code reports when an edit cannot be made *)
Definition edit_code (e : edit) : netcf_errcode_t :=
  match e with Remove _ => NETCF_EINTERNAL | Assign _ _ => NETCF_EOTHER end.

(** All of them in order: the tree, or the error of the first one that fails. *)
Fixpoint put_all (es : list edit) (a : aug) : aug + netcf_errcode_t :=
  match es with
  | [] => inl a
  | e :: es' => let '(r, a') := make_edit e a in if r <? 0 then inr (edit_code e) else put_all es' a'
  end.

Lemma put_all_app es1 es2 a :
  put_all (es1 ++ es2) a = match put_all es1 a with inl a' => put_all es2 a' | inr c => inr c end.
Proof.
  revert a. induction es1 as [|e es1 IH]; intros a; [done|]. cbn.
  destruct (make_edit e a) as [r a']. by destruct (r <? 0).
Qed.

Context (d : driver) (s : state).

(** The state with another tree. *)
Definition at_tree (a : aug) : state := set_ncf (set_driver (Some (set_augeas (Some a) d)) (ncf s)) s.

(** [writes m es r]: on every tree [m] makes the edits and returns [r], or fails
    with the error of the first edit that cannot be made. *)
Definition writes {A} (m : M A) (es : list edit) (r : A) : Prop := forall a,
  match put_all es a with
  | inl a' => m (at_tree a) = (Ret r, at_tree a')
  | inr c => exists s', m (at_tree a) = (Bail, s') /\ err s' = c
  end.

(** ** Rules *)

Lemma writes_ret {A} (r : A) : writes (ret r) [] r.
Proof. by intros a. Qed.

Lemma writes_bind {A B} (m : M A) (k : A -> M B) es1 es2 r1 r2 :
  writes m es1 r1 -> writes (k r1) es2 r2 -> writes (m ≫= k) (es1 ++ es2) r2.
Proof.
  intros Hm Hk a. specialize (Hm a). rewrite put_all_app. destruct (put_all es1 a) as [a'|c].
  - rewrite (bind_Ret _ _ _ _ _ Hm). apply Hk.
  - destruct Hm as (s' & Hr & He). exists s'. by rewrite (bind_Bail _ _ _ _ Hr).
Qed.

Lemma writes_then {A B} (m : M A) (k : A -> M B) es r1 r2 :
  writes m es r1 -> k r1 = ret r2 -> writes (m ≫= k) es r2.
Proof.
  intros Hm Hk. rewrite <- (app_nil_r es). eapply writes_bind; [exact Hm|]. rewrite Hk. apply writes_ret.
Qed.

Lemma writes_pure {A B} (m : M A) (k : A -> M B) x es r :
  (forall a, m (at_tree a) = (Ret x, at_tree a)) -> writes (k x) es r -> writes (m ≫= k) es r.
Proof. intros Hm Hk a. rewrite (bind_Ret _ _ _ _ _ (Hm a)). apply Hk. Qed.

Lemma writes_for_acc {A B} (l : list A) (body : A -> B -> M B) (f : A -> list edit) (g : A -> B -> B) b :
  (forall x b', x ∈ l -> writes (body x b') (f x) (g x b')) ->
  writes (for_acc l b body) (mjoin (f <$> l)) (foldl (fun b' x => g x b') b l).
Proof.
  revert b. induction l as [|x l IH]; intros b Hb; [apply writes_ret|].
  cbn [for_acc fmap list_fmap mjoin list_join foldl].
  eapply writes_bind; [apply Hb; by left|]. apply IH. intros y b' Hy. apply Hb. by right.
Qed.

Lemma writes_for_each {A} (l : list A) (body : A -> M unit) (f : A -> list edit) :
  (forall x, x ∈ l -> writes (body x) (f x) tt) -> writes (for_each l body) (mjoin (f <$> l)) tt.
Proof.
  induction l as [|x l IH]; intros Hb; [apply writes_ret|]. cbn [for_each fmap list_fmap mjoin list_join].
  apply writes_bind with (r1 := tt); [apply Hb; by left|]. apply IH. intros y Hy. apply Hb. by right.
Qed.

Lemma xget_tree {A} (f : xmem -> A) a : xget f (at_tree a) = (Ret (f (xml s)), at_tree a).
Proof. done. Qed.

Context (a0 : aug) (Hs : ready d a0 s).

Lemma at_tree_ready a : ready (set_augeas (Some a) d) a (at_tree a).
Proof. destruct Hs as [He Hw Hm Hd Ha Hl Hc]. split; [exact He|exact Hw|exact Hm|done|done|exact Hl|exact Hc]. Qed.

Lemma at_tree_self : at_tree a0 = s.
Proof. apply tree_self; apply Hs. Qed.

Lemma with_aug_tree {A} (f : aug -> A * aug) a :
  with_aug f (at_tree a) = (Ret (f a).1, at_tree (f a).2).
Proof.
  pose proof (at_tree_ready a) as Hr.
  by rewrite (with_aug_run f _ _ _ (rd_driver _ _ _ Hr) (rd_augeas _ _ _ Hr)).
Qed.

Lemma throw_tree (c : netcf_errcode_t) (msg : string) a : c <> NETCF_NOERROR ->
  exists s', ERR_THROW true c msg (at_tree a) = (Bail, s') /\ err s' = c.
Proof.
  intros Hc. pose proof (at_tree_ready a) as [He Hw Hm _ _ _ _]. specialize (Hw He).
  destruct (at_tree a) as [[? ? ? ? ec ed ? ?] ? ? ? ? ? ? ?]. unfold err in He. cbn in He, Hw, Hm. subst.
  unfold ERR_THROW, report_error, vreport_error, set_errcode, strdup, malloc, bind, gets, modify. cbn.
  by eexists.
Qed.

(** An edit whose failure is reported *)
Lemma writes_edit (e : edit) (msg : string) :
  writes (r ← with_aug (make_edit e); ERR_THROW (r <? 0) (edit_code e) msg) [e] tt.
Proof.
  intros a. cbn [put_all]. rewrite (bind_Ret _ _ _ _ _ (with_aug_tree _ a)).
  destruct (make_edit e a) as [r a']. cbn [fst snd]. destruct (r <? 0).
  - apply throw_tree. by destruct e.
  - done.
Qed.

Lemma writes_rm p msg :
  writes (r ← with_aug (aug_rm p); ERR_THROW (r <? 0) NETCF_EINTERNAL msg) [Remove p] tt.
Proof. apply (writes_edit (Remove p)). Qed.

(** A path made with xasprintf is set. *)
Lemma writes_assign p v (msg : string -> string) :
  writes (o ← xasprintf p; q ← nonnull o; r ← with_aug (aug_set q v);
          ERR_THROW (r <? 0) NETCF_EOTHER (msg q)) [Assign p v] tt.
Proof.
  eapply writes_pure; [intros a; apply (ready_str _ _ _ (at_tree_ready a))|].
  eapply writes_pure; [by intros a|]. apply (writes_edit (Assign p v)).
Qed.

(** [aug_fmt_set] and the check behind it *)
Lemma writes_set p v :
  writes (r ← aug_fmt_set v p; ERR_COND_BAIL (r <? 0) NETCF_EOTHER) [Assign p v] tt.
Proof.
  intros a. pose proof (at_tree_ready a) as Hr. cbn [put_all make_edit edit_code].
  destruct (aug_set p v a) as [r a'] eqn:Hset.
  assert (Hf : aug_fmt_set v p (at_tree a)
               = (if r <? 0 then (Ret (-1), set_ncf (set_err NETCF_EOTHER (errdetails (ncf (at_tree a'))) (ncf (at_tree a'))) (at_tree a'))
                  else (Ret r, at_tree a'))).
  { unfold aug_fmt_set, on_error. repeat ready_step Hr.
    rewrite (bind_Ret _ _ _ _ _ (with_aug_tree _ a)), Hset. cbn [fst snd].
    destruct (r <? 0) eqn:E; [done|]. pose proof (at_tree_ready a') as Hr'. by repeat ready_step Hr'. }
  destruct (r <? 0) eqn:E; rewrite (bind_Ret _ _ _ _ _ Hf).
  - eexists. split; reflexivity.
  - rewrite E. apply (ready_cond _ _ _ (at_tree_ready a')).
Qed.
End edits.

(** ** Documents that describe files *)

Section documents.
Context `{Libxml}.

(** The label of a node that has one *)
Definition label_of (x : xmem) (n : node) : string := default "" (xmlGetProp n "label" x).

(** A [<node>] below a [<tree>] for the file [path]; [keep] tells which labels are
    put into the file. *)
Definition node_edits (x : xmem) (keep : string -> bool) (path : string) (n : node) : list edit :=
  if keep (label_of x n) then [Assign (path +:+ "/" +:+ label_of x n) (xmlGetProp n "value" x)] else [].

(** The file is emptied first. *)
Definition tree_edits (x : xmem) (keep : string -> bool) (tree : node) : list edit :=
  let path := default "" (xmlGetProp tree "path" x) in
  Remove path :: mjoin (node_edits x keep path <$> node_children tree x).

Definition forest_edits (x : xmem) (keep : string -> bool) (forest : node) : list edit :=
  mjoin (tree_edits x keep <$> node_children forest x).

(** What the stylesheets produce: a forest of trees, with their attributes. *)
Record forest_doc (x : xmem) (forest : node) : Prop := {
  fd_forest : node_name forest x = "forest";
  fd_tree t : t ∈ node_children forest x -> node_name t x = "tree" /\ is_Some (xmlGetProp t "path" x);
  fd_node t n : t ∈ node_children forest x -> n ∈ node_children t x -> is_Some (xmlGetProp n "label" x)
}.
End documents.

Section put_documents.
Context `{Augeas, !Kernel, !Netlink, !Libxml, !Posix, !RedhatConfig}.
Context (d : driver) (a0 : aug) (s : state) (Hs : ready d a0 s).

(** The beginning of a tree: its name is checked and its file is removed. *)
Lemma writes_tree_head {B} (t : node) path msg1 msg2 (k : string -> M B) es r :
  node_name t (xml s) = "tree" -> xmlGetProp t "path" (xml s) = Some path ->
  writes d s (k path) es r ->
  writes d s
    (tname ← xget (node_name t);
     ERR_THROW (STRNEQ tname "tree") NETCF_EINTERNAL (msg1 tname) ;;
     opath ← xml_prop t "path";
     path ← deref opath;
     r ← with_aug (aug_rm path);
     ERR_THROW (r <? 0) NETCF_EINTERNAL (msg2 path) ;;
     k path) (Remove path :: es) r.
Proof.
  intros Hn Hp Hk. eapply writes_pure; [intros ?; apply xget_tree|]. rewrite Hn.
  eapply writes_pure; [intros ?; done|]. unfold xml_prop.
  eapply writes_pure; [intros ?; apply xget_tree|]. rewrite Hp.
  eapply writes_pure; [intros ?; done|]. change (Remove path :: es) with ([Remove path] ++ es).
  intros a. rewrite <- bind_assoc. revert a.
  eapply writes_bind; [apply (writes_rm d s a0 Hs)|exact Hk].
Qed.

Lemma writes_put_tree t :
  node_name t (xml s) = "tree" -> is_Some (xmlGetProp t "path" (xml s)) ->
  (forall n, n ∈ node_children t (xml s) -> is_Some (xmlGetProp n "label" (xml s))) ->
  writes d s (aug_put_tree t) (tree_edits (xml s) (fun _ => true) t) tt.
Proof.
  intros Hn [path Hp] Hl. unfold aug_put_tree, tree_edits. rewrite Hp. cbn [default id].
  apply (writes_tree_head t path _ _ _ _ _ Hn Hp).
  eapply writes_pure; [intros ?; apply xget_tree|]. apply writes_for_each. intros n [label Hlab]%Hl.
  unfold xml_prop, node_edits, label_of. do 2 (eapply writes_pure; [intros ?; apply xget_tree|]).
  rewrite Hlab. eapply writes_pure; [by intros ?|]. cbn [default id].
  apply (writes_assign d s a0 Hs _ _ (fun q => "aug_set of '" +:+ q +:+ "' failed")).
Qed.

(** From the root of the document on. *)
Lemma put_xml_run {B} (doc : option doc) (forest : node) (m : list node -> M B) es r :
  xmlDocGetRootElement doc (xml s) = Some forest -> node_name forest (xml s) = "forest" ->
  writes d s (m (node_children forest (xml s))) es r ->
  forall (h : M B) body, body = (get_augeas ;; ERR_BAIL ;;
     oforest ← xget (xmlDocGetRootElement doc);
     ERR_THROW (is_null oforest) NETCF_EINTERNAL "missing root element" ;;
     forest ← nonnull oforest;
     fname ← xget (node_name forest);
     ERR_THROW (STRNEQ fname "forest") NETCF_EINTERNAL
       ("expected root node labeled 'forest', not '" +:+ fname +:+ "'") ;;
     trees ← xget (node_children forest);
     m trees) ->
  match put_all es a0 with
  | inl a' => on_error body h s = (Ret r, at_tree d s a')
  | inr c => exists s', on_error body h s = h s' /\ err s' = c
  end.
Proof.
  intros Hroot Hname Hm h body ->. specialize (Hm a0). rewrite (at_tree_self d s a0 Hs) in Hm.
  assert (Hx : forall A (f : xmem -> A), xget f s = (Ret (f (xml s)), s)) by done.
  unfold on_error. repeat ready_step Hs. rewrite (bind_Ret _ _ _ _ _ (Hx _ _)), Hroot.
  repeat ready_step Hs. rewrite (bind_Ret (ERR_THROW _ _ _) _ s tt s) by done. repeat ready_step Hs.
  rewrite (bind_Ret _ _ _ _ _ (Hx _ _)), Hname.
  rewrite (bind_Ret (ERR_THROW _ _ _) _ s tt s) by done. rewrite (bind_Ret _ _ _ _ _ (Hx _ _)).
  destruct (put_all es a0) as [a'|c]; [by rewrite Hm|]. destruct Hm as (s' & -> & He). by exists s'.
Qed.

Lemma put_xml_writes (doc : option doc) (forest : node) :
  xmlDocGetRootElement doc (xml s) = Some forest -> forest_doc (xml s) forest ->
  match put_all (forest_edits (xml s) (fun _ => true) forest) a0 with
  | inl a' => aug_put_xml doc s = (Ret 0, at_tree d s a')
  | inr c => exists s', aug_put_xml doc s = (Ret (-1), s') /\ err s' = c
  end.
Proof.
  intros Hroot [Hf Ht Hn].
  assert (Hw : writes d s (for_each (node_children forest (xml s)) aug_put_tree ;; ret 0)
                 (forest_edits (xml s) (fun _ => true) forest) 0).
  { eapply writes_then; [|done]. apply writes_for_each. intros t Hin. destruct (Ht t Hin).
    apply writes_put_tree; eauto. }
  unfold aug_put_xml. by eapply (put_xml_run doc forest (fun l => for_each l aug_put_tree ;; ret 0)).
Qed.
End put_documents.

(** ** Properties *)

(** A document with the configuration of interfaces is put into the tree file
    by file, in its order: each file is emptied and its settings are assigned. If
    an edit fails the rest is left out, the result is -1 and the error is EINTERNAL
    for a file that cannot be emptied and EOTHER for a setting. *)
Theorem put_xml_spec `{Augeas, !Kernel, !Netlink, !Libxml, !Posix, !RedhatConfig}
  (d : driver) (a : aug) (s : state) (doc : option doc) (forest : node)
  (Hs : ready d a s) (Hroot : xmlDocGetRootElement doc (xml s) = Some forest)
  (Hdoc : forest_doc (xml s) forest) :
  match put_all (forest_edits (xml s) (fun _ => true) forest) a with
  | inl a' => aug_put_xml doc s = (Ret 0, at_tree d s a')
  | inr c => exists s', aug_put_xml doc s = (Ret (-1), s') /\ err s' = c
  end.
Proof. by apply put_xml_writes. Qed.

(** A document for one interface *)
Definition toy_forest : gmap nat xelem :=
  <[0%nat := {| x_name := ""; x_text := false; x_props := []; x_kids := [1%nat] |}]>
  (<[1%nat := {| x_name := "forest"; x_text := false; x_props := []; x_kids := [2%nat] |}]>
  (<[2%nat := {| x_name := "tree"; x_text := false;
                 x_props := [("path", "/files/etc/sysconfig/network/ifcfg-eth0")];
                 x_kids := [3%nat; 4%nat; 5%nat] |}]>
  (<[3%nat := {| x_name := "node"; x_text := false; x_props := [("label", "DEVICE"); ("value", "eth0")];
                 x_kids := [] |}]>
  (<[4%nat := {| x_name := "node"; x_text := false; x_props := [("label", "STARTMODE"); ("value", "auto")];
                 x_kids := [] |}]>
  (<[5%nat := {| x_name := "node"; x_text := false; x_props := [("label", "GATEWAY"); ("value", "10.0.0.1")];
                 x_kids := [] |}]> ∅))))).

Lemma toy_forest_doc : forest_doc (H0 := toy_libxml) toy_forest 1%nat.
Proof.
  split; [reflexivity| |].
  - intros t Ht. vm_compute in Ht. apply list_elem_of_singleton in Ht as ->. split; [reflexivity|by eexists].
  - intros t n Ht Hn%list_elem_of_In. vm_compute in Ht. apply list_elem_of_singleton in Ht as ->.
    vm_compute in Hn. destruct Hn as [<-|[<-|[<-|[]]]]; by eexists.
Defined.

Lemma put_xml_spec_witness :
  exists a', aug_put_xml (Some 0%nat) (set_xml (H := toy_host) toy_forest (toy_state toy_os toy_empty))
    = (Ret 0, at_tree (toy_driver toy_empty) (set_xml (H := toy_host) toy_forest (toy_state toy_os toy_empty)) a') /\
  t_ops a' = [("rm", "/files/etc/sysconfig/network/ifcfg-eth0");
              ("/files/etc/sysconfig/network/ifcfg-eth0/DEVICE", "eth0");
              ("/files/etc/sysconfig/network/ifcfg-eth0/STARTMODE", "auto");
              ("/files/etc/sysconfig/network/ifcfg-eth0/GATEWAY", "10.0.0.1")].
Proof.
  eexists. split.
  - exact (@put_xml_spec toy_host toy_augeas toy_kernel toy_netlink toy_libxml toy_posix toy_config
      (toy_driver toy_empty) toy_empty (set_xml (H := toy_host) toy_forest (toy_state toy_os toy_empty))
      (Some 0%nat) 1%nat ltac:(split; try reflexivity; intros _; reflexivity)
      ltac:(vm_compute; reflexivity) toy_forest_doc).
  - vm_compute. reflexivity.
Defined.
