(* ===== verification/RedhatDefine.v ===== *)
(** * What defining an interface does

    [drv_define] of drv_redhat.c when every stage goes well: the configuration of all
    interfaces of the document is removed from the tree, the files that the style
    sheet makes of it are put there, modprobe is told about bonds, and the tree is
    saved. The tree is a reference function of the document and the tree before. *)

From S2P Require Import Prelude CStr XsltExt State Refs Toy Posix Xml Netcf Linux Common Redhat RedhatSpec RedhatSave AugEdit.

(** ** Trees *)

Section trees.
Context `{Augeas}.

Definition chain (o : option aug) (f : aug -> option aug) : option aug :=
  match o with Some a => f a | None => None end.

(** A change of the tree that must not be refused *)
Definition step (f : aug -> Z * aug) (a : aug) : option aug :=
  let '(r, a') := f a in if r <? 0 then None else Some a'.

(** Each of the elements changes the tree. *)
Fixpoint each_step {A} (f : A -> aug -> option aug) (l : list A) (a : aug) : option aug :=
  match l with
  | [] => Some a
  | x :: l' => chain (f x a) (each_step f l')
  end.

(** The files of an interface, of its ports and its slaves *)
Definition files_of (n : string) : string :=
  ifcfg_path +:+ "[ " +:+ related n +:+ "     or MASTER = ../*[BRIDGE = '" +:+ n +:+ "']/DEVICE ]".

Definition last_alias : string := "/files/etc/modprobe.d/netcf.conf/alias[last()]".
Definition alias_of (n : string) : string := "/files/etc/modprobe.d/*/alias[ . = '" +:+ n +:+ "']".
Definition module_of (n : string) : string := "/files/etc/modprobe.d/*/alias[ . = '" +:+ n +:+ "']/modulename".

(** A new alias, behind the last one; whether it could be named is not checked. *)
Definition new_alias (n : string) (a : aug) : option aug :=
  chain (if bool_decide (matches a last_alias <> []) then step (aug_insert last_alias "alias" false) a else Some a)
    (fun a' => Some (aug_set last_alias (Some n) a').2).

(** modprobe loads the bonding module for [n]: there is an alias for it, a new one if need
    be, whose module is set. *)
Definition alias_bond (n : string) (a : aug) : option aug :=
  chain (if bool_decide (matches a (alias_of n) = []) then new_alias n a else Some a)
    (step (aug_set (module_of n) (Some "bonding"))).

(** modprobe forgets that it is to load the module for [n]. *)
Definition bonding_alias (n : string) : string :=
  "/files/etc/modprobe.d/*/alias[ . = '" +:+ n +:+ "'][modulename = 'bonding']".
Definition unalias_bond (n : string) : aug -> option aug := step (aug_rm (bonding_alias n)).

Definition bonded (a : aug) (n : string) : bool :=
  bool_decide (matches a (ifcfg_path +:+ "[ MASTER = '" +:+ n +:+ "']") <> []).

Definition alias_if_bond (alias : bool) (n : string) (a : aug) : option aug :=
  if bonded a n then (if alias then alias_bond n a else unalias_bond n a) else Some a.

(** The interface itself, then the ports of a bridge *)
Definition bond_tree (alias : bool) (n : string) (a : aug) : option aug :=
  chain (alias_if_bond alias n a)
    (fun a' => if bridge a' n then each_step (alias_if_bond alias) (bridge_ports a' n) a' else Some a').

(** The queries made about a bond are path expressions, which every tree answers. *)
Record bond_name_ok (n : string) : Prop := {
  bn_master a : answers a (ifcfg_path +:+ "[ MASTER = '" +:+ n +:+ "']");
  bn_alias a : answers a (alias_of n);
  bn_last a : answers a last_alias
}.

(** So are those about an interface of which it is not known what it is. *)
Record name_ok (n : string) : Prop := {
  nm_bond : bond_name_ok n;
  nm_bridge a : answers a (ifcfg_path +:+ "[ DEVICE = '" +:+ n +:+ "' and TYPE = 'Bridge']");
  nm_ports a : answers a (ifcfg_path +:+ "[ BRIDGE = '" +:+ n +:+ "' ]/DEVICE")
}.
End trees.

(** ** Running on a tree *)

Section does.
Context `{Augeas, !Kernel, !Netlink, !Libxml, !Posix, !RedhatConfig}.
Context (d : driver) (a0 : aug) (s : state) (Hs : ready d a0 s).

(** How a change of the tree ends that is refused *)
Definition broken (s' : state) : Prop := err s' = NETCF_EOTHER /\ world s' = world s.

Lemma broken_bail s' : broken s' -> ERR_BAIL s' = (Bail, s').
Proof. intros [He _]. apply ERR_BAIL_failed. unfold failed. by rewrite He. Qed.

(** On the tree [a], [m] ends with the tree of [o] and returns [r]. If [o] is none, it
    jumps to the label of the caller ([does]) or returns all the same ([tries]), with an
    error and nothing changed outside. *)
Definition does {A} (m : M A) (o : option aug) (r : A) (a : aug) : Prop :=
  match o with
  | Some a' => m (at_tree d s a) = (Ret r, at_tree d s a')
  | None => exists s', m (at_tree d s a) = (Bail, s') /\ broken s'
  end.
Definition tries {A} (m : M A) (o : option aug) (r : A) (a : aug) : Prop :=
  match o with
  | Some a' => m (at_tree d s a) = (Ret r, at_tree d s a')
  | None => exists s', m (at_tree d s a) = (Ret r, s') /\ broken s'
  end.

Lemma does_bind {A B} (m : M A) (k : A -> M B) o f r1 r2 a :
  does m o r1 a -> (forall a', o = Some a' -> does (k r1) (f a') r2 a') -> does (m ≫= k) (chain o f) r2 a.
Proof.
  unfold does, chain. intros Hm Hk. destruct o as [a1|].
  - rewrite (bind_Ret _ _ _ _ _ Hm). by apply Hk.
  - destruct Hm as (s' & Hr & Hb). exists s'. by rewrite (bind_Bail _ _ _ _ Hr).
Qed.

Lemma does_pure {A B} (m : M A) (k : A -> M B) x o r a :
  m (at_tree d s a) = (Ret x, at_tree d s a) -> does (k x) o r a -> does (m ≫= k) o r a.
Proof. intros Hp. unfold does. by rewrite (bind_Ret _ _ _ _ _ Hp). Qed.

Lemma does_when b m o a : (b = true -> does m o tt a) -> does (when b m) (if b then o else Some a) tt a.
Proof. destruct b; [auto|done]. Qed.

Lemma does_for_each {A} (l : list A) (body : A -> M unit) f a :
  (forall x a', x ∈ l -> does (body x) (f x a') tt a') -> does (for_each l body) (each_step f l a) tt a.
Proof.
  revert a. induction l as [|x l IH]; intros a Hb; [done|]. cbn [each_step for_each].
  apply (does_bind _ _ (f x a) (each_step f l) tt); [apply Hb; by left|]. intros a' _. apply IH.
  intros y a'' Hy. apply Hb. by right.
Qed.

Lemma does_label {A} (m : M A) o r a : does m o r a -> tries (on_error m (ret r)) o r a.
Proof.
  unfold does, tries. destruct o; [by apply on_error_Ret|]. intros (s' & Hr & Hb). exists s'.
  by rewrite (on_error_Bail _ _ _ _ Hr).
Qed.

(** A call that is followed by a look at the error *)
Lemma tries_bail {A B} (m : M A) (k : M B) o f r1 r2 a :
  tries m o r1 a -> (forall a', o = Some a' -> does k (f a') r2 a') ->
  does (m ;; ERR_BAIL ;; k) (chain o f) r2 a.
Proof.
  unfold does, tries, chain. intros Hm Hk. destruct o as [a1|].
  - rewrite (bind_Ret _ _ _ _ _ Hm), (bind_Ret _ _ _ _ _ (ready_bail _ _ _ (at_tree_ready d s a0 Hs a1))). by apply Hk.
  - destruct Hm as (s' & Hr & Hb). exists s'. split; [|done].
    by rewrite (bind_Ret _ _ _ _ _ Hr), (bind_Bail _ _ _ _ (broken_bail s' Hb)).
Qed.

Lemma tries_checked {A} (m : M A) o r a : tries m o r a -> does (m ;; ERR_BAIL) o tt a.
Proof.
  unfold does, tries. destruct o as [a1|].
  - intros Hm. rewrite (bind_Ret _ _ _ _ _ Hm). apply (ready_bail _ _ _ (at_tree_ready d s a0 Hs a1)).
  - intros (s' & Hr & Hb). exists s'. split; [|done]. rewrite (bind_Ret _ _ _ _ _ Hr). by apply broken_bail.
Qed.

(** A change whose result is checked *)
Lemma does_step (f : aug -> Z * aug) a :
  does (r ← with_aug f; ERR_COND_BAIL (r <? 0) NETCF_EOTHER) (step f a) tt a.
Proof.
  unfold does, step. rewrite (bind_Ret _ _ _ _ _ (with_aug_tree d s a0 Hs f a)).
  destruct (f a) as [r a1]. cbn [fst snd]. destruct (r <? 0).
  - eexists. split; [reflexivity|]. done.
  - apply (ready_cond _ _ _ (at_tree_ready d s a0 Hs a1)).
Qed.

(** Run the next call that leaves the tree alone. *)
Ltac tree_step a := let Hr := fresh in pose proof (at_tree_ready d s a0 Hs a) as Hr; repeat ready_step Hr.

(** Run the calls before the change, on the tree [a]. *)
Ltac does_calls a := unfold does; tree_step a; match goal with
  |- match ?o with Some a' => ?m (at_tree _ _ _) = (Ret ?r, _) | None => _ end => change (does m o r a) end.

Lemma rm_interface_at n a : tries (rm_interface n) (step (aug_rm (files_of n)) a) tt a.
Proof.
  unfold rm_interface. apply does_label. does_calls a. apply (does_step (aug_rm (files_of n))).
Qed.

Lemma no_matches a p : (Z.of_nat (length (matches a p)) =? 0) = bool_decide (matches a p = []).
Proof. by destruct (matches a p). Qed.
Lemma some_matches a p : (0 <? Z.of_nat (length (matches a p))) = bool_decide (matches a p <> []).
Proof. by destruct (matches a p). Qed.

(** A new alias *)
Lemma new_alias_at n a : answers a last_alias ->
  does (opath ← xasprintf last_alias;
        path ← nonnull opath;
        m ← ask_aug (aug_match path);
        when (0 <? nmatches m)
          (r ← with_aug (aug_insert path "alias" false);
           ERR_COND_BAIL (r <? 0) NETCF_EOTHER) ;;
        with_aug (aug_set path (Some n)) ;;
        ret tt) (new_alias n a) tt a.
Proof.
  intros Hq. does_calls a. rewrite (answers_nmatches a _ Hq), some_matches.
  apply does_bind with (r1 := tt); [apply does_when; intros _; apply (does_step (aug_insert last_alias "alias" false))|].
  intros a' _. unfold does. by rewrite (bind_Ret _ _ _ _ _ (with_aug_tree d s a0 Hs _ a')).
Qed.

Lemma alias_at n a : bond_name_ok n -> tries (modprobed_alias_bond n) (alias_bond n a) tt a.
Proof.
  intros [_ Hal Hla]. pose proof (Hal a) as Hq. unfold modprobed_alias_bond. fold (alias_of n). apply does_label.
  does_calls a. fold last_alias. rewrite no_matches.
  apply does_bind with (r1 := tt); [apply does_when; intros _; by apply new_alias_at|]. intros a' _.
  does_calls a'. apply (does_step (aug_set (module_of n) (Some "bonding"))).
Qed.

Lemma unalias_at n a : tries (modprobed_unalias_bond n) (unalias_bond n a) tt a.
Proof.
  unfold modprobed_unalias_bond. apply does_label. does_calls a. apply (does_step (aug_rm (bonding_alias n))).
Qed.

Lemma is_bond_at n a : bond_name_ok n -> is_bond n (at_tree d s a) = (Ret (bonded a n), at_tree d s a).
Proof.
  intros Hn. pose proof (bn_master n Hn a). unfold is_bond, bonded. tree_step a. by rewrite some_matches.
Qed.

Lemma is_bridge_at n a : name_ok n -> is_bridge n (at_tree d s a) = (Ret (bridge a n), at_tree d s a).
Proof.
  intros Hn. pose proof (nm_bridge n Hn a). unfold is_bridge, bridge. tree_step a. by rewrite some_matches.
Qed.

Lemma when_bond alias n a : bond_name_ok n ->
  does (when (bonded a n) (setup alias n ;; ERR_BAIL)) (alias_if_bond alias n a) tt a.
Proof.
  intros Hn. apply does_when. intros _. eapply tries_checked. destruct alias; [by apply alias_at|apply unalias_at].
Qed.

Lemma setup_at alias n a : bond_name_ok n ->
  does (b ← is_bond n; when b (setup alias n ;; ERR_BAIL)) (alias_if_bond alias n a) tt a.
Proof. intros Hn. eapply does_pure; [by apply is_bond_at|by apply when_bond]. Qed.

(** The ports have names that can be asked for, and what [bridge_slaves] reads above its
    caller's variable does not look like a failed copy. *)
Definition ports_named (n : string) (a : aug) : Prop :=
  (forall p, p ∈ matches a (ifcfg_path +:+ "[ BRIDGE = '" +:+ n +:+ "' ]/DEVICE") -> valued a p) /\
  (forall p, p ∈ bridge_ports a n -> bond_name_ok p) /\
  stack_clear (length (bridge_ports a n)) = true.

Lemma bridge_slaves_at n a : name_ok n -> ports_named n a ->
  bridge_slaves n (at_tree d s a) = (Ret (Some (Some <$> bridge_ports a n)), at_tree d s a).
Proof.
  intros Hn (Hv & _ & Hc). pose proof (nm_ports n Hn a). unfold bridge_slaves, on_error. tree_step a. unfold bind at 1.
  match goal with Hr : ready _ a (at_tree d s a) |- _ => rewrite (slaves_loop_run _ _ _ Hr _ _ Hv) end.
  unfold stack_clear, bridge_ports in *. rewrite length_fmap in Hc. by rewrite Hc.
Qed.

Lemma ports_at alias n a : ports_named n a ->
  does (for_each (Some <$> bridge_ports a n)
          (fun o => slave ← deref o; b ← is_bond slave; when b (setup alias slave ;; ERR_BAIL)))
    (each_step (alias_if_bond alias) (bridge_ports a n) a) tt a.
Proof.
  intros (_ & Hok & _).
  replace (each_step (alias_if_bond alias) (bridge_ports a n) a)
    with (each_step (fun o => alias_if_bond alias (default "" o)) (Some <$> bridge_ports a n) a).
  - apply does_for_each. intros o a' (x & -> & Hx)%list_elem_of_fmap. cbn [deref default id].
    apply (setup_at alias x a' (Hok x Hx)).
  - generalize (bridge_ports a n). clear. intros l. revert a. induction l as [|x l IH]; intros a; [done|].
    cbn. destruct (alias_if_bond alias x a); [apply IH|done].
Qed.

Lemma bond_setup_at alias n a : name_ok n ->
  (forall a1, alias_if_bond alias n a = Some a1 -> bridge a1 n = true -> ports_named n a1) ->
  tries (bond_setup n alias) (bond_tree alias n a) tt a.
Proof.
  intros Hn Hp. unfold bond_setup. apply does_label. eapply does_pure; [by apply is_bond_at, nm_bond|].
  apply does_bind with (r1 := tt); [by apply when_bond, nm_bond|]. intros a1 E.
  eapply does_pure; [by apply is_bridge_at|]. apply does_when. intros Hb. specialize (Hp a1 E Hb).
  eapply does_pure; [by apply bridge_slaves_at|].
  eapply does_pure; [apply (ready_bail _ _ _ (at_tree_ready d s a0 Hs a1))|]. by apply ports_at.
Qed.

(** The names of the interfaces whose files go *)
Definition removed (x : xmem) (nodes : list node) : list string :=
  (fun n => default "" (xmlGetProp n "name" x)) <$> nodes.

Lemma rm_all_at doc nodes a a' :
  xmlXPathNewContext doc (xml s) = true ->
  xpath_nodes "//interface[count(parent::vlan) = 0]" doc (xml s) = Some nodes ->
  (forall n, n ∈ nodes -> is_Some (xmlGetProp n "name" (xml s))) ->
  each_step (fun n => step (aug_rm (files_of n))) (removed (xml s) nodes) a = Some a' ->
  rm_all_interfaces doc (at_tree d s a) = (Ret tt, at_tree d s a').
Proof.
  intros Hc Hn Hl E. unfold rm_all_interfaces. apply on_error_Ret.
  rewrite (bind_Ret _ _ _ _ _ (xget_tree d s _ a)), Hc. cbn [negb ERR_NOMEM when]. rewrite bind_ret_l.
  rewrite (bind_Ret _ _ _ _ _ (xget_tree d s _ a)), Hn. unfold nonnull at 1. rewrite bind_ret_l.
  revert a E. clear Hn. induction nodes as [|n nodes IH]; intros a E; [by injection E as <-|].
  cbn [removed fmap list_fmap each_step for_each] in *. destruct (Hl n ltac:(by left)) as [name Hname].
  rewrite Hname in E. cbn [default id] in E.
  destruct (step _ a) as [a1|] eqn:E1 in E; [|done].
  rewrite (bind_Ret _ _ _ tt (at_tree d s a1)); [apply IH; [intros m Hm'; apply Hl; by right|done]|].
  rewrite (bind_Ret _ _ _ _ _ (xget_tree d s _ a)), Hname. unfold nonnull. rewrite bind_ret_l.
  pose proof (rm_interface_at name a) as Hrm. unfold tries in Hrm. rewrite E1 in Hrm.
  rewrite (bind_Ret _ _ _ _ _ Hrm). apply (ready_bail _ _ _ (at_tree_ready d s a0 Hs a1)).
Qed.
End does.

(** ** Documents that are accepted *)

Section accepted.
Context `{Augeas, !Kernel, !Netlink, !Libxml, !Posix, !RedhatConfig}.
Implicit Types s : state.

(** Stages that have to do with documents *)
Hint Resolve keeps_xcall keeps_xget keeps_free_doc : pres.
Lemma keeps_deref {A} (o : option A) : pres keeps (deref o).
Proof. unfold deref. pres_auto. Qed.
Hint Resolve keeps_deref : pres.
Lemma keeps_device_name o : pres keeps (device_name_from_xml o).
Proof. unfold device_name_from_xml. pres_auto. Qed.
Lemma keeps_apply_stylesheet st o : pres keeps (apply_stylesheet st o).
Proof. unfold apply_stylesheet, xslt_register_exts, apply_stylesheet_error. pres_auto. Qed.

(** What all stages leave alone *)
Definition onward s s' : Prop := steady s s' /\ keeps s s' /\ same_world s s'.

#[global] Instance onward_preorder : PreOrder onward.
Proof.
  split; unfold onward; [intros s; repeat split; try done; reflexivity|].
  intros x y z (? & ? & ?) (? & ? & ?). split_and!; by etransitivity.
Qed.

Lemma onward_intro {A} (m : M A) s o s' :
  pres steady m -> pres keeps m -> pres same_world m -> m s = (o, s') -> onward s s'.
Proof. intros Hst Hk Hw Hm. specialize (Hst s). specialize (Hk s). specialize (Hw s). by rewrite Hm in *. Qed.

Lemma onward_ready d a s s' : ready d a s -> onward s s' -> err s' = NETCF_NOERROR -> ready d a s'.
Proof. intros Hs ([He _] & Hk & _) Ho. by apply (keeps_ready s). Qed.

Lemma onward_ok s s' : onward s s' -> err s' = NETCF_NOERROR -> err s = NETCF_NOERROR.
Proof.
  intros ([[_ Hf] _] & _) He. destruct (decide (err s = NETCF_NOERROR)) as [|Hn]; [done|].
  by destruct (Hf Hn).
Qed.

(** In [s], on the tree [a0], the document goes through all stages up to the save; it
    is for the interface [name], and [a'] is the tree to be saved. [s4] is the state
    when the document has been transformed. *)
Inductive accepted (d : driver) (a0 : aug) s (xml_str name : string) (a' : aug) s4 : Prop :=
  accepted_intro doc s1 s2 s3 nodes a1 adoc forest a2
    (** it parses, is valid and has a name *)
    (Hparse : parse_xml xml_str s = (Ret doc, s1))
    (Hvalid : rng_validate doc s1 = (Ret tt, s2)) (Hok2 : err s2 = NETCF_NOERROR)
    (Hname : device_name_from_xml doc s2 = (Ret (Some name), s3)) (Hok3 : err s3 = NETCF_NOERROR)
    (** the interfaces in it are removed from the tree *)
    (Hcontext : xmlXPathNewContext doc (xml s3) = true)
    (Hnodes : xpath_nodes "//interface[count(parent::vlan) = 0]" doc (xml s3) = Some nodes)
    (Hnames : forall n, n ∈ nodes -> is_Some (xmlGetProp n "name" (xml s3)))
    (Hremoved : each_step (fun n => step (aug_rm (files_of n))) (removed (xml s3) nodes) a0 = Some a1)
    (** the style sheet makes a forest of it, which is put there *)
    (Hsheet : apply_stylesheet (get d) doc (at_tree d s3 a1) = (Ret adoc, s4))
    (Hok4 : err s4 = NETCF_NOERROR)
    (Hroot : xmlDocGetRootElement adoc (xml s4) = Some forest) (Hforest : forest_doc (xml s4) forest)
    (Hput : put_all (forest_edits (xml s4) (fun _ => true) forest) a1 = inl a2)
    (** and bonds get their aliases; the schema only lets names through that do not spoil
        the queries in which they are put *)
    (Hname_ok : name_ok name)
    (Hports : forall a, alias_if_bond true name a2 = Some a -> bridge a name = true -> ports_named name a)
    (Hbonds : bond_tree true name a2 = Some a').
End accepted.

(** ** Saving *)

Section save.
Context `{Augeas, !Kernel, !Netlink, !Libxml, !Posix, !RedhatConfig}.
Implicit Types s : state.

(** The state after the tree [a] has been saved: [aug_save] may change it. *)
Definition saved (d : driver) s (a : aug) : state :=
  set_world (aug_save (world s) a).2 (at_tree d s (aug_save (world s) a).1.2).

Lemma save_at d a0 s a : ready d a0 s ->
  save_augeas (at_tree d s a) = (Ret (aug_save (world s) a).1.1, saved d s a) /\
  ready (set_augeas (Some (aug_save (world s) a).1.2) d) (aug_save (world s) a).1.2 (saved d s a).
Proof.
  intros Hs. pose proof (at_tree_ready d s a0 Hs a) as Hr. unfold saved. split.
  - unfold save_augeas. rewrite (bind_Ret (gets world) _ _ _ _ eq_refl).
    rewrite (bind_Ret _ _ _ _ _ (the_driver_run _ _ (rd_driver _ _ _ Hr))). cbn [augeas set_augeas].
    change (world (at_tree d s a)) with (world s). destruct (aug_save (world s) a) as [[r a'] w'].
    by rewrite (bind_Ret _ _ _ _ _ (upd_driver_run _ _ _ (rd_driver _ _ _ Hr))).
  - pose proof (at_tree_ready d s a0 Hs (aug_save (world s) a).1.2) as [He Hw Hm Hd Ha Hl Hc].
    by split.
Qed.

(** A new interface, when memory suffices *)
Lemma new_nif_ready d a s n : ready d a s ->
  new_nif n s = (Ret (Some (next_if s)),
    with_if s (next_if s) {| nif_ref := 1; nif_name := n; nif_mac := None |} (ref_incr (ncf_ref (ncf s)))).
Proof.
  intros Hs. unfold new_nif. pose proof (make_netcf_if_run s n) as Hmk.
  unfold malloc in Hmk. rewrite (rd_mem _ _ _ Hs) in Hmk. cbn in Hmk. rewrite (bind_Ret _ _ _ _ _ Hmk).
  apply on_error_Ret. unfold ERR_BAIL, bind, gets. cbn. by rewrite decide_True by apply (rd_ok _ _ _ Hs).
Qed.

(** From the transformed document on *)
Lemma define_aug_run d a1 s name adoc forest a2 a' :
  ready d a1 s -> name_ok name ->
  xmlDocGetRootElement adoc (xml s) = Some forest -> forest_doc (xml s) forest ->
  put_all (forest_edits (xml s) (fun _ => true) forest) a1 = inl a2 ->
  (forall a, alias_if_bond true name a2 = Some a -> bridge a name = true -> ports_named name a) ->
  bond_tree true name a2 = Some a' ->
  let s5 := saved d s a' in
  if (aug_save (world s) a').1.1 <? 0 then
    exists s', define_aug name adoc s = (Ret None, s') /\ failed s' /\ world s' = world s5 /\
      ncf_driver (ncf s') = ncf_driver (ncf s5)
  else define_aug name adoc s = new_nif name s5.
Proof.
  intros Hs Hname Hroot Hforest Hput Hports Hbonds s5.
  pose proof (put_xml_writes d a1 s Hs adoc forest Hroot Hforest) as Hp. rewrite Hput in Hp.
  pose proof (at_tree_ready d s a1 Hs a2) as Hr2. pose proof (at_tree_ready d s a1 Hs a') as Hr'.
  destruct (save_at d a1 s a' Hs) as [Hsave Hr5]. fold s5 in Hsave, Hr5.
  assert (Hbody : forall k h, on_error (ERR_BAIL ;; aug_put_xml adoc ;; ERR_BAIL ;; bond_setup name true ;;
            ERR_BAIL ;; r ← save_augeas; k r) h s
          = on_error (k ((aug_save (world s) a').1.1)) h s5 :> (outcome (option nat) * state)).
  { intros k h. unfold on_error. repeat ready_step Hs. rewrite (bind_Ret _ _ _ _ _ Hp). repeat ready_step Hr2.
    pose proof (bond_setup_at d a1 s Hs true name a2 Hname Hports) as Hb. unfold tries in Hb. rewrite Hbonds in Hb.
    rewrite (bind_Ret _ _ _ _ _ Hb).
    repeat ready_step Hr'. by rewrite (bind_Ret _ _ _ _ _ Hsave). }
  unfold define_aug. rewrite Hbody. clear Hbody. unfold on_error. destruct (_ <? 0) eqn:Er.
  - rewrite (bind_Ret (gets _) _ _ _ _ eq_refl). cbn [andb].
    assert (Hdbg : exists t, (when (debug (ncf s5)) (printf ("Errors from aug_save:" +:+ nl) ;;
              errors ← ask_aug (aug_print "/augeas//error"); printf errors)) s5 = (Ret tt, set_tty t s5)).
    { destruct (debug (ncf s5)); [|exists (tty s5); by destruct s5]. cbn [when].
      rewrite (bind_Ret (printf _) _ _ _ _ eq_refl).
      erewrite bind_Ret; [|eapply ask_aug_run; [apply (rd_driver _ _ _ Hr5)|reflexivity]]. by eexists. }
    destruct Hdbg as [t Ht]. rewrite (bind_Ret _ _ _ _ _ Ht).
    destruct (report_error_total NETCF_EOTHER "aug_save failed" (set_tty t s5)) as (s' & Hrep & Hf & _ & Hd & Hw & _);
      [by destruct Hr5|done|].
    exists s'. split; [|by rewrite Hw, Hd]. unfold ERR_THROW. cbn [when].
    rewrite bind_assoc. by rewrite (bind_Ret _ _ _ _ _ Hrep).
  - rewrite (bind_Ret (gets _) _ _ _ _ eq_refl). cbn [andb when ERR_THROW]. rewrite !bind_ret_l.
    by rewrite (new_nif_ready _ _ _ _ Hr5).
Qed.
End save.

(** ** The whole operation *)

Section define.
Context `{Augeas, !Kernel, !Netlink, !Libxml, !Posix, !RedhatConfig}.
Implicit Types s : state.

Lemma onward_parse x s o s' : parse_xml x s = (o, s') -> onward s s'.
Proof. apply onward_intro; [apply parse_xml_steady|apply keeps_parse_xml|apply quiet_parse_xml]. Qed.
Lemma onward_validate o1 s o s' : rng_validate o1 s = (o, s') -> onward s s'.
Proof. apply onward_intro; [apply rng_validate_steady|apply keeps_rng_validate|apply quiet_rng_validate]. Qed.
Lemma onward_name o1 s o s' : device_name_from_xml o1 s = (o, s') -> onward s s'.
Proof. apply onward_intro; [apply device_name_from_xml_steady|apply keeps_device_name|apply quiet_device_name]. Qed.
Lemma onward_sheet st o1 s o s' : apply_stylesheet st o1 s = (o, s') -> onward s s'.
Proof. apply onward_intro; [apply apply_stylesheet_steady|apply keeps_apply_stylesheet|apply quiet_apply_stylesheet]. Qed.

Lemma tree_twice d s a1 a : at_tree (set_augeas (Some a1) d) s a = at_tree d s a.
Proof. done. Qed.

(** The stages before [define_aug]: they leave the world, the references and, apart
    from what is removed from it, the tree alone. *)
Lemma accepted_run d a s0 s xml_str name a' s4 :
  get_augeas s0 = (Ret true, s) -> ready d a s ->
  accepted d a s xml_str name a' s4 ->
  refs_same s s4 /\ same_world s s4 /\
  exists adoc forest a1 a2,
    ready (set_augeas (Some a1) d) a1 s4 /\
    xmlDocGetRootElement adoc (xml s4) = Some forest /\ forest_doc (xml s4) forest /\
    put_all (forest_edits (xml s4) (fun _ => true) forest) a1 = inl a2 /\
    name_ok name /\
    (forall a, alias_if_bond true name a2 = Some a -> bridge a name = true -> ports_named name a) /\
    bond_tree true name a2 = Some a' /\
    (forall r s', define_aug name adoc s4 = (Ret r, s') ->
       exists x, drv_define xml_str s0 = (Ret r, set_xml x s')).
Proof.
  intros Hget Hs []. pose proof (onward_parse _ _ _ _ Hparse) as O1.
  pose proof (onward_validate _ _ _ _ Hvalid) as O2. pose proof (onward_name _ _ _ _ Hname) as O3.
  pose proof (onward_sheet _ _ _ _ _ Hsheet) as O4.
  assert (Hok1 : err s1 = NETCF_NOERROR) by by apply (onward_ok _ _ O2).
  pose proof (onward_ready _ _ _ _ Hs O1 Hok1) as R1. pose proof (onward_ready _ _ _ _ R1 O2 Hok2) as R2.
  pose proof (onward_ready _ _ _ _ R2 O3 Hok3) as R3. pose proof (at_tree_ready d s3 a R3 a1) as Rt.
  pose proof (onward_ready _ _ _ _ Rt O4 Hok4) as R4.
  assert (O : onward s s3) by (do 2 (etransitivity; [eassumption|]); eassumption).
  destruct O as ([_ Or] & _ & Ow), O4 as ([_ Or4] & _ & Ow4).
  split; [etransitivity; [exact Or|]; exact Or4|]. split; [unfold same_world in *; by rewrite Ow4, <- Ow|].
  exists adoc, forest, a1, a2. do 7 (split; [done|]). intros r s' Hdef.
  pose proof (rm_all_at d a s3 R3 doc nodes a a1 Hcontext Hnodes Hnames Hremoved) as Hrm.
  rewrite (at_tree_self d s3 a R3) in Hrm.
  unfold drv_define. rewrite (bind_Ret _ _ _ _ _ Hget). unfold on_error at 1. repeat ready_step Hs.
  rewrite (bind_Ret _ _ _ _ _ Hparse). erewrite (bind_Ret (on_error _ _)).
  2:{ apply on_error_Ret. repeat ready_step R1. rewrite (bind_Ret _ _ _ _ _ Hvalid). repeat ready_step R2.
      rewrite (bind_Ret _ _ _ _ _ Hname). repeat ready_step R3.
      rewrite (bind_Ret _ _ _ _ _ Hrm). repeat ready_step Rt.
      rewrite (bind_Ret _ _ _ _ _ (the_driver_run _ _ (rd_driver _ _ _ Rt))). cbn [get set_augeas].
      rewrite (bind_Ret _ _ _ _ _ Hsheet), (bind_Ret _ _ _ _ _ Hdef). reflexivity. }
  destruct (free_doc_run doc s') as [x Hx]. rewrite (bind_Ret _ _ _ _ _ Hx).
  destruct (free_doc_run adoc (set_xml x s')) as [y Hy]. rewrite (bind_Ret _ _ _ _ _ Hy).
  by exists y.
Qed.
End define.

(** ** Property *)

(** C9: an interface is defined as its document says. When the document is accepted,
    the files that are written are those of the tree in which the configuration of
    every interface of the document was removed, the files of the style sheet were put,
    and bonds got their aliases; the rest of the world is left alone. If they are
    written, a new interface with the name in the document and one reference is
    returned, and without an error; if not, no interface is returned, and the error is
    reported. *)
Theorem define_spec `{Augeas, !Kernel, !Netlink, !Libxml, !Posix, !RedhatConfig}
  (d : driver) (a : aug) (s0 s s4 : state) (xml_str name : string) (a' : aug)
  (Hget : get_augeas s0 = (Ret true, s)) (Hs : ready d a s)
  (Hacc : accepted d a s xml_str name a' s4) :
  let '(r, saved_tree, w) := aug_save (world s) a' in
  exists s', drv_define xml_str s0 = (Ret (if r <? 0 then None else Some (next_if s)), s') /\
    world s' = w /\ ncf_driver (ncf s') = Some (set_augeas (Some saved_tree) d) /\
    if r <? 0 then err s' <> NETCF_NOERROR
    else err s' = NETCF_NOERROR /\ ncf_ref (ncf s') = ref_incr (ncf_ref (ncf s)) /\
      ifs s' = <[next_if s := {| nif_ref := 1; nif_name := name; nif_mac := None |}]> (ifs s).
Proof.
  destruct (accepted_run d a s0 s xml_str name a' s4 Hget Hs Hacc)
    as ((_ & Hr & Hi & Hn) & Hw & adoc & forest & a1 & a2 & R4 & Hroot & Hforest & Hput & Hname & Hports & Hbonds & Hend).
  pose proof (define_aug_run _ a1 s4 name adoc forest a2 a' R4 Hname Hroot Hforest Hput Hports Hbonds) as Hrun.
  unfold same_world in Hw. unfold saved in Hrun. rewrite Hw in Hrun.
  destruct (save_at _ a1 s4 a' R4) as [_ Rs]. unfold saved in Rs. rewrite Hw in Rs.
  destruct (aug_save (world s) a') as [[r t] w]. cbn [fst snd] in *. destruct (r <? 0).
  - destruct Hrun as (s' & Hdef & Hf & Hws & Hd). destruct (Hend _ _ Hdef) as [x Hx].
    eexists. split; [exact Hx|]. split; [exact Hws|]. split; [|exact Hf]. by etransitivity.
  - rewrite (new_nif_ready _ _ _ name Rs) in Hrun. destruct (Hend _ _ Hrun) as [x Hx].
    rewrite <- Hn, <- Hr, <- Hi. eexists. split; [exact Hx|].
    split; [done|]. split; [done|]. split; [apply (rd_ok _ _ _ Rs)|]. by split.
Qed.

(** A bond, which modprobe does not know yet *)
Definition toy_bond : toy_aug :=
  {| t_match := [(ifcfg_path +:+ "[ MASTER = 'bond0']", [ifcfg_path +:+ "[1]"])]; t_value := []; t_ops := [] |}.

Definition toy_bond_defined : toy_aug :=
  {| t_match := t_match toy_bond; t_value := [];
     t_ops := [("rm", files_of "bond0");
               ("rm", "/files/etc/sysconfig/network-scripts/ifcfg-bond0");
               ("/files/etc/sysconfig/network-scripts/ifcfg-bond0/DEVICE", "bond0");
               (last_alias, "bond0"); (module_of "bond0", "bonding")] |}.

Lemma toy_bond_accepted (s := toy_state toy_os toy_bond) :
  exists s4, accepted (H0 := toy_augeas) (H3 := toy_libxml) (toy_driver toy_bond) toy_bond s
    "bond0" "bond0" toy_bond_defined s4.
Proof.
  eexists. eapply accepted_intro with (forest := 4%nat).
  - vm_compute. reflexivity.
  - vm_compute. reflexivity.
  - vm_compute. reflexivity.
  - vm_compute. reflexivity.
  - vm_compute. reflexivity.
  - reflexivity.
  - vm_compute. reflexivity.
  - intros n ->%list_elem_of_singleton. by eexists.
  - vm_compute. reflexivity.
  - vm_compute. reflexivity.
  - vm_compute. reflexivity.
  - vm_compute. reflexivity.
  - split; [reflexivity| |].
    + intros t Ht. vm_compute in Ht. apply list_elem_of_singleton in Ht as ->. split; [reflexivity|by eexists].
    + intros t n Ht Hn. vm_compute in Ht. apply list_elem_of_singleton in Ht as ->.
      vm_compute in Hn. apply list_elem_of_singleton in Hn as ->. by eexists.
  - vm_compute. reflexivity.
  - repeat split; intros a; by apply toy_answers.
  - intros a Ha Hb. vm_compute in Ha. injection Ha as <-. by vm_compute in Hb.
  - vm_compute. reflexivity.
Defined.

Lemma define_spec_witness :
  exists s', drv_define "bond0" (toy_state toy_os toy_bond) = (Ret (Some 0%nat), s') /\
    t_saved (world s') = 1%nat /\ ifs s' = {[0%nat := {| nif_ref := 1; nif_name := "bond0"; nif_mac := None |}]} /\
    ncf_driver (ncf s') = Some (toy_driver toy_bond_defined).
Proof.
  destruct toy_bond_accepted as [s4 Hacc].
  destruct (@define_spec toy_host toy_augeas toy_kernel toy_netlink toy_libxml toy_posix toy_config
    (toy_driver toy_bond) toy_bond (toy_state toy_os toy_bond) (toy_state toy_os toy_bond) s4
    "bond0" "bond0" toy_bond_defined ltac:(vm_compute; reflexivity)
    ltac:(split; try reflexivity; intros _; reflexivity) Hacc)
    as (s' & Hrun & Hw & Hd & _ & _ & Hi).
  exists s'. split; [exact Hrun|]. split; [by rewrite Hw|]. by split.
Defined.
