(* ===== verification/RedhatUndefine.v ===== *)
(** * What undefining an interface does

    [drv_undefine] of drv_redhat.c, in every case: modprobe forgets the bonds, the
    configuration of the interface is removed from the tree, and the tree is saved; when
    a change of the tree is refused, nothing is saved. *)

From S2P Require Import Prelude CStr XsltExt State Refs Toy Posix Xml Netcf Linux Common Redhat RedhatSpec RedhatSave AugEdit RedhatDefine.

Section undefine.
Context `{Augeas, !Kernel, !Netlink, !Libxml, !Posix, !RedhatConfig}.
Implicit Types s : state.

(** First the aliases of the bonds go, then the files of the interface, of its ports and
    its slaves. *)
Definition undefined_tree (n : string) (a : aug) : option aug :=
  chain (bond_tree false n a) (step (aug_rm (files_of n))).

(** The ports that are asked about are those in the tree without the alias of [n]. *)
Definition unalias_ok (n : string) (a : aug) : Prop :=
  name_ok n /\ forall a1, alias_if_bond false n a = Some a1 -> bridge a1 n = true -> ports_named n a1.

(** A change is refused: the files stay as they are. *)
Lemma undefine_refused d a s0 s p nif :
  ifs s !! p = Some nif -> get_augeas s0 = (Ret true, s) -> ready d a s -> unalias_ok (nif_name nif) a ->
  ifs s0 = ifs s -> undefined_tree (nif_name nif) a = None ->
  exists s', drv_undefine p s0 = (Ret (-1), s') /\ world s' = world s /\ err s' = NETCF_EOTHER.
Proof.
  intros Hp Hget Hs [Hn Hports] Hifs E. rewrite <- Hifs in Hp. set (name := nif_name nif) in *. unfold drv_undefine.
  rewrite (bind_Ret _ _ _ _ _ (if_name_ret s0 p nif Hp)). fold name. unfold on_error.
  rewrite (bind_Ret _ _ _ _ _ Hget). repeat ready_step Hs.
  pose proof (bond_setup_at d a s Hs false name a Hn Hports) as Hb. rewrite <- (at_tree_self d s a Hs).
  unfold undefined_tree, chain, tries in *. destruct (bond_tree false name a) as [a1|].
  - rewrite (bind_Ret _ _ _ _ _ Hb), (bind_Ret _ _ _ _ _ (ready_bail _ _ _ (at_tree_ready d s a Hs a1))).
    pose proof (rm_interface_at d a s Hs name a1) as Hr. unfold tries in Hr. rewrite E in Hr.
    destruct Hr as (s' & Hr & Hbr). rewrite (bind_Ret _ _ _ _ _ Hr), (bind_Bail _ _ _ _ (broken_bail s s' Hbr)).
    exists s'. split; [done|]. by destruct Hbr.
  - destruct Hb as (s' & Hr & Hbr). rewrite (bind_Ret _ _ _ _ _ Hr), (bind_Bail _ _ _ _ (broken_bail s s' Hbr)).
    exists s'. split; [done|]. by destruct Hbr.
Qed.

(** No change is refused: the tree is saved. *)
Lemma undefine_saves d a s0 s p nif a' :
  ifs s !! p = Some nif -> get_augeas s0 = (Ret true, s) -> ready d a s -> unalias_ok (nif_name nif) a ->
  ifs s0 = ifs s -> undefined_tree (nif_name nif) a = Some a' ->
  drv_undefine p s0
  = if (aug_save (world s) a').1.1 <? 0 then (Ret (-1), refused (saved d s a')) else (Ret 0, saved d s a').
Proof.
  intros Hp Hget Hs [Hn Hports] Hifs E. rewrite <- Hifs in Hp. set (name := nif_name nif) in *. unfold drv_undefine.
  rewrite (bind_Ret _ _ _ _ _ (if_name_ret s0 p nif Hp)). fold name. unfold on_error.
  rewrite (bind_Ret _ _ _ _ _ Hget). repeat ready_step Hs.
  pose proof (bond_setup_at d a s Hs false name a Hn Hports) as Hb. rewrite <- (at_tree_self d s a Hs).
  unfold undefined_tree, chain, tries in *. destruct (bond_tree false name a) as [a1|]; [|done].
  rewrite (bind_Ret _ _ _ _ _ Hb), (bind_Ret _ _ _ _ _ (ready_bail _ _ _ (at_tree_ready d s a Hs a1))).
  pose proof (rm_interface_at d a s Hs name a1) as Hr. unfold tries in Hr. rewrite E in Hr.
  rewrite (bind_Ret _ _ _ _ _ Hr), (bind_Ret _ _ _ _ _ (ready_bail _ _ _ (at_tree_ready d s a Hs a'))).
  destruct (save_at d a s a' Hs) as [Hsave Hrs]. rewrite (at_tree_self d s a Hs), (bind_Ret _ _ _ _ _ Hsave).
  destruct (_ <? 0); [done|]. by repeat ready_step Hrs.
Qed.
End undefine.

(** ** Property *)

(** C8: an interface is undefined in two steps on the tree: the aliases that tell
    modprobe to load the bonding module are removed, for the interface if it is a bond and
    for those of its ports that are bonds if it is a bridge, and then the configuration of
    the interface with all its ports and slaves. If the tree refuses one of them, nothing is
    written, the result is -1 and the error EOTHER. Otherwise exactly this tree is saved,
    once, and nothing else is done outside; the result is 0 if it could be saved, and -1
    with the error EOTHER if not. The interface itself and its references stay. *)
Theorem undefine_spec `{Augeas, !Kernel, !Netlink, !Libxml, !Posix, !RedhatConfig}
  (d : driver) (a : aug) (s0 s : state) (p : nat) (nif : netcf_if)
  (Hp : ifs s0 !! p = Some nif) (Hget : get_augeas s0 = (Ret true, s)) (Hs : ready d a s)
  (Hok : unalias_ok (nif_name nif) a) :
  match undefined_tree (nif_name nif) a with
  | None => exists s', drv_undefine p s0 = (Ret (-1), s') /\ world s' = world s /\ err s' = NETCF_EOTHER
  | Some a' =>
      let '(r, saved_tree, w) := aug_save (world s) a' in
      exists s', drv_undefine p s0 = (Ret (if r <? 0 then -1 else 0), s') /\
        world s' = w /\ ncf_driver (ncf s') = Some (set_augeas (Some saved_tree) d) /\ refs_same s0 s' /\
        err s' = (if r <? 0 then NETCF_EOTHER else NETCF_NOERROR)
  end.
Proof.
  pose proof (get_augeas_steady s0) as [_ Hr0]. rewrite Hget in Hr0. cbn in Hr0.
  pose proof Hr0 as (_ & _ & Hi & _). rewrite <- Hi in Hp.
  destruct (undefined_tree _ a) as [a'|] eqn:E; [|by apply (undefine_refused d a s0 s p nif)].
  pose proof (undefine_saves d a s0 s p nif a' Hp Hget Hs Hok (eq_sym Hi) E) as Hrun. unfold saved in Hrun.
  pose proof (rd_ok _ _ _ Hs) as He.
  destruct (aug_save (world s) a') as [[r t] w]. cbn [fst snd] in Hrun.
  destruct (r <? 0); (eexists; split; [exact Hrun|]; split_and!; [done|done|etransitivity; [exact Hr0|done]|done]).
Qed.

(** [bond0] is a bond with an alias. *)
Definition toy_bond_undefined : toy_aug :=
  {| t_match := t_match toy_bond; t_value := [];
     t_ops := [("rm", bonding_alias "bond0"); ("rm", files_of "bond0")] |}.

Definition toy_bond_state : state (H := toy_host) :=
  (make_netcf_if "bond0" (toy_state toy_os toy_bond)).2.

Lemma undefine_spec_witness :
  exists s', drv_undefine 0 toy_bond_state = (Ret 0, s') /\
    t_saved (world s') = 1%nat /\ ncf_driver (ncf s') = Some (toy_driver toy_bond_undefined).
Proof.
  destruct (@undefine_spec toy_host toy_augeas toy_kernel toy_netlink toy_libxml toy_posix toy_config
    (toy_driver toy_bond) toy_bond toy_bond_state toy_bond_state 0%nat
    {| nif_ref := 1; nif_name := "bond0"; nif_mac := None |} ltac:(vm_compute; reflexivity)
    ltac:(vm_compute; reflexivity) ltac:(split; try reflexivity; intros _; reflexivity))
    as (s' & Hrun & Hw & Hd & _).
  - split; [repeat split; intros a; by apply toy_answers|]. intros a Ha Hb. vm_compute in Ha.
    injection Ha as <-. by vm_compute in Hb.
  - exists s'. split; [exact Hrun|]. split; [by rewrite Hw|exact Hd].
Defined.
