(* ===== verification/Describe.v ===== *)
(** * The document of a configuration

    [aug_get_xml] of drv_redhat.c makes a document of the files of interfaces: a tree
    for each file, a node for each setting. Here: that the document is this tree. *)

From S2P Require Import Prelude CStr XsltExt State Refs Toy Posix Xml XmlTree Netcf Linux Common Redhat RedhatSpec AugEdit.

(** ** What a document says *)

Section views.
Context `{Libxml}.

(** The label and the value of a [<node>]; the path of a [<tree>] with its nodes. *)
Definition node_view (x : xmem) (n : node) : option string * option string :=
  (xmlGetProp n "label" x, xmlGetProp n "value" x).
Definition tree_view (x : xmem) (t : node) : option string * list (option string * option string) :=
  (xmlGetProp t "path" x, node_view x <$> node_children t x).
Definition forest_view (x : xmem) (forest : node) : list (option string * list (option string * option string)) :=
  tree_view x <$> node_children forest x.
End views.

(** ** Reading files from the tree *)

Section reading.
Context `{Augeas, !Kernel, !Netlink, !Libxml, !Posix, !RedhatConfig, !XmlBuild _}.
Context (d : driver) (a : aug).

Lemma ready_xml s x : ready d a s -> ready d a (set_xml x s).
Proof. intros [? ? ? ? ? ? ?]. by split. Qed.

(** The [<node>] of the match [m] below the file [path], the [<tree>] of the file *)
Definition match_tree (path m : string) : xtree :=
  Elem "node" (<["value" := default "" (aug_get m a).2]>
               (<["label" := string_drop (String.length path + 1) m]> ∅)) [].
Definition file_tree (path : string) : xtree :=
  Elem "tree" (<["path" := path]> ∅) (match_tree path <$> matches a (path +:+ "/" +:+ "*")).

(** The file [path] with its settings can be listed. *)
Definition listable (path : string) : Prop :=
  is_Some (aug_match (path +:+ "/" +:+ "*") a) /\
  forall m, m ∈ matches a (path +:+ "/" +:+ "*") -> 0 <= (aug_get m a).1.

Lemma get_node_run path m t s :
  ready d a s -> 0 <= (aug_get m a).1 -> alive t (xml s) ->
  hangs (aug_get_xml_node (Some t) path m) s tt t [match_tree path m].
Proof.
  intros Hs Hm Ht.
  destruct (newchild_law t "node" (xml s) Ht ltac:(set_solver)) as (n & x1 & Hnew & Hca).
  pose proof (ca_new _ _ _ _ _ _ Hca) as Hne. pose proof (ne_alive _ _ _ _ Hne) as Hn1.
  destruct (newprop_law n "label" (Some (string_drop (String.length path + 1) m)) x1 Hn1 (ne_props _ _ _ _ Hne _))
    as (x2 & Hp2 & Hput2).
  destruct (newprop_law n "value" (aug_get m a).2 x2) as (x3 & Hp3 & Hput3).
  { by apply (pp_keeps _ _ _ _ _ _ Hput2). }
  { rewrite (pp_other _ _ _ _ _ _ Hput2) by done. apply (ne_props _ _ _ _ Hne). }
  exists x3. split.
  - unfold aug_get_xml_node. rewrite (bind_Ret _ _ _ _ _ (xcall_run _ s _ _ Hnew)).
    rewrite (bind_Ret _ _ _ _ _ (xcall_run _ (set_xml x1 s) _ _ Hp2)), set_xml_set.
    rewrite (bind_Ret _ _ _ _ _ (ready_ask _ _ _ (ready_xml s x2 Hs) _)).
    destruct (aug_get m a) as [r v]. cbn [fst snd] in *. rewrite (proj2 (Z.ltb_ge _ _) Hm).
    rewrite (bind_Ret _ _ _ _ _ (ready_cond _ _ _ (ready_xml s x2 Hs) _)).
    by rewrite (bind_Ret _ _ _ _ _ (xcall_run _ (set_xml x2 s) _ _ Hp3)), set_xml_set.
  - eapply hung_child; [done|exact Hca|]. eapply built_prop; [done| |exact Hput3].
    eapply built_prop; [done|by apply built_new|exact Hput2].
Qed.

Lemma get_nodes_run path n s :
  (forall m, m ∈ matches a (path +:+ "/" +:+ "*") -> 0 <= (aug_get m a).1) -> ready d a s -> alive n (xml s) ->
  hangs (for_each (matches a (path +:+ "/" +:+ "*")) (aug_get_xml_node (Some n) path)) s tt n
    (match_tree path <$> matches a (path +:+ "/" +:+ "*")).
Proof.
  intros Hget Hs Hn. destruct (hung_for_each n (ready d a) (aug_get_xml_node (Some n) path) (fun m => [match_tree path m])
              (matches a (path +:+ "/" +:+ "*"))) with (s := s) as (x & Hrun & Hh); [intros ? ?; apply ready_xml| |done|done|].
  - intros m s' Hin Hs' Hn'. apply get_node_run; auto.
  - rewrite mjoin_singletons in Hh. by exists x.
Qed.

Lemma get_tree_run f nint path s :
  ready d a s -> 0 <= nint -> listable path -> alive f (xml s) ->
  hangs (aug_get_xml_tree (Some f) nint (Some path)) s tt f [file_tree path].
Proof.
  intros Hs Hn [Hm Hget] Hf. apply (hangs_child_prop f "tree" "path" (Some path)); [done|set_solver|]. intros t x Ht.
  pose proof (ready_xml s x Hs) as Hs2. eapply hangs_pure; [done|]. eapply hangs_pure; [by apply (ready_fmt_match d a)|].
  rewrite (proj2 (Z.ltb_ge _ _) Hn). eapply hangs_pure; [apply (ready_cond _ _ _ Hs2)|]. by apply get_nodes_run.
Qed.

(** The document of the files [paths], with nothing else changed *)
Lemma get_xml_run nint paths s :
  ready d a s -> 0 <= nint -> Forall listable paths ->
  exists dd f x', aug_get_xml nint (Some <$> paths) s = (Ret (Some dd), set_xml x' s) /\
    xmlDocGetRootElement (Some dd) x' = Some f /\
    reps x' (fun m => alive m x') f (Elem "forest" ∅ (file_tree <$> paths)).
Proof.
  intros Hs Hn Hp. destruct (new_document "forest" (xml s) ltac:(set_solver)) as (dd & f & x1 & x2 & x3 & Hnew & Hnode & Hset & Hroot & Hne3).
  pose proof (ne_alive _ _ _ _ Hne3) as Hf3.
  destruct (hung_for_each f (ready d a) (aug_get_xml_tree (Some f) nint)
              (from_option (fun p => [file_tree p]) []) (Some <$> paths))
    with (s := set_xml x3 s) as (x' & Hrun & Hh).
  { intros ? ?. apply ready_xml. }
  { intros o s' (p & -> & Hin)%list_elem_of_fmap Hs' Hf'. rewrite Forall_forall in Hp. apply get_tree_run; auto. }
  { by apply ready_xml. }
  { done. }
  exists dd, f, x'. split; [|split; [by apply Hh|]].
  - unfold aug_get_xml, on_error. repeat ready_step Hs.
    rewrite (bind_Ret _ _ _ _ _ (xcall_run _ s _ _ Hnew)).
    rewrite (bind_Ret _ _ _ _ _ (xcall_run _ (set_xml x1 s) _ _ Hnode)), set_xml_set.
    rewrite (bind_Ret (xcall _) _ (set_xml x2 s) tt (set_xml x3 s)) by (by rewrite Hset).
    by rewrite (bind_Ret _ _ _ _ _ Hrun), set_xml_set.
  - rewrite <- list_fmap_compose in Hh.
    change (from_option _ [] ∘ Some) with (fun p => [file_tree p]) in Hh. rewrite mjoin_singletons in Hh. apply (built_reps x3); [done|].
    apply (built_hung x3 f x3 x' "forest" ∅ []); [done| |done]. by apply built_new.
Qed.

(** ** What it says *)

(** What the document says of the file [path] *)
Definition match_view (path m : string) : option string * option string :=
  (Some (string_drop (String.length path + 1) m), Some (default "" (aug_get m a).2)).
Definition file_view (path : string) : option string * list (option string * option string) :=
  (Some path, match_view path <$> matches a (path +:+ "/" +:+ "*")).

Lemma forest_reps_view x P f paths :
  reps x P f (Elem "forest" ∅ (file_tree <$> paths)) -> forest_view x f = file_view <$> paths.
Proof.
  intros (_ & _ & _ & _ & Hf)%reps_inv. unfold forest_view. revert Hf.
  generalize (node_children f x). induction paths as [|p paths IH]; intros ns Hf; cbn in Hf; [by inversion Hf|].
  apply Forall2_cons_inv_r in Hf as (t & ns' & (_ & _ & _ & Hp & Ht)%reps_inv & Hf & ->).
  cbn. f_equal; [|by apply IH]. unfold tree_view, file_view. rewrite Hp, lookup_insert_eq. f_equal. clear -Ht. revert Ht.
  generalize (node_children t x). induction (matches a _) as [|m ms IHm]; intros ns Hf; cbn in Hf; [by inversion Hf|].
  apply Forall2_cons_inv_r in Hf as (n & ns' & (_ & _ & _ & Hp & _)%reps_inv & Hf & ->).
  cbn. f_equal; [|by apply IHm]. unfold node_view, match_view. rewrite !Hp.
  by rewrite lookup_insert_ne, !lookup_insert_eq.
Qed.
End reading.
