(* ===== verification/RoundTrip.v ===== *)
(** * From a document to the tree and back

    What [aug_put_xml] has written is what [aug_get_xml] reads, for documents that
    describe different files with plain labels. Assumed are the laws of [XmlBuild]
    for libxml2 and, for Augeas, those of [AugeasTree]: what its documentation says
    of simple paths. Both have a concrete instance. *)

From S2P Require Import Prelude CStr XsltExt State Refs Toy Posix Xml XmlTree Netcf Linux Common Redhat RedhatSpec AugEdit Describe.

(** ** Paths *)

(** Characters that mean themselves in a path expression *)
Definition plain_char (c : ascii) : bool :=
  let n := Z.of_nat (nat_of_ascii c) in
  ((48 <=? n) && (n <=? 57)) || ((65 <=? n) && (n <=? 90)) || ((97 <=? n) && (n <=? 122)) ||
  (n =? 95) || (n =? 45) || (n =? 46).

(** A label that is not one of the special names [.] and [..] *)
Definition plain (l : string) : Prop :=
  l <> "" /\ Forall (fun c => plain_char c = true) (String.list_ascii_of_string l) /\
  String.get 0 l <> Some "."%char.

#[export] Instance plain_dec l : Decision (plain l) := _.

(** The absolute path that goes down the labels [ls] *)
Definition path_of (ls : list string) : string := foldl (fun p l => p +:+ "/" +:+ l) "" ls.

Lemma path_of_snoc ls l : path_of (ls ++ [l]) = path_of ls +:+ "/" +:+ l.
Proof. unfold path_of. by rewrite foldl_app. Qed.

(** Neither is above the other. *)
Definition apart (ls qs : list string) : Prop := ~ ls `prefix_of` qs /\ ~ qs `prefix_of` ls.

Lemma apart_sym ls qs : apart ls qs -> apart qs ls.
Proof. unfold apart. tauto. Qed.

(** ** The tree *)

Section trees.
Context `{Augeas}.

(** The nodes below [ls] with what [aug_get] says of them *)
Definition listing (a : aug) (ls : list string) : list (string * (Z * option string)) :=
  (fun m => (m, aug_get m a)) <$> matches a (path_of ls +:+ "/" +:+ "*").

Class AugeasTree := {
  (** matching is no failure, and what matches exists *)
  match_law ls a : ls <> [] -> Forall plain ls ->
    is_Some (aug_match (path_of ls +:+ "/" +:+ "*") a) /\
    forall m r, (m, r) ∈ listing a ls -> 0 <= r.1;
  (** removing takes away what is below *)
  rm_law ls a r a' : ls <> [] -> Forall plain ls -> aug_rm (path_of ls) a = (r, a') -> 0 <= r ->
    listing a' ls = [] /\
    forall qs, Forall plain qs -> apart ls qs -> listing a' qs = listing a qs;
  (** a new label comes last *)
  set_law ls l v a r a' : ls <> [] -> Forall plain ls -> plain l ->
    path_of (ls ++ [l]) ∉ (listing a ls).*1 ->
    aug_set (path_of (ls ++ [l])) v a = (r, a') -> 0 <= r ->
    listing a' ls = listing a ls ++ [(path_of (ls ++ [l]), (1, v))] /\
    forall qs, Forall plain qs -> apart ls qs -> listing a' qs = listing a qs
}.
End trees.

(** ** Documents *)

Section documents.
Context `{Libxml}.

(** The document describes the files [files], which are different ones, each with
    different labels. *)
Record plain_doc (x : xmem) (forest : node) (files : list (list string)) : Prop := {
  pd_doc : forest_doc x forest;
  pd_paths : (fun t => xmlGetProp t "path" x) <$> node_children forest x = Some ∘ path_of <$> files;
  pd_files : Forall (fun ls => ls <> [] /\ Forall plain ls) files;
  pd_apart : ForallOrdPairs apart files;
  pd_labels : Forall (fun t => NoDup (label_of x <$> node_children t x) /\
                               Forall plain (label_of x <$> node_children t x)) (node_children forest x)
}.

(** A node as it is read back: a missing value is the empty one. *)
Definition filled (v : option string * option string) : option string * option string :=
  (v.1, Some (default "" v.2)).
Definition filled_tree (t : option string * list (option string * option string)) :=
  (t.1, filled <$> t.2).
End documents.

Section put_get.
Context `{Augeas, !Kernel, !Netlink, !Libxml, !Posix, !RedhatConfig, !XmlBuild _, !AugeasTree}.
Implicit Types (a : aug) (x : xmem).

(** What becomes of a node of the document *)
Definition entry x ls (n : node) : string * (Z * option string) :=
  (path_of (ls ++ [label_of x n]), (1, xmlGetProp n "value" x)).

Lemma path_of_last ls l k : path_of (ls ++ [l]) = path_of (ls ++ [k]) -> l = k.
Proof. rewrite !path_of_snoc. by intros [= ?]%(inj (String.append _)). Qed.

Lemma put_nodes_listing x ls ns a a' :
  ls <> [] -> Forall plain ls -> Forall plain (label_of x <$> ns) -> NoDup (label_of x <$> ns) ->
  (forall n, n ∈ ns -> path_of (ls ++ [label_of x n]) ∉ (listing a ls).*1) ->
  put_all (mjoin (node_edits x (fun _ => true) (path_of ls) <$> ns)) a = inl a' ->
  listing a' ls = listing a ls ++ (entry x ls <$> ns) /\
  forall qs, Forall plain qs -> apart ls qs -> listing a' qs = listing a qs.
Proof.
  intros Hne Hls. revert a. induction ns as [|n ns IH]; intros a Hpl Hnd Hfresh.
  { intros [= <-]. by rewrite app_nil_r. }
  cbn [fmap list_fmap] in Hpl, Hnd |- *. apply Forall_cons in Hpl as [Hp Hpl]. apply NoDup_cons in Hnd as [Hn Hnd].
  unfold mjoin. cbn [list_join node_edits app put_all make_edit]. rewrite <- path_of_snoc.
  destruct (aug_set _ _ a) as [r a1] eqn:Hset. destruct (r <? 0) eqn:Hr; [done|]. apply Z.ltb_ge in Hr.
  destruct (set_law ls _ _ a r a1 Hne Hls Hp (Hfresh n ltac:(by left)) Hset Hr) as [Hlist Hoth].
  intros Hput. destruct (IH a1 Hpl Hnd) as [Hlist' Hoth']; [|done|].
  - intros m Hm. rewrite Hlist, fmap_app, not_elem_of_app. split; [apply Hfresh; by right|].
    cbn. rewrite list_elem_of_singleton. intros Heq%path_of_last. apply Hn. rewrite <- Heq.
    by apply list_elem_of_fmap_2.
  - rewrite Hlist', Hlist, <- app_assoc. split; [done|]. intros qs Hqs Ha. rewrite Hoth' by done. auto.
Qed.

Lemma put_tree_listing x t ls a a' :
  ls <> [] -> Forall plain ls -> xmlGetProp t "path" x = Some (path_of ls) ->
  NoDup (label_of x <$> node_children t x) -> Forall plain (label_of x <$> node_children t x) ->
  put_all (tree_edits x (fun _ => true) t) a = inl a' ->
  listing a' ls = entry x ls <$> node_children t x /\
  forall qs, Forall plain qs -> apart ls qs -> listing a' qs = listing a qs.
Proof.
  intros Hne Hls Hpath Hnd Hpl. unfold tree_edits. rewrite Hpath. cbn [default id put_all make_edit].
  destruct (aug_rm (path_of ls) a) as [r a1] eqn:Hrm. destruct (r <? 0) eqn:Hr; [done|]. apply Z.ltb_ge in Hr.
  destruct (rm_law ls a r a1 Hne Hls Hrm Hr) as [Hlist Hoth]. intros Hput.
  destruct (put_nodes_listing x ls _ a1 a' Hne Hls Hpl Hnd) as [Hlist' Hoth']; [rewrite Hlist; set_solver|done|].
  rewrite Hlist', Hlist. split; [done|]. intros qs Hqs Ha. rewrite Hoth' by done. auto.
Qed.

(** Every file has the nodes of its tree; later trees do not touch it. *)
Lemma put_forest_listing x ts files a a' :
  (fun t => xmlGetProp t "path" x) <$> ts = Some ∘ path_of <$> files ->
  Forall (fun ls => ls <> [] /\ Forall plain ls) files -> ForallOrdPairs apart files ->
  Forall (fun t => NoDup (label_of x <$> node_children t x) /\ Forall plain (label_of x <$> node_children t x)) ts ->
  put_all (mjoin (tree_edits x (fun _ => true) <$> ts)) a = inl a' ->
  Forall2 (fun t ls => listing a' ls = entry x ls <$> node_children t x) ts files /\
  forall qs, Forall plain qs -> Forall (fun ls => apart ls qs) files -> listing a' qs = listing a qs.
Proof.
  revert files a. induction ts as [|t ts IH]; intros [|ls files] a Hpaths Hfiles Hapart Hlabels; try done.
  { intros [= <-]. by split. }
  cbn in Hpaths. injection Hpaths as Hpath Hpaths. apply Forall_cons in Hfiles as [[Hne Hls] Hfiles].
  apply Forall_cons in Hlabels as [[Hnd Hpl] Hlabels].
  inversion Hapart as [|? ? Ha Hap]; subst. cbn [fmap list_fmap mjoin list_join].
  unfold mjoin. cbn [list_join]. rewrite put_all_app. destruct (put_all (tree_edits x _ t) a) as [a1|c] eqn:Ht; [|done].
  intros Hput. destruct (put_tree_listing x t ls a a1 Hne Hls Hpath Hnd Hpl Ht) as [Hlist Hoth].
  destruct (IH files a1 Hpaths Hfiles Hap Hlabels Hput) as [Hall Hoth']. split.
  - constructor; [|done]. rewrite Hoth'; [done|done|]. eapply Forall_impl; [exact Ha|]. intros ?. apply apart_sym.
  - intros qs Hqs [Hq Hqs']%Forall_cons. rewrite Hoth' by done. auto.
Qed.

(** ** Reading back *)

Lemma file_view_listing a ls :
  file_view a (path_of ls) = (Some (path_of ls),
    (fun e => (Some (string_drop (String.length (path_of ls) + 1) e.1), Some (default "" e.2.2))) <$> listing a ls).
Proof. unfold file_view, listing. rewrite <- list_fmap_compose. done. Qed.

Lemma entry_view x ls n : is_Some (xmlGetProp n "label" x) ->
  (fun e : string * (Z * option string) =>
     (Some (string_drop (String.length (path_of ls) + 1) e.1), Some (default "" e.2.2))) (entry x ls n)
  = filled (node_view x n).
Proof.
  intros [l Hl]. unfold entry, filled, node_view, label_of. rewrite Hl. cbn. rewrite path_of_snoc.
  pose proof (string_length_app (path_of ls) "/") as Hlen. cbn in Hlen. rewrite <- Hlen.
  by rewrite string_app_assoc, string_drop_app.
Qed.

Lemma listable_path a ls : ls <> [] -> Forall plain ls -> listable a (path_of ls).
Proof.
  intros Hne Hls. destruct (match_law ls a Hne Hls) as [Hm Hr]. split; [done|]. intros m Hin.
  apply (Hr m (aug_get m a)). unfold listing. by apply (list_elem_of_fmap_2 (fun m => (m, aug_get m a))).
Qed.

Lemma forest_read_back x ts files a' :
  (fun t => xmlGetProp t "path" x) <$> ts = Some ∘ path_of <$> files ->
  (forall t n, t ∈ ts -> n ∈ node_children t x -> is_Some (xmlGetProp n "label" x)) ->
  Forall2 (fun t ls => listing a' ls = entry x ls <$> node_children t x) ts files ->
  file_view a' <$> (path_of <$> files) = filled_tree <$> (tree_view x <$> ts).
Proof.
  intros Hpaths Hlab Hall. revert Hpaths Hlab.
  induction Hall as [|t ls ts files Hlist _ IH]; intros Hpaths Hlab; [done|].
  cbn in Hpaths. injection Hpaths as Hpath Hpaths. cbn [fmap list_fmap]. f_equal.
  - rewrite file_view_listing, Hlist. unfold filled_tree, tree_view. cbn [fst snd]. rewrite Hpath. f_equal.
    rewrite <- !list_fmap_compose. apply list_fmap_ext. intros i n Hn%list_elem_of_lookup_2.
    apply (entry_view x ls n). apply (Hlab t); [by left|done].
  - apply IH; [done|]. intros t' n Ht'. apply Hlab. by right.
Qed.

Context (d : driver) (a : aug) (s : state).

(** The tree after the document has been put *)
Lemma put_then_get doc forest files a' :
  ready d a s -> xmlDocGetRootElement doc (xml s) = Some forest -> plain_doc (xml s) forest files ->
  put_all (forest_edits (xml s) (fun _ => true) forest) a = inl a' ->
  Forall (listable a') (path_of <$> files) /\
  file_view a' <$> (path_of <$> files) = filled_tree <$> forest_view (xml s) forest.
Proof.
  intros Hs Hroot [Hdoc Hpaths Hfiles Hapart Hlabels] Hput.
  destruct (put_forest_listing (xml s) _ files a a' Hpaths Hfiles Hapart Hlabels Hput) as [Hall _]. split.
  - apply Forall_fmap. eapply Forall_impl; [exact Hfiles|]. intros ls []. by apply listable_path.
  - apply forest_read_back; [done|apply Hdoc|done].
Qed.
End put_get.

(** C10: a document of configuration files that has been put into the tree is read
    back: for the same files [aug_get_xml] makes a document with the same nodes in the
    same order; a node without a value is read with an empty one. *)
Theorem put_get `{Augeas, !Kernel, !Netlink, !Libxml, !Posix, !RedhatConfig, !XmlBuild _, !AugeasTree}
  (d : driver) (a : aug) (s s1 : state) (doc : option doc) (forest : node) (files : list (list string))
  (Hs : ready d a s) (Hroot : xmlDocGetRootElement doc (xml s) = Some forest)
  (Hdoc : plain_doc (xml s) forest files) (Hput : aug_put_xml doc s = (Ret 0, s1)) :
  exists doc' forest' s2,
    aug_get_xml (Z.of_nat (length files)) (Some ∘ path_of <$> files) s1 = (Ret (Some doc'), s2) /\
    xmlDocGetRootElement (Some doc') (xml s2) = Some forest' /\ node_name forest' (xml s2) = "forest" /\
    forest_view (xml s2) forest' = filled_tree <$> forest_view (xml s) forest.
Proof.
  pose proof (put_xml_writes d a s Hs doc forest Hroot (pd_doc _ _ _ Hdoc)) as Hw.
  destruct (put_all _ a) as [a'|c] eqn:Hall; [|destruct Hw as (s' & Hw & _); rewrite Hput in Hw; discriminate].
  rewrite Hput in Hw. injection Hw as ->.
  destruct (put_then_get d a s doc forest files a' Hs Hroot Hdoc Hall) as [Hlist Hviews].
  destruct (get_xml_run _ _ (Z.of_nat (length files)) _ _ (at_tree_ready d s a Hs a') ltac:(lia) Hlist)
    as (dd & f & x' & Hrun & Hf & Htrees).
  rewrite <- list_fmap_compose in Hrun. exists dd, f. eexists. split; [exact Hrun|]. split; [done|].
  split; [exact (proj1 (proj2 (reps_inv _ _ _ _ _ _ Htrees)))|]. rewrite <- Hviews. eapply forest_reps_view, Htrees.
Qed.

(** ** A concrete tree *)

(** The labels of a path: what follows each slash *)
Fixpoint cut (s : string) : string * list string :=
  match s with
  | EmptyString => ("", [])
  | String c s' => let (l, ls) := cut s' in
                   if decide (c = "/"%char) then ("", l :: ls) else (String c l, ls)
  end.
Definition labels (p : string) : list string := (cut p).2.

Definition slash_free (l : string) : Prop := "/"%char ∉ String.list_ascii_of_string l.

Lemma plain_slash_free l : plain l -> slash_free l.
Proof. intros (_ & Hl & _) Hin. rewrite Forall_forall in Hl. by specialize (Hl _ Hin). Qed.

Lemma cut_app l s : slash_free l -> cut (l +:+ s) = (l +:+ (cut s).1, (cut s).2).
Proof.
  unfold slash_free. induction l as [|c l IH]; intros Hl; [exact (surjective_pairing (cut s))|]. cbn in Hl.
  apply not_elem_of_cons in Hl as [Hc Hl]. rewrite !app_cons. cbn [cut]. rewrite IH by done.
  by rewrite decide_False.
Qed.

Lemma path_of_cons l ls : path_of (l :: ls) = "/" +:+ l +:+ path_of ls.
Proof.
  induction ls as [|k ls IH] using rev_ind; [by rewrite string_app_nil_r|].
  rewrite app_comm_cons, !path_of_snoc, IH. by rewrite !string_app_assoc.
Qed.

Lemma labels_path_of ls : Forall slash_free ls -> labels (path_of ls) = ls.
Proof.
  intros Hls. unfold labels. assert (Hc : cut (path_of ls) = ("", ls)); [|by rewrite Hc].
  induction Hls as [|l ls Hl _ IH]; [done|]. rewrite path_of_cons. rewrite app_cons. cbn [cut].
  change (EmptyString +:+ l +:+ path_of ls) with (l +:+ path_of ls). rewrite (cut_app l _ Hl), IH.
  cbn. by rewrite string_app_nil_r.
Qed.

(** Is [k] the path of a child of [ls]? *)
Definition child (ls : list string) (k : string) : bool :=
  match rev (labels k) with [] => false | _ :: up => bool_decide (rev up = ls) end.
Definition under (ls : list string) (k : string) : bool := bool_decide (ls `prefix_of` labels k).

Lemma child_spec ls k : child ls k = true <-> exists l, labels k = ls ++ [l].
Proof.
  unfold child. pose proof (rev_involutive (labels k)) as Hr. destruct (rev (labels k)) as [|l up]; rewrite <- Hr.
  - split; [done|]. intros [l Hl]. by destruct ls.
  - rewrite bool_decide_eq_true. cbn [rev]. split; [intros <-; by exists l|]. by intros [? [-> _]%app_inj_tail].
Qed.

Lemma child_under ls k : child ls k = true -> under ls k = true.
Proof. intros [l Hl]%child_spec. apply bool_decide_eq_true. rewrite Hl. by exists [l]. Qed.

Lemma apart_child ls qs k : apart ls qs -> child qs k = true -> under ls k = false.
Proof.
  intros [Hlq Hql] [l Hl]%child_spec. apply bool_decide_eq_false. rewrite Hl. intros [ps Hps].
  destruct ps as [|p ps _] using rev_ind; [rewrite app_nil_r in Hps; subst; apply Hql; by exists [l]|].
  rewrite app_assoc in Hps. apply app_inj_tail in Hps as [-> _]. apply Hlq. by exists ps.
Qed.

Definition encode (v : option string) : string := match v with Some v => "=" +:+ v | None => "" end.
Definition decode (v : string) : option string := match v with String _ v => Some v | EmptyString => None end.

Lemma decode_encode v : decode (encode v) = v.
Proof. by destruct v. Qed.

Definition with_values (l : list (string * string)) (a : toy_aug) : toy_aug :=
  {| t_match := t_match a; t_value := l; t_ops := t_ops a |}.

Fixpoint assign (p v : string) (l : list (string * string)) : list (string * string) :=
  match l with
  | [] => [(p, v)]
  | (k, w) :: l' => if STREQ p k then (k, v) :: l' else (k, w) :: assign p v l'
  end.

(** The answer to a path that ends in a star *)
Definition toy_children (q : string) (l : list (string * string)) : list string :=
  List.filter (child (removelast (labels q))) l.*1.

(** Of the other operations there is nothing. *)
Definition toy_tree : Augeas (H := toy_host) :=
  {| aug_init := fun _ _ _ => Some toy_empty;
     aug_rm := fun p a => (0, with_values (List.filter (fun kv => negb (under (labels p) kv.1)) (t_value a)) a);
     aug_set := fun p v a => (0, with_values (assign p (encode v) (t_value a)) a);
     aug_get := fun p a => match assoc (t_value a) p with Some v => (1, decode v) | None => (0, None) end;
     aug_match := fun q a => Some (toy_children q (t_value a));
     aug_insert := fun _ _ _ a => (-1, a);
     aug_defnode := fun _ _ _ a => ((-1, 0), a);
     aug_load := fun _ a => (0, a);
     aug_save := fun w a => ((0, a), w);
     aug_print := fun p _ => p |}.

Lemma assoc_filter (P : string -> bool) (l : list (string * string)) k : P k = true ->
  assoc (List.filter (fun kv => P kv.1) l) k = assoc l k.
Proof.
  intros Hk. induction l as [|[k' v] l IH]; [done|]. cbn. destruct (STREQ k k') eqn:E.
  - apply STREQ_eq in E as ->. rewrite Hk. cbn. by rewrite STREQ_refl.
  - destruct (P k'); cbn; [by rewrite E|done].
Qed.

Lemma filter_filter_fst (P Q : string -> bool) (l : list (string * string)) :
  (forall k, Q k = true -> P k = true) ->
  List.filter Q (List.filter (fun kv => P kv.1) l).*1 = List.filter Q l.*1.
Proof.
  intros HPQ. induction l as [|[k v] l IH]; [done|]. cbn. destruct (P k) eqn:HP; cbn; [by rewrite IH|].
  destruct (Q k) eqn:HQ; [|done]. by rewrite (HPQ k HQ) in HP.
Qed.

Lemma assign_new p v l : p ∉ l.*1 -> assign p v l = l ++ [(p, v)].
Proof.
  induction l as [|[k w] l IH]; [done|]. cbn. intros [Hk Hl]%not_elem_of_cons.
  rewrite (proj2 (STREQ_neq p k) Hk). by rewrite IH.
Qed.

Lemma assoc_assign p v l k : k <> p -> assoc (assign p v l) k = assoc l k.
Proof.
  intros Hk. induction l as [|[k' w] l IH]; cbn; [by rewrite (proj2 (STREQ_neq k p) Hk)|].
  destruct (STREQ p k') eqn:E; cbn; [|by rewrite IH]. apply STREQ_eq in E as ->.
  by rewrite (proj2 (STREQ_neq k k') Hk).
Qed.

Lemma assoc_assign_same p v l : assoc (assign p v l) p = Some v.
Proof.
  induction l as [|[k w] l IH]; cbn; [by rewrite STREQ_refl|].
  destruct (STREQ p k) eqn:E; cbn; by rewrite E.
Qed.

Lemma keys_assign p v l : (assign p v l).*1 = l.*1 \/ (assign p v l).*1 = l.*1 ++ [p].
Proof.
  induction l as [|[k w] l [IH|IH]]; cbn; [by right| |]; destruct (STREQ p k); cbn; rewrite ?IH; auto.
Qed.

Lemma filter_child_none ls (l : list (string * string)) :
  List.filter (child ls) (List.filter (fun kv => negb (under ls kv.1)) l).*1 = [].
Proof.
  induction l as [|[k v] l IH]; [done|]. cbn. destruct (under ls k) eqn:Hu; cbn; [done|].
  destruct (child ls k) eqn:Hc; [|done]. by rewrite (child_under _ _ Hc) in Hu.
Qed.

Section toy_laws.
#[local] Existing Instance toy_tree.

(** What the listing is of *)
Lemma toy_listing ls (a : toy_aug) : Forall plain ls ->
  listing a ls = (fun k => (k, aug_get k a)) <$> List.filter (child ls) (t_value a).*1.
Proof.
  intros Hls. unfold listing, matches. cbn. unfold toy_children. rewrite <- path_of_snoc.
  rewrite labels_path_of, removelast_last; [done|]. apply Forall_app. split; [|repeat constructor; intros [=]%list_elem_of_singleton].
  eapply Forall_impl; [exact Hls|apply plain_slash_free].
Qed.

Lemma toy_listing_same ls (a a' : toy_aug) : Forall plain ls ->
  List.filter (child ls) (t_value a').*1 = List.filter (child ls) (t_value a).*1 ->
  (forall k, child ls k = true -> assoc (t_value a') k = assoc (t_value a) k) -> listing a' ls = listing a ls.
Proof.
  intros Hls Hk Hv. rewrite !toy_listing, Hk by done. apply list_fmap_ext.
  intros i k [_ Hin]%list_elem_of_lookup_2%list_elem_of_In%filter_In. cbn. by rewrite Hv.
Qed.

Lemma plain_labels ls : Forall plain ls -> labels (path_of ls) = ls.
Proof. intros Hls. apply labels_path_of. eapply Forall_impl; [exact Hls|apply plain_slash_free]. Qed.

#[export] Instance toy_tree_laws : AugeasTree (H := toy_host) (H0 := toy_tree).
Proof.
  split.
  - intros ls a _ _. split; [by eexists|]. intros m r (k & [= -> ->] & _)%list_elem_of_fmap. cbn. by destruct (assoc _ _).
  - intros ls a r a' _ Hls [= <- <-] _. split.
    + rewrite toy_listing by done. cbn. rewrite plain_labels by done. by rewrite filter_child_none.
    + intros qs Hqs Ha. rewrite plain_labels by done.
      assert (Hnot : forall k, child qs k = true -> negb (under ls k) = true) by (intros k Hk; by rewrite (apart_child _ _ _ Ha Hk)).
      apply toy_listing_same; [done| |]; cbn.
      * by apply (filter_filter_fst (fun k => negb (under ls k))).
      * intros k Hk. by apply (assoc_filter (fun k => negb (under ls k))), Hnot.
  - intros ls l v a r a' _ Hls Hl Hfresh [= <- <-] _.
    assert (Hlab : labels (path_of (ls ++ [l])) = ls ++ [l]) by (apply plain_labels, Forall_app; split; [done|by constructor]).
    assert (Hchild : child ls (path_of (ls ++ [l])) = true) by (apply child_spec; by exists l).
    rewrite !toy_listing in * by done. set (p := path_of (ls ++ [l])) in *.
    assert (Hnew : p ∉ (t_value a).*1).
    { intros Hin. apply Hfresh. rewrite <- list_fmap_compose. cbn. rewrite list_fmap_id.
      apply list_elem_of_In, filter_In. split; [by apply list_elem_of_In|done]. }
    split.
    + cbn. rewrite (assign_new _ _ _ Hnew), fmap_app, List.filter_app, fmap_app. cbn. rewrite Hchild. cbn.
      rewrite <- (assign_new _ _ _ Hnew), assoc_assign_same, decode_encode. f_equal.
      apply list_fmap_ext. intros i k [Hk _]%list_elem_of_lookup_2%list_elem_of_In%filter_In.
      cbn. rewrite assoc_assign; [done|]. intros ->. apply Hnew. by apply list_elem_of_In.
    + intros qs Hqs Ha. apply toy_listing_same; [done| |]; cbn.
      * rewrite (assign_new _ _ _ Hnew), fmap_app, List.filter_app. cbn.
        destruct (child qs p) eqn:Hc; [|by rewrite app_nil_r]. 
        pose proof (apart_child _ _ _ Ha Hc) as Hf. by rewrite (child_under _ _ Hchild) in Hf.
      * intros k Hk. apply assoc_assign. intros ->. pose proof (apart_child _ _ _ Ha Hk) as Hf.
        by rewrite (child_under _ _ Hchild) in Hf.
Defined.
End toy_laws.

(** Two files; in the second a setting without a value *)
Definition two_files : gmap nat xelem :=
  <[0%nat := {| x_name := "#doc"; x_text := false; x_props := []; x_kids := [1%nat] |}]>
  (<[1%nat := {| x_name := "forest"; x_text := false; x_props := []; x_kids := [2%nat; 3%nat] |}]>
  (<[2%nat := {| x_name := "tree"; x_text := false; x_props := [("path", "/files/etc/ifcfg-eth0")];
                 x_kids := [4%nat; 5%nat] |}]>
  (<[3%nat := {| x_name := "tree"; x_text := false; x_props := [("path", "/files/etc/ifcfg-br0")];
                 x_kids := [6%nat] |}]>
  (<[4%nat := {| x_name := "node"; x_text := false; x_props := [("label", "DEVICE"); ("value", "eth0")];
                 x_kids := [] |}]>
  (<[5%nat := {| x_name := "node"; x_text := false; x_props := [("label", "ONBOOT"); ("value", "yes")];
                 x_kids := [] |}]>
  (<[6%nat := {| x_name := "node"; x_text := false; x_props := [("label", "STP")]; x_kids := [] |}]> ∅)))))).

Definition two_paths : list (list string) := [["files"; "etc"; "ifcfg-eth0"]; ["files"; "etc"; "ifcfg-br0"]].

(** The tree before: one of the files, with a setting that goes, and another file *)
Definition old_tree : toy_aug :=
  {| t_match := []; t_ops := [];
     t_value := [("/files/etc/ifcfg-eth0/BOOTPROTO", "=dhcp"); ("/files/etc/hosts/1", "")] |}.

Lemma two_files_plain : plain_doc (H0 := toy_libxml) two_files 1%nat two_paths.
Proof.
  assert (Hk : node_children (Libxml := toy_libxml) (1%nat : @node toy_host) two_files = [2%nat; 3%nat]) by reflexivity.
  split.
  - split; [reflexivity| |].
    + intros t Ht. rewrite Hk in Ht. apply list_elem_of_In in Ht as [<-|[<-|[]]]; split; try reflexivity; by eexists.
    + intros t n Ht Hn%list_elem_of_In. rewrite Hk in Ht.
      apply list_elem_of_In in Ht as [<-|[<-|[]]]; vm_compute in Hn; destruct_or?; subst; try done; by eexists.
  - vm_compute. reflexivity.
  - apply (bool_decide_unpack _). vm_compute. exact I.
  - repeat constructor; apply (bool_decide_unpack _); vm_compute; exact I.
  - apply (bool_decide_unpack _). vm_compute. exact I.
Defined.

Lemma put_get_witness :
  let s := set_xml (H := toy_host) two_files (toy_state toy_os old_tree) in
  let s1 := (@aug_put_xml toy_host toy_tree toy_libxml (Some 0%nat) s).2 in
  exists doc' forest' s2,
    @aug_get_xml toy_host toy_tree toy_libxml 2 (Some ∘ path_of <$> two_paths) s1 = (Ret (Some doc'), s2) /\
    forest_view (H0 := toy_libxml) (xml s2) forest' =
      [(Some "/files/etc/ifcfg-eth0", [(Some "DEVICE", Some "eth0"); (Some "ONBOOT", Some "yes")]);
       (Some "/files/etc/ifcfg-br0", [(Some "STP", Some "")])].
Proof.
  intros s s1.
  destruct (@put_get toy_host toy_tree toy_kernel toy_netlink toy_libxml toy_posix toy_config toy_build toy_tree_laws
    (toy_driver old_tree) old_tree s s1 (Some 0%nat) 1%nat two_paths
    ltac:(split; try reflexivity; intros _; reflexivity) ltac:(vm_compute; reflexivity) two_files_plain
    ltac:(rewrite (surjective_pairing (aug_put_xml _ s)); f_equal; vm_compute; reflexivity))
    as (dd & f & s2 & Hrun & _ & _ & Hview).
  exists dd, f, s2. split; [exact Hrun|]. rewrite Hview. vm_compute. reflexivity.
Defined.
