(* ===== verification/AugDriver.v ===== *)
(** * Loops that the drivers for Debian and SuSE share

    Both list interfaces by name, filter out the subordinate ones in place, and
    hand out the names that the caller asked for; the text of these loops is the
    same in drv_debian.c and drv_suse.c but for the size given to memmove. *)

From S2P Require Import Prelude CStr XsltExt State Refs Toy Posix Xml Netcf Linux Common Redhat RedhatSpec RedhatSave.

Section loops.
Context `{Host}.

(** [memmove(intf + i, intf + i + 1, (n - (i + 1)) * sizeof(intf[0]))] *)
Definition memmove_slots {A} (i n : nat) (intf : list A) : list A :=
  take i intf ++ take (n - S i) (drop (S i) intf) ++ drop (pred n) intf.

(** The loop that frees the names of slaves and closes the gap: how many of the
    slots count, and the array. [size] is the [n] of the memmove, which may depend
    on how many slots still count. *)
Fixpoint filter_slaves (is_slave : string -> M bool) (size : nat -> nat) (fuel i result : nat)
  (intf : list (option string)) : M (nat * list (option string)) :=
  match fuel with
  | O => ret (result, intf)
  | S fuel' =>
      if decide (result <= i)%nat then ret (result, intf) else
      name ← deref (mjoin (intf !! i));
      s ← is_slave name;
      if (s : bool) then
        filter_slaves is_slave size fuel' i (pred result)
          (memmove_slots i (size result) (<[i := None]> intf))
      else filter_slaves is_slave size fuel' (S i) result intf
  end.

(** Does one of the strings equal the name? *)
Fixpoint among (name : string) (l : list (option string)) : M bool :=
  match l with
  | [] => ret false
  | o :: l' => x ← deref o; if STREQ name x then ret true else among name l'
  end.

(** The loop of [list_interface_ids], with the array that the caller passed
    ([None]: NULL): the number of names or -1, and what the array holds. *)
Fixpoint name_ids `{!Kernel} (flags : Z) (intf : list (option string)) (maxnames nqualified : Z)
  (names : option (list (option string))) : M (Z * option (list (option string))) :=
  match intf with
  | [] => ret (nqualified, names)
  | name :: intf' =>
      if negb (nqualified <? maxnames) then ret (nqualified, names) else
      is_qualified ← qualifies flags name;
      if negb is_qualified then name_ids flags intf' maxnames nqualified names else
      match names with
      | None => name_ids flags intf' maxnames (nqualified + 1) None
      | Some l =>
          n ← deref name;
          o ← strdup n;
          let names' := Some (<[Z.to_nat nqualified := o]> l) in
          if is_null o then set_errcode NETCF_ENOMEM ;; ret (-1, names')
          else name_ids flags intf' maxnames (nqualified + 1) names'
      end
  end.

(** ** Laws *)

Lemma filter_slaves_steady g sz k i r l : (forall n, pres steady (g n)) ->
  pres steady (filter_slaves g sz k i r l).
Proof.
  intros Hg. revert i r l. induction k as [|k IH]; intros i r l; cbn [filter_slaves]; [pres_auto|].
  destruct (decide _); [pres_auto|]. pres_step; [pres_auto|]. pres_step; [apply Hg|].
  match goal with |- pres _ (if ?b then _ else _) => destruct b end; apply IH.
Qed.
Lemma closed_filter_slaves g sz k i r l : (forall n, closed (g n)) ->
  closed (filter_slaves g sz k i r l).
Proof.
  intros Hg. revert i r l. induction k as [|k IH]; intros i r l; cbn [filter_slaves]; [fails_auto|].
  destruct (decide _); [fails_auto|]. fails_step; [fails_auto|]. fails_step; [apply Hg|].
  match goal with |- closed (if ?b then _ else _) => destruct b end; apply IH.
Qed.
Lemma among_steady n l : pres steady (among n l).
Proof. induction l as [|o l IH]; cbn [among]; pres_auto. Qed.
Lemma closed_among n l : closed (among n l).
Proof. induction l as [|o l IH]; cbn [among]; fails_auto. Qed.
Lemma name_ids_steady `{!Kernel} f l m q ns : pres steady (name_ids f l m q ns).
Proof. revert q ns. induction l as [|o l IH]; intros q ns; cbn [name_ids]; pres_auto. Qed.

Lemma name_ids_post `{!Kernel} f l m q ns : 0 <= q ->
  post (ids_result ns) (fun _ => False) (name_ids f l m q ns).
Proof.
  revert q ns. induction l as [|p l IH]; intros q ns Hq; cbn [name_ids];
    [apply post_ret; intros s; split; cbn; [lia|done]|].
  destruct (negb (q <? m)); [apply post_ret; intros s; split; cbn; [lia|done]|].
  apply post_bind; [apply closed_qualifies|intros b]. destruct (negb b); [by apply IH|].
  destruct ns as [l'|]; [|by apply IH; lia].
  intros s. unfold bind at 1. destruct p as [n|]; [|done]. cbn [deref ret].
  unfold strdup, malloc, bind. destruct (mem s) as [|[] ?]; cbn -[name_ids].
  - pose proof (IH (q + 1) (Some (<[Z.to_nat q := Some n]> l')) ltac:(lia) s) as Hp.
    unfold ids_result in *. cbn in *. rewrite length_insert in Hp.
    by destruct (name_ids f l m (q + 1) _ s) as [[]?].
  - match goal with |- context [name_ids f l m (q + 1) _ ?s1] =>
      pose proof (IH (q + 1) (Some (<[Z.to_nat q := Some n]> l')) ltac:(lia) s1) as Hp end.
    unfold ids_result in *. cbn in *. rewrite length_insert in Hp.
    by destruct (name_ids f l m (q + 1) _ _) as [[]?].
  - cbn. split; [done|]. cbn. by rewrite length_insert.
Qed.
End loops.

#[export] Hint Resolve filter_slaves_steady among_steady name_ids_steady : pres.
#[export] Hint Resolve closed_filter_slaves closed_among : fails.

(** ** What the loops compute *)

Lemma memmove_slots_middle {A} (l1 l2 rest : list A) (x : A) n :
  (length l1 + length l2 < n)%nat ->
  exists tail, memmove_slots (length l1) n (l1 ++ x :: l2 ++ rest) = l1 ++ l2 ++ tail.
Proof.
  intros Hn. eexists (take (n - S (length l1) - length l2) rest ++ drop (pred n) (l1 ++ x :: l2 ++ rest)).
  unfold memmove_slots. rewrite take_app_length. f_equal.
  replace (drop (S (length l1)) (l1 ++ x :: l2 ++ rest)) with (l2 ++ rest).
  - by rewrite take_app, (take_ge l2), <- app_assoc by lia.
  - rewrite drop_app_ge by lia. by replace (S (length l1) - length l1)%nat with 1%nat by lia.
Qed.

Section loops_run.
Context `{Host}.
Context (s : state) (is_slave : string -> M bool) (slave : string -> bool) (size : nat -> nat).

Definition tells (n : string) : Prop := is_slave n s = (Ret (slave n), s).

(** The array while the loop runs: what is kept, what is left to look at, and
    what is past the end. *)
Lemma filter_slaves_run fuel kept todo rest :
  Forall tells todo -> (length todo <= fuel)%nat -> (forall r, (r <= length kept + length todo)%nat -> (r <= size r)%nat) ->
  exists tail, filter_slaves is_slave size fuel (length kept) (length kept + length todo)
    (kept ++ (Some <$> todo) ++ rest) s
  = (Ret ((length kept + length (filter (fun n => slave n = false) todo))%nat,
          kept ++ (Some <$> filter (fun n => slave n = false) todo) ++ tail), s).
Proof.
  revert kept todo rest. induction fuel as [|fuel IH]; intros kept todo rest Hall Hl Hsz.
  { destruct todo; [|cbn in Hl; lia]. by exists rest. }
  cbn [filter_slaves]. destruct Hall as [|p todo Hslave Hall].
  { rewrite decide_True by (cbn; lia). by exists rest. }
  rewrite decide_False by (cbn; lia). cbn [fmap list_fmap app] in *.
  rewrite list_lookup_middle by done. cbn [mjoin option_join deref]. rewrite bind_ret_l.
  rewrite (bind_Ret _ _ _ _ _ Hslave). rewrite filter_cons. cbn in Hl. destruct (slave p).
  - rewrite decide_False by done. rewrite insert_app_r_alt, Nat.sub_diag by lia.
    cbn [insert list_insert length] in *.
    specialize (Hsz (length kept + S (length todo))%nat ltac:(cbn; lia)) as Hle.
    destruct (memmove_slots_middle kept (Some <$> todo) rest None
      (size (length kept + S (length todo)))%nat) as [tail ->]; [rewrite length_fmap; lia|].
    replace (pred (length kept + S (length todo))) with (length kept + length todo)%nat by lia.
    apply (IH kept todo); [done|lia|]. intros r Hr. apply Hsz. cbn. lia.
  - rewrite decide_True by done. cbn [fmap list_fmap length].
    destruct (IH (kept ++ [Some p]) todo rest Hall ltac:(lia)) as [tail Ht].
    { intros r. rewrite length_app. cbn [length]. intros Hr. apply Hsz. cbn. lia. }
    exists tail. rewrite length_app in Ht. cbn [length] in Ht. rewrite <- !app_assoc in Ht. cbn [app] in *.
    replace (length kept + 1)%nat with (S (length kept)) in Ht by lia.
    replace (length kept + S (length todo))%nat with (S (length kept) + length todo)%nat by lia.
    rewrite Ht. do 3 f_equal. lia.
Qed.

Lemma filter_all_run l : Forall tells l -> (forall r, (r <= length l)%nat -> (r <= size r)%nat) ->
  exists n l', filter_slaves is_slave size (length (Some <$> l)) 0 (length (Some <$> l)) (Some <$> l) s
               = (Ret (n, l'), s) /\ take n l' = Some <$> filter (fun n => slave n = false) l.
Proof.
  intros Hall Hsz. destruct (filter_slaves_run (length (Some <$> l)) [] l []) as [tail Ht];
    [done|by rewrite length_fmap|done|].
  cbn [length app Nat.add] in Ht. rewrite app_nil_r in Ht. rewrite length_fmap in *.
  eexists _, _. split; [exact Ht|]. by rewrite take_app_length' by (by rewrite length_fmap).
Qed.

End loops_run.

Lemma among_run `{Host} (s : state) name l : among name (Some <$> l) s = (Ret (bool_decide (name ∈ l)), s).
Proof.
  induction l as [|x l IH]; [done|]. cbn [fmap list_fmap among deref]. rewrite bind_ret_l.
  destruct (STREQ name x) eqn:E.
  - apply STREQ_eq in E as ->. rewrite bool_decide_true; [done|by left].
  - apply STREQ_neq in E. transitivity (Ret (bool_decide (name ∈ l)), s); [exact IH|].
    do 2 f_equal. apply bool_decide_ext.
    rewrite elem_of_cons. tauto.
Qed.

Section names_run.
Context `{Augeas, !Kernel}.
Context (d : driver) (a : aug) (s : state) (Hs : ready d a s).

(** The names of interfaces in a wanted state *)
Definition wanted_of (flags : Z) (l : list string) : list string :=
  filter (fun n => wanted flags (active d s n) = true) l.

Lemma qualifies_ready flags n : qualifies flags (Some n) s = (Ret (wanted flags (active d s n)), s).
Proof.
  unfold qualifies, wanted. destruct (_ =? Z.lor _ _); [done|]. repeat ready_step Hs.
  by destruct (active d s n), (has_flag flags NETCF_IFACE_ACTIVE), (has_flag flags NETCF_IFACE_INACTIVE).
Qed.

(** Counting. *)
Lemma name_ids_count flags ps m q : 0 <= q -> q + Z.of_nat (length ps) <= m ->
  name_ids flags (Some <$> ps) m q None s
  = (Ret (q + Z.of_nat (length (wanted_of flags ps)), None), s).
Proof.
  revert q. induction ps as [|p ps IH]; intros r Hr Hle; cbn -[Z.of_nat wanted_of].
  { cbn. by rewrite Z.add_0_r. }
  cbn [length] in Hle. rewrite (proj2 (Z.ltb_lt r m)) by lia. cbn [negb].
  rewrite (bind_Ret _ _ _ _ _ (qualifies_ready flags p)). unfold wanted_of in *. rewrite filter_cons.
  destruct (wanted flags (active d s p)); cbn [negb].
  - rewrite decide_True by done. etransitivity; [apply IH; lia|]. cbn [length]. do 3 f_equal. lia.
  - rewrite decide_False by done. apply IH; lia.
Qed.

(** Filling the array. *)
Lemma name_ids_fill flags ps got k :
  name_ids flags (Some <$> ps) (Z.of_nat (length got + k)) (Z.of_nat (length got))
    (Some ((Some <$> got) ++ replicate k None)) s
  = (let l := wanted_of flags ps in
     (Ret (Z.of_nat (length got + min k (length l)),
           Some ((Some <$> got ++ take k l) ++ replicate (k - length l) None)), s)).
Proof.
  revert got k. induction ps as [|p ps IH]; intros got k.
  { cbn. by rewrite take_nil, app_nil_r, Nat.sub_0_r, Nat.min_0_r, Nat.add_0_r. }
  cbn -[Z.of_nat min take wanted_of]. destruct k as [|k].
  { rewrite (proj2 (Z.ltb_ge _ _)) by lia. cbn. by rewrite !app_nil_r, Nat.add_0_r. }
  rewrite (proj2 (Z.ltb_lt _ _)) by lia. cbn [negb].
  rewrite (bind_Ret _ _ _ _ _ (qualifies_ready flags p)). unfold wanted_of in *. rewrite filter_cons.
  destruct (wanted flags (active d s p)); cbn [negb]; [|rewrite decide_False by done; apply (IH got (S k))].
  rewrite decide_True by done. repeat ready_step Hs. rewrite Nat2Z.id. cbn [replicate].
  rewrite insert_app_r_alt by (rewrite length_fmap; lia). rewrite length_fmap, Nat.sub_diag.
  cbn [insert list_insert].
  rewrite cons_middle, app_assoc. change [Some p] with (Some <$> [p]). rewrite <- fmap_app.
  specialize (IH (got ++ [p]) k). rewrite length_app in IH. cbn [length] in IH.
  replace (Z.of_nat (length got) + 1) with (Z.of_nat (length got + 1)) by lia.
  replace (length got + S k)%nat with (length got + 1 + k)%nat by lia. etransitivity; [apply IH|]. cbn [length take Nat.sub]. rewrite <- app_assoc. cbn [app]. do 3 f_equal. lia.
Qed.

(** Both, as [list_interface_ids] uses them: [names] is NULL or an array of [n]
    NULL pointers. *)
Lemma name_ids_all flags ps :
  name_ids flags (Some <$> ps) (Z.of_nat (length (Some <$> ps))) 0 None s
  = (Ret (Z.of_nat (length (wanted_of flags ps)), None), s).
Proof. rewrite length_fmap. by rewrite name_ids_count by lia. Qed.

Lemma name_ids_some flags ps n : 0 <= n ->
  name_ids flags (Some <$> ps) n 0 (Some (replicate (Z.to_nat n) None)) s
  = (let l := wanted_of flags ps in let k := Z.to_nat n in
     (Ret (Z.of_nat (min k (length l)),
           Some ((Some <$> take k l) ++ replicate (k - length l) None)), s)).
Proof.
  intros Hn. pose proof (name_ids_fill flags ps [] (Z.to_nat n)) as Hr. cbn [length Nat.add app fmap list_fmap] in Hr.
  change (Z.of_nat 0) with 0 in Hr. rewrite Z2Nat.id in Hr by done. exact Hr.
Qed.
End names_run.
