(* ===== verification/Debian.v ===== *)
(** * The driver for Debian (drv_debian.c)

    All interfaces live in one file, /etc/network/interfaces; ports of bridges and
    slaves of bonds are words in the value of a node. Functions whose text is that
    of drv_redhat.c are the definitions of [Redhat]. *)

From S2P Require Import Prelude CStr XsltExt State Refs Toy Posix Xml Netcf Linux Common Redhat RedhatSpec RedhatSave AugDriver.

(** The programs that configure found. *)
Class DebianConfig := { IFUP : string; IFDOWN : string }.

Definition NETCF_TRANSACTION : string := "/bin/false".
Definition network_interfaces_path : string := "/files/etc/network/interfaces".

Definition augeas_xfm_common_pv : list augeas_pv :=
  [pv "/augeas/load/Interfaces/lens" "Interfaces.lns";
   pv "/augeas/load/Interfaces/incl" "/etc/network/interfaces";
   pv "/augeas/load/Interfaces/excl[1]" "*~";
   pv "/augeas/load/Interfaces/excl[2]" "*.bak";
   pv "/augeas/load/Interfaces/excl[3]" "*.orig";
   pv "/augeas/load/Interfaces/excl[4]" "*.rpmnew";
   pv "/augeas/load/Interfaces/excl[5]" "*.rpmorig";
   pv "/augeas/load/Interfaces/excl[6]" "*.rpmsave";
   pv "/augeas/load/Interfaces/excl[7]" "*.augnew";
   pv "/augeas/load/Interfaces/excl[8]" "*.augsave";
   pv "/augeas/load/Interfaces/excl[9]" "*.dpkg-dist";
   pv "/augeas/load/Interfaces/excl[10]" "*.dpkg-new";
   pv "/augeas/load/Interfaces/excl[11]" "*.dpkg-old";
   pv "/augeas/load/Modprobe/lens" "Modprobe.lns";
   pv "/augeas/load/Modprobe/incl[1]" "/etc/modprobe.d/*";
   pv "/augeas/load/Modprobe/incl[2]" "/etc/modprobe.conf";
   pv "/augeas/load/Modprobe/excl[1]" "*.augnew";
   pv "/augeas/load/Modprobe/excl[2]" "*.augsave";
   pv "/augeas/load/Modprobe/excl[3]" "*.rpmsave";
   pv "/augeas/load/Modprobe/excl[4]" "*.rpmnew";
   pv "/augeas/load/Modprobe/excl[5]" "*~";
   pv "/augeas/load/Modprobe/excl[6]" "*.dpkg-dist";
   pv "/augeas/load/Modprobe/excl[7]" "*.dpkg-new";
   pv "/augeas/load/Modprobe/excl[8]" "*.dpkg-old";
   pv "/augeas/load/Sysfs/lens" "Netcf.id";
   pv "/augeas/load/Sysfs/incl" "/sys/class/net/*/address"].

Definition augeas_xfm_common : augeas_xfm_table :=
  {| xfm_id := 0; xfm_pv := augeas_xfm_common_pv |}.

(** ** [strtol(s, NULL, 10)] *)

Definition isspace (c : ascii) : bool :=
  let n := N_of_ascii c in (n =? 32)%N || ((9 <=? n)%N && (n <=? 13)%N).

Fixpoint digits (s : string) (acc : Z) : Z :=
  match s with
  | String c s' => match digit_val c with Some v => digits s' (acc * 10 + v) | None => acc end
  | EmptyString => acc
  end.

Definition LONG_MAX : Z := 2 ^ 63 - 1.
Definition LONG_MIN : Z := - 2 ^ 63.

Fixpoint strtol (s : string) : Z :=
  match s with
  | EmptyString => 0
  | String c s' =>
      if isspace c then strtol s' else
      if Ascii.eqb c "-" then Z.max LONG_MIN (- digits s' 0) else
      if Ascii.eqb c "+" then Z.min LONG_MAX (digits s' 0) else
      Z.min LONG_MAX (digits s 0)
  end.

Definition INT_MAX : Z := 2 ^ 31 - 1.

(** [++n] *)
Definition incr `{Host} (n : Z) : M Z :=
  if n <? INT_MAX then ret (n + 1) else halt (UB "signed integer overflow").

Section debian.
Context `{Augeas, !Kernel, !Netlink, !Libxml, !Posix, !DebianConfig}.

(** ** Bonds, bridges and what belongs to them *)

Definition is_bond (name : string) : M bool :=
  m ← aug_fmt_match (network_interfaces_path +:+ "/iface[. = '" +:+ name +:+
        "' and count(./bond_slaves)> 0]");
  ret (0 <? nmatches m).

Definition is_bridge (name : string) : M bool :=
  m ← aug_fmt_match (network_interfaces_path +:+ "/iface[. = '" +:+ name +:+
        "' and count(./bridge_ports)> 0]");
  ret (0 <? nmatches m).

(** [do { ... } while (devs && *devs)]: the words of [devs], behind [slaves]. *)
Fixpoint deps_loop (fuel : nat) (devs : string) (slaves : list (option string))
  : M (list (option string)) :=
  match fuel with
  | O => halt Hang
  | S fuel' =>
      b ← malloc;
      ERR_COND_BAIL (negb b) NETCF_ENOMEM ;;
      match strchr devs " " with
      | Some skip =>
          o ← strdup (string_take (String.length devs - String.length skip) devs);
          ERR_NOMEM (is_null o) ;;
          let devs := string_drop 1 skip in
          if STREQ devs "" then ret (slaves ++ [o]) else deps_loop fuel' devs (slaves ++ [o])
      | None =>
          o ← strdup devs;
          ERR_NOMEM (is_null o) ;;
          ret (slaves ++ [o])
      end
  end.

(** One turn of the loop over the matches. A string of [n] characters has at most
    [n + 1] words. *)
Definition deps_step (m : string) (slaves : list (option string)) : M (list (option string)) :=
  ' (r, devs) ← ask_aug (aug_get m);
  ERR_COND_BAIL (r <? 0) NETCF_EOTHER ;;
  devs ← deref devs;
  if STREQ devs "none" then ret slaves else deps_loop (S (String.length devs)) devs slaves.

(** The array, [None] for the result -1; when there are no matches the caller's
    pointer, which is NULL with every caller, is left as it is. *)
Definition interface_deps (path : string) : M (option (list (option string))) :=
  on_error
    (get_augeas ;;
     ERR_BAIL ;;
     opath ← xasprintf path;
     path ← nonnull opath;
     m ← ask_aug (aug_match path);
     ERR_COND_BAIL (nmatches m <? 0) NETCF_EOTHER ;;
     if nmatches m =? 0 then ret (Some []) else
     slaves ← for_acc (matched m) [] deps_step;
     ret (Some slaves))
    (ret None).

Definition bridge_ports (name : string) : M (option (list (option string))) :=
  interface_deps (network_interfaces_path +:+ "/iface[. = '" +:+ name +:+ "']/bridge_ports").

Definition bond_slaves (name : string) : M (option (list (option string))) :=
  interface_deps (network_interfaces_path +:+ "/iface[. = '" +:+ name +:+ "']/bond_slaves").

Definition all_slaves : M (option (list (option string))) :=
  on_error
    (abridge_ports ← interface_deps (network_interfaces_path +:+ "/iface/bridge_ports");
     ERR_BAIL ;;
     abond_slaves ← interface_deps (network_interfaces_path +:+ "/iface/bond_slaves");
     ERR_BAIL ;;
     b ← malloc;
     ERR_COND_BAIL (negb b) NETCF_ENOMEM ;;
     ret (Some (default [] abridge_ports ++ default [] abond_slaves)))
    (ret None).

Definition is_slave (intf : string) : M bool :=
  slaves ← all_slaves;
  on_error
    (ERR_BAIL ;;
     among intf (default [] slaves))
    (ret false).

Definition has_config (name : string) : M bool :=
  m ← aug_fmt_match (network_interfaces_path +:+ "/iface[. = '" +:+ name +:+ "']");
  if nmatches m =? 0 then ret false else
  s ← is_slave name;
  ret (negb s).

(** ** Listing and lookup *)

Definition uniq_device_names (devs : list string) : M (option (list (option string))) :=
  on_error
    (get_augeas ;;
     ERR_BAIL ;;
     b ← ALLOC_N (length devs);
     ERR_NOMEM (negb b) ;;
     devnames ← for_acc devs [] devname_step;
     b ← ALLOC_N (length devnames);
     ERR_NOMEM (negb b) ;;
     intf ← for_map (qsort_strings devnames) (fun name =>
       o ← strdup name;
       ERR_NOMEM (is_null o) ;;
       ret o);
     ret (Some intf))
    (ret None).

Definition list_interfaces : M (option (list (option string))) :=
  on_error
    (m ← aug_fmt_match (network_interfaces_path +:+ "/iface");
     ERR_COND_BAIL (nmatches m <? 0) NETCF_EOTHER ;;
     ointf ← uniq_device_names (matched m);
     ERR_BAIL ;;
     let intf := default [] ointf in
     ' (result, intf) ← filter_slaves is_slave id (length intf) 0 (length intf) intf;
     ret (Some (take result intf)))
    (ret None).

Definition list_interface_ids (maxnames : Z) (names : option (list (option string)))
  (flags : Z) : M (Z * option (list (option string))) :=
  on_error
    (ERR_BAIL ;;
     ointf ← list_interfaces;
     ERR_BAIL ;;
     let intf := default [] ointf in
     let maxnames := if is_null names then Z.of_nat (length intf) else maxnames in
     name_ids flags intf maxnames 0 names)
    (ret (-1, names)).

Definition drv_list_interfaces (maxnames flags : Z) : M (Z * list (option string)) :=
  ' (r, names) ← list_interface_ids maxnames (Some (replicate (Z.to_nat maxnames) None)) flags;
  ret (r, default [] names).

Definition drv_num_of_interfaces (flags : Z) : M Z :=
  ' (r, _) ← list_interface_ids 0 None flags;
  ret r.

Definition drv_lookup_by_name (name : string) : M (option nat) :=
  let both := Z.lor NETCF_IFACE_ACTIVE NETCF_IFACE_INACTIVE in
  on_error
    (' (maxnames, _) ← list_interface_ids 0 None both;
     ERR_BAIL ;;
     b ← ALLOC_N (Z.to_nat maxnames);
     ERR_NOMEM (negb b) ;;
     ' (results, names) ← list_interface_ids maxnames
                            (Some (replicate (Z.to_nat maxnames) None)) both;
     ERR_BAIL ;;
     found ← among name (take (Z.to_nat results) (default [] names));
     ERR_COND_BAIL (negb found) NETCF_ENOENT ;;
     odup ← strdup name;
     name_dup ← nonnull odup;
     new_nif name_dup)
    (ret None).

(** The names that have a configuration of their own. *)
Definition mac_step (m : string) (names : list string) : M (list string) :=
  h ← has_config m;
  ret (if (h : bool) then names ++ [m] else names).

Definition drv_lookup_by_mac_string (mac : string) (maxifaces : Z) : M (Z * list (option nat)) :=
  if maxifaces <? 0 then halt (UB "memset of a negative size") else
  let ifaces := replicate (Z.to_nat maxifaces) None in
  on_error
    (om ← aug_match_mac mac;
     ERR_BAIL ;;
     let matches := matched om in
     if decide (length matches = O) then ret (0, ifaces) else
     b ← ALLOC_N (length matches);
     ERR_NOMEM (negb b) ;;
     names ← for_acc matches [] mac_step;
     ' (ok, ifaces') ← mac_ifaces names 0 maxifaces ifaces;
     if (ok : bool) then ret (Z.of_nat (length names), ifaces') else release_ifaces ifaces')
    (release_ifaces ifaces).

(** ** Initialisation *)

Definition drv_close : M unit := Redhat.drv_close.

Definition drv_init : M Z :=
  b ← malloc;
  if negb b then ret (-1) else
  modify (fun s => set_ncf (set_driver (Some new_driver) (ncf s)) s) ;;
  on_error
    (r ← add_augeas_xfm_table augeas_xfm_common;
     when (r <? 0) goto_error ;;
     oroot ← gets (fun s => ncf_root (ncf s));
     root ← deref oroot;
     m ← gets (fun s => stat root (world s));
     when (match m with Some S_IFDIR => false | _ => true end)
       (report_error NETCF_EFILE ("invalid root '" +:+ root +:+ "' is not a directory") ;;
        goto_error) ;;
     g ← parse_stylesheet "debian-get.xsl";
     upd_driver (fun d => set_sheets g (put d) d) ;;
     p ← parse_stylesheet "debian-put.xsl";
     upd_driver (fun d => set_sheets (get d) p d) ;;
     ERR_BAIL ;;
     fd ← init_ioctl_fd;
     upd_driver (set_ioctl_fd fd) ;;
     when (fd <? 0) goto_error ;;
     r ← netlink_init;
     when (r <? 0) goto_error ;;
     ret 0)
    (drv_close ;; ret (-1)).

Definition drv_entry : M unit := Redhat.drv_entry.

(** ** XML *)

(** The node of the Augeas tree at [m], below the one at [intf]. *)
Definition aug_get_xml_node (element : option node) (intf m : string) : M unit :=
  n ← xcall (xmlNewChild element "node");
  xcall (xmlNewProp n "label" (Some (string_drop (String.length intf + 1) m))) ;;
  ' (r, value) ← ask_aug (aug_get m);
  ERR_COND_BAIL (r <? 0) NETCF_EOTHER ;;
  xcall (xmlNewProp n "value" value) ;;
  ret tt.

Definition aug_get_xml_for_intf (array : option node) (name : string) : M Z :=
  on_error
    (get_augeas ;;
     ERR_BAIL ;;
     intf ← aug_fmt_match (network_interfaces_path +:+ "/" +:+ "iface" +:+ "[. = '" +:+ name +:+ "']");
     ERR_BAIL ;;
     for_each (matched intf) (fun path =>
       element ← xcall (xmlNewChild array "element");
       xcall (xmlNewProp element "key" (Some name)) ;;
       m ← aug_fmt_match (path +:+ "/" +:+ "*");
       ERR_COND_BAIL (nmatches m <? 0) NETCF_EOTHER ;;
       for_each (matched m) (aug_get_xml_node element path)) ;;
     ret 0)
    (ret (-1)).

(** [for (i = 0; i < nslaves; i++) { aug_get_xml_for_intf(...); ERR_BAIL(ncf); ... }],
    with what is done for each of the names after that *)
Definition get_each (array : option node) (names : option (list (option string)))
  (more : string -> M unit) : M unit :=
  for_each (default [] names) (fun o =>
    name ← deref o;
    aug_get_xml_for_intf array name ;;
    ERR_BAIL ;;
    more name).

Definition get_slaves (array : option node) (name : string) : M unit :=
  slaves ← bond_slaves name;
  ERR_BAIL ;;
  get_each array slaves (fun _ => ret tt).

Definition get_ports (array : option node) (name : string) : M unit :=
  ports ← bridge_ports name;
  ERR_BAIL ;;
  get_each array ports (get_slaves array).

Definition aug_get_xml (nif : nat) : M (option doc) :=
  name ← if_name nif;
  result ← xcall xmlNewDoc;
  root ← xcall (xmlNewNode "forest");
  xcall (fun x => (tt, xmlDocSetRootElement result root x)) ;;
  tree ← xcall (xmlNewChild root "tree");
  xcall (xmlNewProp tree "path" (Some network_interfaces_path)) ;;
  m ← aug_fmt_match (network_interfaces_path +:+ "/" +:+ "auto");
  when (negb (nmatches m =? 0))
    (array ← xcall (xmlNewChild tree "array");
     xcall (xmlNewProp array "label" (Some "auto")) ;;
     element ← xcall (xmlNewChild array "element");
     n ← xcall (xmlNewChild element "node");
     xcall (xmlNewProp n "value" (Some name)) ;;
     ret tt) ;;
  array ← xcall (xmlNewChild tree "array");
  xcall (xmlNewProp array "label" (Some "iface")) ;;
  aug_get_xml_for_intf array name ;;
  on_error
    (bond ← is_bond name;
     (if (bond : bool) then get_slaves array name
      else bridge ← is_bridge name; when bridge (get_ports array name)) ;;
     ERR_BAIL ;;
     ret result)
    (free_doc result ;; ret None).

(** The number behind the last bracket of the last of the nodes. *)
Definition last_index (matches : list string) : Z :=
  match last matches with
  | None => 0
  | Some m =>
      match strrchr m "[" with
      | None => 1
      | Some start => i32 (strtol (string_drop 1 start))
      end
  end.

Definition aug_put_node (arraylabel : string) (n : Z) (node : node) : M unit :=
  label ← xml_prop node "label";
  value ← xml_prop node "value";
  r ← aug_fmt_set value (network_interfaces_path +:+ "/" +:+ arraylabel +:+ "[" +:+ fmt_d n +:+
        "]/" +:+ default "1" label +:+ "[last()+1]");
  ERR_COND_BAIL (r <? 0) NETCF_EOTHER.

(** One element of an array, behind the [n] that are there. *)
Definition aug_put_element (arraylabel : string) (element : node) (n : Z) : M Z :=
  ename ← xget (node_name element);
  ERR_THROW (STRNEQ ename "element") NETCF_EINTERNAL
    ("expected node labeled 'element', not '" +:+ ename +:+ "'") ;;
  key ← xml_prop element "key";
  n ← incr n;
  when (negb (is_null key))
    (r ← aug_fmt_set key (network_interfaces_path +:+ "/" +:+ arraylabel +:+ "[" +:+ fmt_d n +:+ "]");
     ERR_COND_BAIL (r <? 0) NETCF_EOTHER) ;;
  nodes ← xget (node_children element);
  for_each nodes (aug_put_node arraylabel n) ;;
  ret n.

Definition aug_put_array (array : node) : M unit :=
  aname ← xget (node_name array);
  ERR_THROW (STRNEQ aname "array") NETCF_EINTERNAL
    ("expected node labeled 'array', not '" +:+ aname +:+ "'") ;;
  olabel ← xml_prop array "label";
  arraylabel ← deref olabel;
  m ← aug_fmt_match (network_interfaces_path +:+ "/" +:+ arraylabel +:+ "[last()]");
  ERR_COND_BAIL (nmatches m <? 0) NETCF_EOTHER ;;
  elements ← xget (node_children array);
  for_acc elements (last_index (matched m)) (aug_put_element arraylabel) ;;
  ret tt.

(** The path of the tree is read and not used. *)
Definition aug_put_tree (tree : node) : M unit :=
  tname ← xget (node_name tree);
  ERR_THROW (STRNEQ tname "tree") NETCF_EINTERNAL
    ("expected node labeled 'tree', not '" +:+ tname +:+ "'") ;;
  _ ← xml_prop tree "path";
  arrays ← xget (node_children tree);
  for_each arrays aug_put_array.

Definition aug_put_xml (xml : option doc) : M Z :=
  on_error
    (oforest ← xget (xmlDocGetRootElement xml);
     ERR_THROW (is_null oforest) NETCF_EINTERNAL "missing root element" ;;
     forest ← nonnull oforest;
     fname ← xget (node_name forest);
     ERR_THROW (STRNEQ fname "forest") NETCF_EINTERNAL
       ("expected root node labeled 'forest', not '" +:+ fname +:+ "'") ;;
     trees ← xget (node_children forest);
     for_each trees aug_put_tree ;;
     ret 0)
    (ret (-1)).

Definition drv_xml_desc (nif : nat) : M (option string) :=
  aug_xml ← aug_get_xml nif;
  result ← on_error
    (ERR_BAIL ;;
     d ← the_driver;
     apply_stylesheet_to_string (put d) aug_xml)
    (ret None);
  free_doc aug_xml ;;
  ret result.

Definition drv_xml_state (fuel : nat) (nif : nat) : M (option string) :=
  Redhat.drv_xml_state fuel nif.

Definition drv_if_status (nif : nat) (flags : bool) : M (Z * Z) := Redhat.drv_if_status nif flags.

Definition device_name_from_xml (ncf_xml : option doc) : M (option string) :=
  Redhat.device_name_from_xml ncf_xml.

(** ** Changing the configuration *)

Definition rm_interface (name : string) : M unit :=
  on_error
    (r ← aug_fmt_rm (network_interfaces_path +:+ "/auto[./1 = '" +:+ name +:+ "']");
     ERR_COND_BAIL (r <? 0) NETCF_EOTHER ;;
     r ← aug_fmt_rm (network_interfaces_path +:+ "/iface[. = '" +:+ name +:+ "']");
     ERR_COND_BAIL (r <? 0) NETCF_EOTHER)
    (ret tt).

Definition rm_all_interfaces (ncf_xml : option doc) : M unit :=
  on_error
    (context ← xget (xmlXPathNewContext ncf_xml);
     ERR_NOMEM (negb context) ;;
     obj ← xget (xpath_nodes "//interface[count(parent::vlan) = 0]" ncf_xml);
     ns ← nonnull obj;
     for_each ns (fun n =>
       oname ← xget (xmlGetProp n "name");
       name ← nonnull oname;
       rm_interface name ;;
       ERR_BAIL))
    (ret tt).

Definition bond_setup (name : string) (alias : bool) : M unit :=
  on_error
    (b ← is_bond name;
     when b (setup alias name ;; ERR_BAIL) ;;
     br ← is_bridge name;
     when br
       (oslaves ← bridge_ports name;
        ERR_BAIL ;;
        for_each (default [] oslaves) (fun s =>
          slave ← deref s;
          b ← is_bond slave;
          when b (setup alias slave ;; ERR_BAIL))))
    (ret tt).

(** [drv_define] from the transformed document on. *)
Definition define_aug (name : string) (aug_xml : option doc) : M (option nat) :=
  on_error
    (ERR_BAIL ;;
     aug_put_xml aug_xml ;;
     ERR_BAIL ;;
     bond_setup name true ;;
     ERR_BAIL ;;
     r ← save_augeas;
     dbg ← gets (fun s => debug (ncf s));
     when ((r <? 0) && dbg)
       (printf ("Errors from aug_save:" +:+ nl) ;;
        errors ← ask_aug (aug_print "/augeas//error");
        printf errors) ;;
     ERR_THROW (r <? 0) NETCF_EOTHER "aug_save failed" ;;
     new_nif name)
    (ret None).

Definition drv_define (xml_str : string) : M (option nat) :=
  get_augeas ;;
  on_error
    (ERR_BAIL ;;
     ncf_xml ← parse_xml xml_str;
     ' (result, aug_xml) ← on_error
       (ERR_BAIL ;;
        rng_validate ncf_xml ;;
        ERR_BAIL ;;
        oname ← device_name_from_xml ncf_xml;
        ERR_COND_BAIL (is_null oname) NETCF_EINTERNAL ;;
        name ← deref oname;
        rm_all_interfaces ncf_xml ;;
        ERR_BAIL ;;
        d ← the_driver;
        aug_xml ← apply_stylesheet (get d) ncf_xml;
        result ← define_aug name aug_xml;
        ret (result, aug_xml))
       (ret (None, None));
     free_doc ncf_xml ;;
     free_doc aug_xml ;;
     ret result)
    (ret None).

Definition drv_undefine (nif : nat) : M Z :=
  name ← if_name nif;
  on_error
    (get_augeas ;;
     ERR_BAIL ;;
     bond_setup name false ;;
     ERR_BAIL ;;
     rm_interface name ;;
     ERR_BAIL ;;
     r ← save_augeas;
     ERR_COND_BAIL (r <? 0) NETCF_EOTHER ;;
     ret 0)
    (ret (-1)).

Definition drv_mac_string (nif : nat) : M (option string) := Redhat.drv_mac_string nif.

(** ** Bringing interfaces up and down *)

Definition drv_if_up (nif : nat) : M Z :=
  name ← if_name nif;
  on_error
    (run1 IFUP name ;;
     ERR_BAIL ;;
     active ← if_is_active name;
     ERR_THROW (negb active) NETCF_EOTHER
       ("interface " +:+ name +:+ " failed to become active - possible disconnected cable.") ;;
     ret 0)
    (ret (-1)).

Definition drv_if_down (nif : nat) : M Z :=
  name ← if_name nif;
  on_error
    (run1 IFDOWN name ;;
     ERR_BAIL ;;
     ret 0)
    (ret (-1)).

Definition drv_change_begin (flags : Z) : M Z :=
  run_transaction NETCF_TRANSACTION flags "change-begin".
Definition drv_change_rollback (flags : Z) : M Z :=
  run_transaction NETCF_TRANSACTION flags "change-rollback".
Definition drv_change_commit (flags : Z) : M Z :=
  run_transaction NETCF_TRANSACTION flags "change-commit".

Definition drv_get_aug (ncf_xml : string) : M (Z * option string) := Redhat.drv_get_aug ncf_xml.
Definition drv_put_aug (aug_xml : string) : M (Z * option string) := Redhat.drv_put_aug aug_xml.
End debian.

(** The driver, as netcf.c sees it. *)
#[global] Instance debian_driver `{Augeas, !Kernel, !Netlink, !Libxml, !Posix, !DebianConfig}
  (fuel : nat) : Driver :=
  {| Netcf.drv_init := drv_init; Netcf.drv_close := drv_close; Netcf.drv_entry := drv_entry;
     Netcf.drv_num_of_interfaces := drv_num_of_interfaces;
     Netcf.drv_list_interfaces := drv_list_interfaces;
     Netcf.drv_lookup_by_name := drv_lookup_by_name;
     Netcf.drv_lookup_by_mac_string := drv_lookup_by_mac_string;
     Netcf.drv_xml_desc := drv_xml_desc; Netcf.drv_xml_state := drv_xml_state fuel;
     Netcf.drv_if_status := drv_if_status; Netcf.drv_change_begin := drv_change_begin;
     Netcf.drv_change_rollback := drv_change_rollback;
     Netcf.drv_change_commit := drv_change_commit; Netcf.drv_mac_string := drv_mac_string;
     Netcf.drv_define := drv_define; Netcf.drv_undefine := drv_undefine;
     Netcf.drv_if_up := drv_if_up; Netcf.drv_if_down := drv_if_down |}.

Section test_interface.
Context `{Augeas, !Kernel, !Netlink, !Libxml, !Posix, !DebianConfig} (fuel : nat).

Definition ncf_get_aug (ncf_xml : string) : M (Z * option string) :=
  API_ENTRY (H0 := debian_driver fuel) ;; drv_get_aug ncf_xml.

Definition ncf_put_aug (aug_xml : string) : M (Z * option string) :=
  API_ENTRY (H0 := debian_driver fuel) ;; drv_put_aug aug_xml.
End test_interface.

(** ** Laws *)

Create HintDb debian.

Section debian_laws.
Context `{Augeas, !Kernel, !Netlink, !Libxml, !Posix, !DebianConfig}.

Lemma deps_loop_steady k d l : pres steady (deps_loop k d l).
Proof. revert d l. induction k as [|k IH]; intros d l; cbn [deps_loop]; pres_auto. Qed.
Lemma fails_deps_loop k d l : fails (deps_loop k d l).
Proof. revert d l. induction k as [|k IH]; intros d l; cbn [deps_loop]; fails_auto. Qed.
Hint Resolve deps_loop_steady : pres.
Hint Resolve fails_deps_loop : fails.
Lemma interface_deps_steady p : pres steady (interface_deps p).
Proof. unfold interface_deps, deps_step. pres_auto. Qed.
Lemma closed_interface_deps p : closed (interface_deps p).
Proof. unfold interface_deps, deps_step. fails_auto. Qed.
Hint Resolve interface_deps_steady : pres.
Hint Resolve closed_interface_deps : fails.
Lemma deb_is_slave_steady n : pres steady (is_slave n).
Proof. unfold is_slave, all_slaves. pres_auto. Qed.
Lemma closed_deb_is_slave n : closed (is_slave n).
Proof. unfold is_slave, all_slaves. fails_auto. Qed.
Hint Resolve deb_is_slave_steady : pres.
Hint Resolve closed_deb_is_slave : fails.
Lemma has_config_steady n : pres steady (has_config n).
Proof. unfold has_config. pres_auto. Qed.
Lemma closed_has_config n : closed (has_config n).
Proof. unfold has_config. fails_auto. Qed.
Hint Resolve has_config_steady : pres.
Hint Resolve closed_has_config : fails.
Lemma deb_list_interfaces_steady : pres steady list_interfaces.
Proof. unfold list_interfaces, uniq_device_names, devname_step. pres_auto. Qed.
Lemma closed_deb_list_interfaces : closed list_interfaces.
Proof. unfold list_interfaces, uniq_device_names, devname_step. fails_auto. Qed.
Hint Resolve deb_list_interfaces_steady : pres.
Hint Resolve closed_deb_list_interfaces : fails.
Lemma deb_interface_ids_steady m ns f : pres steady (list_interface_ids m ns f).
Proof. unfold list_interface_ids. pres_auto. Qed.
Lemma deb_interface_ids_post m ns f :
  post (ids_result ns) (fun _ => False) (list_interface_ids m ns f).
Proof.
  unfold list_interface_ids. eapply post_on_error with (E := failed); [|by intros s Hs; cbn].
  do 3 (apply post_bind; [fails_auto|intros ?]).
  eapply post_mono; [by apply name_ids_post|done|done].
Qed.
Lemma closed_deb_interface_ids m ns f : closed (list_interface_ids m ns f).
Proof. eapply post_mono; [apply deb_interface_ids_post|done|done]. Qed.
Hint Resolve deb_interface_ids_steady : pres.
Hint Resolve closed_deb_interface_ids : fails.
Lemma deb_lookup_grows n : pres grows (drv_lookup_by_name n).
Proof. unfold drv_lookup_by_name. pres_auto. Qed.
Lemma closed_deb_lookup n : closed (drv_lookup_by_name n).
Proof. unfold drv_lookup_by_name. fails_auto. Qed.

Lemma deb_mac_step_steady m l : pres steady (mac_step m l).
Proof. unfold mac_step. pres_auto. Qed.
Lemma fails_deb_mac_step m l : fails (mac_step m l).
Proof. unfold mac_step. fails_auto. Qed.
Hint Resolve deb_mac_step_steady : pres.
Hint Resolve fails_deb_mac_step : fails.
Lemma deb_lookup_mac_grows mac n : pres grows (drv_lookup_by_mac_string mac n).
Proof. unfold drv_lookup_by_mac_string. pres_auto. Qed.
Lemma deb_lookup_mac_post mac n :
  post (fun r s => r.1 < 0 -> failed s) (fun _ => False) (drv_lookup_by_mac_string mac n).
Proof. unfold drv_lookup_by_mac_string. post_lookup_mac n release_ifaces_post mac_ifaces_post. Qed.

Lemma get_xml_for_intf_steady a n : pres steady (aug_get_xml_for_intf a n).
Proof. unfold aug_get_xml_for_intf, aug_get_xml_node. pres_auto. Qed.
Lemma closed_get_xml_for_intf a n : closed (aug_get_xml_for_intf a n).
Proof. unfold aug_get_xml_for_intf, aug_get_xml_node. fails_auto. Qed.
Hint Resolve get_xml_for_intf_steady : pres.
Hint Resolve closed_get_xml_for_intf : fails.
Lemma deb_is_bond_steady n : pres steady (is_bond n).
Proof. unfold is_bond. pres_auto. Qed.
Lemma closed_deb_is_bond n : closed (is_bond n).
Proof. unfold is_bond. fails_auto. Qed.
Lemma deb_is_bridge_steady n : pres steady (is_bridge n).
Proof. unfold is_bridge. pres_auto. Qed.
Lemma closed_deb_is_bridge n : closed (is_bridge n).
Proof. unfold is_bridge. fails_auto. Qed.
Hint Resolve deb_is_bond_steady deb_is_bridge_steady : pres.
Hint Resolve closed_deb_is_bond closed_deb_is_bridge : fails.
Lemma get_slaves_steady a n : pres steady (get_slaves a n).
Proof. unfold get_slaves, get_each, bond_slaves. pres_auto. Qed.
Lemma fails_get_slaves a n : fails (get_slaves a n).
Proof. unfold get_slaves, get_each, bond_slaves. fails_auto. Qed.
Hint Resolve get_slaves_steady : pres.
Hint Resolve fails_get_slaves : fails.
Lemma get_ports_steady a n : pres steady (get_ports a n).
Proof. unfold get_ports, get_each, bridge_ports. pres_auto. Qed.
Lemma fails_get_ports a n : fails (get_ports a n).
Proof. unfold get_ports, get_each, bridge_ports. fails_auto. Qed.
Hint Resolve get_ports_steady : pres.
Hint Resolve fails_get_ports : fails.
Lemma deb_get_xml_steady p : pres steady (aug_get_xml p).
Proof. unfold aug_get_xml. pres_auto. Qed.
Lemma closed_deb_get_xml p : closed (aug_get_xml p).
Proof. unfold aug_get_xml. fails_auto. Qed.
Hint Resolve deb_get_xml_steady : pres.
Hint Resolve closed_deb_get_xml : fails.
Lemma deb_xml_desc_steady p : pres steady (drv_xml_desc p).
Proof. unfold drv_xml_desc. pres_auto. Qed.
Lemma closed_deb_xml_desc p : closed (drv_xml_desc p).
Proof. unfold drv_xml_desc. fails_auto. Qed.

Lemma incr_steady n : pres steady (incr n).
Proof. unfold incr. pres_auto. Qed.
Lemma fails_incr n : fails (incr n).
Proof. unfold incr. destruct (_ <? _); [fails_auto|by intros s]. Qed.
Hint Resolve incr_steady : pres.
Hint Resolve fails_incr : fails.
Lemma put_element_steady l e n : pres steady (aug_put_element l e n).
Proof. unfold aug_put_element, aug_put_node. pres_auto. Qed.
Lemma fails_put_element l e n : fails (aug_put_element l e n).
Proof. unfold aug_put_element, aug_put_node. fails_auto. Qed.
Hint Resolve put_element_steady : pres.
Hint Resolve fails_put_element : fails.
Lemma deb_put_xml_steady d : pres steady (aug_put_xml d).
Proof. unfold aug_put_xml, aug_put_tree, aug_put_array. pres_auto. Qed.
Lemma deb_put_xml_reports d : reports (aug_put_xml d).
Proof. unfold aug_put_xml, aug_put_tree, aug_put_array. fails_auto. Qed.
Hint Resolve deb_put_xml_steady : pres.
Hint Resolve deb_put_xml_reports : fails.

Lemma deb_rm_steady n : pres steady (rm_interface n).
Proof. unfold rm_interface. pres_auto. Qed.
Lemma closed_deb_rm n : closed (rm_interface n).
Proof. unfold rm_interface. fails_auto. Qed.
Hint Resolve deb_rm_steady : pres.
Hint Resolve closed_deb_rm : fails.
Lemma deb_rm_all_steady d : pres steady (rm_all_interfaces d).
Proof. unfold rm_all_interfaces. pres_auto. Qed.
Lemma closed_deb_rm_all d : closed (rm_all_interfaces d).
Proof. unfold rm_all_interfaces. fails_auto. Qed.
Lemma deb_bond_setup_steady n b : pres steady (bond_setup n b).
Proof. unfold bond_setup, setup, bridge_ports. pres_auto. Qed.
Lemma closed_deb_bond_setup n b : closed (bond_setup n b).
Proof. unfold bond_setup, setup, bridge_ports. fails_auto. Qed.
Hint Resolve deb_rm_all_steady deb_bond_setup_steady save_augeas_steady
  device_name_from_xml_steady : pres.
Hint Resolve closed_deb_rm_all closed_deb_bond_setup closed_save_augeas
  closed_device_name_from_xml : fails.

Lemma deb_define_aug_grows n d : pres grows (define_aug n d).
Proof. unfold define_aug. pres_auto. Qed.
Lemma deb_define_aug_post n d :
  post (fun r s => r = None -> failed s) (fun _ => False) (define_aug n d).
Proof. unfold define_aug. post_define_aug. Qed.
Hint Resolve deb_define_aug_grows : pres.
Lemma deb_define_grows x : pres grows (drv_define x).
Proof. unfold drv_define, device_name_from_xml. pres_auto. Qed.
Lemma deb_define_post x : post (fun r s => r = None -> failed s) (fun _ => False) (drv_define x).
Proof. unfold drv_define, device_name_from_xml. post_define deb_define_aug_post. Qed.

Lemma deb_undefine_steady p : pres steady (drv_undefine p).
Proof. unfold drv_undefine. pres_auto. Qed.
Lemma deb_undefine_reports p : reports (drv_undefine p).
Proof. unfold drv_undefine. reports_named. Qed.
Lemma deb_if_up_steady p : pres steady (drv_if_up p).
Proof. unfold drv_if_up. pres_auto. Qed.
Lemma deb_if_up_reports p : reports (drv_if_up p).
Proof. unfold drv_if_up. reports_named. Qed.
Lemma deb_if_down_steady p : pres steady (drv_if_down p).
Proof. unfold drv_if_down. pres_auto. Qed.
Lemma deb_if_down_reports p : reports (drv_if_down p).
Proof. unfold drv_if_down. reports_named. Qed.
Lemma deb_init_steady : pres steady drv_init.
Proof. pose proof drv_close_keeps. unfold drv_init, drv_close. pres_auto. Qed.
Lemma closed_deb_init : closed drv_init.
Proof. unfold drv_init, drv_close. closed_init closed_drv_close. Qed.

Lemma deb_num_steady f : pres steady (drv_num_of_interfaces f).
Proof. unfold drv_num_of_interfaces. pres_auto. Qed.
Lemma deb_num_reports f : reports (drv_num_of_interfaces f).
Proof. unfold drv_num_of_interfaces. reports_ids deb_interface_ids_post. Qed.
Lemma deb_list_steady n f : pres steady (drv_list_interfaces n f).
Proof. unfold drv_list_interfaces. pres_auto. Qed.
Lemma deb_list_post n f :
  post (fun r s => (r.1 < 0 -> failed s) /\ length r.2 = Z.to_nat n) (fun _ => False)
    (drv_list_interfaces n f).
Proof. unfold drv_list_interfaces. post_list deb_interface_ids_post. Qed.
End debian_laws.

#[export] Hint Resolve deb_num_steady deb_list_steady deb_lookup_grows deb_lookup_mac_grows
  deb_xml_desc_steady drv_xml_state_steady drv_if_status_steady run_transaction_steady
  drv_mac_string_grows deb_define_grows deb_undefine_steady deb_if_up_steady deb_if_down_steady
  deb_init_steady drv_close_keeps drv_entry_keeps : debian.
#[export] Hint Resolve deb_num_reports deb_list_post closed_deb_lookup deb_lookup_mac_post
  closed_deb_xml_desc closed_drv_xml_state drv_if_status_post run_transaction_reports
  closed_drv_mac_string deb_define_post deb_undefine_reports deb_if_up_reports
  deb_if_down_reports closed_deb_init : debian.

(** The driver keeps every promise netcf.c relies on. *)
#[global] Instance debian_laws `{Augeas, !Kernel, !Netlink, !Libxml, !Posix, !DebianConfig}
  (fuel : nat) : DriverLaws (H0 := debian_driver fuel).
Proof.
  split; cbn [Netcf.drv_init Netcf.drv_close Netcf.drv_entry Netcf.drv_num_of_interfaces
    Netcf.drv_list_interfaces Netcf.drv_lookup_by_name Netcf.drv_lookup_by_mac_string
    Netcf.drv_xml_desc Netcf.drv_xml_state Netcf.drv_if_status Netcf.drv_change_begin
    Netcf.drv_change_rollback Netcf.drv_change_commit Netcf.drv_mac_string Netcf.drv_define
    Netcf.drv_undefine Netcf.drv_if_up Netcf.drv_if_down debian_driver];
    unfold drv_close, drv_entry, drv_xml_state, drv_if_status, drv_mac_string, drv_change_begin,
      drv_change_rollback, drv_change_commit; intros;
    first [apply drv_close_runs | by apply drv_entry_runs
          | solve [eauto 4 with debian pres] | split; eauto 4 with debian pres].
Qed.

(** ** Saving *)

Section deb_quiet.
Context `{Augeas, !Kernel, !Netlink, !Libxml, !Posix, !DebianConfig}.

Lemma quiet_deps_loop k x l : pres same_world (deps_loop k x l).
Proof. revert x l. induction k as [|k IH]; intros x l; cbn [deps_loop]; pose proof quiet_malloc; pose proof quiet_strdup; pres_auto. Qed.
Hint Resolve quiet_deps_loop quiet_xasprintf : pres.
Lemma quiet_interface_deps p : pres same_world (interface_deps p).
Proof. unfold interface_deps, deps_step. pres_auto. Qed.
Lemma quiet_fmt_rm p : pres same_world (aug_fmt_rm p).
Proof. unfold aug_fmt_rm. pres_auto. Qed.
Lemma quiet_fmt_set v p : pres same_world (aug_fmt_set v p).
Proof. unfold aug_fmt_set. pres_auto. Qed.
Hint Resolve quiet_interface_deps quiet_fmt_rm quiet_fmt_set quiet_setup : pres.
Lemma quiet_deb_rm n : pres same_world (rm_interface n).
Proof. unfold rm_interface. pres_auto. Qed.
Hint Resolve quiet_deb_rm : pres.
Lemma quiet_deb_rm_all o : pres same_world (rm_all_interfaces o).
Proof. unfold rm_all_interfaces. pres_auto. Qed.
Lemma quiet_deb_put_xml o : pres same_world (aug_put_xml o).
Proof.
  unfold aug_put_xml, aug_put_tree, aug_put_array, aug_put_element, aug_put_node, xml_prop, incr. pres_auto.
Qed.
Lemma quiet_deb_bond_setup n b : pres same_world (bond_setup n b).
Proof. unfold bond_setup, is_bond, is_bridge, bridge_ports. pres_auto. Qed.
Lemma quiet_deb_device_name o : pres same_world (device_name_from_xml o).
Proof. apply quiet_device_name. Qed.
Hint Resolve quiet_deb_rm_all quiet_deb_put_xml quiet_deb_bond_setup quiet_deb_device_name : pres.

Lemma deb_define_aug_saves n o : saves (fun r => r <> None) (define_aug n o).
Proof. unfold define_aug. saves_tail. Qed.
Lemma deb_define_saves x : saves (fun r => r <> None) (drv_define x).
Proof. unfold drv_define. saves_define deb_define_aug_saves. Qed.
Lemma deb_undefine_saves p : saves (fun r => 0 <= r) (drv_undefine p).
Proof. unfold drv_undefine. saves_undefine. Qed.
End deb_quiet.

(** ** Properties *)

(** C33: the Debian driver keeps what netcf.c relies on: initialisation and every
    operation respect the error discipline and the reference counts, a failing
    result comes with an error, closing and entering always come back, and a
    listing never writes outside the caller's array. *)
Theorem debian_refines_driver `{Augeas, !Kernel, !Netlink, !Libxml, !Posix, !DebianConfig}
  (fuel : nat) : DriverLaws (H0 := debian_driver fuel).
Proof. apply debian_laws. Qed.

(** Neither defining nor undefining an interface touches anything outside the
    process except by one [aug_save], after all other steps went well; an
    interface is returned (or 0) only if the tree was saved. *)
Theorem deb_saved_once `{Augeas, !Kernel, !Netlink, !Libxml, !Posix, !DebianConfig}
  (xml_str : string) (p : nat) :
  saves (fun r => r <> None) (drv_define xml_str) /\ saves (fun r => 0 <= r) (drv_undefine p).
Proof. split; [apply deb_define_saves|apply deb_undefine_saves]. Qed.

(** A configuration for the witnesses. *)
#[global] Instance toy_debian : DebianConfig := {| IFUP := "/sbin/ifup"; IFDOWN := "/sbin/ifdown" |}.
