(* ===== verification/DebianSpec.v ===== *)
(** * What the Debian driver computes

    Reference functions for the ports and slaves that drv_debian.c reads out of
    /etc/network/interfaces and for the interfaces it lists, the theorems that the
    code computes them, and how it numbers the nodes it writes. *)

From S2P Require Import Prelude CStr XsltExt State Refs Toy Posix Xml Netcf Linux Common Redhat RedhatSpec RedhatSave AugEdit AugDriver Debian.

(** ** Words *)

(** The pieces between single spaces. *)
Fixpoint pieces (s : string) : list string :=
  match s with
  | EmptyString => [EmptyString]
  | String c s' =>
      match pieces s' with
      | w :: ws => if Ascii.eqb c " " then EmptyString :: w :: ws else String c w :: ws
      | [] => []
      end
  end.

(** Nothing is made of what follows a space at the end. *)
Fixpoint words_of (l : list string) : list string :=
  match l with
  | [] => []
  | w :: ws => w :: (if decide (ws = [EmptyString]) then [] else words_of ws)
  end.

Definition dep_words (devs : string) : list string :=
  if STREQ devs "none" then [] else words_of (pieces devs).

Lemma pieces_nonempty s : exists w ws, pieces s = w :: ws.
Proof.
  induction s as [|c s (w & ws & IH)]; cbn; [by eexists _, _|]. rewrite IH.
  destruct (Ascii.eqb c " "); by eexists _, _.
Qed.

Lemma pieces_empty s : pieces s = [EmptyString] <-> s = "".
Proof.
  split; [|by intros ->]. destruct s as [|c s]; [done|]. cbn.
  destruct (pieces_nonempty s) as (w & ws & ->). by destruct (Ascii.eqb c " ").
Qed.

Lemma strchr_cut s c r : strchr s c = Some r ->
  exists p r', s = p +:+ r /\ r = String c r' /\ strchr p c = None.
Proof.
  induction s as [|x s IH]; cbn; [done|]. destruct (Ascii.eqb x c) eqn:E.
  - apply Ascii.eqb_eq in E as ->. intros [= <-]. by exists "", s.
  - intros (p & r' & -> & -> & Hp)%IH. exists (String x p), r'.
    rewrite app_cons. split; [done|]. split; [done|]. cbn. by rewrite E.
Qed.

Lemma pieces_cut p r : strchr p " " = None -> pieces (p +:+ String " " r) = p :: pieces r.
Proof.
  induction p as [|x p IH]; intros Hp.
  - change ("" +:+ String " " r) with (String " " r). cbn [pieces].
    by destruct (pieces_nonempty r) as (w & ws & ->).
  - rewrite app_cons. cbn in *. destruct (Ascii.eqb x " "); [done|]. by rewrite IH.
Qed.

Lemma pieces_word p : strchr p " " = None -> pieces p = [p].
Proof.
  induction p as [|x p IH]; intros Hp; [done|]. cbn in *.
  destruct (Ascii.eqb x " "); [done|]. by rewrite IH.
Qed.

(** A list of names comes back, unless it is the word that stands for none. *)
Lemma dep_words_concat l : l <> [] -> l <> ["none"] ->
  Forall (fun w => w <> "" /\ strchr w " " = None) l -> dep_words (String.concat " " l) = l.
Proof.
  intros Hne Hnone Hl.
  assert (Hp : pieces (String.concat " " l) = l).
  { destruct l as [|w l]; [done|]. clear Hne Hnone. revert w Hl.
    induction l as [|v l IH]; intros w Hl; apply Forall_cons in Hl as [[Hw1 Hw2] Hl];
      [by apply pieces_word|].
    change (String.concat " " (w :: v :: l)) with (w +:+ String " " (String.concat " " (v :: l))).
    by rewrite pieces_cut, IH. }
  unfold dep_words. destruct (STREQ _ "none") eqn:E.
  { apply STREQ_eq in E. rewrite E in Hp. by destruct Hnone. }
  rewrite Hp. clear Hp Hne Hnone E. induction Hl as [|w l [Hw _] Hl IH]; [done|]. cbn.
  rewrite IH. destruct (decide (l = [""])) as [->|]; [|done]. by apply Forall_cons in Hl as [[? _] _].
Qed.

Section deps.
Context `{Augeas, !Kernel}.
Context (d : driver) (a : aug) (s : state) (Hs : ready d a s).

Lemma ready_malloc : malloc s = (Ret true, s).
Proof. unfold malloc. by rewrite (rd_mem _ _ _ Hs). Qed.

Lemma deps_loop_run fuel devs got : (String.length devs < fuel)%nat ->
  deps_loop fuel devs got s = (Ret (got ++ (Some <$> words_of (pieces devs))), s).
Proof.
  revert devs got. induction fuel as [|fuel IH]; intros devs got Hl; [lia|]. cbn [deps_loop].
  rewrite (bind_Ret _ _ _ _ _ ready_malloc). repeat ready_step Hs.
  destruct (strchr devs " ") as [skip|] eqn:Hc.
  - apply strchr_cut in Hc as (p & r & -> & -> & Hp). rewrite pieces_cut by done.
    rewrite string_length_app in *. cbn [String.length] in *.
    replace (String.length p + S (String.length r) - S (String.length r))%nat
      with (String.length p) by lia.
    rewrite string_take_app. repeat ready_step Hs. cbn [string_drop].
    cbn [words_of]. destruct (STREQ r "") eqn:Hr.
    + apply STREQ_eq in Hr as ->. by rewrite decide_True.
    + apply STREQ_neq in Hr. rewrite decide_False by (by rewrite pieces_empty).
      rewrite IH by lia. cbn [fmap list_fmap]. by rewrite <- app_assoc.
  - rewrite (pieces_word devs Hc). cbn [words_of]. repeat ready_step Hs. by rewrite decide_False.
Qed.

(** The names that the nodes mention. *)
Definition deps_at (p : string) : list string := mjoin ((fun m => dep_words (value a m)) <$> matches a p).

Lemma deps_steps_run ms got : (forall m, m ∈ ms -> valued a m) ->
  for_acc ms got deps_step s
  = (Ret (got ++ (Some <$> mjoin ((fun m => dep_words (value a m)) <$> ms))), s).
Proof.
  revert got. induction ms as [|m ms IH]; intros got Hv; [by rewrite app_nil_r|].
  cbn [for_acc]. unfold deps_step at 1. rewrite bind_assoc.
  rewrite (bind_Ret _ _ _ _ _ (ready_ask _ _ _ Hs _)), (valued_get a m) by (apply Hv; by left).
  change (1 <? 0) with false. repeat ready_step Hs.
  assert (Hv' : forall q, q ∈ ms -> valued a q) by (intros q Hq; apply Hv; by right).
  cbn [fmap list_fmap mjoin list_join]. unfold dep_words at 1.
  destruct (STREQ (value a m) "none"); [rewrite bind_ret_l; by apply IH|].
  rewrite (bind_Ret _ _ _ _ _ (deps_loop_run _ _ _ (Nat.lt_succ_diag_r _))).
  etransitivity; [by apply IH|]. by rewrite fmap_app, app_assoc.
Qed.

(** The names can be asked for and read. *)
Definition deps_ok (p : string) : Prop := answers a p /\ forall m, m ∈ matches a p -> valued a m.

Lemma interface_deps_run p : deps_ok p ->
  interface_deps p s = (Ret (Some (Some <$> deps_at p)), s).
Proof.
  intros [[l Hm] Hv]. unfold interface_deps, on_error, deps_at. repeat ready_step Hs. rewrite Hm.
  unfold matches in *. rewrite Hm in *. cbn [nmatches default id matched] in *.
  rewrite (proj2 (Z.ltb_ge _ 0)) by lia. repeat ready_step Hs.
  destruct (Z.eqb_spec (Z.of_nat (length l)) 0) as [Hz|_]; [destruct l; [done|cbn in Hz; lia]|].
  by rewrite (bind_Ret _ _ _ _ _ (deps_steps_run l [] Hv)).
Qed.
End deps.

(** ** Listing and lookup *)

Section listing.
Context `{Augeas}.

(** What Augeas promises for the three queries of a listing, on a tree that its lens
    for the file built. *)
Record deb_sane (a : aug) : Prop := {
  dsane_ifaces : answers a (network_interfaces_path +:+ "/iface");
  dsane_iface m : m ∈ matches a (network_interfaces_path +:+ "/iface") -> valued a m;
  dsane_ports : deps_ok a (network_interfaces_path +:+ "/iface/bridge_ports");
  dsane_slaves : deps_ok a (network_interfaces_path +:+ "/iface/bond_slaves")
}.

(** Everything that is a port of some bridge or a slave of some bond. *)
Definition deb_slaves (a : aug) : list string :=
  deps_at a (network_interfaces_path +:+ "/iface/bridge_ports") ++
  deps_at a (network_interfaces_path +:+ "/iface/bond_slaves").

(** The names in the file, each once, in alphabetical order. *)
Definition deb_names (a : aug) : list string :=
  qsort_strings (remove_dups (value a <$> matches a (network_interfaces_path +:+ "/iface"))).

Definition deb_enslaved (a : aug) (n : string) : bool := bool_decide (n ∈ deb_slaves a).

(** The interfaces to list. *)
Definition deb_toplevel (a : aug) : list string :=
  filter (fun n => deb_enslaved a n = false) (deb_names a).
End listing.

Section listing_run.
Context `{Augeas, !Kernel, !DebianConfig}.
Context (d : driver) (a : aug) (s : state) (Hs : ready d a s) (Ha : deb_sane a).
Let Hifaces := dsane_ifaces a Ha.
Hint Resolve Hifaces : core.

Lemma deb_is_slave_run n : is_slave n s = (Ret (deb_enslaved a n), s).
Proof.
  pose proof (interface_deps_run d a s Hs _ (dsane_ports a Ha)) as Hp.
  pose proof (interface_deps_run d a s Hs _ (dsane_slaves a Ha)) as Hb.
  unfold is_slave, all_slaves. erewrite bind_Ret.
  2:{ unfold on_error. rewrite (bind_Ret _ _ _ _ _ Hp). repeat ready_step Hs.
      rewrite (bind_Ret _ _ _ _ _ Hb). repeat ready_step Hs.
      rewrite (bind_Ret _ _ _ _ _ (ready_malloc d a s Hs)). repeat ready_step Hs. reflexivity. }
  unfold on_error. repeat ready_step Hs. rewrite <- fmap_app. by rewrite among_run.
Qed.

Lemma deb_list_interfaces_run :
  exists l, list_interfaces s = (Ret (Some l), s) /\ l = Some <$> deb_toplevel a.
Proof.
  unfold list_interfaces, on_error. repeat ready_step Hs.
  rewrite (proj2 (Z.ltb_ge _ 0)) by lia. repeat ready_step Hs.
  erewrite (bind_Ret (uniq_device_names _)).
  2:{ unfold uniq_device_names, on_error. repeat ready_step Hs.
      destruct (devnames_loop d a s Hs (matches a (network_interfaces_path +:+ "/iface")) [])
        as (l & Hr & Hl & Hx); [apply NoDup_nil_2|apply (dsane_iface a Ha)|].
      rewrite (bind_Ret _ _ _ _ _ Hr). repeat ready_step Hs.
      erewrite bind_Ret; [|apply (for_map_pure _ _ Some)].
      2:{ intros x _. by repeat ready_step Hs. }
      assert (qsort_strings l = deb_names a) as ->; [|reflexivity].
      apply qsort_perm, NoDup_Permutation; [done|apply NoDup_remove_dups|].
      intros x. rewrite Hx, elem_of_remove_dups. set_solver. }
  repeat ready_step Hs.
  destruct (filter_all_run s is_slave (deb_enslaved a) id (deb_names a)) as (n & l' & Hr & Hl);
    [apply Forall_forall; intros x _; apply deb_is_slave_run|done|]. rewrite (bind_Ret _ _ _ _ _ Hr). exists (take n l'). by split.
Qed.

Lemma deb_interface_ids_run flags m ns :
  list_interface_ids m ns flags s
  = on_error (name_ids flags (Some <$> deb_toplevel a)
      (if is_null ns then Z.of_nat (length (Some <$> deb_toplevel a)) else m) 0 ns) (ret (-1, ns)) s.
Proof.
  unfold list_interface_ids, on_error. repeat ready_step Hs.
  destruct deb_list_interfaces_run as (l & Hr & ->). rewrite (bind_Ret _ _ _ _ _ Hr).
  by repeat ready_step Hs.
Qed.

Definition deb_listed (flags : Z) : list string := wanted_of d s flags (deb_toplevel a).

Lemma deb_num_run flags :
  list_interface_ids 0 None flags s = (Ret (Z.of_nat (length (deb_listed flags)), None), s).
Proof.
  rewrite deb_interface_ids_run. apply on_error_Ret. cbn [is_null]. by apply (name_ids_all d a).
Qed.

Lemma deb_array_run flags n : 0 <= n ->
  list_interface_ids n (Some (replicate (Z.to_nat n) None)) flags s
  = (let l := deb_listed flags in let k := Z.to_nat n in
     (Ret (Z.of_nat (min k (length l)),
           Some ((Some <$> take k l) ++ replicate (k - length l) None)), s)).
Proof.
  intros Hn. rewrite deb_interface_ids_run. apply on_error_Ret. cbn [is_null]. by apply (name_ids_some d a).
Qed.

Lemma wanted_all l : wanted_of d s (Z.lor NETCF_IFACE_ACTIVE NETCF_IFACE_INACTIVE) l = l.
Proof. induction l as [|n l IH]; [done|]. unfold wanted_of in *.
  rewrite filter_cons, decide_True by done. by f_equal. Qed.

(** A lookup goes through the list of all interfaces. *)
Lemma deb_lookup_run name :
  drv_lookup_by_name name s
  = (if decide (name ∈ deb_toplevel a) then on_error (new_nif name) (ret None) s
     else (Ret None, set_ncf (set_err NETCF_ENOENT (errdetails (ncf s)) (ncf s)) s)).
Proof.
  unfold drv_lookup_by_name, on_error. set (both := Z.lor _ _).
  rewrite (bind_Ret _ _ _ _ _ (deb_num_run both)). repeat ready_step Hs.
  rewrite (bind_Ret _ _ _ _ _ (deb_array_run both _ (Zle_0_nat _))). repeat ready_step Hs.
  rewrite !Nat2Z.id, Nat.min_id. cbn [default id].
  rewrite (take_ge (deb_listed both)) by done.
  rewrite take_app_length' by (by rewrite length_fmap).
  rewrite (bind_Ret _ _ _ _ _ (among_run s name _)). unfold deb_listed, both. rewrite wanted_all.
  case_decide as Hin.
  - rewrite bool_decide_true by done. by repeat ready_step Hs.
  - by rewrite bool_decide_false.
Qed.
End listing_run.

(** ** Numbering *)

Lemma digit_val_char n : (n < 10)%N -> digit_val (pretty_N_char n) = Some (Z.of_N n).
Proof.
  intros Hn. destruct n as [|p]; [done|].
  do 4 (destruct p as [p|p|]; [..|done]; try (exfalso; lia); try done).
Qed.

(** The number is read back from its digits, whatever follows them. *)
Lemma digits_go x : exists k, forall s t acc,
  digits (pretty_N_go x s +:+ t) acc = digits (s +:+ t) (acc * 10 ^ Z.of_nat k + Z.of_N x).
Proof.
  induction x as [x IH] using (well_founded_induction N.lt_wf_0).
  destruct (decide (x = 0)%N) as [->|Hx].
  { exists 0%nat. intros s t acc. rewrite pretty_N_go_0. f_equal. lia. }
  destruct (IH (x `div` 10)%N) as [k Hk]; [apply N.div_lt; lia|].
  exists (S k). intros s t acc. rewrite pretty_N_go_step by lia. rewrite Hk, app_cons. cbn [digits].
  rewrite digit_val_char by (apply N.mod_lt; lia). f_equal.
  rewrite Nat2Z.inj_succ, Z.pow_succ_r by lia.
  rewrite (N.div_mod x 10) at 3 by lia. rewrite N2Z.inj_add, N2Z.inj_mul. lia.
Qed.

(** What is written in digits has no bracket and does not begin with a sign. *)
Definition digit_char (c : ascii) : Prop := is_Some (digit_val c).

Lemma digit_go x s : (0 < x)%N -> exists c r, digit_char c /\ pretty_N_go x s = String c r.
Proof.
  revert s. induction x as [x IH] using (well_founded_induction N.lt_wf_0). intros s Hx.
  rewrite pretty_N_go_step by done. destruct (decide (x `div` 10 = 0)%N) as [Hz|Hz].
  - rewrite Hz, pretty_N_go_0. eexists _, _. split; [|reflexivity].
    eexists. apply digit_val_char, N.mod_lt. lia.
  - apply IH; [apply N.div_lt; lia|by apply N.neq_0_lt_0].
Qed.

Lemma bracket_go x s t : strrchr (s +:+ t) "[" = None -> strrchr (pretty_N_go x s +:+ t) "[" = None.
Proof.
  revert s. induction x as [x IH] using (well_founded_induction N.lt_wf_0). intros s Hs.
  destruct (decide (x = 0)%N) as [->|Hx]; [by rewrite pretty_N_go_0|].
  rewrite pretty_N_go_step by lia. apply IH; [apply N.div_lt; lia|]. rewrite app_cons.
  cbn [strrchr]. rewrite Hs. destruct (Ascii.eqb_spec (pretty_N_char (x `mod` 10)) "[") as [E|]; [|done].
  assert (x `mod` 10 < 10)%N as Hm%digit_val_char by (apply N.mod_lt; lia). by rewrite E in Hm.
Qed.

Lemma strrchr_behind p c r : strrchr r c = None -> strrchr (p +:+ String c r) c = Some (String c r).
Proof.
  intros Hr. induction p as [|x p IH].
  - change ("" +:+ ?t) with t. cbn. by rewrite Hr, Ascii.eqb_refl.
  - rewrite app_cons. cbn. by rewrite IH.
Qed.

Lemma strtol_digit c r : digit_char c -> strtol (String c r) = Z.min LONG_MAX (digits (String c r) 0).
Proof.
  intros [v Hv]. cbn [strtol]. destruct (isspace c) eqn:Hs.
  { exfalso. unfold digit_val, isspace in *. cbv zeta in *.
    destruct ((48 <=? _) && _) eqn:E in Hv; [|done]. apply andb_prop in E as [E1%Z.leb_le E2%Z.leb_le].
    apply orb_prop in Hs as [Hs%N.eqb_eq|[Hs1%N.leb_le Hs2%N.leb_le]%andb_prop]; lia. }
  destruct (Ascii.eqb_spec c "-") as [->|]; [done|].
  by destruct (Ascii.eqb_spec c "+") as [->|].
Qed.

(** [strtol] stops at the bracket behind the number. *)
Lemma strtol_fmt_d n : 0 <= n <= INT_MAX -> i32 (strtol (fmt_d n +:+ "]")) = n.
Proof.
  intros Hn. assert (strtol (fmt_d n +:+ "]") = n) as ->.
  2:{ unfold i32, INT_MAX in *. rewrite Z.mod_small; lia. }
  destruct n as [|p|p]; [done| |lia]. unfold fmt_d.
  change (pretty (Z.pos p)) with (pretty (N.pos p)). unfold pretty, pretty_N.
  rewrite decide_False by done.
  destruct (digit_go (N.pos p) "" ltac:(lia)) as (c & r & Hc & Hgo).
  destruct (digits_go (N.pos p)) as [k Hk]. specialize (Hk "" "]" 0).
  rewrite Hgo in Hk |- *. rewrite app_cons in *. rewrite strtol_digit by done. rewrite Hk.
  cbn [digits digit_val]. change (digits ("" +:+ "]") ?z) with z.
  unfold LONG_MAX, INT_MAX in *. lia.
Qed.

Lemma last_index_run l p n : 0 <= n <= INT_MAX ->
  last l = Some (p +:+ "[" +:+ fmt_d n +:+ "]") -> last_index l = n.
Proof.
  intros Hn Hl. unfold last_index. rewrite Hl. change ("[" +:+ ?t) with (String "[" t).
  rewrite strrchr_behind; [by apply strtol_fmt_d|].
  destruct n as [|q|q]; [done| |lia]. apply (bracket_go (N.pos q) ""). done.
Qed.

(** ** Writing arrays *)

Lemma mjoin_single {A B} (f : A -> B) (l : list A) : mjoin ((fun x => [f x]) <$> l) = f <$> l.
Proof. induction l as [|x l IH]; [done|]. cbn. by f_equal. Qed.

Section put.
Context `{Augeas, !Kernel, !Netlink, !Libxml, !Posix, !DebianConfig}.

(** The assignments for one element, which becomes number [n]: its key, and its
    nodes behind those that are there. *)
Definition element_writes (x : xmem) (label : string) (n : Z) (e : node)
  : list edit :=
  let path := network_interfaces_path +:+ "/" +:+ label +:+ "[" +:+ fmt_d n +:+ "]" in
  (if xmlGetProp e "key" x is Some k then [Assign path (Some k)] else []) ++
  ((fun c => Assign (network_interfaces_path +:+ "/" +:+ label +:+ "[" +:+ fmt_d n +:+ "]/" +:+
                       default "1" (xmlGetProp c "label" x) +:+ "[last()+1]") (xmlGetProp c "value" x))
     <$> node_children e x).

(** The elements, numbered from [n + 1] on *)
Fixpoint array_writes (x : xmem) (label : string) (n : Z) (es : list node)
  : list edit :=
  match es with
  | [] => []
  | e :: es' => element_writes x label (n + 1) e ++ array_writes x label (n + 1) es'
  end.

Context (d : driver) (s : state) (a0 : aug) (Hs : ready d a0 s).

Lemma writes_node label n c :
  writes d s (aug_put_node label n c)
    [Assign (network_interfaces_path +:+ "/" +:+ label +:+ "[" +:+ fmt_d n +:+ "]/" +:+
               default "1" (xmlGetProp c "label" (xml s)) +:+ "[last()+1]") (xmlGetProp c "value" (xml s))] tt.
Proof.
  unfold aug_put_node, xml_prop. do 2 (eapply writes_pure; [intros ?; apply xget_tree|]).
  by apply (writes_set d s a0 Hs).
Qed.

Lemma writes_element label n e : node_name e (xml s) = "element" -> n < INT_MAX ->
  writes d s (aug_put_element label e n) (element_writes (xml s) label (n + 1) e) (n + 1).
Proof.
  intros He Hn. unfold aug_put_element, xml_prop, element_writes.
  eapply writes_pure; [intros ?; apply xget_tree|]. rewrite He. cbn [STRNEQ].
  eapply writes_pure; [by intros ?|]. eapply writes_pure; [intros ?; apply xget_tree|].
  eapply writes_pure; [intros ?; unfold incr; by rewrite (proj2 (Z.ltb_lt _ _))|].
  eapply writes_bind.
  - destruct (xmlGetProp e "key" (xml s)) as [k|]; cbn [is_null negb when];
      [by apply (writes_set d s a0 Hs)|apply writes_ret].
  - eapply writes_pure; [intros ?; apply xget_tree|].
    eapply writes_then; [|done]. rewrite <- mjoin_single. apply writes_for_each. intros c _. apply writes_node.
Qed.

Lemma writes_elements label es n :
  (forall e, e ∈ es -> node_name e (xml s) = "element") -> n + Z.of_nat (length es) <= INT_MAX ->
  writes d s (for_acc es n (aug_put_element label)) (array_writes (xml s) label n es)
    (n + Z.of_nat (length es)).
Proof.
  revert n. induction es as [|e es IH]; intros n He Hn; cbn [for_acc array_writes length].
  - rewrite Z.add_0_r. apply writes_ret.
  - cbn [length] in Hn. eapply writes_bind; [apply writes_element; [apply He; by left|lia]|].
    replace (n + Z.of_nat (S (length es))) with (n + 1 + Z.of_nat (length es)) by lia.
    apply IH; [intros f Hf; apply He; by right|lia].
Qed.
End put.

(** ** A concrete /etc/network/interfaces *)

Definition toy_deb : toy_aug :=
  let i n := network_interfaces_path +:+ "/iface[" +:+ n +:+ "]" in
  {| t_match :=
       [(network_interfaces_path +:+ "/iface", [i "1"; i "2"; i "3"; i "4"]);
        (network_interfaces_path +:+ "/iface/bridge_ports", [network_interfaces_path +:+ "/iface[2]/bridge_ports"]);
        (network_interfaces_path +:+ "/iface[. = 'br0']", [i "2"]);
        (network_interfaces_path +:+ "/iface[last()]", [i "4"])];
     t_value :=
       [(i "1", "lo"); (i "2", "br0"); (i "3", "eth0"); (i "4", "eth1");
        (network_interfaces_path +:+ "/iface[2]/bridge_ports", "eth0 eth2")];
     t_ops := [] |}.

Lemma toy_deb_ready : ready (H := toy_host) (toy_driver toy_deb) toy_deb (toy_state toy_os toy_deb).
Proof. split; try reflexivity; intros _; reflexivity. Defined.

Lemma toy_deb_sane : deb_sane (H0 := toy_augeas) toy_deb.
Proof.
  assert (Hall : Forall (fun kv => Forall (fun m => is_Some (assoc (t_value toy_deb) m)) kv.2) (t_match toy_deb))
    by (repeat constructor; vm_compute; eexists; reflexivity).
  pose proof (toy_valued toy_deb Hall) as Hv.
  split; [by apply toy_answers|exact (Hv _)|split; [by apply toy_answers|exact (Hv _)]..].
Defined.

(** ** Properties *)

(** C34: counting and listing yield, in alphabetical order and each once, the names
    in /etc/network/interfaces that no bridge and no bond mentions and whose state
    the flags ask for, within the caller's array. A lookup by name succeeds for
    exactly those, whatever their state, and otherwise fails with ENOENT. *)
Theorem deb_list_spec `{Augeas, !Kernel, !DebianConfig} (d : driver) (a : aug) (s : state)
  (n flags : Z) (name : string) (Hs : ready d a s) (Ha : deb_sane a) (Hn : 0 <= n) :
  let l := wanted_of d s flags (deb_toplevel a) in let k := Z.to_nat n in
  drv_num_of_interfaces flags s = (Ret (Z.of_nat (length l)), s) /\
  drv_list_interfaces n flags s =
    (Ret (Z.of_nat (min k (length l)), (Some <$> take k l) ++ replicate (k - length l) None), s) /\
  (if decide (name ∈ deb_toplevel a)
   then drv_lookup_by_name name s = on_error (new_nif name) (ret None) s
   else exists s', drv_lookup_by_name name s = (Ret None, s') /\ err s' = NETCF_ENOENT).
Proof.
  cbv zeta. split; [|split].
  - unfold drv_num_of_interfaces. by rewrite (bind_Ret _ _ _ _ _ (deb_num_run d a s Hs Ha flags)).
  - unfold drv_list_interfaces. by rewrite (bind_Ret _ _ _ _ _ (deb_array_run d a s Hs Ha flags n Hn)).
  - rewrite (deb_lookup_run d a s Hs Ha name). case_decide; [done|]. by eexists.
Qed.

Lemma deb_list_spec_witness :
  drv_num_of_interfaces 3 (toy_state toy_os toy_deb) = (Ret 3, toy_state toy_os toy_deb) /\
  drv_list_interfaces 2 3 (toy_state toy_os toy_deb)
    = (Ret (2, [Some "br0"; Some "eth1"]), toy_state toy_os toy_deb) /\
  exists s', drv_lookup_by_name "eth0" (toy_state toy_os toy_deb) = (Ret None, s') /\ err s' = NETCF_ENOENT.
Proof.
  exact (@deb_list_spec toy_host toy_augeas toy_kernel toy_debian (toy_driver toy_deb) toy_deb
    (toy_state toy_os toy_deb) 2 3 "eth0" toy_deb_ready toy_deb_sane ltac:(lia)).
Defined.

(** The ports of a bridge and the slaves of a bond are the words of the values
    of the nodes, cut at every single space; the loop over a value ends. Names
    without spaces that are joined with single spaces come back as they were, but
    two spaces in a row make an empty name. *)
Theorem deb_deps_spec `{Augeas, !Kernel} (d : driver) (a : aug) (s : state) (p : string)
  (Hs : ready d a s) (Hp : deps_ok a p) :
  interface_deps p s
    = (Ret (Some (Some <$> mjoin ((fun m => dep_words (value a m)) <$> matches a p))), s) /\
  (forall l, l <> [] -> l <> ["none"] -> Forall (fun w => w <> "" /\ strchr w " " = None) l ->
     dep_words (String.concat " " l) = l) /\
  dep_words "eth0  eth1" = ["eth0"; ""; "eth1"].
Proof.
  split; [by apply (interface_deps_run d a s Hs)|]. split; [apply dep_words_concat|done].
Qed.

Lemma deb_deps_spec_witness :
  interface_deps (network_interfaces_path +:+ "/iface/bridge_ports") (toy_state toy_os toy_deb)
  = (Ret (Some [Some "eth0"; Some "eth2"]), toy_state toy_os toy_deb).
Proof.
  apply (@deb_deps_spec toy_host toy_augeas toy_kernel (toy_driver toy_deb) toy_deb
    (toy_state toy_os toy_deb) (network_interfaces_path +:+ "/iface/bridge_ports") toy_deb_ready).
  exact (dsane_ports _ toy_deb_sane).
Defined.

(** Putting an array into the tree adds its elements behind those that are
    there: they get the numbers from the one after the last on, in order, each with
    its key and its nodes; nothing else is assigned. If an assignment fails the rest
    is left out and the error is EOTHER. The number of the last is the one Augeas
    writes behind its name. *)
Theorem deb_put_array_spec `{Augeas, !Kernel, !Netlink, !Libxml, !Posix, !DebianConfig}
  (d : driver) (a : aug) (s : state) (array : node) (label : string)
  (Hs : ready d a s) (Hname : node_name array (xml s) = "array")
  (Hlabel : xmlGetProp array "label" (xml s) = Some label)
  (Hm : answers a (network_interfaces_path +:+ "/" +:+ label +:+ "[last()]"))
  (Hel : forall e, e ∈ node_children array (xml s) -> node_name e (xml s) = "element")
  (Hmax : last_index (matches a (network_interfaces_path +:+ "/" +:+ label +:+ "[last()]"))
          + Z.of_nat (length (node_children array (xml s))) <= INT_MAX) :
  let last := matches a (network_interfaces_path +:+ "/" +:+ label +:+ "[last()]") in
  match put_all (array_writes (xml s) label (last_index last) (node_children array (xml s))) a with
  | inl a' => aug_put_array array s = (Ret tt, at_tree d s a')
  | inr c => exists s', aug_put_array array s = (Bail, s') /\ err s' = c
  end /\
  forall l p n, 0 <= n <= INT_MAX -> List.last l "" = p +:+ "[" +:+ fmt_d n +:+ "]" -> last_index l = n.
Proof.
  cbv zeta. split.
  - set (n0 := last_index _) in *.
    assert (Hrun : aug_put_array array s
      = (for_acc (node_children array (xml s)) n0 (aug_put_element label) ;; ret tt) s).
    { unfold aug_put_array, xml_prop. rewrite (bind_Ret _ _ _ _ _ (eq_refl : xget (node_name array) s = (Ret (node_name array (xml s)), s))).
      rewrite Hname. cbn [STRNEQ]. rewrite (bind_Ret _ _ s tt s) by done.
      rewrite (bind_Ret _ _ s (Some label) s) by (unfold xget, gets; by rewrite Hlabel).
      repeat ready_step Hs.
      cbn [nmatches]. rewrite (proj2 (Z.ltb_ge _ 0)) by lia. repeat ready_step Hs.
      by rewrite (bind_Ret _ _ _ _ _ (eq_refl : xget (node_children array) s = (Ret (node_children array (xml s)), s))). }
    pose proof (writes_elements d s a Hs label (node_children array (xml s)) n0 Hel Hmax a) as Hw.
    rewrite Hrun. rewrite (at_tree_self d s a Hs) in Hw. destruct (put_all _ a) as [a'|c].
    + by rewrite (bind_Ret _ _ _ _ _ Hw).
    + destruct Hw as (s' & Hr & He). exists s'. by rewrite (bind_Bail _ _ _ _ Hr).
  - intros l p n Hn Hl. apply (last_index_run l p n Hn).
    destruct l as [|x l _] using rev_ind; [by destruct p|]. rewrite List.last_last in Hl. by rewrite last_snoc, Hl.
Qed.

(** An array with one interface *)
Definition toy_array : gmap nat xelem :=
  <[1%nat := {| x_name := "array"; x_text := false; x_props := [("label", "iface")]; x_kids := [2%nat] |}]>
  (<[2%nat := {| x_name := "element"; x_text := false; x_props := [("key", "eth9")]; x_kids := [3%nat] |}]>
  (<[3%nat := {| x_name := "node"; x_text := false; x_props := [("label", "address"); ("value", "10.0.0.1")];
                 x_kids := [] |}]> ∅)).

Lemma deb_put_array_spec_witness :
  exists a', aug_put_array 1%nat (set_xml (H := toy_host) toy_array (toy_state toy_os toy_deb))
    = (Ret tt, at_tree (toy_driver toy_deb) (set_xml (H := toy_host) toy_array (toy_state toy_os toy_deb)) a') /\
  t_ops a' = [(network_interfaces_path +:+ "/iface[5]", "eth9");
              (network_interfaces_path +:+ "/iface[5]/address[last()+1]", "10.0.0.1")].
Proof.
  destruct (@deb_put_array_spec toy_host toy_augeas toy_kernel toy_netlink toy_libxml toy_posix toy_debian
    (toy_driver toy_deb) toy_deb (set_xml (H := toy_host) toy_array (toy_state toy_os toy_deb)) 1%nat "iface") as [Hr _].
  - split; try reflexivity; intros _; reflexivity.
  - vm_compute. reflexivity.
  - vm_compute. reflexivity.
  - by eexists.
  - intros e He. vm_compute in He. apply list_elem_of_singleton in He as ->. vm_compute. reflexivity.
  - vm_compute. discriminate.
  - eexists. split; [exact Hr|]. vm_compute. reflexivity.
Defined.

