(* ===== verification/DebianXml.v ===== *)
(** * The document of an interface of Debian

    [aug_get_xml] of drv_debian.c makes a document of an interface: its stanzas in the
    file and those of the ports and slaves that belong to it. Here: a reference for
    this document ([deb_forest]), and that the code computes it. *)

From S2P Require Import Prelude CStr XsltExt State Refs Toy Posix Xml XmlTree Netcf Linux Common Redhat RedhatSpec AugEdit Describe AugDriver Debian DebianSpec.

(** ** The reference *)

Section reference.
Context `{Augeas} (a : aug).

Definition iface_named (name : string) : string := network_interfaces_path +:+ "/iface[. = '" +:+ name +:+ "']".

(** The stanzas of an interface with their settings *)
Definition deb_element (name path : string) : xtree :=
  Elem "element" (<["key" := name]> ∅) (match_tree a path <$> matches a (path +:+ "/" +:+ "*")).
Definition deb_elements (name : string) : list xtree := deb_element name <$> matches a (iface_named name).

Definition deb_has (key name : string) : bool :=
  0 <? Z.of_nat (length (matches a (network_interfaces_path +:+ "/iface[. = '" +:+ name +:+ "' and count(./" +:+ key +:+ ")> 0]"))).

Definition slaves_of_bond (name : string) : list string := deps_at a (iface_named name +:+ "/" +:+ "bond_slaves").
Definition ports_of_bridge (name : string) : list string := deps_at a (iface_named name +:+ "/" +:+ "bridge_ports").

Definition bond_elements (name : string) : list xtree := mjoin (deb_elements <$> slaves_of_bond name).
Definition port_elements (port : string) : list xtree := deb_elements port ++ bond_elements port.

(** What belongs to the interface; a bridge with slaves is taken for a bond. *)
Definition below_elements (name : string) : list xtree :=
  if deb_has "bond_slaves" name then bond_elements name
  else if deb_has "bridge_ports" name then mjoin (port_elements <$> ports_of_bridge name)
  else [].

(** Is there an array of the interfaces that are started at boot? The interface is put
    into it whether it is one of them or not. *)
Definition auto_arrays (name : string) : list xtree :=
  match matches a (network_interfaces_path +:+ "/" +:+ "auto") with
  | [] => []
  | _ => [Elem "array" (<["label" := "auto"]> ∅)
            [Elem "element" ∅ [Elem "node" (<["value" := name]> ∅) []]]]
  end.

Definition deb_forest (name : string) : xtree :=
  Elem "forest" ∅
    [Elem "tree" (<["path" := network_interfaces_path]> ∅)
       (auto_arrays name ++
        [Elem "array" (<["label" := "iface"]> ∅) (deb_elements name ++ below_elements name)])].

(** The queries for the stanzas of an interface are answered, and their settings can be
    read; likewise for the slaves of a bond and the ports of a bridge. *)
Record stanzas_ok (name : string) : Prop := {
  so_named : answers a (iface_named name);
  so_settings p : p ∈ matches a (iface_named name) -> answers a (p +:+ "/" +:+ "*");
  so_readable p m : p ∈ matches a (iface_named name) -> m ∈ matches a (p +:+ "/" +:+ "*") -> 0 <= (aug_get m a).1
}.

Definition slaves_ok (name : string) : Prop :=
  deps_ok a (iface_named name +:+ "/" +:+ "bond_slaves") /\
  forall n, n ∈ slaves_of_bond name -> stanzas_ok n.

Definition ports_ok (name : string) : Prop :=
  deps_ok a (iface_named name +:+ "/" +:+ "bridge_ports") /\
  forall n, n ∈ ports_of_bridge name -> stanzas_ok n /\ slaves_ok n.

(** All that is asked to describe the interface *)
Record describable (name : string) : Prop := {
  de_auto : answers a (network_interfaces_path +:+ "/" +:+ "auto");
  de_bond : answers a (network_interfaces_path +:+ "/iface[. = '" +:+ name +:+ "' and count(./" +:+ "bond_slaves" +:+ ")> 0]");
  de_bridge : answers a (network_interfaces_path +:+ "/iface[. = '" +:+ name +:+ "' and count(./" +:+ "bridge_ports" +:+ ")> 0]");
  de_stanzas : stanzas_ok name;
  de_slaves : slaves_ok name;
  de_ports : ports_ok name
}.
End reference.

(** ** The code *)

Section code.
Context `{Augeas, !Kernel, !Netlink, !Libxml, !Posix, !DebianConfig, !XmlBuild _}.
Context (d : driver) (a : aug).

Lemma deb_element_run arr name path s : ready d a s -> alive arr (xml s) ->
  answers a (path +:+ "/" +:+ "*") -> (forall m, m ∈ matches a (path +:+ "/" +:+ "*") -> 0 <= (aug_get m a).1) ->
  hangs (element ← xcall (xmlNewChild (Some arr) "element");
         xcall (xmlNewProp element "key" (Some name)) ;;
         m ← aug_fmt_match (path +:+ "/" +:+ "*");
         ERR_COND_BAIL (nmatches m <? 0) NETCF_EOTHER ;;
         for_each (matched m) (aug_get_xml_node element path)) s tt arr [deb_element a name path].
Proof.
  intros Hs Harr Hq Hget. apply (hangs_child_prop arr "element" "key" (Some name)); [done|set_solver|]. intros n x Hn.
  pose proof (ready_xml d a s x Hs) as Hs2. eapply hangs_pure; [apply (ready_fmt_match d a _ Hs2 _ Hq)|].
  cbn [nmatches]. rewrite (proj2 (Z.ltb_ge _ 0)) by lia. eapply hangs_pure; [apply (ready_cond _ _ _ Hs2)|].
  apply (get_nodes_run d a path n); [exact Hget|by apply ready_xml|done].
Qed.

Lemma deb_elements_run arr name s : ready d a s -> alive arr (xml s) -> stanzas_ok a name ->
  hangs (aug_get_xml_for_intf (Some arr) name) s 0 arr (deb_elements a name).
Proof.
  intros Hs Harr [Hq Hqs Hget]. unfold aug_get_xml_for_intf. apply hangs_on_error.
  eapply hangs_pure; [apply (ready_get _ _ _ Hs)|]. eapply hangs_pure; [apply (ready_bail _ _ _ Hs)|].
  eapply hangs_pure; [apply (ready_fmt_match d a s Hs _ Hq)|].
  eapply hangs_pure; [apply (ready_bail _ _ _ Hs)|]. cbn [matched default id].
  destruct (hung_for_each arr (ready d a) (fun path =>
       element ← xcall (xmlNewChild (Some arr) "element");
       xcall (xmlNewProp element "key" (Some name)) ;;
       m ← aug_fmt_match (path +:+ "/" +:+ "*");
       ERR_COND_BAIL (nmatches m <? 0) NETCF_EOTHER ;;
       for_each (matched m) (aug_get_xml_node element path)) (fun path => [deb_element a name path])
     (matches a (iface_named name))) with (s := s) as (x & Hrun & Hh);
    [intros ? ?; apply ready_xml|intros path s' Hp Hs' Harr'; apply deb_element_run; eauto|done|done|].
  exists x. rewrite mjoin_singletons in Hh. split; [|done]. by rewrite (bind_Ret _ _ _ _ _ Hrun).
Qed.

(** Whatever is done for each name after its own stanzas *)
Lemma deb_each_run arr more f l s :
  (forall n s', n ∈ l -> ready d a s' -> alive arr (xml s') -> hangs (more n) s' tt arr (f n)) ->
  (forall n, n ∈ l -> stanzas_ok a n) -> ready d a s -> alive arr (xml s) ->
  hangs (get_each (Some arr) (Some (Some <$> l)) more) s tt arr (mjoin ((fun n => deb_elements a n ++ f n) <$> l)).
Proof.
  intros Hmore Hok Hs Harr. unfold get_each. cbn [default id].
  assert (Hb : forall o s', o ∈ (Some <$> l) -> ready d a s' -> alive arr (xml s') ->
    hangs (name ← deref o; aug_get_xml_for_intf (Some arr) name ;; ERR_BAIL ;; more name) s' tt arr
      (from_option (fun n => deb_elements a n ++ f n) [] o)).
  { intros o s' (n & -> & Hn)%list_elem_of_fmap Hs' Harr'. eapply hangs_pure; [done|].
    eapply hangs_bind; [done|by apply deb_elements_run; auto|]. intros x Hx. pose proof (ready_xml d a s' x Hs') as Hs2.
    eapply hangs_pure; [apply (ready_bail _ _ _ Hs2)|]. by apply Hmore. }
  destruct (hung_for_each arr (ready d a) _ _ _ (fun s x => ready_xml d a s x) Hb s Hs Harr) as (x & Hrun & Hh).
  exists x. split; [done|]. by rewrite <- list_fmap_compose in Hh.
Qed.

Lemma bond_slaves_run name s : ready d a s -> deps_ok a (iface_named name +:+ "/" +:+ "bond_slaves") ->
  bond_slaves name s = (Ret (Some (Some <$> slaves_of_bond a name)), s).
Proof.
  intros Hs Hok. unfold slaves_of_bond. rewrite <- (interface_deps_run d a s Hs _ Hok). unfold bond_slaves, iface_named.
  change "']/bond_slaves" with ("']" +:+ "/" +:+ "bond_slaves"). by rewrite !string_app_assoc.
Qed.

Lemma bridge_ports_run name s : ready d a s -> deps_ok a (iface_named name +:+ "/" +:+ "bridge_ports") ->
  bridge_ports name s = (Ret (Some (Some <$> ports_of_bridge a name)), s).
Proof.
  intros Hs Hok. unfold ports_of_bridge. rewrite <- (interface_deps_run d a s Hs _ Hok). unfold bridge_ports, iface_named.
  change "']/bridge_ports" with ("']" +:+ "/" +:+ "bridge_ports"). by rewrite !string_app_assoc.
Qed.

Lemma deb_slaves_run arr name s : ready d a s -> alive arr (xml s) -> slaves_ok a name ->
  hangs (get_slaves (Some arr) name) s tt arr (bond_elements a name).
Proof.
  intros Hs Harr [Hok Hall]. unfold get_slaves.
  eapply hangs_pure; [by apply bond_slaves_run|].
  eapply hangs_pure; [apply (ready_bail _ _ _ Hs)|].
  destruct (deb_each_run arr (fun _ => ret tt) (fun _ => []) (slaves_of_bond a name) s) as (x & Hrun & Hh); [|exact Hall|done|done|].
  - intros. apply hangs_nothing.
  - exists x. split; [done|]. unfold bond_elements.
    rewrite (list_fmap_ext (deb_elements a) (fun n => deb_elements a n ++ [])); [done|]. intros. by rewrite app_nil_r.
Qed.

Lemma deb_ports_run arr name s : ready d a s -> alive arr (xml s) -> ports_ok a name ->
  hangs (get_ports (Some arr) name) s tt arr (mjoin (port_elements a <$> ports_of_bridge a name)).
Proof.
  intros Hs Harr [Hok Hall]. unfold get_ports.
  eapply hangs_pure; [by apply bridge_ports_run|].
  eapply hangs_pure; [apply (ready_bail _ _ _ Hs)|].
  apply (deb_each_run arr (get_slaves (Some arr)) (bond_elements a)); [|by apply Hall|done|done].
  intros n s' Hn Hs' Harr'. apply deb_slaves_run; [done..|]. by apply Hall.
Qed.

(** ** The whole of it *)

Lemma deb_has_run key name s (m : prog state bool) : ready d a s ->
  answers a (network_interfaces_path +:+ "/iface[. = '" +:+ name +:+ "' and count(./" +:+ key +:+ ")> 0]") ->
  m = (o ← aug_fmt_match (network_interfaces_path +:+ "/iface[. = '" +:+ name +:+ "' and count(./" +:+ key +:+ ")> 0]");
       ret (0 <? nmatches o)) ->
  m s = (Ret (deb_has a key name), s).
Proof.
  intros Hs Hq ->. by rewrite (bind_Ret _ _ _ _ _ (ready_fmt_match d a s Hs _ Hq)).
Qed.

Lemma deb_below_run arr name s : ready d a s -> alive arr (xml s) -> describable a name ->
  hangs (bond ← is_bond name;
         if (bond : bool) then get_slaves (Some arr) name
         else bridge ← is_bridge name; when bridge (get_ports (Some arr) name)) s tt arr (below_elements a name).
Proof.
  intros Hs Harr [_ Hq1 Hq2 _ Hsl Hpo]. unfold below_elements.
  eapply hangs_pure; [by apply (deb_has_run "bond_slaves")|]. destruct (deb_has a "bond_slaves" name); [by apply deb_slaves_run|].
  eapply hangs_pure; [by apply (deb_has_run "bridge_ports")|]. destruct (deb_has a "bridge_ports" name); [by apply deb_ports_run|].
  apply hangs_nothing.
Qed.

Lemma deb_auto_run tree name s : ready d a s -> alive tree (xml s) ->
  hangs (when (negb (nmatches (Some (matches a (network_interfaces_path +:+ "/" +:+ "auto"))) =? 0))
    (array ← xcall (xmlNewChild (Some tree) "array");
     xcall (xmlNewProp array "label" (Some "auto")) ;;
     element ← xcall (xmlNewChild array "element");
     n ← xcall (xmlNewChild element "node");
     xcall (xmlNewProp n "value" (Some name)) ;;
     ret tt)) s tt tree (auto_arrays a name).
Proof.
  intros Hs Ht. unfold auto_arrays. destruct (matches a _) as [|m l]; [apply hangs_nothing|]. cbn [nmatches].
  rewrite (proj2 (Z.eqb_neq _ 0)) by (cbn [length]; lia). cbn [negb when].
  apply (hangs_child_prop tree "array" "label" (Some "auto")); [done|set_solver|]. intros arr x Harr.
  apply (hangs_child arr "element"); [done|set_solver|]. intros el x' Hel.
  apply (hangs_child_prop el "node" "value" (Some name)); [done|set_solver|]. intros n x'' _. apply hangs_nothing.
Qed.

Lemma deb_iface_run tree name result s : ready d a s -> alive tree (xml s) -> describable a name ->
  hangs (array ← xcall (xmlNewChild (Some tree) "array");
    xcall (xmlNewProp array "label" (Some "iface")) ;;
    aug_get_xml_for_intf array name ;;
    on_error
      (bond ← is_bond name;
       (if (bond : bool) then get_slaves array name
        else bridge ← is_bridge name; when bridge (get_ports array name)) ;;
       ERR_BAIL ;;
       ret result)
      (free_doc result ;; ret None)) s result tree
    [Elem "array" (<["label" := "iface"]> ∅) (deb_elements a name ++ below_elements a name)].
Proof.
  intros Hs Ht Hok. apply (hangs_child_prop tree "array" "label" (Some "iface")); [done|set_solver|]. intros arr x Harr.
  pose proof (ready_xml d a s x Hs) as Hs2. eapply hangs_bind; [done|apply deb_elements_run; [done..|by apply de_stanzas]|]. intros x' Harr'.
  apply hangs_on_error. destruct (deb_below_run arr name (set_xml x' (set_xml x s))) as (x3 & Hrun & Hh);
    [by apply ready_xml|done|done|]. exists x3. split; [|done]. rewrite <- bind_assoc, (bind_Ret _ _ _ _ _ Hrun).
  by rewrite (bind_Ret _ _ _ _ _ (ready_bail _ _ _ (ready_xml d a s x3 Hs))).
Qed.

Lemma deb_get_xml_run p nif s : ready d a s -> ifs s !! p = Some nif -> describable a (nif_name nif) ->
  exists dd f x, aug_get_xml p s = (Ret (Some dd), set_xml x s) /\ xmlDocGetRootElement (Some dd) x = Some f /\
    reps x (fun m => alive m x) f (deb_forest a (nif_name nif)).
Proof.
  intros Hs Hp Hok. destruct (new_document "forest" (xml s) ltac:(set_solver)) as (dd & f & x1 & x2 & x3 & Hnew & Hnode & Hset & Hroot & Hne3).
  pose proof (ne_alive _ _ _ _ Hne3) as Hf3. set (name := nif_name nif).
  assert (Htree : hangs (tree ← xcall (xmlNewChild (Some f) "tree");
    xcall (xmlNewProp tree "path" (Some network_interfaces_path)) ;;
    m ← aug_fmt_match (network_interfaces_path +:+ "/" +:+ "auto");
    when (negb (nmatches m =? 0))
      (array ← xcall (xmlNewChild tree "array");
       xcall (xmlNewProp array "label" (Some "auto")) ;;
       element ← xcall (xmlNewChild array "element");
       n ← xcall (xmlNewChild element "node");
       xcall (xmlNewProp n "value" (Some name)) ;;
       ret tt) ;;
    array ← xcall (xmlNewChild tree "array");
    xcall (xmlNewProp array "label" (Some "iface")) ;;
    aug_get_xml_for_intf array name ;;
    on_error
      (bond ← is_bond name;
       (if (bond : bool) then get_slaves array name
        else bridge ← is_bridge name; when bridge (get_ports array name)) ;;
       ERR_BAIL ;;
       ret (Some dd))
      (free_doc (Some dd) ;; ret None)) (set_xml x3 s) (Some dd) f
    [Elem "tree" (<["path" := network_interfaces_path]> ∅)
       (auto_arrays a name ++ [Elem "array" (<["label" := "iface"]> ∅) (deb_elements a name ++ below_elements a name)])]).
  { apply (hangs_child_prop f "tree" "path" (Some network_interfaces_path)); [done|set_solver|]. intros t x Ht.
    pose proof (ready_xml d a s x Hs) as Hs2. eapply hangs_pure; [apply (ready_fmt_match d a _ Hs2 _ (de_auto a _ Hok))|].
    eapply hangs_bind; [done|by apply deb_auto_run|]. intros x' Ht'. apply deb_iface_run; [|done|done].
    by apply (ready_xml d a s). }
  destruct Htree as (x & Hrun & Hh). exists dd, f, x. split; [|split; [by apply Hh|]].
  - unfold aug_get_xml. rewrite (bind_Ret _ _ _ _ _ (if_name_ret s p nif Hp)).
    rewrite (bind_Ret _ _ _ _ _ (xcall_run _ s _ _ Hnew)).
    rewrite (bind_Ret _ _ _ _ _ (xcall_run _ (set_xml x1 s) _ _ Hnode)), set_xml_set.
    rewrite (bind_Ret (xcall _) _ (set_xml x2 s) tt (set_xml x3 s)) by (by rewrite Hset). exact Hrun.
  - apply (built_reps x3); [done|]. apply (built_hung x3 f x3 x "forest" ∅ []); [done| |exact Hh]. by apply built_new.
Qed.
End code.

(** ** A bridge with a port *)

Definition toy_bridge : toy_aug :=
  let i n := network_interfaces_path +:+ "/iface[" +:+ n +:+ "]" in
  {| t_match :=
       [(network_interfaces_path +:+ "/auto", [network_interfaces_path +:+ "/auto"]);
        (network_interfaces_path +:+ "/iface[. = 'br0']", [i "1"]);
        (network_interfaces_path +:+ "/iface[. = 'eth0']", [i "2"]);
        (network_interfaces_path +:+ "/iface[. = 'br0' and count(./bridge_ports)> 0]", [i "1"]);
        (network_interfaces_path +:+ "/iface[. = 'br0']/bridge_ports", [i "1" +:+ "/bridge_ports"]);
        (i "1" +:+ "/*", [i "1" +:+ "/method"; i "1" +:+ "/bridge_ports"]);
        (i "2" +:+ "/*", [i "2" +:+ "/method"])];
     t_value :=
       [(i "1", "br0"); (i "2", "eth0"); (i "1" +:+ "/method", "dhcp"); (i "1" +:+ "/bridge_ports", "eth0");
        (i "2" +:+ "/method", "manual"); (network_interfaces_path +:+ "/auto", "")];
     t_ops := [] |}.

Lemma toy_bridge_valued p m : m ∈ matches (H0 := toy_augeas) toy_bridge p -> valued (H0 := toy_augeas) toy_bridge m.
Proof. apply toy_valued. repeat constructor; vm_compute; eexists; reflexivity. Defined.

Lemma toy_readable (t : toy_aug) m : 0 <= (aug_get (Augeas := toy_augeas) m t).1.
Proof. cbn. by destruct (assoc _ _). Defined.

(** The paths of the nodes that the toy tree has *)
Lemma toy_stanzas n : n = "br0" \/ n = "eth0" -> stanzas_ok (H0 := toy_augeas) toy_bridge n.
Proof.
  intros [-> | ->]; (split; [by apply toy_answers| |intros p m _ _; apply toy_readable]);
    intros p Hp; vm_compute in Hp; apply list_elem_of_singleton in Hp as ->; by apply toy_answers.
Defined.

Lemma toy_describable : describable (H0 := toy_augeas) toy_bridge "br0".
Proof.
  split.
  - by apply toy_answers.
  - by apply toy_answers.
  - by apply toy_answers.
  - by apply toy_stanzas; left.
  - split; [split; [by apply toy_answers|intros m; apply toy_bridge_valued]|].
    intros n Hn. vm_compute in Hn. by apply not_elem_of_nil in Hn.
  - split; [split; [by apply toy_answers|intros m; apply toy_bridge_valued]|].
    intros n Hn. vm_compute in Hn. apply list_elem_of_singleton in Hn as ->.
    split; [by apply toy_stanzas; right|].
    split; [split; [by apply toy_answers|intros m; apply toy_bridge_valued]|].
    intros n Hn. vm_compute in Hn. by apply not_elem_of_nil in Hn.
Defined.

Definition toy_br0 : netcf_if := {| nif_ref := 1; nif_name := "br0"; nif_mac := None |}.
Definition toy_bridge_state : state (H := toy_host) := set_ifs (H := toy_host) {[ 0%nat := toy_br0 ]} (toy_state toy_os toy_bridge).

(** ** Properties *)

(** C35: the document that describes an interface of Debian has the stanzas of the
    interface with all their settings, followed, for a bond, by the stanzas of its
    slaves and, for a bridge, by those of its ports, each with the slaves of the port;
    when the file has an array of interfaces that are started at boot the name is put
    there. *)
Theorem deb_describes `{Augeas, !Kernel, !Netlink, !Libxml, !Posix, !DebianConfig, !XmlBuild _}
  (d : driver) (a : aug) (s : state) (p : nat) (nif : netcf_if)
  (Hs : ready d a s) (Hp : ifs s !! p = Some nif) (Hok : describable a (nif_name nif)) :
  exists dd f x, aug_get_xml p s = (Ret (Some dd), set_xml x s) /\ xmlDocGetRootElement (Some dd) x = Some f /\
    reps x (fun m => alive m x) f (deb_forest a (nif_name nif)).
Proof. by apply (deb_get_xml_run d a). Qed.

Lemma deb_describes_witness :
  exists dd f x, aug_get_xml (H0 := toy_augeas) 0 toy_bridge_state = (Ret (Some dd), set_xml x toy_bridge_state) /\
    xmlDocGetRootElement (Libxml := toy_libxml) (Some dd) x = Some f /\
    reps (H0 := toy_libxml) x (fun m => alive m x) f
      (Elem "forest" ∅ [Elem "tree" (<["path" := network_interfaces_path]> ∅)
        [Elem "array" (<["label" := "auto"]> ∅) [Elem "element" ∅ [Elem "node" (<["value" := "br0"]> ∅) []]];
         Elem "array" (<["label" := "iface"]> ∅)
          [Elem "element" (<["key" := "br0"]> ∅)
            [Elem "node" (<["value" := "dhcp"]> (<["label" := "method"]> ∅)) [];
             Elem "node" (<["value" := "eth0"]> (<["label" := "bridge_ports"]> ∅)) []];
           Elem "element" (<["key" := "eth0"]> ∅)
            [Elem "node" (<["value" := "manual"]> (<["label" := "method"]> ∅)) []]]]]).
Proof.
  exact (@deb_describes toy_host toy_augeas toy_kernel toy_netlink toy_libxml toy_posix toy_debian toy_build
    (toy_driver toy_bridge) toy_bridge toy_bridge_state 0 toy_br0 ltac:(split; try reflexivity; intros _; reflexivity)
    eq_refl toy_describable).
Defined.
