(* ===== verification/Suse.v ===== *)
(** * The driver for SuSE (drv_suse.c)

    Interfaces are [ifcfg-*] files under /etc/sysconfig/network. They are listed by
    reading the directory and changed through Augeas; addresses of physical
    interfaces live in the rules of udev and the default route in a file of its own.
    Functions whose text is that of drv_redhat.c are the definitions of [Redhat]. *)

From S2P Require Import Prelude CStr XsltExt State Refs Toy Posix Xml Netcf Linux Common Redhat RedhatSpec RedhatSave AugDriver.

(** The build, what the caller's stack holds (see [Redhat.slaves_loop]), and the
    directory as [readdir] shows it: names, and whether they are regular files. *)
Class SuseConfig `{Host} := {
  OS113 : bool;
  suse_stack_null : nat -> bool;
  opendir : string -> sys -> option (list (string * bool))
}.

(** NETCF_TRANSACTION is [/bin/false]. *)
#[global] Instance suse_redhat_config `{SuseConfig} : RedhatConfig :=
  {| NETCF_TRANSACTION := "/bin/false"; stack_word_null := suse_stack_null |}.

Definition NETRULE_PATH : string := "/etc/udev/rules.d/70-persistent-net.rules".
Definition aug_files : string := "/files".
Definition network_scripts_path : string := "/etc/sysconfig/network".
Definition ifcfg_path : string := "/files/etc/sysconfig/network/*".
Definition udev_netrule_path : string := NETRULE_PATH.
Definition ifcfg_prefix : string := "ifcfg-".

Definition augeas_xfm_common_pv : list augeas_pv :=
  [pv "/augeas/load/Persist_Net_Rules/lens" "Persist_Net_Rules.lns";
   pv "/augeas/load/Persist_Net_Rules/incl" NETRULE_PATH;
   pv "/augeas/load/Persist_Net_Rules/excl[1]" "*.augnew";
   pv "/augeas/load/Persist_Net_Rules/excl[2]" "*.augsave";
   pv "/augeas/load/Persist_Net_Rules/excl[3]" "*.rpmsave";
   pv "/augeas/load/Persist_Net_Rules/excl[4]" "*.rpmnew";
   pv "/augeas/load/Persist_Net_Rules/excl[5]" "*~";
   pv "/augeas/load/Routes/lens" "Routes.lns";
   pv "/augeas/load/Routes/incl" "/etc/sysconfig/network/routes";
   pv "/augeas/load/Routes/excl[1]" "*.augnew";
   pv "/augeas/load/Routes/excl[2]" "*.augsave";
   pv "/augeas/load/Routes/excl[3]" "*.rpmsave";
   pv "/augeas/load/Routes/excl[4]" "*.rpmnew";
   pv "/augeas/load/Routes/excl[5]" "*~";
   pv "/augeas/load/Ifcfg/lens" "Sysconfig.lns";
   pv "/augeas/load/Ifcfg/incl" "/etc/sysconfig/network/ifcfg-*";
   pv "/augeas/load/Ifcfg/excl[1]" "*~";
   pv "/augeas/load/Ifcfg/excl[2]" "*.bak";
   pv "/augeas/load/Ifcfg/excl[3]" "*.orig";
   pv "/augeas/load/Ifcfg/excl[4]" "*.rpmnew";
   pv "/augeas/load/Ifcfg/excl[5]" "*.rpmorig";
   pv "/augeas/load/Ifcfg/excl[6]" "*.rpmsave";
   pv "/augeas/load/Ifcfg/excl[7]" "*.augnew";
   pv "/augeas/load/Ifcfg/excl[8]" "*.augsave";
   pv "/augeas/load/Modprobe/lens" "Modprobe.lns";
   pv "/augeas/load/Modprobe/incl[1]" "/etc/modprobe.d/*";
   pv "/augeas/load/Modprobe/incl[2]" "/etc/modprobe.conf";
   pv "/augeas/load/Modprobe/excl[1]" "*.augnew";
   pv "/augeas/load/Modprobe/excl[2]" "*.augsave";
   pv "/augeas/load/Modprobe/excl[3]" "*.rpmsave";
   pv "/augeas/load/Modprobe/excl[4]" "*.rpmnew";
   pv "/augeas/load/Modprobe/excl[5]" "*~";
   pv "/augeas/load/Sysfs/lens" "Netcf.id";
   pv "/augeas/load/Sysfs/incl" "/sys/class/net/*/address"].

Definition augeas_xfm_common : augeas_xfm_table :=
  {| xfm_id := 0; xfm_pv := augeas_xfm_common_pv |}.

Definition subif_paths : list string := ["BONDING_MASTER"; "BRIDGE"].

(** The entries of the directory that are ifcfg files, without their prefix *)
Definition ifcfg_name (ent : string * bool) : option string :=
  if (ent.2 : bool) && has_prefix "ifcfg-" ent.1
  then Some (string_drop (String.length "ifcfg-") ent.1) else None.

Section suse.
Context `{Augeas, !Kernel, !Netlink, !Libxml, !Posix, !SuseConfig}.

(** ** Slaves and config files *)

Fixpoint is_slave_loop (paths : list string) (intf : string) : M Z :=
  match paths with
  | [] => ret 0
  | p :: paths' =>
      m ← aug_fmt_match (aug_files +:+ network_scripts_path +:+ "/ifcfg-" +:+ intf +:+ "/" +:+ p);
      if negb (nmatches m =? 0) then ret (nmatches m) else is_slave_loop paths' intf
  end.

Definition is_slave (intf : string) : M Z := is_slave_loop subif_paths intf.

(** On an error the number of matches is not positive. *)
Definition has_ifcfg_file (name : string) : M bool :=
  on_error
    (get_augeas ;;
     ERR_BAIL ;;
     opath ← xasprintf (aug_files +:+ "/" +:+ network_scripts_path +:+ "/ifcfg-" +:+ name);
     path ← nonnull opath;
     m ← ask_aug (aug_match path);
     ERR_COND_BAIL (nmatches m <? 0) NETCF_EOTHER ;;
     ret (0 <? nmatches m))
    (ret false).

(** The array of one name and the number 1, or -1 when there is no such file. The
    array is not there when the directory cannot be opened or memory is short, and
    is used all the same. *)
Definition find_ifcfg_file_by_name (name : string) : M (Z * list (option string)) :=
  dp ← gets (fun s => opendir network_scripts_path (world s));
  match dp with
  | None => set_errcode NETCF_EOTHER ;; halt (UB "NULL pointer")
  | Some entries =>
      b ← ALLOC_N 1;
      on_error
        (for_acc entries (-1, if b then [None] else []) (fun ent acc =>
           match ifcfg_name ent with
           | None => ret acc
           | Some n =>
               if (String.length n =? String.length name)%nat
                  && STREQLEN n name (String.length name) then
                 if negb b then halt (UB "NULL pointer") else
                 o ← xasprintf n;
                 ERR_NOMEM (is_null o) ;;
                 ret (1, [o])
               else ret acc
           end))
        (ret (-1, []))
  end.

(** [None] is the result -1. The label for errors goes through an array that is not
    there when the directory cannot be opened or memory is short. *)
Definition find_ifcfg_files : M (option (list (option string))) :=
  dp ← gets (fun s => opendir network_scripts_path (world s));
  match dp with
  | None => set_errcode NETCF_EOTHER ;; halt (UB "NULL pointer")
  | Some entries =>
      let names := omap ifcfg_name entries in
      b ← ALLOC_N (length names);
      if negb b then set_errcode NETCF_ENOMEM ;; halt (UB "NULL pointer") else
      on_error
        (intf ← for_map names (fun n =>
           o ← xasprintf n;
           nonnull o);
         ret (Some (Some <$> qsort_strings intf)))
        (ret None)
  end.

(** The result and [*addr]: an address for exactly one rule. *)
Definition find_hwaddr_by_device (name : string) : M (Z * option string) :=
  on_error
    (get_augeas ;;
     ERR_BAIL ;;
     m ← aug_fmt_match (aug_files +:+ "/" +:+ udev_netrule_path +:+ "/*[ NAME = '" +:+ name +:+ "']");
     ERR_COND_BAIL (nmatches m <? 0) NETCF_EOTHER ;;
     match matched m with
     | [rule] =>
         opath ← xasprintf (rule +:+ "/" +:+ "ATTR{address}");
         path ← nonnull opath;
         ' (_, addr) ← ask_aug (aug_get path);
         ret (1, addr)
     | _ => ret (0, None)
     end)
    (ret (0, None)).

Definition find_ifcfg_path (name : string) : M (option string) :=
  on_error
    (get_augeas ;;
     ERR_BAIL ;;
     opath ← xasprintf (aug_files +:+ "/" +:+ network_scripts_path +:+ "/ifcfg-" +:+ name);
     path ← nonnull opath;
     m ← ask_aug (aug_match path);
     ERR_COND_BAIL (nmatches m <? 0) NETCF_EOTHER ;;
     ret (if nmatches m =? 1 then Some path else None))
    (ret None).

(** ** Listing and lookup *)

Definition list_interfaces : M (option (list (option string))) :=
  on_error
    (get_augeas ;;
     ERR_BAIL ;;
     ointf ← find_ifcfg_files;
     ERR_BAIL ;;
     let intf := default [] ointf in
     ' (result, intf) ← filter_slaves (fun n => r ← is_slave n; ret (negb (r =? 0)))
                          (fun _ => length intf) (length intf) 0 (length intf) intf;
     ret (Some (take result intf)))
    (ret None).

Definition list_interface_ids (maxnames : Z) (names : option (list (option string)))
  (flags : Z) : M (Z * option (list (option string))) :=
  on_error
    (get_augeas ;;
     ERR_BAIL ;;
     ointf ← list_interfaces;
     ERR_BAIL ;;
     let intf := default [] ointf in
     let maxnames := if is_null names then Z.of_nat (length intf) else maxnames in
     name_ids flags intf maxnames 0 names)
    (ret (-1, names)).

Definition drv_list_interfaces (maxnames flags : Z) : M (Z * list (option string)) :=
  ' (r, names) ← list_interface_ids maxnames (Some (replicate (Z.to_nat maxnames) None)) flags;
  ret (r, default [] names).

Definition drv_num_of_interfaces (flags : Z) : M Z :=
  ' (r, _) ← list_interface_ids 0 None flags;
  ret r.

Definition drv_lookup_by_name (name : string) : M (option nat) :=
  on_error
    (get_augeas ;;
     ERR_BAIL ;;
     pathx ← find_ifcfg_path name;
     ERR_BAIL ;;
     match pathx with
     | None => ret None
     | Some _ =>
         s ← is_slave name;
         if negb (s =? 0) then ret None else
         odup ← strdup name;
         name_dup ← nonnull odup;
         new_nif name_dup
     end)
    (ret None).

(** The names that have a config file and are not slaves. What is handed to
    [is_slave] is a path, not a name. *)
Definition mac_step (m : string) (names : list string) : M (list string) :=
  h ← has_ifcfg_file m;
  if negb h then ret names else
  oifcfg ← xasprintf (ifcfg_path +:+ "[DEVICE = '" +:+ m +:+ "']");
  ifcfg ← nonnull oifcfg;
  s ← is_slave ifcfg;
  ret (if s =? 0 then names ++ [m] else names).

Definition drv_lookup_by_mac_string (mac : string) (maxifaces : Z) : M (Z * list (option nat)) :=
  if maxifaces <? 0 then halt (UB "memset of a negative size") else
  let ifaces := replicate (Z.to_nat maxifaces) None in
  on_error
    (get_augeas ;;
     ERR_BAIL ;;
     om ← aug_match_mac mac;
     ERR_BAIL ;;
     let matches := matched om in
     if decide (length matches = O) then ret (0, ifaces) else
     b ← ALLOC_N (length matches);
     ERR_NOMEM (negb b) ;;
     names ← for_acc matches [] mac_step;
     ' (ok, ifaces') ← mac_ifaces names 0 maxifaces ifaces;
     if (ok : bool) then ret (Z.of_nat (length names), ifaces') else release_ifaces ifaces')
    (release_ifaces ifaces).
(** ** Initialisation: the root is not looked at *)

Definition drv_close : M unit := Redhat.drv_close.

Definition drv_init : M Z :=
  b ← malloc;
  if negb b then ret (-1) else
  modify (fun s => set_ncf (set_driver (Some new_driver) (ncf s)) s) ;;
  on_error
    (r ← add_augeas_xfm_table augeas_xfm_common;
     when (r <? 0) goto_error ;;
     g ← parse_stylesheet "suse-get.xsl";
     upd_driver (fun d => set_sheets g (put d) d) ;;
     p ← parse_stylesheet "suse-put.xsl";
     upd_driver (fun d => set_sheets (get d) p d) ;;
     ERR_BAIL ;;
     fd ← init_ioctl_fd;
     upd_driver (set_ioctl_fd fd) ;;
     when (fd <? 0) goto_error ;;
     r ← netlink_init;
     when (r <? 0) goto_error ;;
     ret 0)
    (drv_close ;; ret (-1)).

Definition drv_entry : M unit := Redhat.drv_entry.

(** ** XML *)

(** A [<node>] with a label and a value *)
Definition add_node (tree : option node) (label : string) (value : option string) : M unit :=
  n ← xcall (xmlNewChild tree "node");
  xcall (xmlNewProp n "label" (Some label)) ;;
  xcall (xmlNewProp n "value" value) ;;
  ret tt.

(** The node of the Augeas tree at [m], below the file of [intf]. *)
Definition aug_get_xml_node (tree : option node) (intf m : string) : M unit :=
  let pathoffset := (String.length aug_files + String.length network_scripts_path +
                     String.length ifcfg_prefix + 1)%nat in
  n ← xcall (xmlNewChild tree "node");
  xcall (xmlNewProp n "label" (Some (string_drop (pathoffset + String.length intf + 1) m))) ;;
  ' (r, value) ← ask_aug (aug_get m);
  ERR_COND_BAIL (r <? 0) NETCF_EOTHER ;;
  xcall (xmlNewProp n "value" value) ;;
  ret tt.

(** One interface: its file, its name, and its address if udev has a rule. *)
Definition aug_get_xml_tree (root : option node) (name : string) (nint : Z) (o : option string)
  : M unit :=
  tree ← xcall (xmlNewChild root "tree");
  xcall (xmlNewProp tree "path" o) ;;
  intf ← deref o;
  m ← aug_fmt_match (aug_files +:+ network_scripts_path +:+ "/ifcfg-" +:+ intf +:+ "/" +:+ "*");
  ERR_COND_BAIL (nint <? 0) NETCF_EOTHER ;;
  for_each (matched m) (aug_get_xml_node tree intf) ;;
  add_node tree "DEVICE" (Some name) ;;
  ' (r, mac) ← find_hwaddr_by_device name;
  when (0 <? r) (add_node tree "HWADDR" mac).

Definition aug_get_xml (nif : nat) (nint : Z) (intf : list (option string)) : M (option doc) :=
  name ← if_name nif;
  on_error
    (get_augeas ;;
     ERR_BAIL ;;
     result ← xcall xmlNewDoc;
     on_error
       (root ← xcall (xmlNewNode "forest");
        xcall (fun x => (tt, xmlDocSetRootElement result root x)) ;;
        for_each (take (Z.to_nat nint) intf) (aug_get_xml_tree root name nint) ;;
        ret result)
       (free_doc result ;; ret None))
    (ret None).

Definition aug_get_xml_for_nif (nif : nat) : M (option doc) :=
  name ← if_name nif;
  ' (nint, intf) ← find_ifcfg_file_by_name name;
  on_error
    (ERR_BAIL ;;
     aug_get_xml nif nint intf)
    (ret None).

(** [aug_set] of a path made with xasprintf *)
Definition put_path (path : string) (value : option string) : M unit :=
  olpath ← xasprintf path;
  lpath ← nonnull olpath;
  r ← with_aug (aug_set lpath value);
  ERR_THROW (r <? 0) NETCF_EOTHER ("aug_set of '" +:+ lpath +:+ "' failed").

(** What [aug_put_xml] learns from the nodes: DEVICE, HWADDR and GATEWAY, is the
    device a physical one, is it at top level? *)
Record facts := {
  device : option string;
  mac : option string;
  gateway : option string;
  ethphysical : bool;
  toplevel : bool
}.

Definition no_facts : facts :=
  {| device := None; mac := None; gateway := None; ethphysical := false; toplevel := true |}.

(** What a node says; [None] when it is to be put into the file. *)
Definition learn (label : string) (value : option string) (f : facts) : facts * bool :=
  let top := toplevel f && negb (STREQ label "BRIDGE" || STREQ label "BONDING_MASTER") in
  if STREQ label "DEVICE" then
    let v := default "" value in
    ({| device := value; mac := mac f; gateway := gateway f;
        ethphysical := ethphysical f || (is_null (strchr v ".") && has_prefix "eth" v);
        toplevel := top |}, false)
  else if STREQ label "HWADDR" then
    ({| device := device f; mac := value; gateway := gateway f; ethphysical := ethphysical f;
        toplevel := top |}, false)
  else if STREQ label "GATEWAY" then
    ({| device := device f; mac := mac f; gateway := value; ethphysical := ethphysical f;
        toplevel := top |}, false)
  else
    ({| device := device f; mac := mac f; gateway := gateway f; ethphysical := ethphysical f;
        toplevel := top |}, true).

Definition aug_put_node (path : string) (n : node) (f : facts) : M facts :=
  olabel ← xml_prop n "label";
  value ← xml_prop n "value";
  label ← deref olabel;
  when (STREQ label "DEVICE") (deref value ;; ret tt) ;;
  let '(f, put) := learn label value f in
  when put (put_path (path +:+ "/" +:+ label) value) ;;
  ret f.

Definition aug_put_tree (tree : node) (f : facts) : M facts :=
  tname ← xget (node_name tree);
  ERR_THROW (STRNEQ tname "tree") NETCF_EINTERNAL
    ("expected node labeled 'tree', not '" +:+ tname +:+ "'") ;;
  opath ← xml_prop tree "path";
  path ← deref opath;
  r ← with_aug (aug_rm path);
  ERR_THROW (r <? 0) NETCF_EINTERNAL ("aug_rm of '" +:+ path +:+ "' failed") ;;
  nodes ← xget (node_children tree);
  for_acc nodes f (aug_put_node path).

(** [mac = malloc(20); if (if_hwaddr(ncf, device, mac, 20)) mac = NULL] *)
Definition ask_hwaddr (device : string) : M (option string) :=
  b ← malloc;
  if negb b then halt (UB "NULL pointer") else
  ' (r, text) ← if_hwaddr device 20;
  ret (if r =? 0 then Some text else None).

Definition put_gateway (device gateway : string) : M unit :=
  let path k := aug_files +:+ network_scripts_path +:+ "/" +:+ "routes/default" +:+ "/" +:+ k in
  put_path (path "gateway") (Some gateway) ;;
  put_path (path "netmask") (Some "-") ;;
  put_path (path "device") (Some device).

Definition put_rule (device mac : string) : M unit :=
  let path k := aug_files +:+ udev_netrule_path +:+ "/" +:+ device +:+ "/" +:+ k in
  put_path (path "SUBSYSTEM") (Some "net") ;;
  put_path (path "ACTION") (Some "add") ;;
  put_path (path "DRIVERS") (Some "?*") ;;
  put_path (path "ATTR{address}") (Some mac) ;;
  when OS113 (put_path (path "ATTR{dev_id}") (Some "0x0")) ;;
  put_path (path "ATTR{type}") (Some "1") ;;
  put_path (path "KERNEL") (Some "eth*").

(** What is written outside the file of the interface: only for a physical
    interface at top level. *)
Definition put_facts (f : facts) : M unit :=
  match device f with
  | Some dev =>
      when (ethphysical f && toplevel f)
        (m ← match mac f with None => ask_hwaddr dev | Some m => ret (Some m) end;
         match gateway f with Some g => put_gateway dev g | None => ret tt end ;;
         match m with Some m => put_rule dev m | None => ret tt end)
  | None => ret tt
  end.

Definition aug_put_xml (xml : option doc) : M Z :=
  on_error
    (get_augeas ;;
     ERR_BAIL ;;
     oforest ← xget (xmlDocGetRootElement xml);
     ERR_THROW (is_null oforest) NETCF_EINTERNAL "missing root element" ;;
     forest ← nonnull oforest;
     fname ← xget (node_name forest);
     ERR_THROW (STRNEQ fname "forest") NETCF_EINTERNAL
       ("expected root node labeled 'forest', not '" +:+ fname +:+ "'") ;;
     trees ← xget (node_children forest);
     f ← for_acc trees no_facts aug_put_tree;
     put_facts f ;;
     ret 0)
    (ret (-1)).

Definition drv_xml_desc (nif : nat) : M (option string) :=
  aug_xml ← aug_get_xml_for_nif nif;
  result ← on_error
    (ERR_BAIL ;;
     d ← the_driver;
     apply_stylesheet_to_string (put d) aug_xml)
    (ret None);
  free_doc aug_xml ;;
  ret result.

Definition drv_xml_state (fuel : nat) (nif : nat) : M (option string) :=
  Redhat.drv_xml_state fuel nif.

Definition drv_if_status (nif : nat) (flags : bool) : M (Z * Z) := Redhat.drv_if_status nif flags.

Definition device_name_from_xml (ncf_xml : option doc) : M (option string) :=
  Redhat.device_name_from_xml ncf_xml.

(** ** Bonds and bridges *)

Definition is_bond (name : string) : M bool :=
  m ← aug_fmt_match (ifcfg_path +:+ "[ BONDING_MASTER = '" +:+ name +:+ "']");
  ret (0 <? nmatches m).

Definition is_bridge (name : string) : M bool :=
  m ← aug_fmt_match (aug_files +:+ network_scripts_path +:+ "/ifcfg-" +:+ name +:+ "[ BRIDGE = 'yes' ]");
  ret (0 <? nmatches m).

(** With the loop of the Red Hat driver, which does not check the copies. *)
Definition bridge_slaves (name : string) : M (option (list (option string))) :=
  on_error
    (get_augeas ;;
     ERR_BAIL ;;
     m ← aug_fmt_match (ifcfg_path +:+ "[ BRIDGE = '" +:+ name +:+ "' ]/DEVICE");
     ERR_BAIL ;;
     slaves ← slaves_loop 0 (matched m);
     ret (Some slaves))
    (ret None).

(** The rules of udev are removed from the last to the first, whatever comes of it. *)
Definition rm_interface (name : string) : M unit :=
  on_error
    (get_augeas ;;
     ERR_BAIL ;;
     opath ← xasprintf (aug_files +:+ "/" +:+ network_scripts_path +:+ "/ifcfg-" +:+ name);
     path ← nonnull opath;
     r ← with_aug (aug_rm path);
     ERR_COND_BAIL (r <? 0) NETCF_EOTHER ;;
     rules ← aug_fmt_match (aug_files +:+ "/" +:+ udev_netrule_path +:+ "/" +:+ name);
     ERR_COND_BAIL (nmatches rules <? 0) NETCF_EINTERNAL ;;
     for_each (rev (matched rules)) (fun rule => with_aug (aug_rm rule) ;; ret tt))
    (ret tt).

Definition rm_all_interfaces (ncf_xml : option doc) : M unit :=
  on_error
    (context ← xget (xmlXPathNewContext ncf_xml);
     ERR_NOMEM (negb context) ;;
     obj ← xget (xpath_nodes "//interface" ncf_xml);
     ns ← nonnull obj;
     for_each ns (fun n =>
       oname ← xget (xmlGetProp n "name");
       name ← nonnull oname;
       rm_interface name ;;
       ERR_BAIL))
    (ret tt).

Definition bond_setup (name : string) (alias : bool) : M unit :=
  on_error
    (b ← is_bond name;
     when b (setup alias name ;; ERR_BAIL) ;;
     br ← is_bridge name;
     when br
       (oslaves ← bridge_slaves name;
        ERR_BAIL ;;
        for_each (default [] oslaves) (fun s =>
          slave ← deref s;
          b ← is_bond slave;
          when b (setup alias slave ;; ERR_BAIL))))
    (ret tt).

(** ** Changing the configuration *)

(** [drv_define] from the transformed document on. *)
Definition define_aug (name : string) (aug_xml : option doc) : M (option nat) :=
  on_error
    (ERR_BAIL ;;
     aug_put_xml aug_xml ;;
     ERR_BAIL ;;
     bond_setup name true ;;
     ERR_BAIL ;;
     r ← save_augeas;
     dbg ← gets (fun s => debug (ncf s));
     when ((r <? 0) && dbg)
       (printf ("Errors from aug_save:" +:+ nl) ;;
        errors ← ask_aug (aug_print "/augeas//error");
        printf errors) ;;
     ERR_THROW (r <? 0) NETCF_EOTHER "aug_save failed" ;;
     new_nif name)
    (ret None).

Definition drv_define (xml_str : string) : M (option nat) :=
  get_augeas ;;
  on_error
    (ERR_BAIL ;;
     ncf_xml ← parse_xml xml_str;
     ' (result, aug_xml) ← on_error
       (ERR_BAIL ;;
        rng_validate ncf_xml ;;
        ERR_BAIL ;;
        oname ← device_name_from_xml ncf_xml;
        ERR_COND_BAIL (is_null oname) NETCF_EINTERNAL ;;
        name ← deref oname;
        rm_all_interfaces ncf_xml ;;
        ERR_BAIL ;;
        d ← the_driver;
        aug_xml ← apply_stylesheet (get d) ncf_xml;
        result ← define_aug name aug_xml;
        ret (result, aug_xml))
       (ret (None, None));
     free_doc ncf_xml ;;
     free_doc aug_xml ;;
     ret result)
    (ret None).

Definition drv_undefine (nif : nat) : M Z :=
  name ← if_name nif;
  on_error
    (get_augeas ;;
     ERR_BAIL ;;
     bond_setup name false ;;
     ERR_BAIL ;;
     rm_interface name ;;
     ERR_BAIL ;;
     r ← save_augeas;
     ERR_COND_BAIL (r <? 0) NETCF_EOTHER ;;
     ret 0)
    (ret (-1)).

Definition drv_mac_string (nif : nat) : M (option string) := Redhat.drv_mac_string nif.

(** ** Bringing interfaces up and down *)

Definition run_slaves (prog name : string) : M unit :=
  oslaves ← bridge_slaves name;
  ERR_BAIL ;;
  for_each (default [] oslaves) (fun s =>
    slave ← deref s;
    run1 prog slave ;;
    ERR_BAIL).

Definition drv_if_up (nif : nat) : M Z :=
  name ← if_name nif;
  on_error
    (br ← is_bridge name;
     when br (run_slaves "ifup" name) ;;
     run1 "ifup" name ;;
     ERR_BAIL ;;
     active ← if_is_active name;
     ERR_THROW (negb active) NETCF_EOTHER
       ("interface " +:+ name +:+ " failed to become active - possible disconnected cable.") ;;
     ret 0)
    (ret (-1)).

Definition drv_if_down (nif : nat) : M Z :=
  name ← if_name nif;
  on_error
    (run1 "ifdown" name ;;
     ERR_BAIL ;;
     br ← is_bridge name;
     when br (run_slaves "ifdown" name) ;;
     ret 0)
    (ret (-1)).

Definition drv_change_begin (flags : Z) : M Z := Redhat.drv_change_begin flags.
Definition drv_change_rollback (flags : Z) : M Z := Redhat.drv_change_rollback flags.
Definition drv_change_commit (flags : Z) : M Z := Redhat.drv_change_commit flags.

Definition drv_get_aug (ncf_xml : string) : M (Z * option string) := Redhat.drv_get_aug ncf_xml.
Definition drv_put_aug (aug_xml : string) : M (Z * option string) := Redhat.drv_put_aug aug_xml.
End suse.

(** The driver, as netcf.c sees it. *)
#[global] Instance suse_driver `{Augeas, !Kernel, !Netlink, !Libxml, !Posix, !SuseConfig}
  (fuel : nat) : Driver :=
  {| Netcf.drv_init := drv_init; Netcf.drv_close := drv_close; Netcf.drv_entry := drv_entry;
     Netcf.drv_num_of_interfaces := drv_num_of_interfaces;
     Netcf.drv_list_interfaces := drv_list_interfaces;
     Netcf.drv_lookup_by_name := drv_lookup_by_name;
     Netcf.drv_lookup_by_mac_string := drv_lookup_by_mac_string;
     Netcf.drv_xml_desc := drv_xml_desc; Netcf.drv_xml_state := drv_xml_state fuel;
     Netcf.drv_if_status := drv_if_status; Netcf.drv_change_begin := drv_change_begin;
     Netcf.drv_change_rollback := drv_change_rollback;
     Netcf.drv_change_commit := drv_change_commit; Netcf.drv_mac_string := drv_mac_string;
     Netcf.drv_define := drv_define; Netcf.drv_undefine := drv_undefine;
     Netcf.drv_if_up := drv_if_up; Netcf.drv_if_down := drv_if_down |}.

Section test_interface.
Context `{Augeas, !Kernel, !Netlink, !Libxml, !Posix, !SuseConfig} (fuel : nat).

Definition ncf_get_aug (ncf_xml : string) : M (Z * option string) :=
  API_ENTRY (H0 := suse_driver fuel) ;; drv_get_aug ncf_xml.

Definition ncf_put_aug (aug_xml : string) : M (Z * option string) :=
  API_ENTRY (H0 := suse_driver fuel) ;; drv_put_aug aug_xml.
End test_interface.


(** ** Laws *)

Create HintDb suse.

Section suse_laws.
Context `{Augeas, !Kernel, !Netlink, !Libxml, !Posix, !SuseConfig}.

Lemma suse_is_slave_steady i : pres steady (is_slave i).
Proof. unfold is_slave. induction subif_paths; cbn [is_slave_loop]; pres_auto. Qed.
Lemma closed_suse_is_slave i : closed (is_slave i).
Proof. unfold is_slave. induction subif_paths; cbn [is_slave_loop]; fails_auto. Qed.
Lemma suse_has_ifcfg_steady n : pres steady (has_ifcfg_file n).
Proof. unfold has_ifcfg_file. pres_auto. Qed.
Lemma closed_suse_has_ifcfg n : closed (has_ifcfg_file n).
Proof. unfold has_ifcfg_file. fails_auto. Qed.
Hint Resolve suse_is_slave_steady suse_has_ifcfg_steady : pres.
Hint Resolve closed_suse_is_slave closed_suse_has_ifcfg : fails.
Lemma file_by_name_steady n : pres steady (find_ifcfg_file_by_name n).
Proof. unfold find_ifcfg_file_by_name, set_errcode. pres_auto. Qed.
Lemma closed_file_by_name n : closed (find_ifcfg_file_by_name n).
Proof.
  unfold find_ifcfg_file_by_name. apply closed_bind; [fails_auto|intros [l|]]; [|by intros ?].
  fails_step; [fails_auto|]. fails_step; [|fails_auto]. fails_step.
  destruct (ifcfg_name _); [|fails_auto]. destruct (_ && _); [|fails_auto].
  destruct (negb _); [by intros ?|fails_auto].
Qed.
Lemma ifcfg_files_steady : pres steady find_ifcfg_files.
Proof. unfold find_ifcfg_files, set_errcode. pres_auto. Qed.
Lemma closed_ifcfg_files : closed find_ifcfg_files.
Proof.
  unfold find_ifcfg_files. apply closed_bind; [fails_auto|intros [l|]]; [|by intros ?].
  fails_step; [fails_auto|]. destruct (negb _); [by intros ?|fails_auto].
Qed.
Lemma hwaddr_by_device_steady n : pres steady (find_hwaddr_by_device n).
Proof. unfold find_hwaddr_by_device. pres_auto. Qed.
Lemma closed_hwaddr_by_device n : closed (find_hwaddr_by_device n).
Proof. unfold find_hwaddr_by_device. fails_auto. Qed.
Lemma suse_ifcfg_path_steady n : pres steady (find_ifcfg_path n).
Proof. unfold find_ifcfg_path. pres_auto. Qed.
Lemma closed_suse_ifcfg_path n : closed (find_ifcfg_path n).
Proof. unfold find_ifcfg_path. fails_auto. Qed.
Hint Resolve file_by_name_steady ifcfg_files_steady hwaddr_by_device_steady suse_ifcfg_path_steady : pres.
Hint Resolve closed_file_by_name closed_ifcfg_files closed_hwaddr_by_device closed_suse_ifcfg_path : fails.

Lemma suse_list_interfaces_steady : pres steady list_interfaces.
Proof.
  unfold list_interfaces. pres_step; [|pres_auto]. do 4 (pres_step; [pres_auto|]).
  pres_step; [apply filter_slaves_steady; intros ?; pres_auto|pres_auto].
Qed.
Lemma closed_suse_list_interfaces : closed list_interfaces.
Proof.
  unfold list_interfaces. fails_step; [|fails_auto]. do 4 (fails_step; [fails_auto|]).
  fails_step; [apply closed_fails, closed_filter_slaves; intros ?; fails_auto|fails_auto].
Qed.
Hint Resolve suse_list_interfaces_steady : pres.
Hint Resolve closed_suse_list_interfaces : fails.
Lemma suse_interface_ids_steady m ns f : pres steady (list_interface_ids m ns f).
Proof. unfold list_interface_ids. pres_auto. Qed.
Lemma suse_interface_ids_post m ns f :
  post (ids_result ns) (fun _ => False) (list_interface_ids m ns f).
Proof.
  unfold list_interface_ids. eapply post_on_error with (E := failed); [|by intros s Hs; cbn].
  do 4 (apply post_bind; [fails_auto|intros ?]).
  eapply post_mono; [by apply name_ids_post|done|done].
Qed.
Hint Resolve suse_interface_ids_steady : pres.
Lemma suse_lookup_grows n : pres grows (drv_lookup_by_name n).
Proof. unfold drv_lookup_by_name. pres_auto. Qed.
Lemma closed_suse_lookup n : closed (drv_lookup_by_name n).
Proof. unfold drv_lookup_by_name. fails_auto. Qed.

Lemma suse_mac_step_steady m l : pres steady (mac_step m l).
Proof. unfold mac_step. pres_auto. Qed.
Lemma fails_suse_mac_step m l : fails (mac_step m l).
Proof. unfold mac_step. fails_auto. Qed.
Hint Resolve suse_mac_step_steady : pres.
Hint Resolve fails_suse_mac_step : fails.
Lemma suse_lookup_mac_grows mac n : pres grows (drv_lookup_by_mac_string mac n).
Proof. unfold drv_lookup_by_mac_string. pres_auto. Qed.
Lemma suse_lookup_mac_post mac n :
  post (fun r s => r.1 < 0 -> failed s) (fun _ => False) (drv_lookup_by_mac_string mac n).
Proof. unfold drv_lookup_by_mac_string. post_lookup_mac n release_ifaces_post mac_ifaces_post. Qed.

Lemma add_node_steady t l v : pres steady (add_node t l v).
Proof. unfold add_node. pres_auto. Qed.
Lemma closed_add_node t l v : closed (add_node t l v).
Proof. unfold add_node. fails_auto. Qed.
Hint Resolve add_node_steady : pres.
Hint Resolve closed_add_node : fails.
Lemma suse_get_xml_steady p n l : pres steady (aug_get_xml p n l).
Proof. unfold aug_get_xml, aug_get_xml_tree, aug_get_xml_node. pres_auto. Qed.
Lemma closed_suse_get_xml p n l : closed (aug_get_xml p n l).
Proof. unfold aug_get_xml, aug_get_xml_tree, aug_get_xml_node. fails_auto. Qed.
Hint Resolve suse_get_xml_steady : pres.
Hint Resolve closed_suse_get_xml : fails.
Lemma suse_xml_desc_steady p : pres steady (drv_xml_desc p).
Proof. unfold drv_xml_desc, aug_get_xml_for_nif. pres_auto. Qed.
Lemma closed_suse_xml_desc p : closed (drv_xml_desc p).
Proof. unfold drv_xml_desc, aug_get_xml_for_nif. fails_auto. Qed.

Lemma put_path_steady p v : pres steady (put_path p v).
Proof. unfold put_path. pres_auto. Qed.
Lemma fails_put_path p v : fails (put_path p v).
Proof. unfold put_path. fails_auto. Qed.
Hint Resolve put_path_steady : pres.
Hint Resolve fails_put_path : fails.
Lemma suse_put_node_steady p n f : pres steady (aug_put_node p n f).
Proof. unfold aug_put_node. pres_auto. Qed.
Lemma fails_suse_put_node p n f : fails (aug_put_node p n f).
Proof. unfold aug_put_node. fails_auto. Qed.
Hint Resolve suse_put_node_steady : pres.
Hint Resolve fails_suse_put_node : fails.
Lemma put_facts_steady f : pres steady (put_facts f).
Proof. unfold put_facts, ask_hwaddr, put_gateway, put_rule. pres_auto. Qed.
Lemma fails_ask_hwaddr n : fails (ask_hwaddr n).
Proof. unfold ask_hwaddr. fails_step; [fails_auto|]. destruct (negb _); [by intros ?|fails_auto]. Qed.
Hint Resolve fails_ask_hwaddr : fails.
Lemma fails_put_facts f : fails (put_facts f).
Proof. unfold put_facts, put_gateway, put_rule. fails_auto. Qed.
Hint Resolve put_facts_steady : pres.
Hint Resolve fails_put_facts : fails.
Lemma suse_put_xml_steady d : pres steady (aug_put_xml d).
Proof. unfold aug_put_xml, aug_put_tree. pres_auto. Qed.
Lemma suse_put_xml_reports d : reports (aug_put_xml d).
Proof. unfold aug_put_xml, aug_put_tree. fails_auto. Qed.
Hint Resolve suse_put_xml_steady : pres.
Hint Resolve suse_put_xml_reports : fails.

Lemma suse_is_bond_steady n : pres steady (is_bond n).
Proof. unfold is_bond. pres_auto. Qed.
Lemma closed_suse_is_bond n : closed (is_bond n).
Proof. unfold is_bond. fails_auto. Qed.
Lemma suse_is_bridge_steady n : pres steady (is_bridge n).
Proof. unfold is_bridge. pres_auto. Qed.
Lemma closed_suse_is_bridge n : closed (is_bridge n).
Proof. unfold is_bridge. fails_auto. Qed.
Lemma suse_bridge_slaves_steady n : pres steady (bridge_slaves n).
Proof. pose proof slaves_loop_steady. unfold bridge_slaves. pres_auto. Qed.
Lemma closed_suse_bridge_slaves n : closed (bridge_slaves n).
Proof. pose proof fails_slaves_loop. unfold bridge_slaves. fails_auto. Qed.
Lemma suse_rm_steady n : pres steady (rm_interface n).
Proof. unfold rm_interface. pres_auto. Qed.
Lemma closed_suse_rm n : closed (rm_interface n).
Proof. unfold rm_interface. fails_auto. Qed.
Hint Resolve suse_is_bond_steady suse_is_bridge_steady suse_bridge_slaves_steady suse_rm_steady : pres.
Hint Resolve closed_suse_is_bond closed_suse_is_bridge closed_suse_bridge_slaves closed_suse_rm : fails.
Lemma suse_rm_all_steady d : pres steady (rm_all_interfaces d).
Proof. unfold rm_all_interfaces. pres_auto. Qed.
Lemma closed_suse_rm_all d : closed (rm_all_interfaces d).
Proof. unfold rm_all_interfaces. fails_auto. Qed.
Lemma suse_bond_setup_steady n b : pres steady (bond_setup n b).
Proof. unfold bond_setup, setup. pres_auto. Qed.
Lemma closed_suse_bond_setup n b : closed (bond_setup n b).
Proof. unfold bond_setup, setup. fails_auto. Qed.
Hint Resolve suse_rm_all_steady suse_bond_setup_steady save_augeas_steady
  device_name_from_xml_steady : pres.
Hint Resolve closed_suse_rm_all closed_suse_bond_setup closed_save_augeas
  closed_device_name_from_xml : fails.

Lemma suse_define_aug_grows n d : pres grows (define_aug n d).
Proof. unfold define_aug. pres_auto. Qed.
Lemma suse_define_aug_post n d :
  post (fun r s => r = None -> failed s) (fun _ => False) (define_aug n d).
Proof. unfold define_aug. post_define_aug. Qed.
Hint Resolve suse_define_aug_grows : pres.
Lemma suse_define_grows x : pres grows (drv_define x).
Proof. unfold drv_define, device_name_from_xml. pres_auto. Qed.
Lemma suse_define_post x : post (fun r s => r = None -> failed s) (fun _ => False) (drv_define x).
Proof. unfold drv_define, device_name_from_xml. post_define suse_define_aug_post. Qed.
Lemma suse_undefine_steady p : pres steady (drv_undefine p).
Proof. unfold drv_undefine. pres_auto. Qed.
Lemma suse_undefine_reports p : reports (drv_undefine p).
Proof. unfold drv_undefine. reports_named. Qed.
Lemma suse_run_slaves_steady g n : pres steady (run_slaves g n).
Proof. unfold run_slaves. pres_auto. Qed.
Lemma fails_suse_run_slaves g n : fails (run_slaves g n).
Proof. unfold run_slaves. fails_auto. Qed.
Hint Resolve suse_run_slaves_steady : pres.
Hint Resolve fails_suse_run_slaves : fails.
Lemma suse_if_up_steady p : pres steady (drv_if_up p).
Proof. unfold drv_if_up. pres_auto. Qed.
Lemma suse_if_up_reports p : reports (drv_if_up p).
Proof. unfold drv_if_up. reports_named. Qed.
Lemma suse_if_down_steady p : pres steady (drv_if_down p).
Proof. unfold drv_if_down. pres_auto. Qed.
Lemma suse_if_down_reports p : reports (drv_if_down p).
Proof. unfold drv_if_down. reports_named. Qed.
Lemma suse_init_steady : pres steady drv_init.
Proof. pose proof drv_close_keeps. unfold drv_init, drv_close. pres_auto. Qed.
Lemma closed_suse_init : closed drv_init.
Proof. unfold drv_init, drv_close. closed_init closed_drv_close. Qed.
Lemma suse_num_steady f : pres steady (drv_num_of_interfaces f).
Proof. unfold drv_num_of_interfaces. pres_auto. Qed.
Lemma suse_num_reports f : reports (drv_num_of_interfaces f).
Proof. unfold drv_num_of_interfaces. reports_ids suse_interface_ids_post. Qed.
Lemma suse_list_steady n f : pres steady (drv_list_interfaces n f).
Proof. unfold drv_list_interfaces. pres_auto. Qed.
Lemma suse_list_post n f :
  post (fun r s => (r.1 < 0 -> failed s) /\ length r.2 = Z.to_nat n) (fun _ => False)
    (drv_list_interfaces n f).
Proof. unfold drv_list_interfaces. post_list suse_interface_ids_post. Qed.
End suse_laws.

#[export] Hint Resolve suse_num_steady suse_list_steady suse_lookup_grows suse_lookup_mac_grows
  suse_xml_desc_steady drv_xml_state_steady drv_if_status_steady drv_change_begin_steady
  drv_change_rollback_steady drv_change_commit_steady drv_mac_string_grows suse_define_grows
  suse_undefine_steady suse_if_up_steady suse_if_down_steady suse_init_steady drv_close_keeps
  drv_entry_keeps : suse.
#[export] Hint Resolve suse_num_reports suse_list_post closed_suse_lookup suse_lookup_mac_post
  closed_suse_xml_desc closed_drv_xml_state drv_if_status_post drv_change_begin_reports
  drv_change_rollback_reports drv_change_commit_reports closed_drv_mac_string suse_define_post
  suse_undefine_reports suse_if_up_reports suse_if_down_reports closed_suse_init : suse.

(** The driver keeps every promise netcf.c relies on. *)
#[global] Instance suse_laws `{Augeas, !Kernel, !Netlink, !Libxml, !Posix, !SuseConfig}
  (fuel : nat) : DriverLaws (H0 := suse_driver fuel).
Proof.
  split; cbn [Netcf.drv_init Netcf.drv_close Netcf.drv_entry Netcf.drv_num_of_interfaces
    Netcf.drv_list_interfaces Netcf.drv_lookup_by_name Netcf.drv_lookup_by_mac_string
    Netcf.drv_xml_desc Netcf.drv_xml_state Netcf.drv_if_status Netcf.drv_change_begin
    Netcf.drv_change_rollback Netcf.drv_change_commit Netcf.drv_mac_string Netcf.drv_define
    Netcf.drv_undefine Netcf.drv_if_up Netcf.drv_if_down suse_driver];
    unfold drv_close, drv_entry, drv_xml_state, drv_if_status, drv_mac_string, drv_change_begin,
      drv_change_rollback, drv_change_commit; intros;
    first [apply drv_close_runs | by apply drv_entry_runs
          | solve [eauto 4 with suse pres] | split; eauto 4 with suse pres].
Qed.

(** ** Saving *)

Section suse_quiet.
Context `{Augeas, !Kernel, !Netlink, !Libxml, !Posix, !SuseConfig}.

Lemma quiet_put_path p v : pres same_world (put_path p v).
Proof. unfold put_path. pose proof quiet_xasprintf. pres_auto. Qed.
Lemma quiet_ask_hwaddr n : pres same_world (ask_hwaddr n).
Proof. unfold ask_hwaddr, if_hwaddr. pose proof quiet_malloc. pres_auto. Qed.
Hint Resolve quiet_put_path quiet_ask_hwaddr : pres.
Lemma quiet_put_facts f : pres same_world (put_facts f).
Proof. unfold put_facts, put_gateway, put_rule. pres_auto. Qed.
Hint Resolve quiet_put_facts : pres.
Lemma quiet_suse_put_xml o : pres same_world (aug_put_xml o).
Proof. unfold aug_put_xml, aug_put_tree, aug_put_node, xml_prop. pres_auto. Qed.
Lemma quiet_suse_rm n : pres same_world (rm_interface n).
Proof. unfold rm_interface. pose proof quiet_xasprintf. pres_auto. Qed.
Hint Resolve quiet_suse_put_xml quiet_suse_rm quiet_setup quiet_slaves_loop : pres.
Lemma quiet_suse_rm_all o : pres same_world (rm_all_interfaces o).
Proof. unfold rm_all_interfaces. pres_auto. Qed.
Lemma quiet_suse_bond_setup n b : pres same_world (bond_setup n b).
Proof. unfold bond_setup, is_bond, is_bridge, bridge_slaves. pres_auto. Qed.
Lemma quiet_suse_device_name o : pres same_world (device_name_from_xml o).
Proof. apply quiet_device_name. Qed.
Hint Resolve quiet_suse_rm_all quiet_suse_bond_setup quiet_suse_device_name : pres.

Lemma suse_define_aug_saves n o : saves (fun r => r <> None) (define_aug n o).
Proof. unfold define_aug. saves_tail. Qed.
Lemma suse_define_saves x : saves (fun r => r <> None) (drv_define x).
Proof. unfold drv_define. saves_define suse_define_aug_saves. Qed.
Lemma suse_undefine_saves p : saves (fun r => 0 <= r) (drv_undefine p).
Proof. unfold drv_undefine. saves_undefine. Qed.
End suse_quiet.

(** ** Properties *)

(** C30: the SuSE driver keeps what netcf.c relies on: initialisation and every
    operation respect the error discipline and the reference counts, a failing
    result comes with an error, closing and entering always come back, and a
    listing never writes outside the caller's array. *)
Theorem suse_refines_driver `{Augeas, !Kernel, !Netlink, !Libxml, !Posix, !SuseConfig}
  (fuel : nat) : DriverLaws (H0 := suse_driver fuel).
Proof. apply suse_laws. Qed.

(** Neither defining nor undefining an interface touches anything outside the
    process except by one [aug_save], after all other steps went well, the rules
    of udev and the default route included; an interface is returned (or 0) only
    if the tree was saved. *)
Theorem suse_saved_once `{Augeas, !Kernel, !Netlink, !Libxml, !Posix, !SuseConfig}
  (xml_str : string) (p : nat) :
  saves (fun r => r <> None) (drv_define xml_str) /\ saves (fun r => 0 <= r) (drv_undefine p).
Proof. split; [apply suse_define_saves|apply suse_undefine_saves]. Qed.

(** A configuration for the witnesses: two cards, a bridge, and what an editor left. *)
#[global] Instance toy_suse : SuseConfig (H := toy_host) :=
  {| OS113 := true; suse_stack_null := fun _ => false;
     opendir := fun p _ =>
       if STREQ p "/etc/sysconfig/network"
       then Some [("ifcfg-eth1", true); ("scripts", false); ("ifcfg-br0", true); ("ifcfg-eth0", true);
                  ("ifcfg-br0~", true)]
       else None |}.
