(* ===== verification/SuseSpec.v ===== *)
(** * What the SuSE driver computes

    The interfaces that drv_suse.c lists, reference functions for what it learns
    from a document and for the edits it makes, and the theorems that the code
    computes them. *)

From S2P Require Import Prelude CStr XsltExt State Refs Toy Posix Xml Netcf Linux Common Redhat RedhatSpec RedhatSave AugEdit AugDriver Suse.

(** ** Listing and lookup *)

Section listing.
Context `{Augeas}.

(** Does its file say that it belongs to a bond or a bridge? *)
Definition suse_enslaved (a : aug) (n : string) : bool :=
  existsb (fun p => negb (Z.of_nat (length (matches a
    (aug_files +:+ network_scripts_path +:+ "/ifcfg-" +:+ n +:+ "/" +:+ p))) =? 0)) subif_paths.

(** Are the queries answered that tell whether an interface is a slave, up to the first
    that has an answer? *)
Fixpoint slave_answered_at (paths : list string) (a : aug) (n : string) : bool :=
  match paths with
  | [] => true
  | p :: paths' =>
      let q := aug_files +:+ network_scripts_path +:+ "/ifcfg-" +:+ n +:+ "/" +:+ p in
      answered a q && (negb (bool_decide (matches a q = [])) || slave_answered_at paths' a n)
  end.
Definition slave_answered : aug -> string -> bool := slave_answered_at subif_paths.

(** And those that are made to look an interface up? *)
Definition lookup_answered (a : aug) (n : string) : bool :=
  let file := aug_files +:+ "/" +:+ network_scripts_path +:+ "/ifcfg-" +:+ n in
  answered a file && (negb (bool_decide (length (matches a file) = 1%nat)) || slave_answered a n).

Definition suse_toplevel (entries : list (string * bool)) (a : aug) : list string :=
  filter (fun n => suse_enslaved a n = false) (qsort_strings (omap ifcfg_name entries)).
End listing.

Lemma ifcfg_name_spec ent n : ifcfg_name ent = Some n <-> ent = ("ifcfg-" +:+ n, true).
Proof.
  destruct ent as [f []]; unfold ifcfg_name; cbn [fst snd andb]; [|done].
  destruct (has_prefix "ifcfg-" f) eqn:E; split.
  - apply has_prefix_inv in E as [r ->]. rewrite string_drop_app. by intros [= ->].
  - intros [= ->]. by rewrite string_drop_app.
  - done.
  - intros [= ->]. by rewrite has_prefix_app in E.
Qed.

Lemma elem_of_names entries n :
  n ∈ qsort_strings (omap ifcfg_name entries) <-> ("ifcfg-" +:+ n, true) ∈ entries.
Proof.
  rewrite elem_of_qsort, list_elem_of_omap. split.
  - by intros (ent & Hin & ->%ifcfg_name_spec).
  - intros Hin. exists ("ifcfg-" +:+ n, true). split; [done|]. by apply ifcfg_name_spec.
Qed.

Lemma suse_toplevel_sorted `{Augeas} entries a : Sorted str_le (suse_toplevel entries a).
Proof.
  unfold suse_toplevel. apply StronglySorted_Sorted.
  assert (Hss : StronglySorted str_le (qsort_strings (omap ifcfg_name entries)))
    by (apply Sorted_StronglySorted; [exact str_le_trans|apply qsort_strings_sorted]).
  induction Hss as [|x l _ IH Hx]; [constructor|]. rewrite filter_cons. case_decide; [|done].
  constructor; [done|]. rewrite Forall_forall in *. intros y [_ Hy]%list_elem_of_filter. by apply Hx.
Qed.

Section listing_run.
Context `{Augeas, !Kernel, !Netlink, !Libxml, !Posix, !SuseConfig}.
Context (d : driver) (a : aug) (s : state) (Hs : ready d a s).

Lemma suse_slave_cases n :
  if slave_answered a n then exists r, is_slave n s = (Ret r, s) /\ negb (r =? 0) = suse_enslaved a n
  else is_slave n s = (Ret (-1), refused s).
Proof.
  unfold is_slave, suse_enslaved, slave_answered. induction subif_paths as [|p ps IH];
    cbn [is_slave_loop existsb slave_answered_at]; [by exists 0|].
  set (q := aug_files +:+ _). destruct (answered a q) eqn:Hq; cbn [andb].
  - assert (answers a q) by (by apply answered_spec). repeat ready_step Hs.
    destruct (matches a q) as [|m l] eqn:El; cbn -[slave_answered_at].
    + exact IH.
    + eexists. split; reflexivity.
  - rewrite (bind_Ret _ _ _ _ _ (ready_fmt_refused d a s Hs q (refused_not _ _ Hq))). done.
Qed.

Lemma suse_is_slave_run n : slave_answered a n = true ->
  exists r, is_slave n s = (Ret r, s) /\ negb (r =? 0) = suse_enslaved a n.
Proof. intros Hn. pose proof (suse_slave_cases n) as Hc. by rewrite Hn in Hc. Qed.

Lemma suse_slave_test n : slave_answered a n = true ->
  tells s (fun n => r ← is_slave n; ret (negb (r =? 0))) (suse_enslaved a) n.
Proof.
  intros Hn. destruct (suse_is_slave_run n Hn) as (r & Hr & Hx). unfold tells.
  by rewrite (bind_Ret _ _ _ _ _ Hr), Hx.
Qed.

Lemma suse_files_run :
  find_ifcfg_files s
  = match opendir network_scripts_path (world s) with
    | None => (Stop (UB "NULL pointer"), set_ncf (set_err NETCF_EOTHER (errdetails (ncf s)) (ncf s)) s)
    | Some entries => (Ret (Some (Some <$> qsort_strings (omap ifcfg_name entries))), s)
    end.
Proof.
  unfold find_ifcfg_files. rewrite (bind_Ret (gets _) _ s _ s eq_refl).
  destruct (opendir _ _) as [entries|]; [|done]. repeat ready_step Hs. unfold on_error.
  erewrite bind_Ret; [|apply (for_map_pure _ _ id)].
  2:{ intros n _. by repeat ready_step Hs. }
  by rewrite list_fmap_id.
Qed.

Context (Hasked : forall entries n, opendir network_scripts_path (world s) = Some entries ->
  n ∈ omap ifcfg_name entries -> slave_answered a n = true).

Lemma suse_list_run entries : opendir network_scripts_path (world s) = Some entries ->
  exists l, list_interfaces s = (Ret (Some l), s) /\ l = Some <$> suse_toplevel entries a.
Proof.
  intros Hdir. unfold list_interfaces, on_error. repeat ready_step Hs.
  pose proof suse_files_run as Hf. rewrite Hdir in Hf. rewrite (bind_Ret _ _ _ _ _ Hf). repeat ready_step Hs.
  unfold suse_toplevel. set (names := qsort_strings _).
  pose proof (filter_all_run s (fun n => r ← is_slave n; ret (negb (r =? 0))) (suse_enslaved a)
    (fun _ => length (Some <$> names)) names) as Hall.
  destruct Hall as (n & l' & Hr & Hl); [|intros r; by rewrite length_fmap|].
  { apply Forall_forall. intros n Hn. unfold names in Hn. rewrite elem_of_qsort in Hn.
    by eapply suse_slave_test, Hasked. }
  rewrite (bind_Ret _ _ _ _ _ Hr). exists (take n l'). by split.
Qed.

Lemma suse_ids_run entries flags m ns : opendir network_scripts_path (world s) = Some entries ->
  list_interface_ids m ns flags s
  = on_error (name_ids flags (Some <$> suse_toplevel entries a)
      (if is_null ns then Z.of_nat (length (Some <$> suse_toplevel entries a)) else m) 0 ns) (ret (-1, ns)) s.
Proof.
  intros Hdir. unfold list_interface_ids, on_error. repeat ready_step Hs.
  destruct (suse_list_run entries Hdir) as (l & Hr & ->). rewrite (bind_Ret _ _ _ _ _ Hr).
  by repeat ready_step Hs.
Qed.

Lemma suse_num_run entries flags : opendir network_scripts_path (world s) = Some entries ->
  list_interface_ids 0 None flags s
  = (Ret (Z.of_nat (length (wanted_of d s flags (suse_toplevel entries a))), None), s).
Proof.
  intros Hdir. rewrite (suse_ids_run entries) by done. apply on_error_Ret. by apply (name_ids_all d a).
Qed.

Lemma suse_array_run entries flags n : opendir network_scripts_path (world s) = Some entries -> 0 <= n ->
  list_interface_ids n (Some (replicate (Z.to_nat n) None)) flags s
  = (let l := wanted_of d s flags (suse_toplevel entries a) in let k := Z.to_nat n in
     (Ret (Z.of_nat (min k (length l)),
           Some ((Some <$> take k l) ++ replicate (k - length l) None)), s)).
Proof.
  intros Hdir Hn. rewrite (suse_ids_run entries) by done. apply on_error_Ret. by apply (name_ids_some d a).
Qed.

Lemma suse_ids_crash flags m ns : opendir network_scripts_path (world s) = None ->
  (list_interface_ids m ns flags s).1 = Stop (UB "NULL pointer").
Proof.
  intros Hdir. unfold list_interface_ids, list_interfaces, on_error. repeat ready_step Hs.
  erewrite bind_Stop; [reflexivity|]. repeat ready_step Hs.
  pose proof suse_files_run as Hf. rewrite Hdir in Hf. by rewrite (bind_Stop _ _ _ _ _ Hf).
Qed.

End listing_run.

Section lookup_run.
Context `{Augeas, !Kernel, !Netlink, !Libxml, !Posix, !SuseConfig}.
Context (d : driver) (a : aug) (s : state) (Hs : ready d a s).

Lemma suse_find_cases name (file := aug_files +:+ "/" +:+ network_scripts_path +:+ "/ifcfg-" +:+ name) :
  find_ifcfg_path name s
  = if answered a file then (Ret (if bool_decide (length (matches a file) = 1%nat) then Some file else None), s)
    else (Ret None, refused s).
Proof.
  unfold find_ifcfg_path, on_error. repeat ready_step Hs. fold file. destruct (answered a file) eqn:Hq.
  - rewrite (answers_nmatches a file) by (by apply answered_spec).
    rewrite (proj2 (Z.ltb_ge (Z.of_nat _) 0)) by lia. repeat ready_step Hs.
    case_bool_decide as Hlen; [by rewrite Hlen|]. by rewrite (proj2 (Z.eqb_neq _ 1)) by lia.
  - by rewrite (refused_nmatches _ _ Hq).
Qed.

Lemma suse_lookup_run name (file := aug_files +:+ "/" +:+ network_scripts_path +:+ "/ifcfg-" +:+ name) :
  drv_lookup_by_name name s
  = if lookup_answered a name then
      if bool_decide (length (matches a file) = 1%nat) && negb (suse_enslaved a name)
      then on_error (new_nif name) (ret None) s else (Ret None, s)
    else (Ret None, refused s).
Proof.
  unfold drv_lookup_by_name, lookup_answered. fold file. unfold on_error at 1. repeat ready_step Hs.
  pose proof (suse_find_cases name) as Hf. cbv zeta in Hf. fold file in Hf.
  destruct (answered a file); cbn [andb].
  2:{ by rewrite (bind_Ret _ _ _ _ _ Hf). }
  rewrite (bind_Ret _ _ _ _ _ Hf). repeat ready_step Hs.
  case_bool_decide; cbn [andb negb orb]; [|done].
  pose proof (suse_slave_cases d a s Hs name) as Hc. destruct (slave_answered a name).
  - destruct Hc as (r & Hr & <-). rewrite (bind_Ret _ _ _ _ _ Hr).
    destruct (negb (r =? 0)); cbn [negb]; [done|]. by repeat ready_step Hs.
  - by rewrite (bind_Ret _ _ _ _ _ Hc).
Qed.
End lookup_run.

(** ** What is learnt from a document *)

(** The last setting with this label, NULL if there is none. *)
Definition last_value (label : string) (l : list (string * option string)) : option string :=
  mjoin (snd <$> last (filter (fun p => p.1 = label) l)).

(** An Ethernet card by its name: [eth...], and no VLAN *)
Definition eth_name (v : string) : bool := is_null (strchr v ".") && has_prefix "eth" v.

(** DEVICE, HWADDR and GATEWAY as the last settings say; a card if any DEVICE is one;
    at top level if nothing says BRIDGE or BONDING_MASTER. *)
Definition facts_of (l : list (string * option string)) : facts :=
  {| device := last_value "DEVICE" l; mac := last_value "HWADDR" l; gateway := last_value "GATEWAY" l;
     ethphysical := existsb (fun p => STREQ p.1 "DEVICE" && eth_name (default "" p.2)) l;
     toplevel := negb (existsb (fun p => STREQ p.1 "BRIDGE" || STREQ p.1 "BONDING_MASTER") l) |}.

(** Only these do not go into the file of the interface. *)
Definition kept (label : string) : bool :=
  negb (STREQ label "DEVICE" || STREQ label "HWADDR" || STREQ label "GATEWAY").

Lemma last_value_snoc label l k v :
  last_value label (l ++ [(k, v)]) = if decide (k = label) then v else last_value label l.
Proof.
  unfold last_value. rewrite filter_app, filter_cons, filter_nil. cbn [fst].
  destruct (decide (k = label)); [by rewrite last_snoc|by rewrite app_nil_r].
Qed.

Lemma STREQ_decide k l : STREQ k l = bool_decide (k = l).
Proof. destruct (STREQ k l) eqn:E; symmetry; [apply bool_decide_true; by apply STREQ_eq|apply bool_decide_false; by apply STREQ_neq]. Qed.

Lemma learn_all l : foldl (fun f p => (learn p.1 p.2 f).1) no_facts l = facts_of l.
Proof.
  induction l as [|[k v] l IH] using rev_ind; [done|]. rewrite foldl_snoc, IH. unfold facts_of at 2.
  rewrite !last_value_snoc, !existsb_app. unfold learn, facts_of, eth_name. cbn.
  rewrite !STREQ_decide, !orb_false_r, negb_orb.
  repeat (case_bool_decide; subst; try done); rewrite ?andb_true_r, ?andb_false_r, ?orb_false_r, ?orb_true_r;
    try reflexivity; by rewrite !decide_False.
Qed.

Lemma learn_kept k v f : (learn k v f).2 = kept k.
Proof.
  unfold learn, kept. destruct (STREQ k "DEVICE"); [done|]. destruct (STREQ k "HWADDR"); [done|].
  by destruct (STREQ k "GATEWAY").
Qed.

(** ** The edits *)

Lemma foldl_mjoin {A B} (f : B -> A -> B) (ls : list (list A)) b :
  foldl f b (mjoin ls) = foldl (foldl f) b ls.
Proof. revert b. induction ls as [|l ls IH]; intros b; [done|]. cbn. by rewrite foldl_app, IH. Qed.

Lemma foldl_fmap {A B C} (f : B -> A -> B) (g : C -> A) (l : list C) b :
  foldl f b (g <$> l) = foldl (fun b' c => f b' (g c)) b l.
Proof. revert b. induction l as [|c l IH]; intros b; [done|]. apply IH. Qed.

Section put.
Context `{Augeas, !Kernel, !Netlink, !Libxml, !Posix, !SuseConfig}.

(** The settings of a document, with their labels *)
Definition tree_settings (x : xmem) (t : node) : list (string * option string) :=
  (fun n => (label_of x n, xmlGetProp n "value" x)) <$> node_children t x.

Definition settings (x : xmem) (forest : node) : list (string * option string) :=
  mjoin (tree_settings x <$> node_children forest x).

(** The address that the kernel knows *)
Definition kernel_hwaddr (d : driver) (s : state) (dev : string) : option string :=
  let '(r, sa) := ioctl_hwaddr (ioctl_fd d) (ifr_name dev) (world s) in
  if r =? 0 then Some (String.concat ":" (fmt_02x <$> take 6 sa)) else None.

Definition gateway_edits (dev gw : string) : list edit :=
  let path k := aug_files +:+ network_scripts_path +:+ "/routes/default/" +:+ k in
  [Assign (path "gateway") (Some gw); Assign (path "netmask") (Some "-"); Assign (path "device") (Some dev)].

Definition rule_edits (dev mac : string) : list edit :=
  let path k := aug_files +:+ udev_netrule_path +:+ "/" +:+ dev +:+ "/" +:+ k in
  [Assign (path "SUBSYSTEM") (Some "net"); Assign (path "ACTION") (Some "add");
   Assign (path "DRIVERS") (Some "?*"); Assign (path "ATTR{address}") (Some mac)] ++
  (if OS113 then [Assign (path "ATTR{dev_id}") (Some "0x0")] else []) ++
  [Assign (path "ATTR{type}") (Some "1"); Assign (path "KERNEL") (Some "eth*")].

(** The default route and the rule of udev, for a card at top level: with the
    address of the document or else that of the kernel. *)
Definition fact_edits (hw : string -> option string) (f : facts) : list edit :=
  match device f with
  | Some dev =>
      if ethphysical f && toplevel f then
        (if gateway f is Some g then gateway_edits dev g else []) ++
        (if (match mac f with Some m => Some m | None => hw dev end) is Some m
         then rule_edits dev m else [])
      else []
  | None => []
  end.

Context (d : driver) (a0 : aug) (s : state) (Hs : ready d a0 s).

Lemma writes_put_path p v : writes d s (put_path p v) [Assign p v] tt.
Proof. apply (writes_assign d s a0 Hs _ _ (fun q => "aug_set of '" +:+ q +:+ "' failed")). Qed.

Lemma writes_put_rule dev m : writes d s (put_rule dev m) (rule_edits dev m) tt.
Proof.
  unfold put_rule, rule_edits. cbn [app].
  do 4 (apply (writes_bind d s _ _ [_] _ tt); [apply writes_put_path|]).
  apply (writes_bind d s _ _ (if OS113 then _ else _) _ tt).
  { destruct OS113; [apply writes_put_path|apply writes_ret]. }
  apply (writes_bind d s _ _ [_] [_] tt); apply writes_put_path.
Qed.

Lemma writes_put_gateway dev g : writes d s (put_gateway dev g) (gateway_edits dev g) tt.
Proof.
  unfold put_gateway, gateway_edits.
  do 2 (apply (writes_bind d s _ _ [_] _ tt); [apply writes_put_path|]). apply writes_put_path.
Qed.

Lemma ask_hwaddr_tree dev a :
  ask_hwaddr dev (at_tree d s a) = (Ret (kernel_hwaddr d s dev), at_tree d s a).
Proof.
  pose proof (at_tree_ready d s a0 Hs a) as Hr. unfold ask_hwaddr, kernel_hwaddr.
  rewrite (bind_Ret malloc _ _ true (at_tree d s a)).
  2:{ unfold malloc. by rewrite (rd_mem _ _ _ Hr). }
  cbn [negb]. unfold if_hwaddr. rewrite bind_assoc.
  rewrite (bind_Ret _ _ _ _ _ (the_driver_run _ _ (rd_driver _ _ _ Hr))). rewrite bind_assoc.
  rewrite (bind_Ret (gets _) _ (at_tree d s a)
    (ioctl_hwaddr (ioctl_fd d) (ifr_name dev) (world s)) (at_tree d s a) eq_refl).
  destruct (ioctl_hwaddr _ _ _) as [r sa]. rewrite format_mac_addr_fits by lia.
  rewrite decide_True; [|by right; rewrite length_take; lia]. rewrite bind_ret_l.
  by destruct (r =? 0).
Qed.

Lemma writes_put_facts f : writes d s (put_facts f) (fact_edits (kernel_hwaddr d s) f) tt.
Proof.
  unfold put_facts, fact_edits. destruct (device f) as [dev|]; [|apply writes_ret].
  destruct (ethphysical f && toplevel f); cbn [when]; [|apply writes_ret].
  eapply writes_pure with (x := match mac f with Some m => Some m | None => kernel_hwaddr d s dev end).
  { intros a. destruct (mac f); [done|apply ask_hwaddr_tree]. }
  apply (writes_bind d s _ _ _ _ tt).
  { destruct (gateway f); [apply writes_put_gateway|apply writes_ret]. }
  destruct (match mac f with Some m => Some m | None => _ end); [apply writes_put_rule|apply writes_ret].
Qed.

Lemma writes_put_node path n f :
  is_Some (xmlGetProp n "label" (xml s)) ->
  (label_of (xml s) n = "DEVICE" -> is_Some (xmlGetProp n "value" (xml s))) ->
  writes d s (aug_put_node path n f) (node_edits (xml s) kept path n)
    (learn (label_of (xml s) n) (xmlGetProp n "value" (xml s)) f).1.
Proof.
  unfold label_of, node_edits, label_of. intros [label Hl] Hv. rewrite Hl in *. cbn [default id] in *.
  unfold aug_put_node, xml_prop. do 2 (eapply writes_pure; [intros ?; apply xget_tree|]). rewrite Hl.
  eapply writes_pure; [by intros ?|].
  eapply writes_pure with (x := tt).
  { intros a. destruct (STREQ label "DEVICE") eqn:E; [|done]. apply STREQ_eq in E.
    by destruct (Hv E) as [v ->]. }
  pose proof (learn_kept label (xmlGetProp n "value" (xml s)) f) as Hk.
  destruct (learn label _ f) as [f' put]. cbn in Hk. subst put. cbn [fst].
  eapply writes_then; [|done]. destruct (kept label); [apply writes_put_path|apply writes_ret].
Qed.

Lemma writes_suse_tree t f :
  node_name t (xml s) = "tree" -> is_Some (xmlGetProp t "path" (xml s)) ->
  (forall n, n ∈ node_children t (xml s) -> is_Some (xmlGetProp n "label" (xml s)) /\
     (label_of (xml s) n = "DEVICE" -> is_Some (xmlGetProp n "value" (xml s)))) ->
  writes d s (aug_put_tree t f) (tree_edits (xml s) kept t)
    (foldl (fun f p => (learn p.1 p.2 f).1) f (tree_settings (xml s) t)).
Proof.
  intros Hn [path Hp] Hl. unfold aug_put_tree, tree_edits. rewrite Hp. cbn [default id].
  apply (writes_tree_head d a0 s Hs t path _ _ _ _ _ Hn Hp).
  eapply writes_pure; [intros ?; apply xget_tree|]. unfold tree_settings. rewrite foldl_fmap.
  apply (writes_for_acc d s _ _ _ (fun n f => _)). intros n f' Hin. destruct (Hl n Hin).
  by apply writes_put_node.
Qed.
End put.

(** ** A concrete /etc/sysconfig/network: eth1 belongs to br0 *)

Definition toy_sus : toy_aug :=
  {| t_match :=
       [("/files/etc/sysconfig/network/ifcfg-eth1/BRIDGE", ["/files/etc/sysconfig/network/ifcfg-eth1/BRIDGE"]);
        ("/files//etc/sysconfig/network/ifcfg-br0", ["/files/etc/sysconfig/network/ifcfg-br0"]);
        ("/files//etc/sysconfig/network/ifcfg-eth0", ["/files/etc/sysconfig/network/ifcfg-eth0"])];
     t_value := []; t_ops := [] |}.

Lemma toy_sus_ready : ready (H := toy_host) (toy_driver toy_sus) toy_sus (toy_state toy_os toy_sus).
Proof. split; try reflexivity; intros _; reflexivity. Defined.

Lemma toy_forest_devices (t n : nat) :
  t ∈ toy_kids 1 toy_forest -> n ∈ toy_kids t toy_forest ->
  default "" (toy_get n "label" toy_forest) = "DEVICE" -> is_Some (toy_get n "value" toy_forest).
Proof.
  intros Ht Hn%list_elem_of_In. vm_compute in Ht. apply list_elem_of_singleton in Ht as ->.
  vm_compute in Hn. intros _. destruct Hn as [<-|[<-|[<-|[]]]]; by eexists.
Defined.

(** ** Properties *)

(** C31: counting and listing yield, in alphabetical order, the names of the files
    [ifcfg-*] in the directory (whatever the root, files left by editors included)
    that are not slaves in the tree and whose state the flags ask for, within the
    caller's array. A lookup goes to the tree instead: a name without a file there,
    or of a slave, is no interface, and no error either; but a name that spoils one of
    the path expressions it is put into (say, since it has a quote) is an error, EOTHER.
    When the directory cannot be read counting and listing go through a NULL pointer. *)
Theorem suse_list_spec `{Augeas, !Kernel, !Netlink, !Libxml, !Posix, !SuseConfig}
  (d : driver) (a : aug) (s : state) (n flags : Z) (name : string)
  (Hs : ready d a s) (Hn : 0 <= n)
  (Hasked : forall entries n, opendir network_scripts_path (world s) = Some entries ->
     n ∈ omap ifcfg_name entries -> slave_answered a n = true) :
  (let file := aug_files +:+ "/" +:+ network_scripts_path +:+ "/ifcfg-" +:+ name in
   if lookup_answered a name then
     drv_lookup_by_name name s
     = (if bool_decide (length (matches a file) = 1%nat) && negb (suse_enslaved a name)
        then on_error (new_nif name) (ret None) s else (Ret None, s))
   else exists s', drv_lookup_by_name name s = (Ret None, s') /\ err s' = NETCF_EOTHER) /\
  match opendir network_scripts_path (world s) with
  | None => (drv_num_of_interfaces flags s).1 = Stop (UB "NULL pointer") /\
            (drv_list_interfaces n flags s).1 = Stop (UB "NULL pointer")
  | Some entries =>
      let l := wanted_of d s flags (suse_toplevel entries a) in let k := Z.to_nat n in
      drv_num_of_interfaces flags s = (Ret (Z.of_nat (length l)), s) /\
      drv_list_interfaces n flags s =
        (Ret (Z.of_nat (min k (length l)), (Some <$> take k l) ++ replicate (k - length l) None), s) /\
      (name ∈ suse_toplevel entries a <->
         ("ifcfg-" +:+ name, true) ∈ entries /\ suse_enslaved a name = false) /\
      Sorted str_le (suse_toplevel entries a)
  end.
Proof.
  split.
  { cbv zeta. rewrite (suse_lookup_run d a s Hs name). destruct (lookup_answered a name); [done|by eexists]. }
  destruct (opendir network_scripts_path (world s)) as [entries|] eqn:Hdir.
  - cbv zeta. unfold drv_num_of_interfaces, drv_list_interfaces. rewrite <- Hdir in Hasked. split; [|split; [|split]].
    + by rewrite (bind_Ret _ _ _ _ _ (suse_num_run d a s Hs Hasked entries flags Hdir)).
    + by rewrite (bind_Ret _ _ _ _ _ (suse_array_run d a s Hs Hasked entries flags n Hdir Hn)).
    + unfold suse_toplevel. by rewrite list_elem_of_filter, elem_of_names, (and_comm (suse_enslaved _ _ = _)).
    + apply suse_toplevel_sorted.
  - unfold drv_num_of_interfaces, drv_list_interfaces, bind.
    pose proof (suse_ids_crash d a s Hs flags 0 None Hdir) as Hcount.
    pose proof (suse_ids_crash d a s Hs flags n (Some (replicate (Z.to_nat n) None)) Hdir) as Hfill.
    destruct (list_interface_ids 0 _ _ _) as [[]?]; [done..|]. cbn in Hcount.
    destruct (list_interface_ids n _ _ _) as [[]?]; [done..|]. injection Hcount as ->. by injection Hfill as ->.
Qed.

(** A directory whose files are known *)
Lemma toy_sus_asked entries n :
  opendir (SuseConfig := toy_suse) network_scripts_path (@world toy_host (toy_state toy_os toy_sus)) = Some entries ->
  n ∈ omap ifcfg_name entries -> slave_answered (H0 := toy_augeas) toy_sus n = true.
Proof.
  intros [= <-]. revert n. apply (proj1 (Forall_forall (fun n => slave_answered (H0 := toy_augeas) toy_sus n = true) _)).
  repeat constructor.
Defined.

Lemma suse_list_spec_witness :
  drv_lookup_by_name "br0~" (toy_state toy_os toy_sus) = (Ret None, toy_state toy_os toy_sus) /\
  (exists s', drv_lookup_by_name "eth'0" (toy_state toy_os toy_sus) = (Ret None, s') /\ err s' = NETCF_EOTHER) /\
  drv_num_of_interfaces 3 (toy_state toy_os toy_sus) = (Ret 3, toy_state toy_os toy_sus) /\
  drv_list_interfaces 4 3 (toy_state toy_os toy_sus)
    = (Ret (3, [Some "br0"; Some "br0~"; Some "eth0"; None]), toy_state toy_os toy_sus).
Proof.
  pose proof (fun name => @suse_list_spec toy_host toy_augeas toy_kernel toy_netlink toy_libxml toy_posix toy_suse
    (toy_driver toy_sus) toy_sus (toy_state toy_os toy_sus) 4 3 name toy_sus_ready ltac:(lia) toy_sus_asked) as Hspec.
  destruct (Hspec "br0~") as (Hl & Hn & Hi & _). destruct (Hspec "eth'0") as (Hq & _).
  split; [exact Hl|]. split; [exact Hq|]. split; [exact Hn|exact Hi].
Defined.

(** C32: a document with the configuration of interfaces is put into the tree file
    by file, each emptied first; DEVICE, HWADDR and GATEWAY are kept out of the
    files. The last of each counts: if some DEVICE is an Ethernet card and no
    setting puts an interface below a bridge or a bond, the gateway becomes the
    default route of the device, and a rule of udev names the card with the address
    given, or else with the one the kernel reports. If an edit fails the rest is
    left out, the result is -1 and the error is that of the edit. *)
Theorem suse_put_xml_spec `{Augeas, !Kernel, !Netlink, !Libxml, !Posix, !SuseConfig}
  (d : driver) (a : aug) (s : state) (doc : option doc) (forest : node)
  (Hs : ready d a s) (Hroot : xmlDocGetRootElement doc (xml s) = Some forest)
  (Hdoc : forest_doc (xml s) forest)
  (Hdev : forall t n, t ∈ node_children forest (xml s) -> n ∈ node_children t (xml s) ->
    label_of (xml s) n = "DEVICE" -> is_Some (xmlGetProp n "value" (xml s))) :
  let f := facts_of (settings (xml s) forest) in
  match put_all (forest_edits (xml s) kept forest ++ fact_edits (kernel_hwaddr d s) f) a with
  | inl a' => aug_put_xml doc s = (Ret 0, at_tree d s a')
  | inr c => exists s', aug_put_xml doc s = (Ret (-1), s') /\ err s' = c
  end.
Proof.
  cbv zeta. destruct Hdoc as [Hf Ht Hn].
  assert (Hw : writes d s (f ← for_acc (node_children forest (xml s)) no_facts aug_put_tree;
                           put_facts f ;; ret 0)
    (forest_edits (xml s) kept forest ++ fact_edits (kernel_hwaddr d s) (facts_of (settings (xml s) forest))) 0).
  { rewrite <- learn_all. unfold settings. rewrite foldl_mjoin, foldl_fmap. eapply writes_bind.
    - apply (writes_for_acc d s _ _ _
        (fun t f => foldl (fun f p => (learn p.1 p.2 f).1) f (tree_settings (xml s) t))). intros t f Hin. destruct (Ht t Hin).
      apply (writes_suse_tree d a s Hs t f); eauto.
    - eapply writes_then; [apply (writes_put_facts d a s Hs)|done]. }
  unfold aug_put_xml.
  by eapply (put_xml_run d a s Hs doc forest
    (fun l => f ← for_acc l no_facts aug_put_tree; put_facts f ;; ret 0)).
Qed.

Lemma suse_put_xml_spec_witness :
  let s := set_xml (H := toy_host) toy_forest (toy_state toy_os toy_empty) in
  exists a', aug_put_xml (Some 0%nat) s = (Ret 0, at_tree (toy_driver toy_empty) s a') /\
  take 4 (t_ops a') =
    [("rm", "/files/etc/sysconfig/network/ifcfg-eth0");
     ("/files/etc/sysconfig/network/ifcfg-eth0/STARTMODE", "auto");
     ("/files/etc/sysconfig/network/routes/default/gateway", "10.0.0.1");
     ("/files/etc/sysconfig/network/routes/default/netmask", "-")] /\
  ("/files" +:+ NETRULE_PATH +:+ "/eth0/ATTR{address}", "52:54:00:1a:ff:01") ∈ t_ops a'.
Proof.
  eexists. split; [|split].
  - exact (@suse_put_xml_spec toy_host toy_augeas toy_kernel toy_netlink toy_libxml toy_posix toy_suse
      (toy_driver toy_empty) toy_empty (set_xml (H := toy_host) toy_forest (toy_state toy_os toy_empty))
      (Some 0%nat) 1%nat ltac:(split; try reflexivity; intros _; reflexivity)
      ltac:(vm_compute; reflexivity) toy_forest_doc toy_forest_devices).
  - vm_compute. reflexivity.
  - apply list_elem_of_In. vm_compute. tauto.
Defined.
