(* ===== verification/SuseXml.v ===== *)
(** * The document of an interface of SuSE

    [aug_get_xml_for_nif] of drv_suse.c makes a document of the file of an interface,
    its name and the address that udev knows. Here: a reference for this document
    ([suse_forest]), and that the code computes it. *)

From S2P Require Import Prelude CStr XsltExt State Refs Toy Posix Xml XmlTree Netcf Linux Common Redhat RedhatSpec AugEdit Describe AugDriver Suse SuseSpec.

(** ** The reference *)

Section reference.
Context `{Augeas} (a : aug).

Definition ifcfg_node (name : string) : string := aug_files +:+ network_scripts_path +:+ "/ifcfg-" +:+ name.

Definition setting_tree (label : string) (v : option string) : xtree :=
  Elem "node" (<["value" := default "" v]> (<["label" := label]> ∅)) [].

(** The address in the one udev rule for the device, if there is one rule *)
Definition udev_address (name : string) : list xtree :=
  match matches a (aug_files +:+ "/" +:+ udev_netrule_path +:+ "/*[ NAME = '" +:+ name +:+ "']") with
  | [rule] => [setting_tree "HWADDR" (aug_get (rule +:+ "/" +:+ "ATTR{address}") a).2]
  | _ => []
  end.

(** The path of the tree is the name of the interface. *)
Definition suse_tree (name : string) : xtree :=
  Elem "tree" (<["path" := name]> ∅)
    ((match_tree a (ifcfg_node name) <$> matches a (ifcfg_node name +:+ "/" +:+ "*")) ++
     setting_tree "DEVICE" (Some name) :: udev_address name).

(** What is asked to describe the interface is answered, and its settings can be read. *)
Record suse_describable (name : string) : Prop := {
  sd_rule : answers a (aug_files +:+ "/" +:+ udev_netrule_path +:+ "/*[ NAME = '" +:+ name +:+ "']");
  sd_settings : answers a (ifcfg_node name +:+ "/" +:+ "*");
  sd_readable m : m ∈ matches a (ifcfg_node name +:+ "/" +:+ "*") -> 0 <= (aug_get m a).1
}.

(** Without a file in the directory the forest is empty. *)
Definition suse_forest (entries : list (string * bool)) (name : string) : xtree :=
  Elem "forest" ∅ (if decide (name ∈ omap ifcfg_name entries) then [suse_tree name] else []).
End reference.

(** ** The code *)

Lemma for_each_ext {S A} (l : list A) (f g : A -> prog S unit) s :
  (forall y, f y = g y) -> for_each l f s = for_each l g s.
Proof.
  intros Hfg. revert s. induction l as [|y l IH]; intros s; [done|]. cbn [for_each]. rewrite Hfg.
  apply bind_ext. intros ? ?. apply IH.
Qed.

Section code.
Context `{Augeas, !Kernel, !Netlink, !Libxml, !Posix, !SuseConfig, !XmlBuild _}.
Context (d : driver) (a : aug).

Lemma add_node_run t label v s : alive t (xml s) -> hangs (add_node (Some t) label v) s tt t [setting_tree label v].
Proof.
  intros Ht. destruct (newchild_law t "node" (xml s) Ht ltac:(set_solver)) as (n & x1 & Hnew & Hca).
  pose proof (ca_new _ _ _ _ _ _ Hca) as Hne. pose proof (ne_alive _ _ _ _ Hne) as Hn.
  destruct (newprop_law n "label" (Some label) x1 Hn (ne_props _ _ _ _ Hne _)) as (x2 & Hput2 & Hp2).
  destruct (newprop_law n "value" v x2) as (x3 & Hput3 & Hp3).
  { by apply (pp_keeps _ _ _ _ _ _ Hp2). }
  { rewrite (pp_other _ _ _ _ _ _ Hp2) by done. apply (ne_props _ _ _ _ Hne). }
  exists x3. split.
  - unfold add_node. rewrite (bind_Ret _ _ _ _ _ (xcall_run _ s _ _ Hnew)).
    rewrite (bind_Ret _ _ _ _ _ (xcall_run _ (set_xml x1 s) _ _ Hput2)).
    by rewrite (bind_Ret _ _ _ _ _ (xcall_run _ (set_xml x2 s) _ _ Hput3)).
  - eapply hung_child; [done|exact Hca|]. eapply built_prop; [done| |exact Hp3].
    eapply built_prop; [done|by apply built_new|exact Hp2].
Qed.

(** The labels are cut where the path of the file ends. *)
Lemma suse_node_eq t name m : aug_get_xml_node t name m = Redhat.aug_get_xml_node t (ifcfg_node name) m.
Proof.
  unfold aug_get_xml_node, Redhat.aug_get_xml_node, ifcfg_node. rewrite !string_length_app.
  cbn -[aug_get string_drop]. done.
Qed.

Lemma suse_address_run t name s : ready d a s -> alive t (xml s) -> suse_describable a name ->
  hangs (' (r, mac) ← find_hwaddr_by_device name; when (0 <? r) (add_node (Some t) "HWADDR" mac)) s tt t
    (udev_address a name).
Proof.
  intros Hs Ht [Hq _ _]. unfold udev_address.
  set (rules := matches a (aug_files +:+ "/" +:+ udev_netrule_path +:+ "/*[ NAME = '" +:+ name +:+ "']")).
  assert (Hrun : find_hwaddr_by_device name s
    = (Ret match rules with [rule] => (1, (aug_get (rule +:+ "/" +:+ "ATTR{address}") a).2) | _ => (0, None) end, s)).
  { unfold find_hwaddr_by_device, on_error. repeat ready_step Hs.
    rewrite (proj2 (Z.ltb_ge _ 0)) by lia. repeat ready_step Hs. fold rules.
    destruct rules as [|rule [|]]; [done| |done]. repeat ready_step Hs. by destruct (aug_get _ a). }
  eapply hangs_pure; [exact Hrun|]. destruct rules as [|rule [|]]; [apply hangs_nothing|by apply add_node_run|apply hangs_nothing].
Qed.

Lemma suse_tree_run f name nint s : ready d a s -> 0 <= nint -> alive f (xml s) -> suse_describable a name ->
  hangs (aug_get_xml_tree (Some f) name nint (Some name)) s tt f [suse_tree a name].
Proof.
  intros Hs Hn Hf Hok. apply (hangs_child_prop f "tree" "path" (Some name)); [done|set_solver|]. intros t x Ht.
  pose proof (ready_xml d a s x Hs) as Hs2. eapply hangs_pure; [done|].
  eapply hangs_pure; [apply (ready_fmt_match d a _ Hs2 _ (sd_settings a _ Hok))|].
  rewrite (proj2 (Z.ltb_ge _ _) Hn). eapply hangs_pure; [apply (ready_cond _ _ _ Hs2)|]. cbn [matched default id].
  eapply (hangs_bind _ _ _ tt); [done| |].
  - destruct (get_nodes_run d a (ifcfg_node name) t (set_xml x s)) as (x' & Hrun & Hh); [exact (sd_readable a _ Hok)|done|done|].
    exists x'. split; [|done]. rewrite <- Hrun. apply (for_each_ext _ (aug_get_xml_node (Some t) name)).
    intros m. apply suse_node_eq.
  - intros x' Ht'. change (setting_tree "DEVICE" (Some name) :: udev_address a name)
      with ([setting_tree "DEVICE" (Some name)] ++ udev_address a name). eapply hangs_bind; [done|by apply add_node_run|]. intros x'' Ht''.
    apply suse_address_run; [|done|done]. by apply (ready_xml d a s).
Qed.

Lemma suse_find_run entries name s : ready d a s -> opendir network_scripts_path (world s) = Some entries ->
  find_ifcfg_file_by_name name s =
    (Ret (if decide (name ∈ omap ifcfg_name entries) then (1, [Some name]) else (-1, [None])), s).
Proof.
  intros Hs Hd. unfold find_ifcfg_file_by_name.
  rewrite (bind_Ret _ _ s (Some entries) s) by (unfold gets; by rewrite Hd).
  rewrite (bind_Ret _ _ _ _ _ (ready_alloc _ _ _ Hs _)). unfold on_error.
  assert (Hloop : forall acc, for_acc entries acc (fun ent acc =>
       match ifcfg_name ent with
       | None => ret acc
       | Some n =>
           if (String.length n =? String.length name)%nat && STREQLEN n name (String.length name) then
             if negb true then halt (UB "NULL pointer") else
             o ← xasprintf n;
             ERR_NOMEM (is_null o) ;;
             ret (1, [o])
           else ret acc
       end) s = (Ret (if decide (name ∈ omap ifcfg_name entries) then (1, [Some name]) else acc), s)).
  { clear Hd. induction entries as [|ent entries IH]; intros acc; [done|]. cbn [for_acc omap list_omap].
    destruct (ifcfg_name ent) as [n|]; [|rewrite bind_ret_l; apply IH].
    assert (Heq : (String.length n =? String.length name)%nat && STREQLEN n name (String.length name)
                  = bool_decide (n = name)).
    { case_bool_decide as E; [subst; by rewrite Nat.eqb_refl; apply STREQ_refl|].
      destruct (Nat.eqb_spec (String.length n) (String.length name)) as [El|]; [|done]. cbn [andb].
      apply STREQ_neq. intros Hs'. apply E. revert Hs'. rewrite <- El at 1. unfold STREQLEN.
      fold (string_take (String.length n) n) (string_take (String.length name) name).
      by rewrite !string_take_all. }
    rewrite Heq. case_bool_decide as E.
    - subst n. cbn [negb]. rewrite bind_assoc, (bind_Ret _ _ _ _ _ (ready_str _ _ _ Hs _)).
      cbn [is_null]. unfold ERR_NOMEM, when. rewrite bind_assoc, !bind_ret_l, IH.
      rewrite (decide_True (P := name ∈ name :: _)) by (by left). by case_decide.
    - rewrite bind_ret_l, IH. repeat case_decide; set_solver. }
  by rewrite Hloop.
Qed.

Lemma suse_xml_run entries p nif s :
  ready d a s -> ifs s !! p = Some nif -> opendir network_scripts_path (world s) = Some entries ->
  suse_describable a (nif_name nif) ->
  exists dd f x, aug_get_xml_for_nif p s = (Ret (Some dd), set_xml x s) /\ xmlDocGetRootElement (Some dd) x = Some f /\
    reps x (fun m => alive m x) f (suse_forest a entries (nif_name nif)).
Proof.
  intros Hs Hp Hd Hok. set (name := nif_name nif). destruct (new_document "forest" (xml s) ltac:(set_solver)) as (dd & f & x1 & x2 & x3 & Hnew & Hnode & Hset & Hroot & Hne3).
  pose proof (ne_alive _ _ _ _ Hne3) as Hf3.
  set (r := if decide (name ∈ omap ifcfg_name entries) then (1, [Some name]) else (-1, [None])).
  assert (Hloop : hangs (for_each (take (Z.to_nat r.1) r.2) (aug_get_xml_tree (Some f) name r.1)) (set_xml x3 s) tt f
    (if decide (name ∈ omap ifcfg_name entries) then [suse_tree a name] else [])).
  { subst r. case_decide; [|apply hangs_nothing]. cbn [fst snd]. change (take (Z.to_nat 1) [Some name]) with [Some name].
    destruct (suse_tree_run f name 1 (set_xml x3 s)) as (x & Hrun & Hh); [by apply ready_xml|lia|done|done|].
    exists x. split; [|done]. cbn [for_each]. by rewrite (bind_Ret _ _ _ _ _ Hrun). }
  destruct Hloop as (x & Hrun & Hh). exists dd, f, x. split; [|split; [by apply Hh|]].
  - unfold aug_get_xml_for_nif. rewrite (bind_Ret _ _ _ _ _ (if_name_ret s p nif Hp)).
    rewrite (bind_Ret _ _ _ _ _ (suse_find_run entries name s Hs Hd)). fold r.
    assert (Hget' : aug_get_xml p r.1 r.2 s = (Ret (Some dd), set_xml x s)).
    { unfold aug_get_xml. rewrite (bind_Ret _ _ _ _ _ (if_name_ret s p nif Hp)). unfold on_error. repeat ready_step Hs.
      rewrite (bind_Ret _ _ _ _ _ (xcall_run _ s _ _ Hnew)).
      rewrite (bind_Ret _ _ _ _ _ (xcall_run _ (set_xml x1 s) _ _ Hnode)), set_xml_set.
      rewrite (bind_Ret (xcall _) _ (set_xml x2 s) tt (set_xml x3 s)) by (by rewrite Hset). by rewrite (bind_Ret _ _ _ _ _ Hrun). }
    destruct r as [n l]. unfold on_error. rewrite (bind_Ret _ _ _ _ _ (ready_bail _ _ _ Hs)). cbn [fst snd] in Hget'. by rewrite Hget'.
  - apply (built_reps x3); [done|]. apply (built_hung x3 f x3 x "forest" ∅ []); [done| |exact Hh]. by apply built_new.
Qed.
End code.

(** ** A file and a rule of udev *)

Definition toy_sus_xml : toy_aug :=
  let rule := aug_files +:+ "/" +:+ udev_netrule_path +:+ "/1" in
  {| t_match :=
       [(ifcfg_node "eth0" +:+ "/*", [ifcfg_node "eth0" +:+ "/BOOTPROTO"]);
        (aug_files +:+ "/" +:+ udev_netrule_path +:+ "/*[ NAME = 'eth0']", [rule])];
     t_value :=
       [(ifcfg_node "eth0" +:+ "/BOOTPROTO", "dhcp"); (rule, ""); (rule +:+ "/" +:+ "ATTR{address}", "52:54:00:1a:ff:01")];
     t_ops := [] |}.

Definition toy_eth0 : netcf_if := {| nif_ref := 1; nif_name := "eth0"; nif_mac := None |}.
Definition toy_sus_state : state (H := toy_host) := set_ifs (H := toy_host) {[ 0%nat := toy_eth0 ]} (toy_state toy_os toy_sus_xml).

Lemma toy_sus_describable : suse_describable (H0 := toy_augeas) toy_sus_xml "eth0".
Proof. split; [by apply toy_answers..|]. intros m _. cbn. by case_match. Defined.

(** ** Property *)

(** C27: the document that describes an interface of SuSE has the settings of its file, its
    name and the address that udev knows for it. An interface without a file in the
    directory is described by an empty forest, and without an error: the number -1 that
    says so is only tested inside the loop that it keeps from running. *)
Theorem suse_describes `{Augeas, !Kernel, !Netlink, !Libxml, !Posix, !SuseConfig, !XmlBuild _}
  (d : driver) (a : aug) (s : state) (p : nat) (nif : netcf_if) (entries : list (string * bool))
  (Hs : ready d a s) (Hp : ifs s !! p = Some nif) (Hok : suse_describable a (nif_name nif))
  (Hd : opendir network_scripts_path (world s) = Some entries) :
  exists dd f x, aug_get_xml_for_nif p s = (Ret (Some dd), set_xml x s) /\ xmlDocGetRootElement (Some dd) x = Some f /\
    reps x (fun m => alive m x) f (suse_forest a entries (nif_name nif)).
Proof. by apply (suse_xml_run d a). Qed.

Lemma suse_describes_witness :
  exists dd f x, aug_get_xml_for_nif (H0 := toy_augeas) 0 toy_sus_state = (Ret (Some dd), set_xml x toy_sus_state) /\
    xmlDocGetRootElement (Libxml := toy_libxml) (Some dd) x = Some f /\
    reps (H0 := toy_libxml) x (fun m => alive m x) f
      (Elem "forest" ∅ [Elem "tree" (<["path" := "eth0"]> ∅)
        [Elem "node" (<["value" := "dhcp"]> (<["label" := "BOOTPROTO"]> ∅)) [];
         Elem "node" (<["value" := "eth0"]> (<["label" := "DEVICE"]> ∅)) [];
         Elem "node" (<["value" := "52:54:00:1a:ff:01"]> (<["label" := "HWADDR"]> ∅)) []]]).
Proof.
  exact (@suse_describes toy_host toy_augeas toy_kernel toy_netlink toy_libxml toy_posix toy_suse toy_build
    (toy_driver toy_sus_xml) toy_sus_xml toy_sus_state 0 toy_eth0 _ ltac:(split; try reflexivity; intros _; reflexivity)
    eq_refl toy_sus_describable eq_refl).
Defined.
