(* ===== verification/LookupMac.v ===== *)
(** * Looking interfaces up by their MAC address

    The lookups of drv_redhat.c, drv_debian.c and drv_suse.c: on failure nothing is
    left of the interfaces they created; on success they find what a reference
    function over the tree says, and create as many as fit. *)

From S2P Require Import Prelude CStr XsltExt State Refs Toy Posix Xml Netcf Linux Common Redhat RedhatSpec AugDriver Debian DebianSpec Suse SuseSpec.

(** ** Looking up by MAC address: who owns the interfaces *)

Section owners.
Context `{Augeas, !Kernel, !Netlink, !Libxml, !Posix, !RedhatConfig}.
Implicit Types s : state.

(** Since [s0], interfaces with these names have been created, in this order. *)
Record added s0 s (ns : list string) : Prop := {
  ad_wf : refs_wf s;
  ad_next : next_if s = (next_if s0 + length ns)%nat;
  ad_old q : (q < next_if s0)%nat -> ifs s !! q = ifs s0 !! q;
  ad_new j n : ns !! j = Some n ->
    ifs s !! (next_if s0 + j)%nat = Some {| nif_ref := 1; nif_name := n; nif_mac := None |}
}.

Definition ptrs s0 (ns : list string) : list (option nat) :=
  Some <$> seq (next_if s0) (length ns).

Lemma added_same s0 s s' ns : refs_same s s' -> added s0 s ns -> added s0 s' ns.
Proof.
  intros Hr [Hw Hn Ho Hnew]. pose proof Hr as (_ & _ & Hi & Hx).
  split; [by apply (refs_same_wf s)|congruence|intros q; rewrite Hi; apply Ho|].
  intros j n. rewrite Hi. apply Hnew.
Qed.

Lemma added_one s0 s ns n (s1 := with_if s (next_if s) {| nif_ref := 1; nif_name := n; nif_mac := None |}
    (ref_incr (ncf_ref (ncf s)))) :
  room s1 -> added s0 s ns -> added s0 s1 (ns ++ [n]).
Proof.
  intros Hroom [Hw Hn Ho Hnew]. subst s1. unfold room in Hroom. cbn in Hroom.
  pose proof (refs_wf_size s Hw). pose proof (wf_count s Hw).
  split; cbn.
  - apply refs_wf_with_if; [done..|lia].
  - rewrite length_app, Hn. cbn. lia.
  - intros q Hq. rewrite lookup_insert_ne by lia. by apply Ho.
  - intros j m Hj. rewrite Hn. apply lookup_app_Some in Hj as [Hj|[Hl Hj]].
    + rewrite lookup_insert_ne; [by apply Hnew|]. apply lookup_lt_Some in Hj. lia.
    + destruct (j - length ns)%nat eqn:E; [|by destruct n0]. injection Hj as ->.
      replace (next_if s0 + j)%nat with (next_if s0 + length ns)%nat by lia. apply lookup_insert_eq.
Qed.

(** One more interface: it is added, or there is an error and nothing changed. *)
Lemma make_added s0 s ns n nif s' : added s0 s ns -> make_netcf_if n s = (Ret nif, s') ->
  (nif = None /\ failed s' /\ added s0 s' ns) \/
  (nif = Some (next_if s) /\ (room s' -> added s0 s' (ns ++ [n]))).
Proof.
  intros Had Hmk. rewrite make_netcf_if_run in Hmk. pose proof (malloc_refs s) as Hms.
  destruct (malloc s) as [b s1]. cbn in Hms. pose proof (added_same s0 s s1 ns Hms Had) as Had1.
  destruct Hms as (Hf & Hrc & Hi & Hnx). destruct b as [[]| |w]; injection Hmk as <- <-.
  2-4: left; split; [done|]; split; [discriminate|]; apply (added_same s0 s); [by repeat split|done].
  right. split; [done|]. rewrite <- Hrc, <- Hnx. intros Hroom. by apply added_one.
Qed.

Lemma ptrs_snoc s0 s ns n : added s0 s ns -> ptrs s0 (ns ++ [n]) = ptrs s0 ns ++ [Some (next_if s)].
Proof.
  intros Had. unfold ptrs. rewrite length_app, seq_app, fmap_app. cbn. by rewrite (ad_next _ _ _ Had).
Qed.

Lemma strdup_cases n s o s' : strdup n s = (Ret o, s') -> (o = None \/ o = Some n) /\ refs_same s s'.
Proof.
  intros Hd. pose proof (strdup_refs n s) as Hs. rewrite Hd in Hs. split; [|exact Hs].
  unfold strdup, malloc, bind in Hd. destruct (mem s) as [|[] ?]; injection Hd as <- _; auto.
Qed.

(** What the loop has done when it ends in [s]: [ns'] are the names it added. *)
Definition filled s0 (ns names : list string) (k : nat) (ok : bool) (l : list (option nat)) s : Prop :=
  exists ns', added s0 s (ns ++ ns') /\
    l = ptrs s0 (ns ++ ns') ++ replicate (k - length ns') None /\ (length ns' <= k)%nat /\
    if ok then ns' = take k names else failed s.

Lemma filled_nothing s0 s ns names k : added s0 s ns -> failed s ->
  filled s0 ns names k false (ptrs s0 ns ++ replicate k None) s.
Proof. intros Had Hf. exists []. rewrite app_nil_r, Nat.sub_0_r. split_and!; [done..|cbn; lia|done]. Qed.

Lemma filled_more s0 s ns n names k ok l : filled s0 (ns ++ [n]) names k ok l s ->
  filled s0 ns (n :: names) (S k) ok l s.
Proof.
  intros (ns' & Had & Hl & Hle & Hok). exists (n :: ns'). rewrite <- app_assoc in Had, Hl.
  cbn [app length Nat.sub] in *. split_and!; [done|done|lia|]. destruct ok; [cbn; by f_equal|done].
Qed.

(** The turn of the loop after the name has been copied. *)
Lemma mac_turn s0 s ns n names k ok l s' :
  added s0 s ns ->
  (nif ← make_netcf_if n;
   let ifaces' := <[Z.to_nat (Z.of_nat (length ns)) := nif]> (ptrs s0 ns ++ replicate (S k) None) in
   c ← gets err;
   if decide (c <> NETCF_NOERROR) then ret (false, ifaces')
   else mac_ifaces names (Z.of_nat (length ns) + 1) (Z.of_nat (length ns + S k)) ifaces') s
  = (Ret (ok, l), s') -> room s' ->
  filled s0 ns (n :: names) (S k) ok l s' \/
  exists s1, added s0 s1 (ns ++ [n]) /\
    mac_ifaces names (Z.of_nat (length (ns ++ [n]))) (Z.of_nat (length (ns ++ [n]) + k))
      (ptrs s0 (ns ++ [n]) ++ replicate k None) s1 = (Ret (ok, l), s').
Proof.
  intros Had Hr Hroom. apply bind_inv in Hr as [(nif & s1 & Hmk & Hr)|[[_ ?]|(w & _ & ?)]]; [|done..].
  assert (Z.to_nat (Z.of_nat (length ns)) = length (ptrs s0 ns)) as Hidx
    by (unfold ptrs; rewrite length_fmap, length_seq; lia).
  rewrite Hidx, insert_app_r_alt, Nat.sub_diag in Hr by done. cbn [replicate insert list_insert] in Hr.
  unfold bind, gets in Hr.
  destruct (make_added s0 s ns n nif s1 Had Hmk) as [(-> & Hf & Had1)|(-> & Had1)].
  - rewrite decide_True in Hr by done. apply ret_inv in Hr as [[= -> ->] ->]. left.
    by apply filled_nothing.
  - rewrite (ptrs_snoc s0 s ns n Had). destruct (decide (err s1 <> NETCF_NOERROR)) as [Hf|].
    + apply ret_inv in Hr as [[= -> ->] ->]. left. apply filled_more.
      replace (ptrs s0 ns ++ Some (next_if s) :: replicate k None)
        with (ptrs s0 (ns ++ [n]) ++ replicate k None)
        by (by rewrite (ptrs_snoc s0 s ns n Had), <- app_assoc).
      apply filled_nothing; auto.
    + right. exists s1. rewrite length_app, <- app_assoc. cbn [length app].
      replace (length ns + 1 + k)%nat with (length ns + S k)%nat by lia.
      replace (Z.of_nat (length ns + 1)) with (Z.of_nat (length ns) + 1) by lia. split; [|done].
      apply Had1. pose proof (mac_ifaces_grows names (Z.of_nat (length ns) + 1) (Z.of_nat (length ns + S k))
        (ptrs s0 ns ++ Some (next_if s) :: replicate k None) s1) as (_ & Hle & _). rewrite Hr in Hle.
      unfold room in *. cbn [snd] in Hle. lia.
Qed.

(** The loop that creates interfaces: the first entries of the array are what it
    created, and the loop comes to its end only if it created all it should. *)
Lemma mac_ifaces_added s0 names ns k : forall s ok l s',
  added s0 s ns ->
  mac_ifaces names (Z.of_nat (length ns)) (Z.of_nat (length ns + k))
    (ptrs s0 ns ++ replicate k None) s = (Ret (ok, l), s') -> room s' ->
  filled s0 ns names k ok l s'.
Proof.
  revert ns k. induction names as [|n names IH]; intros ns k s ok l s' Had Hr Hroom.
  { cbn [mac_ifaces] in Hr. apply ret_inv in Hr as [[= -> ->] ->]. exists [].
    rewrite app_nil_r, Nat.sub_0_r, take_nil. split_and!; [done..|cbn; lia|done]. }
  cbn [mac_ifaces] in Hr. destruct k as [|k].
  { rewrite (proj2 (Z.ltb_ge _ _)) in Hr by lia. cbn [negb] in Hr.
    apply ret_inv in Hr as [[= -> ->] ->]. exists []. rewrite app_nil_r. by split_and!. }
  rewrite (proj2 (Z.ltb_lt _ _)) in Hr by lia. cbn [negb] in Hr.
  apply bind_inv in Hr as [(o & s1 & Hdup & Hr)|[[_ ?]|(w & _ & ?)]]; [|done..].
  apply strdup_cases in Hdup as [Ho Hsame]. pose proof (added_same s0 s s1 ns Hsame Had) as Had1.
  destruct Ho as [-> | ->].
  - apply bind_inv in Hr as [([] & s2 & He & Hr)|[[_ ?]|(w & _ & ?)]]; [|done..].
    injection He as <-. apply ret_inv in Hr as [[= -> ->] ->]. apply filled_nothing; [|discriminate].
    by apply (added_same s0 s1 _ ns (set_errcode_refs NETCF_ENOMEM s1)).
  - destruct (mac_turn s0 s1 ns n names k ok l s' Had1 Hr Hroom) as [?|(s2 & Had2 & Hr2)]; [done|].
    apply filled_more. by apply (IH _ _ s2).
Qed.

(** Releasing interfaces, each once. *)
Lemma release_run ps k s : refs_wf s -> NoDup ps -> (forall p, p ∈ ps -> is_Some (ifs s !! p)) ->
  exists s', for_each ((Some <$> ps) ++ replicate k None) unref_netcf_if s = (Ret tt, s') /\
    refs_wf s' /\ (forall q, ifs s' !! q = if decide (q ∈ ps) then None else ifs s !! q).
Proof.
  intros Hwf Hnd Hin. destruct (release_all ps s Hwf Hnd Hin) as (s' & Hr & Hw & Hi).
  exists s'. split; [|done]. rewrite for_each_app, (bind_Ret _ _ _ _ _ Hr). clear.
  induction k; [done|]. cbn [replicate for_each]. unfold unref_netcf_if at 1. by rewrite bind_ret_l.
Qed.

Lemma release_added s0 s ns k l r s' : refs_wf s0 -> added s0 s ns ->
  l = ptrs s0 ns ++ replicate k None -> release_ifaces l s = (Ret r, s') ->
  r = (-1, replicate (length ns + k) None) /\ ifs s' = ifs s0 /\ ncf_ref (ncf s') = ncf_ref (ncf s0).
Proof.
  intros Hwf0 [Hwf Hn Ho Hnew] -> Hr.
  assert (Hall : forall q, q ∈ seq (next_if s0) (length ns) <-> (next_if s0 <= q < next_if s0 + length ns)%nat)
    by (intros q; apply elem_of_seq).
  destruct (release_run (seq (next_if s0) (length ns)) k s Hwf (NoDup_seq _ _)) as (s2 & Hr2 & Hw2 & Hi2).
  { intros q Hq. apply Hall in Hq. destruct (lookup_lt_is_Some_2 ns (q - next_if s0)) as [n Hj]; [lia|].
    apply Hnew in Hj. replace (next_if s0 + (q - next_if s0))%nat with q in Hj by lia. by eexists. }
  unfold release_ifaces in Hr. rewrite (bind_Ret _ _ _ _ _ Hr2) in Hr. apply ret_inv in Hr as [-> ->].
  assert (Hifs : ifs s2 = ifs s0).
  { apply map_eq. intros q. rewrite Hi2. destruct (decide (q ∈ seq (next_if s0) (length ns))) as [Hq|Hq].
    - apply Hall in Hq. symmetry. apply (wf_fresh _ Hwf0). lia.
    - destruct (decide (q < next_if s0)%nat) as [Hlt|Hge]; [by apply Ho|].
      rewrite (wf_fresh _ Hwf0 q) by lia. apply (wf_fresh _ Hwf). rewrite Hall in Hq. lia. }
  split; [|split; [done|]].
  - unfold ptrs. rewrite fmap_app. do 2 f_equal. rewrite replicate_add. f_equal.
    + rewrite <- (length_seq (length ns) (next_if s0)) at 2. generalize (seq (next_if s0) (length ns)).
      intros l. induction l; cbn; by f_equal.
    + by rewrite fmap_replicate.
  - rewrite (wf_count _ Hw2), (wf_count _ Hwf0). by rewrite Hifs.
Qed.

Lemma added_nil s0 s : refs_wf s0 -> refs_same s0 s -> added s0 s [].
Proof.
  intros Hwf Hs. eapply added_same; [exact Hs|]. split; [done|cbn; lia|done|]. by intros [].
Qed.
End owners.

Section lookup.
Context `{Augeas, !Kernel, !Netlink, !Libxml, !Posix, !RedhatConfig}.
Implicit Types s : state.

(** How a lookup that started in [s0] with room for [n] interfaces ends: on
    failure nothing is left of the interfaces it created; otherwise the array
    begins with the ones it created. *)
Definition looked_up s0 (n : nat) (r : Z) (l : list (option nat)) s : Prop :=
  if decide (r < 0) then
    l = replicate n None /\ ifs s = ifs s0 /\ ncf_ref (ncf s) = ncf_ref (ncf s0)
  else exists ns, added s0 s ns /\ length ns = min (Z.to_nat r) n /\
    l = ptrs s0 ns ++ replicate (n - length ns) None.

(** The same for the body, which may also bail out before it creates any. *)
Definition looking s0 (n : nat) (res : outcome (Z * list (option nat)) * state) : Prop :=
  room res.2 ->
  match res.1 with
  | Ret (r, l) => looked_up s0 n r l res.2
  | Bail => refs_same s0 res.2
  | Stop _ => True
  end.

Lemma looking_bind {A} s0 n s (m : M A) (k : A -> M (Z * list (option nat))) :
  pres refs_same m -> refs_same s0 s ->
  (forall a s1, refs_same s0 s1 -> looking s0 n (k a s1)) -> looking s0 n ((m ≫= k) s).
Proof.
  intros Hm Hs Hk. specialize (Hm s). unfold bind. destruct (m s) as [[a| |w] s1]; cbn in Hm.
  - apply Hk. by transitivity s.
  - intros _. cbn. by transitivity s.
  - by intros _.
Qed.

Lemma closed_release l : closed (release_ifaces l).
Proof. unfold release_ifaces. fails_auto. Qed.

Lemma looking_ifaces s0 n names s : refs_wf s0 -> refs_same s0 s ->
  looking s0 n ((' (ok, l) ← mac_ifaces names 0 (Z.of_nat n) (replicate n None);
                 if (ok : bool) then ret (Z.of_nat (length names), l) else release_ifaces l) s).
Proof.
  intros Hwf Hs. unfold bind.
  pose proof (mac_ifaces_post names 0 (Z.of_nat n) (replicate n None) s) as Hpost.
  destruct (mac_ifaces names 0 (Z.of_nat n) (replicate n None) s) as [[[ok l]| |w] s1] eqn:Hr; [|done|by intros _].
  intros Hroom. assert (Hroom1 : room s1).
  { destruct ok; [exact Hroom|]. pose proof (release_ifaces_grows l s1) as (_ & Hle & _).
    unfold room in *. lia. }
  destruct (mac_ifaces_added s0 names [] n s ok l s1 (added_nil s0 s Hwf Hs) Hr Hroom1)
    as (ns & Had & Hl & Hle & Hok). cbn [app] in *. destruct ok; cbn.
  - unfold looked_up. rewrite decide_False by lia. exists ns. rewrite Nat2Z.id.
    split_and!; [done|rewrite Hok, length_take; lia|done].
  - destruct (release_ifaces l s1) as [[r| |w] s2] eqn:Hrel; cbn; [|by pose proof (closed_release l s1) as Hc; rewrite Hrel in Hc|done].
    destruct (release_added s0 s1 ns _ l r s2 Hwf Had Hl Hrel) as (-> & Hi & Hc).
    unfold looked_up. rewrite decide_True by lia. split_and!; [f_equal; lia|done|done].
Qed.

Lemma steady_refs {A} (m : M A) : pres steady m -> pres refs_same m.
Proof. intros Hm s. apply Hm. Qed.

Lemma lookup_run (body : M (Z * list (option nat))) s k r l s' : refs_wf s -> looking s k (body s) ->
  on_error body (release_ifaces (replicate k None)) s = (Ret (r, l), s') -> room s' ->
  looked_up s k r l s'.
Proof.
  intros Hwf Hlk Hr Hroom. apply on_error_inv in Hr as [[Hr _]|(s1 & Hb & Hr)].
  - rewrite Hr in Hlk. by apply Hlk.
  - rewrite Hb in Hlk. pose proof (release_ifaces_grows (replicate k None) s1) as (_ & Hle & _).
    rewrite Hr in Hle. specialize (Hlk ltac:(unfold room in *; cbn in *; lia)). cbn in Hlk.
    destruct (release_added s s1 [] k _ (r, l) s' Hwf (added_nil s s1 Hwf Hlk) eq_refl Hr) as ([= -> ->] & Hi & Hc).
    unfold looked_up. by rewrite decide_True.
Qed.

(** What the drivers do with the matches, the collection of names being [step]. *)
Lemma looking_tail (step : string -> list string -> M (list string)) s0 k ms s :
  refs_wf s0 -> refs_same s0 s -> (forall m acc, pres steady (step m acc)) ->
  looking s0 k
    ((if decide (length ms = O) then ret (0, replicate k None) else
      b ← ALLOC_N (length ms);
      ERR_NOMEM (negb b) ;;
      names ← for_acc ms [] step;
      ' (ok, ifaces') ← mac_ifaces names 0 (Z.of_nat k) (replicate k None);
      if (ok : bool) then ret (Z.of_nat (length names), ifaces') else release_ifaces ifaces') s).
Proof.
  intros Hwf Hs Hstep. case_decide.
  - intros _. cbn. unfold looked_up. rewrite decide_False by done. exists [].
    split_and!; [by apply added_nil|done|by rewrite Nat.sub_0_r].
  - do 3 (refine (looking_bind _ _ _ _ _ _ _ _); [apply steady_refs; pres_auto|done|intros ? ? ?]).
    by apply looking_ifaces.
Qed.
End lookup.

(** ** What a lookup finds *)

Section found.
Context `{Augeas}.
Implicit Types s : state.

(** The expression that [aug_match_mac] asks for; letter case does not matter. *)
Definition sysfs_query (m : string) : string :=
  "/files/sys/class/net/*[address/content = '" +:+ lower m +:+ "']".

Definition basename (p : string) : string :=
  match strrchr p "/"%char with Some r => string_drop 1 r | None => p end.

(** The devices that the kernel gives this address. *)
Definition mac_devices (a : aug) (m : string) : list string := basename <$> matches a (sysfs_query m).

(** Augeas answers with paths. *)
Definition rooted (a : aug) (m : string) : Prop :=
  forall p, p ∈ matches a (sysfs_query m) -> is_Some (strrchr p "/"%char).

(** Interfaces with these names, created one after the other *)
Definition created (ns : list string) s : state :=
  foldl (fun s n => with_if s (next_if s) {| nif_ref := 1; nif_name := n; nif_mac := None |}
                      (ref_incr (ncf_ref (ncf s)))) s ns.

(** All hits are counted; those that fit in the array are created, in order. *)
Definition found (n : nat) (hits : list string) s : outcome (Z * list (option nat)) * state :=
  (Ret (Z.of_nat (length hits),
        (Some <$> seq (next_if s) (min n (length hits))) ++ replicate (n - length hits) None),
   created (take n hits) s).

(** Red Hat: a file mentions the device or something below it, and the file of the
    device does not make it part of a bridge or a bond. *)
Definition mention_query (m : string) : string :=
  Redhat.ifcfg_path +:+ "[ DEVICE = '" +:+ m +:+ "'    or BRIDGE = '" +:+ m +:+
    "'    or MASTER = '" +:+ m +:+ "'    or MASTER = ../*[BRIDGE = '" +:+ m +:+
    "']/DEVICE ]/DEVICE".

Definition device_query (m : string) : string := Redhat.ifcfg_path +:+ "[DEVICE = '" +:+ m +:+ "']".

Definition redhat_keeps (a : aug) (m : string) : bool :=
  bool_decide (matches a (mention_query m) <> []) && negb (enslaved a (device_query m)).

(** Debian: a stanza that no bridge or bond mentions *)
Definition stanza_query (m : string) : string := network_interfaces_path +:+ "/iface[. = '" +:+ m +:+ "']".

Definition debian_keeps (a : aug) (m : string) : bool :=
  bool_decide (matches a (stanza_query m) <> []) && negb (deb_enslaved a m).

(** SuSE: a file; that the device is a slave is asked of a name it does not have. *)
Definition file_query (m : string) : string := aug_files +:+ "/" +:+ network_scripts_path +:+ "/ifcfg-" +:+ m.

Definition suse_keeps (a : aug) (m : string) : bool :=
  bool_decide (matches a (file_query m) <> [])
  && negb (suse_enslaved a (ifcfg_path +:+ "[DEVICE = '" +:+ m +:+ "']")).

(** The queries made about a device are answered: its name, which comes from the
    kernel, does not spoil them. *)
Definition redhat_asked (a : aug) (m : string) : Prop :=
  answers a (mention_query m) /\ forall k, k ∈ Redhat.subif_paths -> answers a (device_query m +:+ "/" +:+ k).
Definition debian_asked (a : aug) (m : string) : Prop := answers a (stanza_query m).
Definition suse_asked (a : aug) (m : string) : Prop :=
  answers a (file_query m) /\ slave_answered a (ifcfg_path +:+ "[DEVICE = '" +:+ m +:+ "']") = true.

Definition mac_hits (keeps : aug -> string -> bool) (a : aug) (m : string) : list string :=
  filter (fun n => keeps a n = true) (mac_devices a m).

(** The lookup fails, and the array is empty. *)
Definition not_found (n : nat) s : outcome (Z * list (option nat)) * state :=
  (Ret (-1, replicate n None), refused s).
End found.

Section found_run.
Context `{Augeas, !Kernel}.
Context (d : driver) (a : aug) (s : state) (Hs : ready d a s).

Lemma aug_match_mac_run m : answers a (sysfs_query m) -> rooted a m ->
  aug_match_mac m s = (Ret (Some (mac_devices a m)), s).
Proof.
  intros Hq Hroot. unfold aug_match_mac, on_error. fold (sysfs_query m). repeat ready_step Hs.
  erewrite bind_Ret; [|apply (for_map_pure _ _ basename)]; [done|].
  intros p Hp. destruct (Hroot p Hp) as [r Hr]. unfold basename. rewrite Hr, bind_ret_l.
  by repeat ready_step Hs.
Qed.

Lemma aug_match_mac_refused m : answered a (sysfs_query m) = false ->
  aug_match_mac m s = (Ret None, refused s).
Proof.
  intros Hq. unfold aug_match_mac, on_error. fold (sysfs_query m). repeat ready_step Hs.
  by rewrite (bind_Ret _ _ _ _ _ (ready_fmt_refused d a s Hs _ (refused_not _ _ Hq))).
Qed.

Lemma release_nothing k : release_ifaces (replicate k None) s = (Ret (-1, replicate k None), s).
Proof.
  unfold release_ifaces. erewrite bind_Ret; [by rewrite fmap_replicate|].
  induction k; [done|]. cbn [replicate for_each]. unfold unref_netcf_if at 1. by rewrite bind_ret_l.
Qed.

Lemma nmatches_pos p : (0 <? Z.of_nat (length (matches a p))) = bool_decide (matches a p <> []).
Proof. destruct (matches a p); [done|]. rewrite bool_decide_true by done. apply Z.ltb_lt. cbn. lia. Qed.

(** The loop over the matches keeps what passes the test. *)
Lemma mac_steps_run (step : string -> list string -> M (list string)) (keep : string -> bool) ms acc :
  (forall m acc, m ∈ ms -> step m acc s = (Ret (if keep m then acc ++ [m] else acc), s)) ->
  for_acc ms acc step s = (Ret (acc ++ filter (fun m => keep m = true) ms), s).
Proof.
  revert acc. induction ms as [|m ms IH]; intros acc Hstep; [by rewrite app_nil_r|].
  cbn [for_acc]. rewrite (bind_Ret _ _ _ _ _ (Hstep m acc ltac:(left))), IH, filter_cons
    by (intros x acc' Hx; apply Hstep; by right).
  destruct (keep m); [by rewrite decide_True, <- app_assoc|by rewrite decide_False].
Qed.

(** One interface more *)
Lemma make_netcf_if_ready n :
  make_netcf_if n s = (Ret (Some (next_if s)), created [n] s) /\ ready d a (created [n] s).
Proof.
  rewrite make_netcf_if_run. unfold malloc. rewrite (rd_mem _ _ _ Hs). split; [done|].
  by destruct Hs.
Qed.
End found_run.

Section found_loop.
Context `{Augeas, !Kernel, !Netlink, !Libxml, !Posix, !RedhatConfig}.

Lemma mac_ifaces_run d a ns pre k : forall s, ready d a s ->
  mac_ifaces ns (Z.of_nat (length pre)) (Z.of_nat (length pre + k)) (pre ++ replicate k None) s
  = (Ret (true, pre ++ (Some <$> seq (next_if s) (min k (length ns))) ++ replicate (k - length ns) None),
     created (take k ns) s).
Proof.
  revert pre k. induction ns as [|n ns IH]; intros pre k s Hs; cbn [mac_ifaces].
  { by rewrite Nat.min_0_r, Nat.sub_0_r, take_nil. }
  destruct k as [|k]; [by rewrite (proj2 (Z.ltb_ge _ _)) by lia|].
  rewrite (proj2 (Z.ltb_lt _ _)) by lia. cbn [negb]. ready_step Hs.
  destruct (make_netcf_if_ready d a s Hs n) as [Hmk Hs1]. rewrite (bind_Ret _ _ _ _ _ Hmk).
  rewrite (bind_Ret (gets _) _ _ _ _ eq_refl), (rd_ok _ _ _ Hs1), decide_False by tauto.
  rewrite Nat2Z.id, insert_app_r_alt, Nat.sub_diag by done. cbn [replicate insert list_insert].
  specialize (IH (pre ++ [Some (next_if s)]) k (created [n] s) Hs1).
  rewrite length_app, <- !app_assoc in IH. cbn [length app] in IH.
  replace (length pre + 1 + k)%nat with (length pre + S k)%nat in IH by lia.
  replace (Z.of_nat (length pre) + 1) with (Z.of_nat (length pre + 1)) by lia. by rewrite IH.
Qed.

(** What the drivers do once they have the matches. *)
Lemma mac_tail_run d a s (step : string -> list string -> M (list string))
  (keep : string -> bool) ms n :
  ready d a s ->
  (forall m acc, m ∈ ms -> step m acc s = (Ret (if keep m then acc ++ [m] else acc), s)) ->
  (if decide (length ms = O) then ret (0, replicate n None) else
   b ← ALLOC_N (length ms);
   ERR_NOMEM (negb b) ;;
   names ← for_acc ms [] step;
   ' (ok, ifaces') ← mac_ifaces names 0 (Z.of_nat n) (replicate n None);
   if (ok : bool) then ret (Z.of_nat (length names), ifaces') else release_ifaces ifaces') s
  = found n (filter (fun m => keep m = true) ms) s.
Proof.
  intros Hs Hstep. case_decide as Hl.
  { apply nil_length_inv in Hl as ->. unfold found. by rewrite filter_nil, Nat.min_0_r, Nat.sub_0_r, take_nil. }
  repeat ready_step Hs. rewrite (bind_Ret _ _ _ _ _ (mac_steps_run s step keep ms [] Hstep)).
  cbn [app]. by rewrite (bind_Ret _ _ _ _ _ (mac_ifaces_run d a _ [] n s Hs)).
Qed.
End found_loop.

Section drivers.
Context `{Augeas, !Kernel, !Netlink, !Libxml, !Posix}.
Context (d : driver) (a : aug) (s : state) (Hs : ready d a s).

Lemma redhat_step_run `{!RedhatConfig} m acc : redhat_asked a m ->
  Redhat.mac_step m acc s = (Ret (if redhat_keeps a m then acc ++ [m] else acc), s).
Proof.
  intros [Hq Hsl]. unfold Redhat.mac_step, Redhat.has_ifcfg_file, redhat_keeps.
  fold (mention_query m) (device_query m). repeat ready_step Hs. rewrite nmatches_pos.
  case_bool_decide; cbn [negb andb]; [|done]. repeat ready_step Hs.
  destruct (is_slave_run d a s Hs _ Hsl) as (r & Hr & Hx).
  rewrite (bind_Ret _ _ _ _ _ Hr), <- Hx. by destruct (r =? 0).
Qed.

Lemma debian_step_run `{!DebianConfig} (Ha : deb_sane a) m acc : debian_asked a m ->
  Debian.mac_step m acc s = (Ret (if debian_keeps a m then acc ++ [m] else acc), s).
Proof.
  intros Hq. unfold Debian.mac_step, has_config, debian_keeps. fold (stanza_query m). repeat ready_step Hs.
  destruct (matches a _) as [|q l]; cbn [length]; [by repeat ready_step Hs|].
  rewrite (proj2 (Z.eqb_neq _ 0)), bool_decide_true by done. repeat ready_step Hs.
  rewrite (bind_Ret _ _ _ _ _ (deb_is_slave_run d a s Hs Ha m)). by repeat ready_step Hs.
Qed.

Lemma suse_file_run `{!SuseConfig} m : answers a (file_query m) ->
  Suse.has_ifcfg_file m s = (Ret (bool_decide (matches a (file_query m) <> [])), s).
Proof.
  intros Hq. unfold Suse.has_ifcfg_file, on_error. fold (file_query m). repeat ready_step Hs.
  rewrite (answers_nmatches a _ Hq), (proj2 (Z.ltb_ge _ 0)) by lia. repeat ready_step Hs.
  by rewrite nmatches_pos.
Qed.

Lemma suse_step_run `{!SuseConfig} m acc : suse_asked a m ->
  Suse.mac_step m acc s = (Ret (if suse_keeps a m then acc ++ [m] else acc), s).
Proof.
  intros [Hq Hsl]. unfold Suse.mac_step, suse_keeps.
  rewrite (bind_Ret _ _ _ _ _ (suse_file_run m Hq)).
  case_bool_decide; cbn [negb andb]; [|done]. repeat ready_step Hs.
  destruct (suse_is_slave_run d a s Hs _ Hsl) as (r & Hr & <-).
  rewrite (bind_Ret _ _ _ _ _ Hr). by destruct (r =? 0).
Qed.
End drivers.

(** ** A concrete tree: a bridge and its port with the same address, a third device

    The files of all three systems are there; in each of them [eth1] is a port of
    [br0], and nothing is said of [eth2]. *)

Definition toy_mac : toy_aug :=
  let dev n := "/files/sys/class/net/" +:+ n in
  let rh n := Redhat.ifcfg_path +:+ "[ DEVICE = '" +:+ n +:+ "'    or BRIDGE = '" +:+ n +:+
    "'    or MASTER = '" +:+ n +:+ "'    or MASTER = ../*[BRIDGE = '" +:+ n +:+ "']/DEVICE ]/DEVICE" in
  let slave := Redhat.ifcfg_path +:+ "[DEVICE = 'eth1']/BRIDGE" in
  let port := network_interfaces_path +:+ "/iface[1]/bridge_ports" in
  {| t_match :=
       [(sysfs_query "52:54:00:1A:FF:01", [dev "br0"; dev "eth1"; dev "eth2"]);
        (rh "br0", [dev "br0"]); (rh "eth1", [dev "eth1"]); (slave, [slave]);
        (network_interfaces_path +:+ "/iface[. = 'br0']", [dev "br0"]);
        (network_interfaces_path +:+ "/iface[. = 'eth1']", [dev "eth1"]);
        (network_interfaces_path +:+ "/iface/bridge_ports", [port]);
        (aug_files +:+ "/" +:+ network_scripts_path +:+ "/ifcfg-br0", [dev "br0"]);
        (aug_files +:+ "/" +:+ network_scripts_path +:+ "/ifcfg-eth1", [dev "eth1"]);
        (aug_files +:+ network_scripts_path +:+ "/ifcfg-eth1/BRIDGE", [slave])];
     t_value := [(dev "br0", ""); (dev "eth1", ""); (dev "eth2", ""); (slave, "br0"); (port, "eth1")];
     t_ops := [] |}.

Lemma toy_mac_nodes : Forall (fun kv => Forall (fun m => is_Some (assoc (t_value toy_mac) m)) kv.2) (t_match toy_mac).
Proof. repeat constructor; vm_compute; eexists; reflexivity. Defined.

Lemma toy_mac_deb_sane : deb_sane (H0 := toy_augeas) toy_mac.
Proof.
  pose proof (toy_valued toy_mac toy_mac_nodes) as Hv.
  split; [by apply toy_answers|exact (Hv _)|split; [by apply toy_answers|exact (Hv _)]..].
Defined.

Lemma toy_mac_devices :
  mac_devices (H0 := toy_augeas) toy_mac "52:54:00:1A:FF:01" = ["br0"; "eth1"; "eth2"].
Proof. vm_compute. reflexivity. Defined.

Lemma toy_mac_rooted m : m = "52:54:00:1A:FF:01" -> rooted (H0 := toy_augeas) toy_mac m.
Proof.
  intros -> p Hp. vm_compute in Hp.
  repeat (apply elem_of_cons in Hp as [->|Hp]; [vm_compute; eexists; reflexivity|]).
  by apply not_elem_of_nil in Hp.
Defined.

(** ** Properties *)

(** C14: looking interfaces up by their MAC address leaks nothing, in all three drivers: on failure the
    instance has the interfaces and the references it had before and the array is
    NULL all over; on success the result counts all interfaces with the address,
    and as many as fit in the array were created, with one owner each. *)
Theorem lookup_by_mac_spec `{Augeas, !Kernel, !Netlink, !Libxml, !Posix, !RedhatConfig, !DebianConfig, !SuseConfig}
  (lookup : string -> Z -> M (Z * list (option nat))) (mac : string) (n r : Z) (s s' : state) (l : list (option nat))
  (Hlookup : lookup ∈ [Redhat.drv_lookup_by_mac_string; Debian.drv_lookup_by_mac_string;
                       Suse.drv_lookup_by_mac_string])
  (Hwf : refs_wf s) (Hn : 0 <= n) (Hrun : lookup mac n s = (Ret (r, l), s'))
  (Hroom : room s') :
  if decide (r < 0) then
    l = replicate (Z.to_nat n) None /\ ifs s' = ifs s /\ ncf_ref (ncf s') = ncf_ref (ncf s)
  else exists ns, added s s' ns /\ length ns = min (Z.to_nat r) (Z.to_nat n) /\
    l = (Some <$> seq (next_if s) (length ns)) ++ replicate (Z.to_nat n - length ns) None.
Proof.
  rewrite <- (Z2Nat.id n) in Hrun by done. revert Hrun. set (k := Z.to_nat n). intros Hrun.
  rewrite !elem_of_cons, elem_of_nil in Hlookup. destruct Hlookup as [->|[->|[->|[]]]];
    [unfold Redhat.drv_lookup_by_mac_string in Hrun|unfold Debian.drv_lookup_by_mac_string in Hrun
    |unfold Suse.drv_lookup_by_mac_string in Hrun];
    rewrite (proj2 (Z.ltb_ge _ 0)), Nat2Z.id in Hrun by lia;
    (eapply lookup_run; [exact Hwf| |exact Hrun|exact Hroom]);
    repeat (apply looking_bind; [apply steady_refs; pres_auto|done|intros ? ? ?]);
    (apply looking_tail; [done..|auto using mac_step_steady, deb_mac_step_steady, suse_mac_step_steady]).
Qed.

Lemma lookup_by_mac_spec_witness :
  let res := Redhat.drv_lookup_by_mac_string "52:54:00:1A:FF:01" 2 (toy_state toy_os toy_net) in
  res.1 = Ret (1, [Some 0%nat; None]) /\
  exists ns, added (toy_state toy_os toy_net) res.2 ns /\ length ns = 1%nat.
Proof.
  set (res := Redhat.drv_lookup_by_mac_string "52:54:00:1A:FF:01" 2 (toy_state toy_os toy_net)).
  split; [vm_compute; reflexivity|].
  assert (Hr : res = (Ret (1, [Some 0%nat; None]), res.2)) by (vm_compute; reflexivity).
  assert (Hroom : room res.2) by (vm_compute; reflexivity).
  pose proof (@lookup_by_mac_spec toy_host toy_augeas toy_kernel toy_netlink toy_libxml toy_posix
    toy_config toy_debian toy_suse _ "52:54:00:1A:FF:01" 2 1 (toy_state toy_os toy_net) res.2
    [Some 0%nat; None] ltac:(left; reflexivity) (toy_refs_wf _ _) ltac:(lia) Hr Hroom) as Hl.
  rewrite decide_False in Hl by lia. destruct Hl as (ns & Hns & Hl & _).
  exists ns. split; [exact Hns|exact Hl].
Defined.

(** C13: on a loaded tree, with enough memory, a lookup by MAC address returns how many
    devices the kernel gives the address (in whatever case it is written) that the
    configuration keeps, and creates interfaces for the first of them, in the order
    of the tree, as far as the array has room; the rest of the array is NULL. Red
    Hat keeps devices that a file mentions and that are not slaves in their file,
    Debian those with a stanza that no bridge and no bond mentions, SuSE those with
    a file, where the test for slaves is made with a path in place of the name. The
    address is put into the query as it is: when that is no path expression, the
    lookup returns -1 with the error EOTHER, and creates nothing. *)
Theorem lookup_by_mac_finds `{Augeas, !Kernel, !Netlink, !Libxml, !Posix, !RedhatConfig, !DebianConfig, !SuseConfig}
  (d : driver) (a : aug) (s : state) (m : string) (n : Z)
  (Hs : ready d a s) (Hroot : rooted a m) (Hn : 0 <= n) :
  let k := Z.to_nat n in
  if answered a (sysfs_query m) then
    ((forall x, x ∈ mac_devices a m -> redhat_asked a x) ->
     Redhat.drv_lookup_by_mac_string m n s = found k (mac_hits redhat_keeps a m) s) /\
    (deb_sane a -> (forall x, x ∈ mac_devices a m -> debian_asked a x) ->
     Debian.drv_lookup_by_mac_string m n s = found k (mac_hits debian_keeps a m) s) /\
    ((forall x, x ∈ mac_devices a m -> suse_asked a x) ->
     Suse.drv_lookup_by_mac_string m n s = found k (mac_hits suse_keeps a m) s)
  else
    err (refused s) = NETCF_EOTHER /\
    Redhat.drv_lookup_by_mac_string m n s = not_found k s /\
    Debian.drv_lookup_by_mac_string m n s = not_found k s /\
    Suse.drv_lookup_by_mac_string m n s = not_found k s.
Proof.
  cbv zeta. rewrite <- (Z2Nat.id n) by done. rewrite Nat2Z.id. generalize (Z.to_nat n). clear n Hn. intros k.
  unfold Redhat.drv_lookup_by_mac_string, Debian.drv_lookup_by_mac_string, Suse.drv_lookup_by_mac_string.
  rewrite (proj2 (Z.ltb_ge _ 0)), Nat2Z.id by lia. destruct (answered a (sysfs_query m)) eqn:Hq.
  - apply answered_spec in Hq. split_and!; [intros Hx|intros Ha Hx|intros Hx];
      apply on_error_Ret; repeat ready_step Hs; rewrite (bind_Ret _ _ _ _ _ (aug_match_mac_run d a s Hs m Hq Hroot));
      repeat ready_step Hs; apply (mac_tail_run d a s _ _ _ _ Hs); intros x acc Hin.
    + by apply (redhat_step_run d a s Hs), Hx.
    + by apply (debian_step_run d a s Hs Ha), Hx.
    + by apply (suse_step_run d a s Hs), Hx.
  - pose proof (aug_match_mac_refused d a s Hs m Hq) as Hr. unfold on_error, not_found.
    split; [done|]. split_and!; repeat ready_step Hs; rewrite (bind_Ret _ _ _ _ _ Hr); apply release_nothing.
Qed.

(** [eth1] is a slave, and yet SuSE finds it. *)
Lemma lookup_by_mac_finds_witness :
  let s := toy_state toy_os toy_mac in let m := "52:54:00:1A:FF:01" in
  Redhat.drv_lookup_by_mac_string m 2 s = (Ret (1, [Some 0%nat; None]), created ["br0"] s) /\
  Debian.drv_lookup_by_mac_string m 2 s = (Ret (1, [Some 0%nat; None]), created ["br0"] s) /\
  Suse.drv_lookup_by_mac_string m 1 s = (Ret (2, [Some 0%nat]), created ["br0"] s) /\
  mac_hits suse_keeps toy_mac m = ["br0"; "eth1"] /\
  Redhat.drv_lookup_by_mac_string "52'" 2 s = (Ret (-1, [None; None]), refused s).
Proof.
  pose proof (fun m n => @lookup_by_mac_finds toy_host toy_augeas toy_kernel toy_netlink toy_libxml toy_posix
    toy_config toy_debian toy_suse (toy_driver toy_mac) toy_mac (toy_state toy_os toy_mac)
    m n ltac:(split; try reflexivity; intros _; reflexivity)) as Hf.
  pose proof (fun n => Hf "52:54:00:1A:FF:01" n (toy_mac_rooted _ eq_refl)) as Hg.
  destruct (Hg 2 ltac:(done)) as (Hr & Hd & _). destruct (Hg 1 ltac:(done)) as (_ & _ & Hs). clear Hg.
  destruct (Hf "52'" 2 (each_elem _ [] [] eq_refl (Forall_nil_2 _)) ltac:(done)) as (_ & Hno & _). clear Hf.
  split; [|split; [|split; [|split; [vm_compute; reflexivity|exact Hno]]]].
  - apply Hr, (each_elem _ _ _ toy_mac_devices). repeat (constructor; [split; [by apply toy_answers|]|]); [..|constructor];
      apply Forall_forall; repeat constructor; by apply toy_answers.
  - apply (Hd toy_mac_deb_sane), (each_elem _ _ _ toy_mac_devices). repeat constructor; by apply toy_answers.
  - apply Hs, (each_elem _ _ _ toy_mac_devices). repeat constructor; by apply toy_answers.
Defined.
