(* ===== verification/Freebsd.v ===== *)
(** * The driver for FreeBSD (drv_freebsd.c)

    Interfaces are those of the kernel, asked for with getifaddrs and ioctl; the
    configuration is the text of /etc/rc.conf. There is no Augeas and no style
    sheet: documents are built node by node and printed. *)

From S2P Require Import Prelude CStr XsltExt State Refs Toy Posix Xml Netcf Linux Common.

(** ** Parameters *)

(** An address as the sources look at it, whatever its family: the bytes where
    [struct sockaddr_dl] has its fields, and those of [struct sockaddr_in6]. *)
Record sockaddr := {
  sa_family : Z;
  sdl_type : Z;
  sdl_alen : Z;
  sdl_lladdr : list Z;         (** [LLADDR(sdl)], six bytes *)
  sin6_addr : list Z;          (** sixteen bytes *)
  sin6_scope_id : Z
}.

Record ifaddrs := { ifa_name : string; ifa_flags : Z; ifa_addr : option sockaddr }.

(** The calls of the kernel and of the C library that read or change the host.
    What stdio does with a file is written out below, over these. *)
Class Bsd `{Host} := {
  getifaddrs : sys -> option (list ifaddrs);
  ioctl_flagshigh : Z -> string -> sys -> Z;             (** with [ioctl_ifflags] *)
  ioctl_setflags : Z -> string -> Z -> Z -> sys -> bool * sys;   (** [SIOCSIFFLAGS] *)
  ioctl_mtu : Z -> string -> sys -> option Z;
  ioctl_in6 : string -> string -> sockaddr -> sys -> bool;  (** request, name *)
  socket_dgram : Z -> sys -> (Z * bool) * sys;           (** is errno EPROTONOSUPPORT? *)
  getnameinfo : sockaddr -> sys -> option string;        (** [NI_NUMERICHOST] *)
  inet_ntop6 : list Z -> string;
  ether_ntoa : list Z -> string;
  fnmatch : string -> string -> bool;                    (** pattern, string *)
  scandir : string -> sys -> list string;                (** none when it fails *)
  file : string -> sys -> option string;                 (** [None]: cannot be read *)
  creat : string -> sys -> bool;                         (** can it be written? *)
  write_file : string -> string -> sys -> sys;
  rename : string -> string -> sys -> bool * sys;        (** succeeded? *)
  warn_text : string -> sys -> string                    (** what [warn] prints *)
}.

(** The functions of libxml2 that only this driver calls. *)
Class Libxml2 `{Libxml} := {
  xmlReadMemory : string -> xmem -> option doc * xmem;
  xmlElemDump : option doc -> option node -> xmem -> string
}.

Definition PATH_VAR_DB : string := "/var/db/".
Definition PATH_RC_CONF : string := "/etc/rc.conf".
Definition PATH_RC_CONF_TMP : string := "/etc/rc.conf.tmp".
Definition NETCF_TRANSACTION : string := "/usr/bin/false".

Definition AF_UNSPEC : Z := 0.
Definition AF_LOCAL : Z := 1.
Definition AF_LINK : Z := 18.
Definition BSD_AF_INET6 : Z := 28.
Definition IFF_CANTCONFIG : Z := 0x10000.
Definition IFT_ETHER : Z := 0x6.
Definition IFT_L2VLAN : Z := 0x87.
Definition IFT_BRIDGE : Z := 0xd1.
Definition ETHER_ADDR_LEN : Z := 6.
Definition FILENAME_MAX : nat := 1024.

(** Conversion to [short] *)
Definition i16 (z : Z) : Z := (z + 2 ^ 15) mod 2 ^ 16 - 2 ^ 15.

(** [snprintf] into a buffer of [size] bytes *)
Definition snprintf (size : nat) (s : string) : string := string_take (pred size) s.

(** ** stdio *)

(** [fgets] with a buffer of [S n] bytes: what is read and what is left. *)
Fixpoint fgets (n : nat) (s : string) : string * string :=
  match n, s with
  | S n', String c s' =>
      if Ascii.eqb c "010" then (String c EmptyString, s')
      else let (l, r) := fgets n' s' in (String c l, r)
  | _, _ => (EmptyString, s)
  end.

(** [while (fgets(line, sizeof(line), fp) != NULL)]: the successive lines. *)
Fixpoint fgets_all (fuel : nat) (s : string) : list string :=
  match fuel, s with
  | S fuel', String _ _ => let (l, r) := fgets 255 s in l :: fgets_all fuel' r
  | _, _ => []
  end.

Definition lines_read (s : string) : list string := fgets_all (String.length s) s.

(** What a sequence of [fputs] writes *)
Fixpoint strcat (l : list string) : string :=
  match l with
  | [] => EmptyString
  | s :: l' => s +:+ strcat l'
  end.

(** The C string at the start of a buffer: up to the first NUL. *)
Fixpoint c_string (s : string) : string :=
  match s with
  | EmptyString => EmptyString
  | String c s' => if Ascii.eqb c "000" then EmptyString else String c (c_string s')
  end.

Section freebsd.
Context `{Kernel, !Bsd, !Libxml, !Libxml2, !Posix}.

(** [fopen(path, "r")] *)
Definition fopen_r (path : string) : M bool :=
  gets (fun s => negb (is_null (file path (world s)))).

(** [fopen(path, "w")] empties the file. *)
Definition fopen_w (path : string) : M bool :=
  b ← gets (fun s => creat path (world s));
  when b (modify (fun s => set_world (write_file path "" (world s)) s)) ;;
  ret b.

(** All that can be read from a stream on [path]. *)
Definition fread_all (path : string) : M string :=
  gets (fun s => default "" (file path (world s))).

(** [fclose] of a stream on [path] to which [text] was written *)
Definition fclose_w (path text : string) : M unit :=
  modify (fun s => set_world (write_file path text (world s)) s).

Definition warn (msg : string) : M unit :=
  text ← gets (fun s => warn_text msg (world s)); printf text.

(** [getifaddrs(&ifap)]; when it fails [ifap] is not set, which is not checked. *)
Definition get_ifaddrs : M (list ifaddrs) :=
  o ← gets (fun s => getifaddrs (world s));
  match o with
  | Some l => ret l
  | None => halt (UB "ifap is not initialised")
  end.

(** ** Flags *)

Definition probe_interface (name : string) (fd : Z) : M Z :=
  r ← gets (fun s => ioctl_ifflags fd (ifr_name name) (world s));
  ret (if is_null r then -1 else 0).

(** [(ifr_flags & 0xffff) | (ifr_flagshigh << 16)] *)
Definition join_flags (low high : Z) : Z := Z.lor (Z.land low 0xffff) (Z.shiftl high 16).

Definition change_flags (value flags : Z) : Z :=
  if value <? 0 then Z.land flags (Z.lnot (- value)) else Z.lor flags value.

Definition setifflags (vname : string) (value fd : Z) : M Z :=
  r ← gets (fun s => ioctl_ifflags fd (ifr_name vname) (world s));
  match r with
  | None => printf "ioctl (SIOCGIFFLAGS)" ;; ret (-1)
  | Some low =>
      high ← gets (fun s => ioctl_flagshigh fd (ifr_name vname) (world s));
      if high <? 0 then halt (UB "left shift of a negative number") else
      let flags := change_flags value (join_flags low high) in
      ok ← syscall (ioctl_setflags fd (ifr_name vname) (i16 (Z.land flags 0xffff))
                      (i16 (Z.shiftr flags 16)));
      ret (if (ok : bool) then 0 else -1)
  end.

(** ** Initialisation *)

Definition drv_init : M Z :=
  b ← malloc;
  if negb b then ret (-1) else
  modify (fun s => set_ncf (set_driver (Some new_driver) (ncf s)) s) ;;
  fd ← init_ioctl_fd;
  upd_driver (set_ioctl_fd fd) ;;
  if fd <? 0 then printf ("drv_init:Unable to open device" +:+ nl) ;; ret (-1)
  else ret 0.

Definition drv_close : M unit :=
  o ← gets (fun s => ncf_driver (ncf s));
  match o with
  | None => ret tt
  | Some d =>
      when (0 <=? ioctl_fd d) (close_fd (ioctl_fd d)) ;;
      modify (fun s => set_ncf (set_driver None (ncf s)) s)
  end.

Definition drv_entry : M unit := ret tt.

(** ** Listing and lookup *)

Definition configurable (ifa : ifaddrs) : M bool :=
  a ← deref (ifa_addr ifa);
  ret ((sa_family a =? AF_LINK) && (Z.land (ifa_flags ifa) IFF_CANTCONFIG =? 0)).

(** The array, [None] for the result -1. The copies are not checked. *)
Definition list_interfaces : M (option (list (option string))) :=
  ifap ← get_ifaddrs;
  on_error
    (for_acc ifap 0%nat (fun ifa nint =>
       c ← configurable ifa; ret (if (c : bool) then S nint else nint)) ;;
     b ← malloc;
     ERR_NOMEM (negb b) ;;
     intf ← for_acc ifap [] (fun ifa intf =>
       c ← configurable ifa;
       if (c : bool) then o ← strdup (ifa_name ifa); ret (intf ++ [o]) else ret intf);
     ret (Some intf))
    (ret None).

(** The array for the names when the caller passed none: one slot. *)
Definition names_array (names : option (list (option string)))
  : M (option (list (option string))) :=
  match names with
  | Some l => ret (Some l)
  | None => b ← malloc; ret (if b then Some [None] else None)
  end.

(** The loop: the number of names or -1, and what the array holds. *)
Fixpoint ids_loop (flags : Z) (intf : list (option string)) (maxnames nqualified : Z)
  (names : option (list (option string))) : M (Z * option (list (option string))) :=
  match intf with
  | [] => ret (nqualified, names)
  | name :: intf' =>
      if negb (nqualified <? maxnames) then ret (nqualified, names) else
      q ← qualifies flags name;
      if negb q then ids_loop flags intf' maxnames nqualified names else
      names ← names_array names;
      match names with
      | None => ids_loop flags intf' maxnames (nqualified + 1) None
      | Some l =>
          n ← deref name;
          o ← strdup n;
          if negb (nqualified <? Z.of_nat (length l)) then
            halt (UB "write past the end of names")
          else
            let names' := Some (<[Z.to_nat nqualified := o]> l) in
            if is_null o then set_errcode NETCF_ENOMEM ;; ret (-1, names')
            else ids_loop flags intf' maxnames (nqualified + 1) names'
      end
  end.

Definition list_interface_ids (maxnames : Z) (names : option (list (option string)))
  (flags : Z) : M (Z * option (list (option string))) :=
  on_error
    (ointf ← list_interfaces;
     ERR_BAIL ;;
     let intf := default [] ointf in
     let maxnames := if is_null names then Z.of_nat (length intf) else maxnames in
     ids_loop flags intf maxnames 0 names)
    (ret (-1, names)).

Definition drv_list_interfaces (maxnames flags : Z) : M (Z * list (option string)) :=
  ' (r, names) ← list_interface_ids maxnames (Some (replicate (Z.to_nat maxnames) None)) flags;
  ret (r, default [] names).

Definition drv_num_of_interfaces (flags : Z) : M Z :=
  ' (r, _) ← list_interface_ids 0 None flags;
  ret r.

Definition drv_lookup_by_name (name : string) : M (option nat) :=
  d ← the_driver;
  r ← probe_interface name (ioctl_fd d);
  if negb (r =? 0) then ret None else
  on_error
    (odup ← strdup name;
     name_dup ← nonnull odup;
     new_nif name_dup)
    (ret None).

(** Every entry of the list whose name begins the name of the interface. *)
Definition mac_of (ifa : ifaddrs) : option (list Z) :=
  match ifa_addr ifa with
  | None => None
  | Some sdl =>
      if (0 <? sdl_alen sdl)
         && ((sdl_type sdl =? IFT_ETHER) || (sdl_type sdl =? IFT_L2VLAN)
             || (sdl_type sdl =? IFT_BRIDGE))
         && (sdl_alen sdl =? ETHER_ADDR_LEN)
      then Some (sdl_lladdr sdl) else None
  end.

Definition drv_mac_string (nif : nat) : M (option string) :=
  name ← if_name nif;
  ifap ← get_ifaddrs;
  for_each ifap (fun ifa =>
    when (has_prefix (ifa_name ifa) name)
      (match mac_of ifa with
       | Some bytes => o ← strdup (ether_ntoa bytes); set_mac nif o
       | None => ret tt
       end)) ;;
  i ← the_if nif;
  ret (nif_mac i).

Definition drv_if_down (nif : nat) : M Z :=
  name ← if_name nif;
  d ← the_driver;
  setifflags name (- IFF_UP) (ioctl_fd d).

Definition drv_if_up (nif : nat) : M Z :=
  name ← if_name nif;
  d ← the_driver;
  setifflags name IFF_UP (ioctl_fd d).

(** [free(temp)]: the structure goes, its counters and strings stay. *)
Definition free_raw (p : nat) : M unit :=
  the_if p ;; modify (fun s => set_ifs (delete p (ifs s)) s).

(** One turn of the loop: [iface_total] and the caller's array. *)
Definition mac_step (mac : string) (id : option string) (acc : Z * list (option nat))
  : M (Z * list (option nat)) :=
  let '(iface_total, ifaces) := acc in
  name ← deref id;
  otemp ← drv_lookup_by_name name;
  match otemp with
  | None => ret acc
  | Some temp =>
      curr ← drv_mac_string temp;
      match curr with
      | None => ret acc
      | Some curr_iface_mac =>
          if STREQ curr_iface_mac mac then
            if negb (iface_total <? Z.of_nat (length ifaces)) then
              halt (UB "write past the end of ifaces")
            else ret (iface_total + 1, <[Z.to_nat iface_total := Some temp]> ifaces)
          else free_raw temp ;; ret acc
      end
  end.

(** The array is not cleared first: its other slots keep what the caller had
    there, [None] in the model. *)
Definition drv_lookup_by_mac_string (mac : string) (maxifaces : Z)
  : M (Z * list (option nat)) :=
  ointf ← list_interfaces;
  for_acc (default [] ointf) (0, replicate (Z.to_nat maxifaces) None) (mac_step mac).

(** ** Definition *)

(** If the node is called [elem], print the property if it is there. *)
Definition print_prop (node : node) (attr label : string) : M unit :=
  o ← xget (xmlGetProp node attr);
  match o with
  | None => ret tt
  | Some val =>
      name ← xget (node_name node);
      printf ("node->name: " +:+ name +:+ nl) ;;
      printf (String "009" (label +:+ ":" +:+ val +:+ nl))
  end.

(** What the loop over the children prints of each element, in order: the
    properties and their labels; and does it go down into the element? *)
Definition printed : list (string * (list (string * string) * bool)) :=
  [("start", ([("mode", "mode")], false));
   ("mac", ([("address", "address")], false));
   ("mtu", ([("size", "size")], false));
   ("protocol", ([("family", "family")], true));
   ("ip", ([("address", "ip_address"); ("prefix", "prefix")], false));
   ("route", ([("gateway", "gateway")], false));
   ("vlan", ([("tag", "tag")], true));
   ("bridge", ([("stp", "stp"); ("delay", "delay")], true))].

(** [fuel] bounds the depth of the document. *)
Fixpoint print_element_names (fuel : nat) (node : node) : M unit :=
  match fuel with
  | O => halt Hang
  | S fuel' =>
      name ← xget (node_name node);
      when (STREQ name "interface")
        (print_prop node "type" "type" ;; print_prop node "name" "name") ;;
      children ← xget (node_children node);
      for_each children (fun child =>
        name ← xget (node_name child);
        for_each printed (fun p =>
          let '(elem, (props, descend)) := p in
          when (STREQ name elem)
            (for_each props (fun kv => print_prop child kv.1 kv.2) ;;
             when descend (print_element_names fuel' child))))
  end.

(** Prints the document; no interface is ever returned. *)
Definition drv_define (fuel : nat) (xml_str : string) : M (option nat) :=
  d ← xcall (xmlReadMemory xml_str);
  match d with
  | None => printf ("Could not parse file" +:+ nl) ;; ret None
  | Some d' =>
      oroot ← xget (xmlDocGetRootElement d);
      root ← deref oroot;
      print_element_names fuel root ;;
      free_doc (Some d') ;;
      ret None
  end.

(** Does the line stay in rc.conf? *)
Definition keep_line (name line : string) : bool :=
  match c_string line with
  | String "#" _ => true
  | l => is_null (strstr l name)
  end.

(** The text that [fputs] writes for the lines that stay. *)
Definition kept_text (name : string) (lines : list string) : string :=
  strcat (c_string <$> filter (fun l => keep_line name l = true) lines).

Definition drv_undefine (nif : nat) : M Z :=
  name ← if_name nif;
  b ← fopen_r PATH_RC_CONF;
  if negb b then printf ("Could not open rc.conf" +:+ nl) ;; ret (-1) else
  b ← fopen_w PATH_RC_CONF_TMP;
  if negb b then printf ("Could not open tmp file" +:+ nl) ;; ret (-1) else
  text ← fread_all PATH_RC_CONF;
  fclose_w PATH_RC_CONF_TMP (kept_text name (lines_read text)) ;;
  modify (fun s => set_world (rename PATH_RC_CONF_TMP PATH_RC_CONF (world s)).2 s) ;;
  ret 0.

(** ** XML *)

Definition dhcp_lease_exists (nif : nat) : M bool :=
  files ← gets (fun s => scandir PATH_VAR_DB (world s));
  name ← if_name nif;
  ret (existsb (fnmatch (snprintf FILENAME_MAX ("dhclient.leases." +:+ name))) files).

(** [addr_buf] is an array of the caller: [None] when nothing was stored in it. *)
Definition xml_print (nif : nat) (interface_type : Z) (mac : option string) (mtu_str : string)
  (addr_buf : option string) (inet : Z) (vlan_tag : Z) : M unit :=
  has_dhcp ← dhcp_lease_exists nif;
  d ← xcall xmlNewDoc;
  interface ← (if interface_type =? 0 then ret "ethernet"
               else if interface_type =? 1 then ret "bridge"
               else if interface_type =? 2 then ret "vlan"
               else printf ("Incorrect interface type" +:+ nl) ;;
                    halt (UB "interface is not initialised"));
  interface_node ← xcall (xmlNewNode "interface");
  xcall (fun x => (tt, xmlDocSetRootElement d interface_node x)) ;;
  xcall (xmlNewProp interface_node "type" (Some interface)) ;;
  name ← if_name nif;
  xcall (xmlNewProp interface_node "name" (Some name)) ;;
  start_node ← xcall (xmlNewChild interface_node "start");
  xcall (xmlNewProp start_node "mode" (Some (if (has_dhcp : bool) then "none" else "onboot"))) ;;
  when has_dhcp
    (mac_node ← xcall (xmlNewChild interface_node "mac");
     xcall (xmlNewProp mac_node "address" mac) ;;
     mtu_node ← xcall (xmlNewChild interface_node "mtu");
     xcall (xmlNewProp mtu_node "size" (Some mtu_str)) ;;
     ret tt) ;;
  protocol_node ← xcall (xmlNewChild interface_node "protocol");
  (if inet =? 0 then xcall (xmlNewProp protocol_node "family" (Some "ipv4")) ;; ret tt
   else if inet =? 1 then xcall (xmlNewProp protocol_node "family" (Some "ipv6")) ;; ret tt
   else ret tt) ;;
  (if (has_dhcp : bool) then xcall (xmlNewChild protocol_node "dhcp") ;; ret tt
   else
     ip_node ← xcall (xmlNewChild protocol_node "ip");
     addr ← match addr_buf with
            | Some a => ret a
            | None => halt (UB "addr_buf is not initialised")
            end;
     xcall (xmlNewProp ip_node "address" (Some addr)) ;;
     when (inet =? 1) (xcall (xmlNewProp None "prefix" (Some "00")) ;; ret tt) ;;
     when (interface_type =? 0)
       (route_node ← xcall (xmlNewChild protocol_node "route");
        xcall (xmlNewProp route_node "gateway" (Some "0.0.0.0")) ;;
        ret tt)) ;;
  when (interface_type =? 2)
    (vlan_node ← xcall (xmlNewChild interface_node "vlan");
     xcall (xmlNewProp vlan_node "tag" (Some (snprintf 4 (fmt_d vlan_tag)))) ;;
     vlan_intf_node ← xcall (xmlNewChild vlan_node "interface");
     xcall (xmlNewProp vlan_intf_node "name" (Some "sample")) ;;
     ret tt) ;;
  text ← xget (xmlElemDump d interface_node);
  printf text ;;
  printf nl.

(** *** The line buffer of [drv_xml_desc]

    An array of 256 bytes; pointers into it are offsets. *)

(** Write a string at an offset. *)
Definition store (off : nat) (s : string) (buf : string) : string :=
  string_take off buf +:+ s +:+ string_drop (off + String.length s) buf.

Definition str_at (off : nat) (buf : string) : string := c_string (string_drop off buf).

(** The offset of the first [c] of the string at an offset. *)
Fixpoint index_of (c : ascii) (s : string) : option nat :=
  match s with
  | EmptyString => None
  | String x s' => if Ascii.eqb x c then Some O else S <$> index_of c s'
  end.

(** [strsep(&p, c)]: the buffer, and the new [p]. *)
Definition strsep (off : nat) (c : ascii) (buf : string) : string * option nat :=
  match index_of c (str_at off buf) with
  | Some i => (store (off + i) (String "000" EmptyString) buf, Some (S (off + i)))
  | None => (buf, None)
  end.

(** Where [t_val] points: to the twenty bytes of [malloc], if it gave any, or
    into the line. *)
Inductive t_val_ptr := VHeap (allocated : bool) | VLine (off : nat).

(** [n] NULs *)
Fixpoint nuls (n : nat) : string :=
  match n with O => EmptyString | S n' => String "000" (nuls n') end.

(** [strncpy(t_val, line_ptr, sizeof(line_ptr))]: eight bytes. *)
Definition copy_value (t_val : t_val_ptr) (p : nat) (buf : string) : M string :=
  let src := string_take 8 (str_at p buf) in
  match t_val with
  | VHeap true => ret buf
  | VHeap false => halt (UB "NULL pointer")
  | VLine off =>
      if decide (256 < off + 8)%nat then halt (UB "write past the end of line") else
      if decide (off < p + Nat.min 8 (S (String.length src)) /\ p < off + 8)%nat then
        halt (UB "strncpy between overlapping objects")
      else ret (store off (src +:+ nuls (8 - String.length src)) buf)
  end.

(** One line of rc.conf: the buffer, [t_val] and [inet]. *)
Definition desc_line (name line : string) (acc : string * t_val_ptr * Z)
  : M (string * t_val_ptr * Z) :=
  let '(buf, t_val, inet) := acc in
  let buf := store 0 (line +:+ String "000" EmptyString) buf in
  if keep_line name (str_at 0 buf) then ret (buf, t_val, inet) else
  let '(buf, line_ptr) := strsep 0 "=" buf in
  p ← deref line_ptr;
  ' (buf, t_val) ← (match str_at p buf with
                    | String "034" _ =>
                        ret (fst (strsep (S p) "034" buf), VLine (S p))
                    | _ => buf ← copy_value t_val p buf; ret (buf, t_val)
                    end);
  let t_name := str_at 0 buf in
  let inet := if STREQLEN t_name (snprintf 20 ("ifconfig_" +:+ name)) 20 then 0 else inet in
  let inet := if STREQLEN t_name (snprintf 40 ("ifconfig_" +:+ name +:+ "_ipv6")) 40
              then 1 else inet in
  ret (buf, t_val, inet).

(** Always NULL: the description goes to standard output. [junk] is what the
    stack holds where [line] lies. *)
Definition drv_xml_desc (junk : string) (nif : nat) : M (option string) :=
  _ ← malloc;
  heap ← malloc;
  name ← if_name nif;
  b ← fopen_r PATH_RC_CONF;
  if negb b then printf ("Could not open rc.conf" +:+ nl) ;; ret None else
  text ← fread_all PATH_RC_CONF;
  ' (_, _, inet) ← for_acc (lines_read text) (junk, VHeap heap, 0) (desc_line name);
  xml_print nif 0 None "" (Some "") inet 0 ;;
  ret None.

(** *** The live state *)

(** [IN6_IS_ADDR_LINKLOCAL] *)
Definition linklocal (a : list Z) : bool :=
  match a with
  | b0 :: b1 :: _ => (b0 =? 0xfe) && (Z.land b1 0xc0 =? 0x80)
  | _ => false
  end.

(** An interface index embedded in a link local address moves to the scope. *)
Definition unembed (sin6 : sockaddr) : sockaddr :=
  match sin6_addr sin6 with
  | b0 :: b1 :: b2 :: b3 :: rest =>
      if linklocal (sin6_addr sin6) && negb ((b2 =? 0) && (b3 =? 0)) then
        {| sa_family := sa_family sin6; sdl_type := sdl_type sin6; sdl_alen := sdl_alen sin6;
           sdl_lladdr := sdl_lladdr sin6; sin6_addr := b0 :: b1 :: 0 :: 0 :: rest;
           sin6_scope_id := if sin6_scope_id sin6 =? 0 then b2 * 256 + b3 else sin6_scope_id sin6 |}
      else sin6
  | _ => sin6
  end.

(** The part for an IPv6 address: the text, unless one of the calls fails. *)
Definition inet6_text (ifname : string) (sin6 : sockaddr) : M string :=
  ' (s6, _) ← syscall (socket_dgram BSD_AF_INET6);
  when (s6 <? 0) (warn "socket(AF_INET6,SOCK_DGRAM)" ;; goto_error) ;;
  ok ← gets (fun s => ioctl_in6 "SIOCGIFAFLAG_IN6" ifname sin6 (world s));
  when (negb ok) (warn "ioctl(SIOCGIFAFLAG_IN6)" ;; close_fd s6 ;; goto_error) ;;
  ok ← gets (fun s => ioctl_in6 "SIOCGIFALIFETIME_IN6" ifname sin6 (world s));
  when (negb ok) (warn "ioctl(SIOCGIFALIFETIME_IN6)" ;; close_fd s6 ;; goto_error) ;;
  close_fd s6 ;;
  let sin6 := unembed sin6 in
  host ← gets (fun s => getnameinfo sin6 (world s));
  ret match host with
      | Some text => text
      | None => inet_ntop6 (sin6_addr sin6)
      end.

(** One entry of the list: [interface_type], [inet] and [addr_buf]. *)
Definition state_entry (name : string) (ifa : ifaddrs) (acc : Z * Z * option string)
  : M (Z * Z * option string) :=
  let '(interface_type, inet, addr_buf) := acc in
  if negb (has_prefix (ifa_name ifa) name) then ret acc else
  sdl ← deref (ifa_addr ifa);
  when (sdl_type sdl =? IFT_BRIDGE) (printf ("bridge found" +:+ nl)) ;;
  let interface_type :=
    if sdl_type sdl =? IFT_BRIDGE then 1 else if sdl_type sdl =? IFT_L2VLAN then 2 else 0 in
  let inet := if sa_family sdl =? AF_INET then 0 else inet in
  if sa_family sdl =? BSD_AF_INET6 then
    text ← inet6_text (string_take 8 (ifa_name ifa)) sdl;
    ret (interface_type, 1, Some text)
  else ret (interface_type, inet, addr_buf).

(** A socket for [SIOCGIFMTU], of whichever family there is. *)
Definition mtu_socket : M Z :=
  ' (s0, unsupported) ← syscall (socket_dgram AF_UNSPEC);
  if negb (s0 <? 0) then ret s0 else
  if negb unsupported then ret (-1) else
  ' (s1, _) ← syscall (socket_dgram AF_LOCAL);
  ret (if s1 <? 0 then -1 else s1).

(** Every [return NULL] is the label. *)
Definition drv_xml_state (nif : nat) : M (option string) :=
  mac ← drv_mac_string nif;
  name ← if_name nif;
  on_error
    (sock ← mtu_socket;
     when (sock <? 0) (printf "socket(family 0,SOCK_DGRAM" ;; goto_error) ;;
     omtu ← gets (fun s => ioctl_mtu sock (ifr_name name) (world s));
     let mtu_str := snprintf 10 (fmt_d (default 0 omtu)) in
     ifap ← get_ifaddrs;
     ' (interface_type, inet, addr_buf) ← for_acc ifap (0, 0, None) (state_entry name);
     xml_print nif interface_type mac mtu_str addr_buf inet 0 ;;
     ret None)
    (ret None).

Definition drv_if_status (nif : nat) (flags : bool) : M (Z * Z) :=
  on_error
    (ERR_THROW (negb flags) NETCF_EOTHER "NULL pointer for flags in ncf_if_status" ;;
     name ← if_name nif;
     is_active ← if_is_active name;
     ret (0, if (is_active : bool) then Z.lor 0 NETCF_IFACE_ACTIVE
             else Z.lor 0 NETCF_IFACE_INACTIVE))
    (ret (-1, 0)).

(** ** Transactions *)

(** The three functions differ in the argument of the program, which is
    [false]. *)
Definition drv_change_begin (flags : Z) : M Z :=
  run_transaction NETCF_TRANSACTION flags "change-begin".
Definition drv_change_rollback (flags : Z) : M Z :=
  run_transaction NETCF_TRANSACTION flags "change-rollback".
Definition drv_change_commit (flags : Z) : M Z :=
  run_transaction NETCF_TRANSACTION flags "change-commit".
End freebsd.

(** The driver, as netcf.c sees it: [fuel] bounds the depth of documents, and
    [junk] is the stack of [drv_xml_desc]. *)
#[global] Instance freebsd_driver `{Kernel, !Bsd, !Libxml, !Libxml2, !Posix} (fuel : nat)
  (junk : string) : Driver :=
  {| Netcf.drv_init := drv_init; Netcf.drv_close := drv_close; Netcf.drv_entry := drv_entry;
     Netcf.drv_num_of_interfaces := drv_num_of_interfaces;
     Netcf.drv_list_interfaces := drv_list_interfaces;
     Netcf.drv_lookup_by_name := drv_lookup_by_name;
     Netcf.drv_lookup_by_mac_string := drv_lookup_by_mac_string;
     Netcf.drv_xml_desc := drv_xml_desc junk; Netcf.drv_xml_state := drv_xml_state;
     Netcf.drv_if_status := drv_if_status; Netcf.drv_change_begin := drv_change_begin;
     Netcf.drv_change_rollback := drv_change_rollback;
     Netcf.drv_change_commit := drv_change_commit; Netcf.drv_mac_string := drv_mac_string;
     Netcf.drv_define := drv_define fuel; Netcf.drv_undefine := drv_undefine;
     Netcf.drv_if_up := drv_if_up; Netcf.drv_if_down := drv_if_down |}.

(** ** Laws *)

Create HintDb freebsd.

Section freebsd_laws.
Context `{Kernel, !Bsd, !Libxml, !Libxml2, !Posix}.

Lemma fopen_r_steady p : pres steady (fopen_r p).
Proof. unfold fopen_r. pres_auto. Qed.
Lemma closed_fopen_r p : closed (fopen_r p).
Proof. unfold fopen_r. fails_auto. Qed.
Lemma fopen_w_steady p : pres steady (fopen_w p).
Proof. unfold fopen_w. pres_auto. Qed.
Lemma closed_fopen_w p : closed (fopen_w p).
Proof. unfold fopen_w. fails_auto. Qed.
Lemma fread_all_steady p : pres steady (fread_all p).
Proof. unfold fread_all. pres_auto. Qed.
Lemma closed_fread_all p : closed (fread_all p).
Proof. unfold fread_all. fails_auto. Qed.
Lemma fclose_w_steady p c : pres steady (fclose_w p c).
Proof. unfold fclose_w. pres_auto. Qed.
Lemma closed_fclose_w p c : closed (fclose_w p c).
Proof. unfold fclose_w. fails_auto. Qed.
Lemma warn_steady m : pres steady (warn m).
Proof. unfold warn. pres_auto. Qed.
Lemma closed_warn m : closed (warn m).
Proof. unfold warn. fails_auto. Qed.
Lemma get_ifaddrs_steady : pres steady get_ifaddrs.
Proof. unfold get_ifaddrs. pres_auto. Qed.
Lemma closed_get_ifaddrs : closed get_ifaddrs.
Proof. unfold get_ifaddrs. fails_auto. Qed.
Hint Resolve fopen_r_steady fopen_w_steady fread_all_steady fclose_w_steady warn_steady
  get_ifaddrs_steady : pres.
Hint Resolve closed_fopen_r closed_fopen_w closed_fread_all closed_fclose_w closed_warn
  closed_get_ifaddrs : fails.

Lemma probe_interface_steady n fd : pres steady (probe_interface n fd).
Proof. unfold probe_interface. pres_auto. Qed.
Lemma closed_probe_interface n fd : closed (probe_interface n fd).
Proof. unfold probe_interface. fails_auto. Qed.
Lemma setifflags_steady n v fd : pres steady (setifflags n v fd).
Proof. unfold setifflags. pres_auto. Qed.
Lemma closed_setifflags n v fd : closed (setifflags n v fd).
Proof. unfold setifflags. fails_auto. Qed.
Lemma bsd_list_interfaces_steady : pres steady list_interfaces.
Proof. unfold list_interfaces, configurable. pres_auto. Qed.
Lemma closed_bsd_list_interfaces : closed list_interfaces.
Proof. unfold list_interfaces, configurable. fails_auto. Qed.
Lemma names_array_steady l : pres steady (names_array l).
Proof. unfold names_array. pres_auto. Qed.
Lemma closed_names_array l : closed (names_array l).
Proof. unfold names_array. fails_auto. Qed.
Hint Resolve probe_interface_steady setifflags_steady bsd_list_interfaces_steady qualifies_steady
  names_array_steady : pres.
Hint Resolve closed_probe_interface closed_setifflags closed_bsd_list_interfaces closed_qualifies
  closed_names_array : fails.

Lemma bsd_ids_loop_steady f l m q ns : pres steady (ids_loop f l m q ns).
Proof. revert q ns. induction l as [|p l IH]; intros q ns; cbn [ids_loop]; pres_auto. Qed.
Hint Resolve bsd_ids_loop_steady : pres.
Lemma bsd_list_ids_steady m ns f : pres steady (list_interface_ids m ns f).
Proof. unfold list_interface_ids. pres_auto. Qed.
Hint Resolve bsd_list_ids_steady : pres.

(** -1 comes with an error, and an array of the caller keeps its size. *)
Definition bsd_ids_result (ns : option (list (option string)))
  (r : Z * option (list (option string))) (s : state) : Prop :=
  (r.1 < 0 -> failed s) /\
  (forall l, ns = Some l -> exists l', r.2 = Some l' /\ length l' = length l).

Lemma bsd_ids_loop_post f l m q ns : 0 <= q ->
  post (bsd_ids_result ns) (fun _ => False) (ids_loop f l m q ns).
Proof.
  revert q ns. induction l as [|p l IH]; intros q ns Hq; cbn [ids_loop];
    [apply post_ret; intros s; split; [cbn; lia|by eexists]|].
  destruct (negb (q <? m)); [apply post_ret; intros s; split; [cbn; lia|by eexists]|].
  apply post_bind; [fails_auto|intros b]. destruct (negb b); [by apply IH|].
  apply post_bind_dep with (Q1 := fun r _ => forall l, ns = Some l -> r = Some l).
  { unfold names_array. destruct ns; [apply post_ret; by intros _ ? [= ->]|].
    apply post_bind; [fails_auto|intros ?]. by apply post_ret. }
  intros [l'|] s Hl; revert s.
  2:{ intros s. pose proof (IH (q + 1) None ltac:(lia) s) as Hp. destruct (ids_loop _ _ _ _ _ s) as [[]?]; [|done..].
      split; [apply Hp|]. intros l0 ->. by specialize (Hl _ eq_refl). }
  change (post (bsd_ids_result ns) (fun _ => False)
    (n ← deref p; o ← strdup n;
     if negb (q <? Z.of_nat (length l')) then halt (UB "write past the end of names")
     else if is_null o then set_errcode NETCF_ENOMEM ;; ret (-1, Some (<[Z.to_nat q := o]> l'))
          else ids_loop f l m (q + 1) (Some (<[Z.to_nat q := o]> l')))).
  apply post_bind; [fails_auto|intros n]. apply post_bind; [fails_auto|intros o].
  destruct (negb _); [by intros s|].
  assert (Hlen : forall l0, ns = Some l0 -> length (<[Z.to_nat q := o]> l') = length l0).
  { intros l0 ->. specialize (Hl _ eq_refl) as [= ->]. by rewrite length_insert. }
  destruct (is_null o).
  - intros s. cbn. split; [done|]. intros l0 Hn. eexists. split; [done|by apply Hlen].
  - eapply post_mono; [apply IH; lia| |done]. intros r s [Hr Hx]. split; [done|].
    intros l0 Hn. destruct (Hx _ eq_refl) as (l1 & -> & Hl1). exists l1. split; [done|].
    rewrite Hl1. by apply Hlen.
Qed.

Lemma bsd_list_ids_post m ns f :
  post (bsd_ids_result ns) (fun _ => False) (list_interface_ids m ns f).
Proof.
  unfold list_interface_ids. eapply post_on_error with (E := failed).
  2:{ intros s Hs. split; [done|by eexists]. }
  apply post_bind; [fails_auto|intros o]. apply post_bind; [fails_auto|intros _].
  eapply post_mono; [by apply bsd_ids_loop_post|done|done].
Qed.

Lemma bsd_list_steady n f : pres steady (drv_list_interfaces n f).
Proof. unfold drv_list_interfaces. pres_auto. Qed.
Lemma bsd_list_post n f :
  post (fun r s => (r.1 < 0 -> failed s) /\ length r.2 = Z.to_nat n) (fun _ => False)
    (drv_list_interfaces n f).
Proof.
  unfold drv_list_interfaces. eapply post_bind_dep; [apply bsd_list_ids_post|].
  intros [r ns] s [Hr Hl]. split; [exact Hr|]. destruct (Hl _ eq_refl) as (l & Hn & Hlen).
  cbn in *. subst ns. cbn. by rewrite Hlen, length_replicate.
Qed.
Lemma bsd_num_steady f : pres steady (drv_num_of_interfaces f).
Proof. unfold drv_num_of_interfaces. pres_auto. Qed.
Lemma bsd_num_reports f : reports (drv_num_of_interfaces f).
Proof.
  unfold drv_num_of_interfaces. reports_ids bsd_list_ids_post.
Qed.

Lemma bsd_init_steady : pres steady drv_init.
Proof. unfold drv_init. pres_auto. Qed.
Lemma closed_bsd_init : closed drv_init.
Proof. unfold drv_init. fails_auto. Qed.
Lemma bsd_close_steady : pres steady drv_close.
Proof. unfold drv_close, close_fd. pres_auto. Qed.
Lemma bsd_close_runs s : exists s', drv_close s = (Ret tt, s').
Proof.
  unfold drv_close, bind, gets. destruct (ncf_driver (ncf s)) as [d|]; [|by eexists].
  destruct (0 <=? ioctl_fd d); cbn [when]; [|by eexists].
  unfold close_fd, syscall. by eexists.
Qed.

Lemma bsd_lookup_grows n : pres grows (drv_lookup_by_name n).
Proof. unfold drv_lookup_by_name. pres_auto. Qed.
Lemma closed_bsd_lookup n : closed (drv_lookup_by_name n).
Proof. unfold drv_lookup_by_name. fails_auto. Qed.
Lemma bsd_mac_string_grows p : pres grows (drv_mac_string p).
Proof. unfold drv_mac_string. pres_auto. Qed.
Lemma closed_bsd_mac_string p : closed (drv_mac_string p).
Proof. unfold drv_mac_string. fails_auto. Qed.
Hint Resolve bsd_lookup_grows bsd_mac_string_grows : pres.
Hint Resolve closed_bsd_lookup closed_bsd_mac_string : fails.

Lemma bsd_updown_steady p v : pres steady (name ← if_name p; d ← the_driver; setifflags name v (ioctl_fd d)).
Proof. pres_auto. Qed.
Lemma closed_bsd_updown p v : closed (name ← if_name p; d ← the_driver; setifflags name v (ioctl_fd d)).
Proof. fails_auto. Qed.

Lemma print_prop_steady n a l : pres steady (print_prop n a l).
Proof. unfold print_prop. pres_auto. Qed.
Lemma closed_print_prop n a l : closed (print_prop n a l).
Proof. unfold print_prop. fails_auto. Qed.
Hint Resolve print_prop_steady : pres.
Hint Resolve closed_print_prop : fails.
Lemma print_elements_steady k n : pres steady (print_element_names k n).
Proof. revert n. induction k as [|k IH]; intros n; cbn [print_element_names]; pres_auto. Qed.
Lemma closed_print_elements k n : closed (print_element_names k n).
Proof. revert n. induction k as [|k IH]; intros n; cbn [print_element_names]; fails_auto. Qed.
Hint Resolve print_elements_steady : pres.
Hint Resolve closed_print_elements : fails.
Lemma bsd_define_steady k x : pres steady (drv_define k x).
Proof. unfold drv_define. pres_auto. Qed.
Lemma closed_bsd_define k x : closed (drv_define k x).
Proof. unfold drv_define. fails_auto. Qed.
Lemma bsd_undefine_steady p : pres steady (drv_undefine p).
Proof. unfold drv_undefine. pres_auto. Qed.
Lemma closed_bsd_undefine p : closed (drv_undefine p).
Proof. unfold drv_undefine. fails_auto. Qed.

Lemma dhcp_steady p : pres steady (dhcp_lease_exists p).
Proof. unfold dhcp_lease_exists. pres_auto. Qed.
Lemma closed_dhcp p : closed (dhcp_lease_exists p).
Proof. unfold dhcp_lease_exists. fails_auto. Qed.
Hint Resolve dhcp_steady : pres.
Hint Resolve closed_dhcp : fails.
Lemma xml_print_steady p t m u a i v : pres steady (xml_print p t m u a i v).
Proof. unfold xml_print. pres_auto. Qed.
Lemma closed_xml_print p t m u a i v : closed (xml_print p t m u a i v).
Proof. unfold xml_print. fails_auto. Qed.
Lemma desc_line_steady n l acc : pres steady (desc_line n l acc).
Proof. unfold desc_line, copy_value. pres_auto. Qed.
Lemma closed_desc_line n l acc : closed (desc_line n l acc).
Proof. unfold desc_line, copy_value. fails_auto. Qed.
Hint Resolve xml_print_steady desc_line_steady : pres.
Hint Resolve closed_xml_print closed_desc_line : fails.
Lemma bsd_xml_desc_steady j p : pres steady (drv_xml_desc j p).
Proof. unfold drv_xml_desc. pres_auto. Qed.
Lemma closed_bsd_xml_desc j p : closed (drv_xml_desc j p).
Proof. unfold drv_xml_desc. fails_auto. Qed.
Lemma state_entry_steady n i acc : pres steady (state_entry n i acc).
Proof. unfold state_entry, inet6_text. pres_auto. Qed.
Lemma mtu_socket_steady : pres steady mtu_socket.
Proof. unfold mtu_socket. pres_auto. Qed.
Lemma closed_mtu_socket : closed mtu_socket.
Proof. unfold mtu_socket. fails_auto. Qed.
Hint Resolve state_entry_steady mtu_socket_steady : pres.
Hint Resolve closed_mtu_socket : fails.
Lemma bsd_xml_state_grows p : pres grows (drv_xml_state p).
Proof. unfold drv_xml_state. pres_auto. Qed.
Lemma closed_bsd_xml_state p : closed (drv_xml_state p).
Proof.
  unfold drv_xml_state. apply closed_bind; [fails_auto|intros ?].
  apply closed_bind; [fails_auto|intros ?]. by apply closed_on_error_any, closed_ret.
Qed.
Lemma bsd_if_status_steady p b : pres steady (drv_if_status p b).
Proof. unfold drv_if_status. pres_auto. Qed.
Lemma bsd_if_status_post p b :
  post (fun r s => r.1 < 0 -> failed s) (fun _ => False) (drv_if_status p b).
Proof.
  unfold drv_if_status. eapply post_on_error with (E := failed); [|by intros s Hs; cbn].
  do 3 (apply post_bind; [fails_auto|intros ?]). apply post_ret. cbn. intros; lia.
Qed.

Lemma free_raw_keep p : pres err_keep (free_raw p).
Proof. unfold free_raw, the_if. pres_auto. Qed.
Lemma closed_free_raw p : closed (free_raw p).
Proof. unfold free_raw. fails_auto. Qed.
Hint Resolve free_raw_keep : pres.
Hint Resolve closed_free_raw : fails.
Lemma closed_bsd_lookup_mac m n : closed (drv_lookup_by_mac_string m n).
Proof. unfold drv_lookup_by_mac_string, mac_step. fails_auto. Qed.
End freebsd_laws.

#[export] Hint Resolve bsd_num_steady bsd_list_steady bsd_init_steady bsd_close_steady
  bsd_lookup_grows bsd_mac_string_grows bsd_define_steady bsd_undefine_steady
  bsd_xml_desc_steady bsd_xml_state_grows bsd_if_status_steady run_transaction_steady
  bsd_updown_steady get_ifaddrs_steady bsd_list_interfaces_steady desc_line_steady : freebsd.
#[export] Hint Resolve bsd_num_reports bsd_list_post closed_bsd_init closed_bsd_lookup
  closed_bsd_mac_string closed_bsd_define closed_bsd_undefine closed_bsd_xml_desc
  closed_bsd_xml_state bsd_if_status_post run_transaction_reports closed_bsd_updown
  closed_bsd_lookup_mac : freebsd.

(** ** A concrete FreeBSD *)

Definition toy_sockaddr (n : string) : sockaddr :=
  {| sa_family := AF_LINK; sdl_type := IFT_ETHER; sdl_alen := 6;
     sdl_lladdr := [0x52; 0x54; 0; 0x1a; 0xff; Z.of_nat (String.length n)];
     sin6_addr := []; sin6_scope_id := 0 |}.

Definition toy_set_flags (n : string) (f : Z) (w : toy_sys) : toy_sys :=
  {| t_runs := t_runs w; t_exit := t_exit w; t_intr := t_intr w; t_waitfail := t_waitfail w;
     t_closed := t_closed w;
     t_flags := (fun kv => if STREQ kv.1 n then (n, f) else kv) <$> t_flags w;
     t_saved := t_saved w; t_files := t_files w; t_disk := t_disk w |}.

Definition toy_set_files (m : gmap string string) (w : toy_sys) : toy_sys :=
  {| t_runs := t_runs w; t_exit := t_exit w; t_intr := t_intr w; t_waitfail := t_waitfail w;
     t_closed := t_closed w; t_flags := t_flags w; t_saved := t_saved w; t_files := m; t_disk := t_disk w |}.

#[global] Instance toy_bsd : Bsd (H := toy_host) :=
  {| getifaddrs := fun w => Some ((fun nf => {| ifa_name := nf.1; ifa_flags := nf.2;
                                               ifa_addr := Some (toy_sockaddr nf.1) |}) <$> t_flags w);
     ioctl_flagshigh := fun _ _ _ => 0;
     ioctl_setflags := fun _ n low _ w => (true, toy_set_flags n low w);
     ioctl_mtu := fun _ _ _ => Some 1500;
     ioctl_in6 := fun _ _ _ _ => true;
     socket_dgram := fun _ w => ((6, false), w);
     getnameinfo := fun _ _ => Some "fe80::1";
     inet_ntop6 := fun _ => "::";
     ether_ntoa := fun l => String.concat ":" (fmt_02x <$> l);
     fnmatch := STREQ;
     scandir := fun _ _ => ["."; ".."; "dhclient.leases.eth1"];
     file := fun p w => t_files w !! p;
     creat := fun _ _ => true;
     write_file := fun p c w => toy_set_files (<[p := c]> (t_files w)) w;
     rename := fun p q w => match t_files w !! p with
                            | Some c => (true, toy_set_files (<[q := c]> (delete p (t_files w))) w)
                            | None => (false, w)
                            end;
     warn_text := fun m _ => m |}.

#[global] Instance toy_libxml2 : Libxml2 (H := toy_host) :=
  {| xmlReadMemory := fun str x => let '((_, d), x) := toy_parse str x in (d, x);
     xmlElemDump := fun _ n x => match n with
                                 | Some n => match x !! n with
                                             | Some e => x_name e
                                             | None => "" end
                                 | None => "" end |}.
