(* ===== verification/FreebsdSpec.v ===== *)
(** * What the FreeBSD driver does

    The text of rc.conf, the flags of an interface, the lists of interfaces and
    their counters; which promises to netcf.c the driver keeps. *)

From S2P Require Import Prelude CStr XsltExt State Refs Toy Posix Xml Netcf Linux Common Freebsd.

(** ** Lines of a file *)

Definition newline : ascii := "010"%char.

(** A line as it stands in a file: it fits the buffer of the driver, ends in a
    newline and has neither another one nor a NUL in it. *)
Definition short_line (l : string) : Prop :=
  exists body, l = body +:+ nl /\ (String.length body < 255)%nat /\
    strchr body newline = None /\ strchr body "000" = None.

Lemma fgets_short n body rest : (String.length body < n)%nat -> strchr body newline = None ->
  fgets n (body +:+ nl +:+ rest) = (body +:+ nl, rest).
Proof.
  revert body. induction n as [|n IH]; intros body Hlen Hno; [lia|].
  destruct body as [|c body]; [done|]. rewrite !app_cons. cbn [fgets]. cbn in Hno, Hlen. unfold newline in *.
  destruct (Ascii.eqb c "010") eqn:E; [done|]. by rewrite IH by (done || lia).
Qed.

Lemma fgets_append n s : (fgets n s).1 +:+ (fgets n s).2 = s.
Proof.
  revert s. induction n as [|n IH]; intros [|c s]; try done. cbn.
  destruct (Ascii.eqb c "010") eqn:E; [done|]. specialize (IH s).
  destruct (fgets n s) as [l r]. cbn in *. by rewrite app_cons, IH.
Qed.

Lemma fgets_consumes n s : s <> EmptyString ->
  (String.length (fgets (S n) s).2 < String.length s)%nat.
Proof.
  intros Hs. destruct s as [|c s]; [done|]. cbn. destruct (Ascii.eqb c "010"); [cbn; lia|].
  pose proof (fgets_append n s) as Ha. destruct (fgets n s) as [l r]. cbn in *.
  rewrite <- Ha, string_length_app. lia.
Qed.

Lemma fgets_all_cons k s : s <> EmptyString ->
  fgets_all (S k) s = (fgets 255 s).1 :: fgets_all k (fgets 255 s).2.
Proof. destruct s as [|c s]; [done|]. intros _. cbn [fgets_all]. by destruct (fgets 255 _). Qed.

(** The length of the text is enough fuel, and reading loses nothing. *)
Lemma fgets_all_concat k s : (String.length s <= k)%nat -> strcat (fgets_all k s) = s.
Proof.
  revert s. induction k as [|k IH]; intros s Hk; [by destruct s; cbn in Hk; [|lia]|].
  destruct (decide (s = EmptyString)) as [->|Hs]; [done|]. rewrite fgets_all_cons by done. cbn [strcat].
  pose proof (fgets_consumes 254 s Hs). rewrite IH by lia. apply fgets_append.
Qed.

Lemma lines_read_short ls k : Forall short_line ls -> (length ls <= k)%nat ->
  fgets_all k (strcat ls) = ls.
Proof.
  revert k. induction ls as [|l ls IH]; intros k Hls Hk; [by destruct k|].
  destruct k as [|k]; [cbn in Hk; lia|]. apply Forall_cons in Hls as [(body & -> & Hlen & Hno & _) Hls].
  cbn [strcat]. rewrite <- string_app_assoc. rewrite fgets_all_cons by by destruct body.
  rewrite fgets_short by done. cbn [fst snd]. rewrite IH; [done..|cbn in Hk; lia].
Qed.

Lemma strcat_length ls : Forall short_line ls -> (length ls <= String.length (strcat ls))%nat.
Proof.
  induction 1 as [|l ls (body & -> & _) _ IH]; [done|]. cbn [strcat length].
  rewrite !string_length_app. cbn. lia.
Qed.

Lemma lines_read_lines ls : Forall short_line ls -> lines_read (strcat ls) = ls.
Proof. intros Hls. by apply lines_read_short, strcat_length. Qed.

Lemma c_string_no_nul s : strchr s "000" = None -> c_string s = s.
Proof.
  induction s as [|c s IH]; [done|]. cbn. destruct (Ascii.eqb c "000"); [done|]. intros Hs. by rewrite IH.
Qed.

Lemma strchr_app s t c : strchr s c = None -> strchr (s +:+ t) c = strchr t c.
Proof. induction s as [|x s IH]; [done|]. rewrite app_cons. cbn. destruct (Ascii.eqb x c); [done|]. apply IH. Qed.

Lemma c_string_short l : short_line l -> c_string l = l.
Proof. intros (body & -> & _ & _ & Hn). apply c_string_no_nul. by rewrite strchr_app. Qed.

(** ** Finding a name in a line *)

Lemma strstr_spec hay needle :
  is_null (strstr hay needle) = false <-> exists a b, hay = a +:+ needle +:+ b.
Proof.
  split.
  - destruct (strstr hay needle) as [r|] eqn:E; [|done]. intros _.
    apply strstr_inv in E as (a & b & -> & ->). by exists a, b.
  - intros (a & b & ->). induction a as [|c a IH].
    + change ("" +:+ needle +:+ b) with (needle +:+ b).
      destruct (needle +:+ b) as [|x r] eqn:E; cbn [strstr]; rewrite <- E, has_prefix_app; done.
    + rewrite app_cons. cbn [strstr]. by destruct (has_prefix _ _).
Qed.

(** The name occurs in the line. *)
Definition mentions (name line : string) : Prop := exists a b, line = a +:+ name +:+ b.

Lemma keep_line_spec name l : short_line l ->
  keep_line name l = true <-> (exists r, l = String "#" r) \/ ~ mentions name l.
Proof.
  intros Hl. unfold keep_line. rewrite (c_string_short l Hl). pose proof (strstr_spec l name) as Hs.
  fold (mentions name l) in Hs.
  assert (Hk : is_null (strstr l name) = true <-> ~ mentions name l).
  { rewrite <- Hs. by destruct (is_null _). }
  destruct l as [|c l]; [|destruct (decide (c = "#"%char)) as [->|Hc]].
  - rewrite Hk. split; [by right|]. by intros [[r Hr]|].
  - split; [left; by eexists|done].
  - assert (match String c l with String "#" _ => true | l0 => is_null (strstr l0 name) end
            = is_null (strstr (String c l) name)) as ->.
    { destruct c as [[] [] [] [] [] [] [] []]; done. }
    rewrite Hk. split; [by right|]. intros [[r [= Hr _]]|]; done.
Qed.

Lemma kept_text_lines name ls : Forall short_line ls ->
  kept_text name (lines_read (strcat ls)) = strcat (filter (fun l => keep_line name l = true) ls).
Proof.
  intros Hls. unfold kept_text. rewrite lines_read_lines by done. clear -Hls. f_equal.
  induction Hls as [|l ls Hl _ IH]; [done|]. rewrite filter_cons.
  case_decide; [|done]. rewrite fmap_cons, IH. by rewrite c_string_short.
Qed.

(** ** Files *)

(** A file holds what was written to it; a file that is renamed moves, and nothing
    happens when it cannot be. *)
Record file_laws `{Bsd} : Prop := {
  creat_write p c w : creat p w = true -> creat p (write_file p c w) = true;
  file_write p c w : creat p w = true -> file p (write_file p c w) = Some c;
  file_write_other p q c w : p <> q -> file q (write_file p c w) = file q w;
  file_rename p q c w w' : p <> q -> file p w = Some c -> rename p q w = (true, w') ->
    file q w' = Some c /\ file p w' = None /\
    forall r, r <> p -> r <> q -> file r w' = file r w;
  file_rename_fails p q w w' : rename p q w = (false, w') -> forall r, file r w' = file r w
}.

Section undefine.
Context `{Kernel, !Bsd, !Libxml, !Libxml2, !Posix}.
Implicit Types s : state.

Lemma undefine_run s p nif text : ifs s !! p = Some nif ->
  file PATH_RC_CONF (world s) = Some text -> creat PATH_RC_CONF_TMP (world s) = true ->
  let w1 := write_file PATH_RC_CONF_TMP "" (world s) in
  drv_undefine p s =
  (Ret 0, set_world (rename PATH_RC_CONF_TMP PATH_RC_CONF
            (write_file PATH_RC_CONF_TMP
               (kept_text (nif_name nif) (lines_read (default "" (file PATH_RC_CONF w1)))) w1)).2 s).
Proof.
  intros Hp Hf Hc w1. unfold drv_undefine. rewrite (bind_Ret _ _ _ _ _ (if_name_ret s p nif Hp)).
  unfold fopen_r, fopen_w, fread_all, fclose_w, bind, gets, modify, ret, when. rewrite Hf.
  cbn -[PATH_RC_CONF PATH_RC_CONF_TMP]. by rewrite Hc.
Qed.

Lemma undefine_fails s p nif : ifs s !! p = Some nif ->
  file PATH_RC_CONF (world s) = None \/ creat PATH_RC_CONF_TMP (world s) = false ->
  exists s', drv_undefine p s = (Ret (-1), s') /\ world s' = world s /\ err s' = err s.
Proof.
  intros Hp Hor. unfold drv_undefine. rewrite (bind_Ret _ _ _ _ _ (if_name_ret s p nif Hp)).
  unfold fopen_r, fopen_w, bind, gets, ret, when, printf, modify.
  destruct (file PATH_RC_CONF (world s)) as [text|]; cbn -[PATH_RC_CONF_TMP]; [|by eexists].
  destruct Hor as [|Hc]; [done|]. rewrite Hc. cbn. by eexists.
Qed.
End undefine.

(** ** Flags *)

Section flags.
Context `{Kernel, !Bsd, !Libxml, !Libxml2, !Posix}.

Lemma i16_mod z : i16 z mod 2 ^ 16 = z mod 2 ^ 16.
Proof.
  unfold i16. rewrite Zminus_mod, Zmod_mod, <- Zminus_mod. f_equal. lia.
Qed.

Lemma i16_small z : 0 <= z < 2 ^ 15 -> i16 z = z.
Proof. intros Hz. unfold i16. rewrite Z.mod_small; lia. Qed.

(** Cutting the flags into two halves and joining them again *)
Lemma join_split f : 0 <= f < 2 ^ 31 ->
  join_flags (i16 (Z.land f 0xffff)) (i16 (Z.shiftr f 16)) = f.
Proof.
  intros Hf. unfold join_flags. change 0xffff with (Z.ones 16).
  rewrite !Z.land_ones by lia. rewrite i16_mod, Zmod_mod.
  rewrite i16_small.
  2:{ rewrite Z.shiftr_div_pow2 by lia. split; [apply Z.div_pos; lia|apply Z.div_lt_upper_bound; lia]. }
  apply Z.bits_inj'. intros i Hi. rewrite Z.lor_spec.
  destruct (Z.lt_ge_cases i 16) as [Hlt|Hge].
  - rewrite Z.mod_pow2_bits_low, Z.shiftl_spec_low by lia. apply orb_false_r.
  - rewrite Z.mod_pow2_bits_high, Z.shiftl_spec, Z.shiftr_spec by lia.
    cbn. f_equal. lia.
Qed.

Lemma join_flags_sum low high : join_flags low high = low mod 2 ^ 16 + high * 2 ^ 16.
Proof.
  unfold join_flags. change 0xffff with (Z.ones 16). rewrite Z.land_ones by lia.
  rewrite <- Z.shiftl_mul_pow2 by lia.
  assert (Z.land (low mod 2 ^ 16) (Z.shiftl high 16) = 0) as Hz.
  { apply Z.bits_inj'. intros i Hi. rewrite Z.land_spec, Z.bits_0.
    destruct (Z.lt_ge_cases i 16).
    - rewrite (Z.shiftl_spec_low high) by lia. apply andb_false_r.
    - by rewrite Z.mod_pow2_bits_high by lia. }
  rewrite <- Z.lxor_lor by done. symmetry. by apply Z.add_nocarry_lxor.
Qed.

Lemma join_flags_range low high : 0 <= high < 2 ^ 15 -> 0 <= join_flags low high < 2 ^ 31.
Proof.
  intros Hh. rewrite join_flags_sum. pose proof (Z.mod_pos_bound low (2 ^ 16) ltac:(lia)). lia.
Qed.

(** Setting or clearing IFF_UP touches that bit alone. *)
Lemma change_flags_bit (up : bool) f i : 0 <= i ->
  Z.testbit (change_flags (if up then IFF_UP else - IFF_UP) f) i
  = if i =? 0 then up else Z.testbit f i.
Proof.
  intros Hi. unfold change_flags. destruct up;
    [change (IFF_UP <? 0) with false; change IFF_UP with 1
    |change (- IFF_UP <? 0) with true; change (- - IFF_UP) with 1]; cbv iota.
  - rewrite Z.lor_spec. destruct (Z.eqb_spec i 0) as [->|Hn]; [apply orb_true_r|].
    rewrite (Z.bits_above_log2 1) by (cbn; lia). apply orb_false_r.
  - rewrite Z.land_spec, Z.lnot_spec by lia. destruct (Z.eqb_spec i 0) as [->|Hn]; [apply andb_false_r|].
    rewrite (Z.bits_above_log2 1) by (cbn; lia). apply andb_true_r.
Qed.

Lemma change_flags_range (up : bool) f : 0 <= f < 2 ^ 31 ->
  0 <= change_flags (if up then IFF_UP else - IFF_UP) f < 2 ^ 31.
Proof.
  intros Hf. assert (change_flags (if up then IFF_UP else - IFF_UP) f
    = if Bool.eqb (Z.testbit f 0) up then f else if up then f + 1 else f - 1) as ->.
  { apply Z.bits_inj'. intros i Hi. rewrite change_flags_bit by done.
    pose proof (Z.div_mod f 2 ltac:(lia)) as Hd. rewrite Zmod_odd in Hd. rewrite Z.bit0_odd.
    destruct (Z.odd f) eqn:Ho, up; cbn [Bool.eqb];
      (destruct (Z.eqb_spec i 0) as [->|Hn]; [by rewrite ?Z.bit0_odd, ?Z.odd_add, ?Z.odd_sub, ?Ho|]); try done.
    - replace i with (Z.succ (Z.pred i)) by lia.
      replace (f - 1) with (2 * (f / 2)) by lia. replace f with (2 * (f / 2) + 1) at 1 by lia.
      rewrite Z.testbit_odd_succ, Z.testbit_even_succ by lia. done.
    - replace i with (Z.succ (Z.pred i)) by lia.
      replace (f + 1) with (2 * (f / 2) + 1) by lia. replace f with (2 * (f / 2)) at 1 by lia.
      rewrite Z.testbit_odd_succ, Z.testbit_even_succ by lia. done. }
  rewrite Z.bit0_odd. pose proof (Z.div_mod f 2 ltac:(lia)) as Hd. rewrite Zmod_odd in Hd.
  assert (0 <= f / 2 < 2 ^ 30) by (split; [apply Z.div_pos|apply Z.div_lt_upper_bound]; lia).
  destruct (Z.odd f), up; cbn [Bool.eqb]; lia.
Qed.
Lemma setifflags_run (up : bool) name fd low high (s : state) :
  ioctl_ifflags fd (ifr_name name) (world s) = Some low ->
  ioctl_flagshigh fd (ifr_name name) (world s) = high -> 0 <= high ->
  let f := change_flags (if up then IFF_UP else - IFF_UP) (join_flags low high) in
  let '(ok, w') := ioctl_setflags fd (ifr_name name) (i16 (Z.land f 0xffff)) (i16 (Z.shiftr f 16)) (world s) in
  setifflags name (if up then IFF_UP else - IFF_UP) fd s
  = (Ret (if (ok : bool) then 0 else -1), set_world w' s).
Proof.
  intros Hl Hh Hpos f. unfold setifflags, bind, gets. rewrite Hl, Hh.
  rewrite (proj2 (Z.ltb_ge high 0)) by done. unfold syscall. fold f.
  by destruct (ioctl_setflags _ _ _ _ _) as [[] w'].
Qed.
End flags.

(** ** Listing *)

Section listing.
Context `{Kernel, !Bsd, !Libxml, !Libxml2, !Posix}.
Implicit Types s : state.

(** The interfaces of the kernel that can be configured, in its order. *)
Definition if_names (l : list ifaddrs) : list string :=
  ifa_name <$> filter (fun i => match ifa_addr i with
                                | Some a => (sa_family a =? AF_LINK)
                                            && (Z.land (ifa_flags i) IFF_CANTCONFIG =? 0)
                                | None => false
                                end = true) l.

(** Is an interface in a state that the flags ask for? *)
Definition in_state (flags : Z) (active : bool) : bool :=
  (Z.land flags 3 =? 3) || (active && has_flag flags NETCF_IFACE_ACTIVE)
  || (negb active && has_flag flags NETCF_IFACE_INACTIVE).

(** A driver is there, memory suffices and the kernel answers. *)
Record running (d : driver) (l : list ifaddrs) s : Prop := {
  run_ok : err s = NETCF_NOERROR;
  run_mem : mem s = [];
  run_driver : ncf_driver (ncf s) = Some d;
  run_list : getifaddrs (world s) = Some l;
  run_addrs : Forall (fun i => is_Some (ifa_addr i)) l
}.

Definition up_and_running (d : driver) (w : sys) (name : string) : bool :=
  match ioctl_ifflags (ioctl_fd d) (ifr_name name) w with
  | None => false
  | Some flags => Z.land flags (Z.lor IFF_UP IFF_RUNNING) =? Z.lor IFF_UP IFF_RUNNING
  end.

(** The names to list. *)
Definition wanted_names (d : driver) (l : list ifaddrs) (w : sys) (flags : Z) : list string :=
  filter (fun n => in_state flags (up_and_running d w n) = true) (if_names l).

Context (d : driver) (l : list ifaddrs) (s : state) (Hs : running d l s).

Lemma running_strdup x : strdup x s = (Ret (Some x), s).
Proof. unfold strdup, malloc, bind. by rewrite (run_mem _ _ _ Hs). Qed.

Lemma get_ifaddrs_run : get_ifaddrs s = (Ret l, s).
Proof. unfold get_ifaddrs, bind, gets. by rewrite (run_list _ _ _ Hs). Qed.

Lemma count_run l' n : Forall (fun i => is_Some (ifa_addr i)) l' ->
  for_acc l' n (fun ifa nint => c ← configurable ifa; ret (if (c : bool) then S nint else nint)) s
  = (Ret (n + length (if_names l'))%nat, s).
Proof.
  revert n. induction l' as [|i l' IH]; intros n Ha; [cbn; by rewrite Nat.add_0_r|].
  apply Forall_cons in Ha as [[a Ha] Hl]. cbn [for_acc]. unfold configurable at 1, if_names.
  rewrite Ha. cbn [deref]. rewrite !bind_assoc, !bind_ret_l, IH by done.
  rewrite filter_cons, Ha. unfold if_names. case_decide as Hc; rewrite ?Hc; cbn [fmap list_fmap length].
  - by rewrite Nat.add_succ_r.
  - by apply not_true_is_false in Hc as ->.
Qed.

Lemma copy_run l' acc : Forall (fun i => is_Some (ifa_addr i)) l' ->
  for_acc l' acc (fun ifa intf =>
    c ← configurable ifa;
    if (c : bool) then o ← strdup (ifa_name ifa); ret (intf ++ [o]) else ret intf) s
  = (Ret (acc ++ (Some <$> if_names l')), s).
Proof.
  revert acc. induction l' as [|i l' IH]; intros acc Ha; [cbn; by rewrite app_nil_r|].
  apply Forall_cons in Ha as [[a Ha] Hl]. cbn [for_acc]. unfold configurable at 1, if_names.
  rewrite Ha. cbn [deref]. rewrite !bind_assoc, !bind_ret_l. rewrite filter_cons, Ha.
  case_decide as Hc.
  - rewrite Hc. erewrite bind_Ret; [|rewrite (bind_Ret _ _ _ _ _ (running_strdup _)); reflexivity].
    rewrite IH by done. unfold if_names. cbn [fmap list_fmap]. by rewrite <- app_assoc.
  - apply not_true_is_false in Hc as ->. rewrite bind_ret_l, IH by done. done.
Qed.

Lemma bsd_list_run : list_interfaces s = (Ret (Some (Some <$> if_names l)), s).
Proof.
  unfold list_interfaces. rewrite (bind_Ret _ _ _ _ _ get_ifaddrs_run). unfold on_error.
  rewrite (bind_Ret _ _ _ _ _ (count_run l 0 (run_addrs _ _ _ Hs))).
  rewrite (bind_Ret _ _ s true s) by (unfold malloc; by rewrite (run_mem _ _ _ Hs)).
  cbn [negb]. change (ERR_NOMEM false) with (ret tt : M unit). rewrite bind_ret_l.
  by rewrite (bind_Ret _ _ _ _ _ (copy_run l [] (run_addrs _ _ _ Hs))).
Qed.

Lemma qualifies_run flags n :
  qualifies flags (Some n) s = (Ret (in_state flags (up_and_running d (world s) n)), s).
Proof.
  unfold qualifies, in_state. change (Z.lor NETCF_IFACE_ACTIVE NETCF_IFACE_INACTIVE) with 3.
  destruct (Z.land flags 3 =? 3); [done|]. unfold deref. rewrite bind_ret_l.
  unfold if_is_active. rewrite bind_assoc.
  rewrite (bind_Ret _ _ _ _ _ (the_driver_run s d (run_driver _ _ _ Hs))). done.
Qed.

(** The loop with an array of the caller *)
Lemma bsd_ids_run flags ns maxnames done_ rest : 
  Z.of_nat (length done_ + length rest) = maxnames ->
  let w := filter (fun n => in_state flags (up_and_running d (world s) n) = true) ns in
  let k := Nat.min (length rest) (length w) in
  ids_loop flags (Some <$> ns) maxnames (Z.of_nat (length done_)) (Some (done_ ++ rest)) s
  = (Ret (Z.of_nat (length done_ + k), Some (done_ ++ (Some <$> take k w) ++ drop k rest)), s).
Proof.
  revert done_ rest. induction ns as [|n ns IH]; intros dn rest Hlen; cbv zeta.
  { cbn. rewrite Nat.min_0_r, Nat.add_0_r. by cbn. }
  cbn [fmap list_fmap ids_loop]. destruct rest as [|r rest].
  { rewrite (proj2 (Z.ltb_ge _ _)) by (cbn in *; lia). cbn [negb length Nat.min take drop fmap list_fmap].
    by rewrite Nat.add_0_r. }
  rewrite (proj2 (Z.ltb_lt _ _)) by (cbn in *; lia). cbn [negb].
  rewrite (bind_Ret _ _ _ _ _ (qualifies_run flags n)). rewrite filter_cons.
  destruct (in_state flags _) eqn:Hq; [rewrite decide_True by done|rewrite decide_False by done].
  2:{ cbn [negb]. by apply (IH dn (r :: rest)). }
  cbn [negb names_array]. rewrite bind_ret_l. unfold deref. rewrite bind_ret_l.
  rewrite (bind_Ret _ _ _ _ _ (running_strdup n)).
  rewrite (proj2 (Z.ltb_lt _ _)) by (rewrite length_app; cbn; lia). cbn [negb is_null].
  rewrite Nat2Z.id. rewrite insert_app_r_alt by lia. rewrite Nat.sub_diag. cbn [list_insert insert].
  replace (Z.of_nat (length dn) + 1) with (Z.of_nat (length (dn ++ [Some n]))) by (rewrite length_app; cbn; lia).
  change (Some n :: rest) with ([Some n] ++ rest). rewrite app_assoc.
  rewrite IH by (rewrite length_app; cbn in *; lia). cbn [length Nat.min take drop].
  rewrite length_app. cbn [length]. do 2 f_equal. f_equal; [f_equal; lia|]. by rewrite <- app_assoc.
Qed.
(** The loop with the one slot the driver allocates itself *)
Lemma one_slot_full flags ns m o : 1 + Z.of_nat (length ns) <= m ->
  ids_loop flags (Some <$> ns) m 1 (Some [o]) s
  = match filter (fun n => in_state flags (up_and_running d (world s) n) = true) ns with
    | [] => (Ret (1, Some [o]), s)
    | _ => (Stop (UB "write past the end of names"), s)
    end.
Proof.
  induction ns as [|n ns IH]; intros Hm; [done|]. cbn [fmap list_fmap ids_loop].
  cbn in Hm. rewrite (proj2 (Z.ltb_lt _ _)) by lia. cbn [negb].
  rewrite (bind_Ret _ _ _ _ _ (qualifies_run flags n)). rewrite filter_cons.
  destruct (in_state flags _) eqn:Hq; [rewrite decide_True by done|rewrite decide_False by done].
  - cbn [negb names_array]. rewrite bind_ret_l. unfold deref. rewrite bind_ret_l.
    by rewrite (bind_Ret _ _ _ _ _ (running_strdup n)).
  - cbn [negb]. apply IH. lia.
Qed.

Lemma one_slot_run flags ns m : Z.of_nat (length ns) <= m ->
  ids_loop flags (Some <$> ns) m 0 None s
  = match filter (fun n => in_state flags (up_and_running d (world s) n) = true) ns with
    | [] => (Ret (0, None), s)
    | [n] => (Ret (1, Some [Some n]), s)
    | _ => (Stop (UB "write past the end of names"), s)
    end.
Proof.
  induction ns as [|n ns IH]; intros Hm; [done|]. cbn [fmap list_fmap ids_loop].
  cbn in Hm. rewrite (proj2 (Z.ltb_lt _ _)) by lia. cbn [negb].
  rewrite (bind_Ret _ _ _ _ _ (qualifies_run flags n)). rewrite filter_cons.
  destruct (in_state flags _) eqn:Hq; [rewrite decide_True by done|rewrite decide_False by done].
  - cbn [negb names_array]. erewrite bind_Ret.
    2:{ rewrite (bind_Ret _ _ s true s) by (unfold malloc; by rewrite (run_mem _ _ _ Hs)). done. }
    unfold deref. rewrite bind_ret_l.
    rewrite (bind_Ret _ _ _ _ _ (running_strdup n)). cbn [length Z.of_nat Z.ltb Z.compare negb is_null].
    change (<[Z.to_nat 0:=Some n]> [None]) with [Some n]. change (0 + 1) with 1.
    change (negb (0 <? Z.of_nat 1)) with false. cbv iota.
    rewrite one_slot_full by lia. by destruct (filter _ ns).
  - cbn [negb]. apply IH. lia.
Qed.

Lemma running_bail : ERR_BAIL s = (Ret tt, s).
Proof. apply ERR_BAIL_ok, Hs. Qed.

(** ** Addresses *)

(** The texts of the addresses under a name, in the order of the kernel. *)
Definition mac_texts (l : list ifaddrs) (name : string) : list string :=
  omap (fun i => if has_prefix (ifa_name i) name then ether_ntoa <$> mac_of i else None) l.

Lemma running_ifs m : running d l (set_ifs m s).
Proof. destruct Hs. by split. Qed.
End listing.

Section addresses.
Context `{Kernel, !Bsd, !Libxml, !Libxml2, !Posix}.
Implicit Types s : state.
Context (d : driver) (l : list ifaddrs).

Definition last_mac (texts : list string) (nif : netcf_if) : option string :=
  match last texts with Some t => Some t | None => nif_mac nif end.

Lemma set_ifs_same s p nif : ifs s !! p = Some nif -> set_ifs (<[p := nif]> (ifs s)) s = s.
Proof. intros Hp. rewrite insert_id by done. by destruct s. Qed.

Lemma mac_loop_run s p nif l' : running d l s -> ifs s !! p = Some nif ->
  for_each l' (fun ifa => when (has_prefix (ifa_name ifa) (nif_name nif))
    (match mac_of ifa with
     | Some bytes => o ← strdup (ether_ntoa bytes); set_mac p o
     | None => ret tt
     end)) s
  = (Ret tt, set_ifs (<[p := set_nif_mac (last_mac (mac_texts l' (nif_name nif)) nif) nif]> (ifs s)) s).
Proof.
  revert s nif. induction l' as [|i l' IH]; intros s nif Hs Hp.
  { cbn. rewrite set_ifs_same; [done|]. rewrite Hp. by destruct nif. }
  cbn [for_each mac_texts omap list_omap].
  destruct (has_prefix (ifa_name i) (nif_name nif)); cbn [when];
    [|rewrite bind_ret_l; by apply IH].
  destruct (mac_of i) as [bytes|]; cbn [fmap option_fmap option_map];
    [|rewrite bind_ret_l; by apply IH].
  rewrite bind_assoc. rewrite (bind_Ret _ _ _ _ _ (running_strdup d l s Hs _)).
  set (t := ether_ntoa bytes). set (nif' := set_nif_mac (Some t) nif).
  rewrite (bind_Ret _ _ s tt (set_ifs (<[p := nif']> (ifs s)) s)).
  2:{ unfold set_mac, the_if, bind, gets. cbn. by rewrite Hp. }
  rewrite (IH _ nif') by (done || (apply running_ifs; done) || apply lookup_insert_eq).
  cbn. rewrite insert_insert_eq. f_equal. unfold set_ifs. cbn. f_equal. f_equal.
  unfold last_mac. rewrite last_cons. unfold mac_texts. by destruct (last _).
Qed.

Lemma mac_string_run s p nif : running d l s -> ifs s !! p = Some nif ->
  let m := last_mac (mac_texts l (nif_name nif)) nif in
  drv_mac_string p s = (Ret m, set_ifs (<[p := set_nif_mac m nif]> (ifs s)) s).
Proof.
  intros Hs Hp m. unfold drv_mac_string. rewrite (bind_Ret _ _ _ _ _ (if_name_ret s p nif Hp)).
  rewrite (bind_Ret _ _ _ _ _ (get_ifaddrs_run d l s Hs)).
  rewrite (bind_Ret _ _ _ _ _ (mac_loop_run s p nif l Hs Hp)).
  unfold bind, the_if, gets. cbn. by rewrite lookup_insert_eq.
Qed.
(** ** Counting what a lookup creates *)

(** Is there such an interface? *)
Definition probed (w : sys) (n : string) : bool :=
  negb (is_null (ioctl_ifflags (ioctl_fd d) (ifr_name n) w)).

(** The interfaces that a lookup by address creates, those it returns, and
    those it throws away. *)
Definition created (w : sys) (ns : list string) : list string :=
  filter (fun n => probed w n = true) ns.
Definition matching (mac : string) (ns : list string) : list string :=
  filter (fun n => last (mac_texts l n) = Some mac) ns.
Definition rejected (mac : string) (ns : list string) : list string :=
  filter (fun n => last (mac_texts l n) <> None /\ last (mac_texts l n) <> Some mac) ns.

(** [k] interfaces were created since [s0], [j] of them freed without their
    reference. *)
Record acct s0 (k j : nat) s : Prop := {
  ac_run : running d l s;
  ac_world : world s = world s0;
  ac_ref : ncf_ref (ncf s) = ncf_ref (ncf s0) + Z.of_nat k;
  ac_size : (size (ifs s) + j = size (ifs s0) + k)%nat;
  ac_fresh : forall p, (next_if s <= p)%nat -> ifs s !! p = None
}.

Lemma acct_made s0 k j s nif : acct s0 k j s -> 0 <= ncf_ref (ncf s) < REF_MAX - 1 ->
  acct s0 (S k) j (with_if s (next_if s) nif (ref_incr (ncf_ref (ncf s)))).
Proof.
  intros [Hr Hw Hc Hz Hf] Hb. split; cbn.
  - destruct Hr. by split.
  - done.
  - unfold ref_incr, REF_MAX in *. rewrite decide_False by lia. rewrite Z.mod_small by lia. lia.
  - rewrite map_size_insert_None by by apply Hf. lia.
  - intros p Hp. rewrite lookup_insert_ne by lia. apply Hf. lia.
Qed.

Lemma acct_set s0 k j s p nif nif' : acct s0 k j s -> ifs s !! p = Some nif ->
  acct s0 k j (set_ifs (<[p := nif']> (ifs s)) s).
Proof.
  intros [Hr Hw Hc Hz Hf] Hp. split; cbn; [by apply running_ifs|done|done| |].
  - rewrite map_size_insert_Some by by eexists. done.
  - intros q Hq. rewrite lookup_insert_ne; [by apply Hf|]. intros ->. rewrite Hf in Hp; done.
Qed.

Lemma acct_freed s0 k j s p nif : acct s0 k j s -> ifs s !! p = Some nif ->
  acct s0 k (S j) (set_ifs (delete p (ifs s)) s).
Proof.
  intros [Hr Hw Hc Hz Hf] Hp. split; cbn; [by apply running_ifs|done|done| |].
  - rewrite <- (insert_delete_id (ifs s) p nif Hp) in Hz.
    rewrite map_size_insert_None in Hz by apply lookup_delete_eq. lia.
  - intros q Hq. rewrite lookup_delete_None. right. by apply Hf.
Qed.

Lemma lookup_missing s n : running d l s -> probed (world s) n = false ->
  drv_lookup_by_name n s = (Ret None, s).
Proof.
  intros Hs Hn. unfold drv_lookup_by_name.
  rewrite (bind_Ret _ _ _ _ _ (the_driver_run s d (run_driver _ _ _ Hs))).
  unfold probe_interface, bind, gets, probed in *.
  by destruct (ioctl_ifflags _ _ _).
Qed.

Lemma lookup_found s n : running d l s -> probed (world s) n = true ->
  drv_lookup_by_name n s
  = (Ret (Some (next_if s)),
     with_if s (next_if s) {| nif_ref := 1; nif_name := n; nif_mac := None |}
       (ref_incr (ncf_ref (ncf s)))).
Proof.
  intros Hs Hn. unfold drv_lookup_by_name.
  rewrite (bind_Ret _ _ _ _ _ (the_driver_run s d (run_driver _ _ _ Hs))).
  rewrite (bind_Ret _ _ s 0 s).
  2:{ unfold probe_interface, bind, gets, probed in *. by destruct (ioctl_ifflags _ _ _). }
  cbn [Z.eqb negb]. unfold on_error at 1. rewrite (bind_Ret _ _ _ _ _ (running_strdup d l s Hs n)).
  unfold nonnull. rewrite bind_ret_l. unfold new_nif.
  erewrite bind_Ret; [|rewrite make_netcf_if_run; unfold malloc; rewrite (run_mem _ _ _ Hs); reflexivity].
  unfold on_error. erewrite bind_Ret; [|apply ERR_BAIL_ok; exact (run_ok _ _ _ Hs)]. done.
Qed.

(** One name that the kernel knows *)
Lemma mac_step_found s0 k j s mac n total arr :
  acct s0 k j s -> probed (world s) n = true -> 0 <= ncf_ref (ncf s) < REF_MAX - 1 ->
  match last (mac_texts l n) with
  | None => exists s', mac_step mac (Some n) (total, arr) s = (Ret (total, arr), s') /\ acct s0 (S k) j s'
  | Some t =>
      if decide (t = mac) then
        exists s', acct s0 (S k) j s' /\ mac_step mac (Some n) (total, arr) s
        = if total <? Z.of_nat (length arr)
          then (Ret (total + 1, <[Z.to_nat total := Some (next_if s)]> arr), s')
          else (Stop (UB "write past the end of ifaces"), s')
      else exists s', mac_step mac (Some n) (total, arr) s = (Ret (total, arr), s') /\ acct s0 (S k) (S j) s'
  end.
Proof.
  intros Ha Hn Hb. pose proof (ac_run _ _ _ _ Ha) as Hs.
  set (nif := {| nif_ref := 1; nif_name := n; nif_mac := None |}).
  pose proof (acct_made s0 k j s nif Ha Hb) as Ha1. set (s1 := with_if _ _ _ _) in Ha1.
  assert (Hp : ifs s1 !! next_if s = Some nif) by apply lookup_insert_eq.
  pose proof (mac_string_run s1 (next_if s) nif (ac_run _ _ _ _ Ha1) Hp) as Hm. cbv zeta in Hm.
  assert (last_mac (mac_texts l n) nif = last (mac_texts l n)) as Hlast.
  { unfold last_mac. by destruct (last _). }
  cbn [nif_name nif] in Hm. rewrite Hlast in Hm.
  pose proof (acct_set _ _ _ _ _ _ (set_nif_mac (last (mac_texts l n)) nif) Ha1 Hp) as Ha2.
  set (s2 := set_ifs _ _) in Hm, Ha2.
  assert (Hstep : forall o, last (mac_texts l n) = o -> mac_step mac (Some n) (total, arr) s =
    match o with
    | None => (Ret (total, arr), s2)
    | Some t => (if STREQ t mac then
                   if negb (total <? Z.of_nat (length arr)) then halt (UB "write past the end of ifaces")
                   else ret (total + 1, <[Z.to_nat total := Some (next_if s)]> arr)
                 else free_raw (next_if s) ;; ret (total, arr)) s2
    end).
  { intros o Ho. unfold mac_step, deref. rewrite bind_ret_l.
    rewrite (bind_Ret _ _ _ _ _ (lookup_found s n Hs Hn)). fold nif. fold s1.
    rewrite (bind_Ret _ _ _ _ _ Hm). rewrite Ho. by destruct o. }
  destruct (last (mac_texts l n)) as [t|] eqn:El; rewrite (Hstep _ eq_refl); [|by exists s2].
  destruct (decide (t = mac)) as [->|Hne].
  - rewrite STREQ_refl. exists s2. split; [done|]. by destruct (total <? _).
  - apply STREQ_neq in Hne. rewrite Hne. eexists. split.
    + unfold free_raw, the_if, bind, gets. cbn. rewrite lookup_insert_eq. done.
    + eapply acct_freed; [exact Ha2|apply lookup_insert_eq].
Qed.

Lemma length_filter_cons {A} (P : A -> Prop) `{!forall x, Decision (P x)} x xs :
  length (filter P (x :: xs)) = ((if decide (P x) then 1 else 0) + length (filter P xs))%nat.
Proof. rewrite filter_cons. by case_decide. Qed.

(** The whole loop: the array suffices, *)
Lemma mac_loop_acct s0 mac ns : forall k j s total arr,
  acct s0 k j s -> 0 <= ncf_ref (ncf s) -> ncf_ref (ncf s) + Z.of_nat (length ns) < REF_MAX -> 0 <= total ->
  let ns' := created (world s0) ns in
  total + Z.of_nat (length (matching mac ns')) <= Z.of_nat (length arr) ->
  exists s' arr', acct s0 (k + length ns') (j + length (rejected mac ns')) s' /\
    length arr' = length arr /\
    for_acc (Some <$> ns) (total, arr) (mac_step mac) s
    = (Ret (total + Z.of_nat (length (matching mac ns')), arr'), s').
Proof.
  induction ns as [|n ns IH]; intros k j s total arr Ha Hpos Hroom Htot; cbv zeta.
  { cbn [created filter]. intros _. exists s, arr. cbn. by rewrite Z.add_0_r, !Nat.add_0_r. }
  cbn [fmap list_fmap for_acc]. cbn [length] in Hroom.
  pose proof (ac_world _ _ _ _ Ha) as Hw. unfold created. rewrite filter_cons.
  destruct (probed (world s0) n) eqn:Hn.
  2:{ rewrite decide_False by done. rewrite (bind_Ret _ _ s (total, arr) s).
      - apply IH; [done|done|lia|done].
      - unfold mac_step, deref. rewrite bind_ret_l.
        by rewrite (bind_Ret _ _ _ _ _ (lookup_missing s n (ac_run _ _ _ _ Ha) ltac:(by rewrite Hw))). }
  rewrite decide_True by done. unfold matching, rejected. rewrite !length_filter_cons. cbn [length].
  pose proof (mac_step_found s0 k j s mac n total arr Ha ltac:(by rewrite Hw) ltac:(lia)) as Hstep.
  intros Hfit. rewrite Nat.add_succ_r, <- Nat.add_succ_l.
  destruct (last (mac_texts l n)) as [t|]; [destruct (decide (t = mac)) as [->|Hne]|].
  - destruct (decide (Some mac = Some mac)) as [_|]; [|done].
    destruct (decide (Some mac <> None /\ _)) as [[]|_]; [done|].
    destruct Hstep as (s1 & Ha1 & Hstep). rewrite (proj2 (Z.ltb_lt _ _)) in Hstep by lia.
    rewrite (bind_Ret _ _ _ _ _ Hstep). pose proof (ac_ref _ _ _ _ Ha). pose proof (ac_ref _ _ _ _ Ha1).
    destruct (IH (S k) j s1 (total + 1) (<[Z.to_nat total := Some (next_if s)]> arr) Ha1) as (s' & arr' & Hacct & Hlen & Hr);
      [lia|lia|lia|rewrite length_insert; unfold matching, created; lia|].
    exists s', arr'. split; [exact Hacct|]. rewrite length_insert in Hlen. split; [done|].
    rewrite Hr. unfold matching, created. do 3 f_equal. lia.
  - destruct (decide (Some t = Some mac)) as [[=]|_]; [done|].
    destruct (decide (Some t <> None /\ _)) as [_|Hx]; [|destruct Hx; split; congruence].
    destruct Hstep as (s1 & Hstep & Ha1). rewrite (bind_Ret _ _ _ _ _ Hstep).
    pose proof (ac_ref _ _ _ _ Ha). pose proof (ac_ref _ _ _ _ Ha1).
    destruct (IH (S k) (S j) s1 total arr Ha1) as (s' & arr' & Hacct & Hlen & Hr); [lia|lia|lia|exact Hfit|].
    exists s', arr'. rewrite Nat.add_succ_r, <- Nat.add_succ_l. by split.
  - destruct (decide (None = Some mac)) as [|_]; [done|].
    destruct (decide (None <> None /\ _)) as [[]|_]; [done|].
    destruct Hstep as (s1 & Hstep & Ha1). rewrite (bind_Ret _ _ _ _ _ Hstep).
    pose proof (ac_ref _ _ _ _ Ha). pose proof (ac_ref _ _ _ _ Ha1).
    destruct (IH (S k) j s1 total arr Ha1) as (s' & arr' & Hacct & Hlen & Hr); [lia|lia|lia|exact Hfit|].
    exists s', arr'. by split.
Qed.
(** or it does not. *)
Lemma mac_loop_overflow s0 mac ns : forall k j s total arr,
  acct s0 k j s -> 0 <= ncf_ref (ncf s) -> ncf_ref (ncf s) + Z.of_nat (length ns) < REF_MAX -> 0 <= total ->
  total <= Z.of_nat (length arr) < total + Z.of_nat (length (matching mac (created (world s0) ns))) ->
  exists s', for_acc (Some <$> ns) (total, arr) (mac_step mac) s
             = (Stop (UB "write past the end of ifaces"), s').
Proof.
  induction ns as [|n ns IH]; intros k j s total arr Ha Hpos Hroom Htot Hover; [cbn in Hover; lia|].
  cbn [fmap list_fmap for_acc]. cbn [length] in Hroom. revert Hover.
  pose proof (ac_world _ _ _ _ Ha) as Hw. unfold created. rewrite filter_cons.
  destruct (probed (world s0) n) eqn:Hn.
  2:{ rewrite decide_False by done. rewrite (bind_Ret _ _ s (total, arr) s).
      - apply (IH k j); [done|done|lia|done].
      - unfold mac_step, deref. rewrite bind_ret_l.
        by rewrite (bind_Ret _ _ _ _ _ (lookup_missing s n (ac_run _ _ _ _ Ha) ltac:(by rewrite Hw))). }
  rewrite decide_True by done. unfold matching. rewrite length_filter_cons.
  pose proof (mac_step_found s0 k j s mac n total arr Ha ltac:(by rewrite Hw) ltac:(lia)) as Hstep.
  pose proof (ac_ref _ _ _ _ Ha).
  destruct (last (mac_texts l n)) as [t|]; [destruct (decide (t = mac)) as [->|Hne]|].
  - destruct (decide (Some mac = Some mac)) as [_|]; [|done]. destruct Hstep as (s1 & Ha1 & Hstep). intros Hover.
    destruct (Z.ltb_spec total (Z.of_nat (length arr))).
    + rewrite (bind_Ret _ _ _ _ _ Hstep). pose proof (ac_ref _ _ _ _ Ha1).
      apply (IH (S k) j); [done|lia|lia|lia|]. rewrite length_insert. unfold matching, created. lia.
    + rewrite (bind_Stop _ _ _ _ _ Hstep). by eexists.
  - destruct (decide (Some t = Some mac)) as [[=]|_]; [done|]. destruct Hstep as (s1 & Hstep & Ha1).
    intros Hover. rewrite (bind_Ret _ _ _ _ _ Hstep). pose proof (ac_ref _ _ _ _ Ha1).
    apply (IH (S k) (S j)); [done|lia|lia|lia|exact Hover].
  - destruct (decide (None = Some mac)) as [|_]; [done|]. destruct Hstep as (s1 & Hstep & Ha1).
    intros Hover. rewrite (bind_Ret _ _ _ _ _ Hstep). pose proof (ac_ref _ _ _ _ Ha1).
    apply (IH (S k) j); [done|lia|lia|lia|exact Hover].
Qed.
End addresses.

(** ** Printing a document *)

Section printing.
Context `{Kernel, !Bsd, !Libxml, !Libxml2, !Posix}.
Implicit Types s : state.

(** A document without cycles: children have a smaller rank. *)
Definition acyclic (x : xmem) (rank : node -> nat) : Prop :=
  forall n c, c ∈ node_children n x -> (rank c < rank n)%nat.

(** [prints m]: from documents [x], [m] returns and changes nothing but the
    terminal. *)
Definition prints (x : xmem) (m : M unit) : Prop := forall s, xml s = x ->
  exists l, m s = (Ret tt, set_tty l s).

Lemma set_tty_id s : set_tty (tty s) s = s.
Proof. by destruct s. Qed.

Lemma prints_ret x : prints x (ret tt).
Proof. intros s _. exists (tty s). by rewrite set_tty_id. Qed.

Lemma prints_seq x m1 m2 : prints x m1 -> prints x m2 -> prints x (m1 ;; m2).
Proof.
  intros Hm1 Hm2 s Hx. destruct (Hm1 s Hx) as [l1 Hl1]. destruct (Hm2 (set_tty l1 s) Hx) as [l2 Hl2].
  exists l2. by rewrite (bind_Ret _ _ _ _ _ Hl1), Hl2.
Qed.

Lemma prints_printf x m : prints x (printf m).
Proof. intros s _. by eexists. Qed.

Lemma prints_xget {A} x (f : xmem -> A) k : prints x (k (f x)) -> prints x (xget f ≫= k).
Proof. intros Hk s Hx. unfold xget, gets, bind. rewrite Hx. by apply Hk. Qed.

Lemma prints_when x b m : prints x m -> prints x (when b m).
Proof. destruct b; [done|]. intros _. apply prints_ret. Qed.

Lemma prints_for_each {A} x (l : list A) f :
  (forall a, a ∈ l -> prints x (f a)) -> prints x (for_each l f).
Proof.
  induction l as [|a l IH]; intros Hf; [apply prints_ret|]. cbn [for_each].
  apply prints_seq; [apply Hf; by left|apply IH; intros b Hb; apply Hf; by right].
Qed.

Lemma prints_prop x n a lab : prints x (print_prop n a lab).
Proof.
  unfold print_prop. apply prints_xget. destruct (xmlGetProp n a x); [|apply prints_ret].
  apply prints_xget, prints_seq; apply prints_printf.
Qed.

Lemma prints_elements x rank : acyclic x rank -> forall fuel n, (rank n < fuel)%nat ->
  prints x (print_element_names fuel n).
Proof.
  intros Hr fuel. induction fuel as [|fuel IH]; intros n Hn; [lia|]. cbn [print_element_names].
  apply prints_xget, prints_seq; [apply prints_when, prints_seq; apply prints_prop|].
  apply prints_xget, prints_for_each. intros c Hc. apply prints_xget.
  apply prints_for_each. intros [elem [props descend]] _. apply prints_when, prints_seq.
  - apply prints_for_each. intros kv _. apply prints_prop.
  - apply prints_when, IH. specialize (Hr n c Hc). lia.
Qed.
End printing.

(** ** Text of rc.conf that cannot be described *)

Section describing.
Context `{Kernel, !Bsd, !Libxml, !Libxml2, !Posix}.
Implicit Types s : state.

Lemma c_string_nul a b : c_string (a +:+ String "000" b) = c_string a.
Proof.
  induction a as [|c a IH]; [done|]. rewrite app_cons. cbn. destruct (Ascii.eqb c "000"); [done|]. by rewrite IH.
Qed.

Lemma c_string_idem a : c_string (c_string a) = c_string a.
Proof. induction a as [|c a IH]; [done|]. cbn. destruct (Ascii.eqb c "000") eqn:E; [done|]. cbn. by rewrite E, IH. Qed.

Lemma store_start l buf : str_at 0 (store 0 (l +:+ String "000" EmptyString) buf) = c_string l.
Proof.
  unfold str_at, store. change (string_drop 0 ?x) with x.
  replace (string_take 0 buf) with "" by by destruct buf.
  change ("" +:+ ?x) with x. rewrite <- string_app_assoc, app_cons. apply c_string_nul.
Qed.

Lemma keep_line_c name l : keep_line name (c_string l) = keep_line name l.
Proof. unfold keep_line. by rewrite c_string_idem. Qed.

Lemma index_of_strchr c a : strchr a c = None -> index_of c a = None.
Proof. induction a as [|x a IH]; cbn; [done|]. destruct (Ascii.eqb x c); [done|]. by intros ->%IH. Qed.

Lemma desc_line_kept name l buf t i s : keep_line name l = true ->
  desc_line name l (buf, t, i) s = (Ret (store 0 (l +:+ String "000" EmptyString) buf, t, i), s).
Proof. intros Hk. unfold desc_line. by rewrite store_start, keep_line_c, Hk. Qed.

Lemma desc_line_crash name l buf t i s : keep_line name l = false -> strchr (c_string l) "=" = None ->
  desc_line name l (buf, t, i) s = (Stop (UB "NULL pointer"), s).
Proof.
  intros Hk Hno. unfold desc_line. rewrite store_start, keep_line_c, Hk. unfold strsep.
  by rewrite store_start, (index_of_strchr _ _ Hno).
Qed.

Lemma desc_lines_crash name ls1 l ls2 acc s :
  Forall (fun x => keep_line name x = true) ls1 -> keep_line name l = false ->
  strchr (c_string l) "=" = None ->
  for_acc (ls1 ++ l :: ls2) acc (desc_line name) s = (Stop (UB "NULL pointer"), s).
Proof.
  intros Hls Hk Hno. revert acc. induction Hls as [|x ls1 Hx _ IH]; intros [[buf t] i]; cbn [app for_acc].
  - by rewrite (bind_Stop _ _ _ _ _ (desc_line_crash name l buf t i s Hk Hno)).
  - rewrite (bind_Ret _ _ _ _ _ (desc_line_kept name x buf t i s Hx)). apply IH.
Qed.

(** [stuck Q w m]: from every state in [Q] the program stops with [w]. *)
Definition stuck {A} (Q : state -> Prop) (w : stop) (m : M A) : Prop := forall s, Q s ->
  exists s', m s = (Stop w, s').

Lemma stuck_xcall {A B} Q w (f : xmem -> A * xmem) (k : A -> M B) :
  (forall s x, Q s -> Q (set_xml x s)) -> (forall a, stuck Q w (k a)) -> stuck Q w (xcall f ≫= k).
Proof. intros HQ Hk s Hs. unfold bind, xcall. destruct (f (xml s)) as [a x]. by apply Hk, HQ. Qed.

Lemma stuck_bind {A B} (Q : state -> Prop) w (m : M A) (k : A -> M B) a :
  (forall s, Q s -> m s = (Ret a, s)) -> stuck Q w (k a) -> stuck Q w (m ≫= k).
Proof. intros Hm Hk s Hs. rewrite (bind_Ret _ _ _ _ _ (Hm s Hs)). by apply Hk. Qed.

(** An interface without a lease, when nothing was stored in [addr_buf] *)
Lemma xml_print_stuck p nif w t mac mtu inet v : 0 <= t <= 2 ->
  existsb (fnmatch (snprintf FILENAME_MAX ("dhclient.leases." +:+ nif_name nif))) (scandir PATH_VAR_DB w) = false ->
  stuck (fun s => world s = w /\ ifs s !! p = Some nif) (UB "addr_buf is not initialised")
    (xml_print p t mac mtu None inet v).
Proof.
  intros Ht Hl. set (Q := fun s => _). assert (HQ : forall s x, Q s -> Q (set_xml x s)) by done.
  assert (Hname : forall s, Q s -> if_name p s = (Ret (nif_name nif), s)).
  { intros s [_ Hp]. by apply if_name_ret. }
  unfold xml_print. apply stuck_bind with (a := false).
  { intros s Hs. unfold dhcp_lease_exists, bind at 1, gets. rewrite (bind_Ret _ _ _ _ _ (Hname s Hs)).
    destruct Hs as [-> _]. by rewrite Hl. }
  apply stuck_xcall; [done|intros d].
  apply stuck_bind with (a := if t =? 0 then "ethernet" else if t =? 1 then "bridge" else "vlan").
  { intros s _. destruct (Z.eqb_spec t 0), (Z.eqb_spec t 1), (Z.eqb_spec t 2); (done || lia). }
  do 3 (apply stuck_xcall; [done|intros ?]). eapply stuck_bind; [apply Hname|].
  do 3 (apply stuck_xcall; [done|intros ?]). cbn [when]. eapply stuck_bind; [done|].
  apply stuck_xcall; [done|intros proto].
  intros s Hs. unfold bind at 1. set (fam := if inet =? 0 then _ else _).
  assert (exists x, fam s = (Ret tt, set_xml x s)) as [x ->].
  { subst fam. unfold bind, xcall, ret. destruct (inet =? 0); [|destruct (inet =? 1)].
    - destruct (xmlNewProp _ _ _ _) as [? x]. by exists x.
    - destruct (xmlNewProp _ _ _ _) as [? x]. by exists x.
    - exists (xml s). by destruct s. }
  unfold bind at 1, xcall at 1. unfold bind, xcall. cbn [xml set_xml].
  destruct (xmlNewChild _ _ _) as [? x2]. by eexists.
Qed.
(** Entries of other families leave [addr_buf] alone. *)
Lemma state_entries_run name l : forall t i s, 0 <= t <= 2 ->
  Forall (fun e => exists a, ifa_addr e = Some a /\
    (has_prefix (ifa_name e) name = true -> sa_family a <> BSD_AF_INET6)) l ->
  exists t' i' out, 0 <= t' <= 2 /\
    for_acc l (t, i, None) (state_entry name) s = (Ret (t', i', None), set_tty out s).
Proof.
  induction l as [|e l IH]; intros t i s Ht Hl.
  { exists t, i, (tty s). by rewrite set_tty_id. }
  apply Forall_cons in Hl as [(a & Ha & Hf) Hl]. cbn [for_acc]. unfold state_entry at 1.
  destruct (has_prefix (ifa_name e) name); cbn [negb].
  2:{ rewrite bind_ret_l. by apply IH. }
  rewrite Ha. cbn [deref]. rewrite bind_assoc, bind_ret_l.
  apply Z.eqb_neq in Hf; [|done]. rewrite Hf.
  set (t1 := if sdl_type a =? IFT_BRIDGE then 1 else if sdl_type a =? IFT_L2VLAN then 2 else 0).
  set (i1 := if sa_family a =? AF_INET then 0 else i).
  assert (0 <= t1 <= 2) as Ht1.
  { unfold t1. destruct (sdl_type a =? IFT_BRIDGE); [lia|]. destruct (sdl_type a =? IFT_L2VLAN); lia. }
  rewrite bind_assoc. destruct (sdl_type a =? IFT_BRIDGE); cbn [when].
  - rewrite (bind_Ret _ _ s tt (set_tty (tty s ++ ["bridge found" +:+ nl]) s)) by done. rewrite bind_ret_l.
    destruct (IH t1 i1 (set_tty (tty s ++ ["bridge found" +:+ nl]) s) Ht1 Hl) as (t' & i' & out & Hr & He).
    exists t', i', out. by rewrite He.
  - rewrite !bind_ret_l. by apply IH.
Qed.
End describing.

(** ** Which promises are kept *)

Section promises.
Context `{Kernel, !Bsd, !Libxml, !Libxml2, !Posix}.
Implicit Types s : state.

(** A function that respects the error discipline and the counters and comes
    back to its caller. *)
Definition harmless {A} (m : M A) : Prop := pres grows m /\ closed m.

(** Its failures come with an error. *)
Definition honest (m : M Z) : Prop := pres grows m /\ reports m.

(** No error is recorded. *)
Definition silent s s' : Prop := err s' = err s.

#[global] Instance silent_preorder : PreOrder silent.
Proof. split; unfold silent; [done|]. intros x y z. congruence. Qed.

Hint Extern 1 (silent _ _) => reflexivity : pres.

Lemma silent_malloc : pres silent malloc.
Proof. intros s. unfold malloc. by destruct (mem s). Qed.
Lemma silent_xcall {A} (f : xmem -> A * xmem) : pres silent (xcall f).
Proof. intros s. unfold xcall. by destruct (f (xml s)). Qed.
Lemma silent_syscall {A} (f : sys -> A * sys) : pres silent (syscall f).
Proof. intros s. unfold syscall. by destruct (f (world s)). Qed.
Hint Resolve silent_malloc silent_xcall silent_syscall : pres.

Lemma silent_print_elements k n : pres silent (print_element_names k n).
Proof.
  revert n. induction k as [|k IH]; intros n; cbn [print_element_names]; [pres_auto|].
  unfold print_prop, printf, xget. pres_auto.
Qed.
Lemma silent_xml_print p t m u a i v : pres silent (xml_print p t m u a i v).
Proof. unfold xml_print, dhcp_lease_exists, if_name, the_if, printf, xget. pres_auto. Qed.
Hint Resolve silent_print_elements silent_xml_print : pres.

Lemma silent_updown p v :
  pres silent (name ← if_name p; d ← the_driver; setifflags name v (ioctl_fd d)).
Proof. unfold if_name, the_if, the_driver, setifflags, printf. pres_auto. Qed.
Lemma silent_undefine p : pres silent (drv_undefine p).
Proof. unfold drv_undefine, if_name, the_if, fopen_r, fopen_w, fread_all, fclose_w, printf. pres_auto. Qed.
Lemma silent_define k x : pres silent (drv_define k x).
Proof. unfold drv_define, free_doc, deref, printf, xget. pres_auto. Qed.
Lemma silent_xml_desc j p : pres silent (drv_xml_desc j p).
Proof.
  unfold drv_xml_desc, if_name, the_if, fopen_r, fread_all, printf, desc_line, copy_value, deref. pres_auto.
Qed.
Lemma silent_xml_state p : pres silent (drv_xml_state p).
Proof.
  unfold drv_xml_state, drv_mac_string, set_mac, put_if, if_name, the_if, get_ifaddrs, strdup, mtu_socket,
    state_entry, inet6_text, close_fd, warn, printf, deref. pres_auto.
Qed.

(** Functions that return nothing but NULL *)
Definition returns_null {A} (m : M (option A)) : Prop := post (fun r _ => r = None) (fun _ => False) m.

Lemma define_null k x : returns_null (drv_define k x).
Proof.
  unfold returns_null, drv_define. apply post_bind; [fails_auto|intros [d'|]].
  - do 3 (apply post_bind; [first [apply closed_print_elements|fails_auto]|intros ?]). by apply post_bind; [fails_auto|intros ?; apply post_ret].
  - apply post_bind; [fails_auto|intros ?]. by apply post_ret.
Qed.
Lemma xml_desc_null j p : returns_null (drv_xml_desc j p).
Proof.
  unfold returns_null, drv_xml_desc. do 4 (apply post_bind; [first [apply closed_fopen_r|fails_auto]|intros ?]).
  destruct (negb _); [by apply post_bind; [fails_auto|intros ?; apply post_ret]|].
  apply post_bind; [apply closed_fread_all|intros ?]. apply post_bind.
  { apply post_for_acc. intros l acc. apply closed_desc_line. }
  intros [[? ?] ?]. apply post_bind; [apply closed_xml_print|intros ?]. by apply post_ret.
Qed.
Lemma xml_state_null p : returns_null (drv_xml_state p).
Proof.
  unfold returns_null, drv_xml_state. apply post_bind; [apply closed_bsd_mac_string|intros ?].
  apply post_bind; [fails_auto|intros ?]. eapply post_on_error with (E := fun _ => True); [|by intros s _].
  assert (Hany : forall (m : M (option string)),
    (forall s r s', m s = (Ret r, s') -> r = None) -> post (fun r _ => r = None) (fun _ => True) m).
  { intros m Hm s. specialize (Hm s). destruct (m s) as [[]?]; naive_solver. }
  apply Hany. intros s r s' Hr. repeat (apply bind_inv in Hr as [(? & ? & _ & Hr)|[[_ ?]|(? & _ & ?)]]; [|done..]).
  repeat case_match. apply bind_inv in Hr as [(? & ? & _ & Hr)|[[_ ?]|(? & _ & ?)]]; [|done..].
  by injection Hr as <-.
Qed.
End promises.

(** ** A host for the witnesses *)

Definition toy_rc_conf : list string :=
  ["# em0 is the uplink" +:+ nl; "hostname=box" +:+ nl; "ifconfig_em0=DHCP" +:+ nl;
   "ifconfig_em01=DHCP" +:+ nl].

Definition toy_freebsd : toy_sys := toy_set_files {["/etc/rc.conf" := strcat toy_rc_conf]} toy_os.

(** [toy_state] with one interface handed out *)
Definition toy_with_if (name : string) (w : toy_sys) : state (H := toy_host) :=
  (make_netcf_if name (toy_state w toy_empty)).2.

Definition toy_nif (name : string) : netcf_if := {| nif_ref := 1; nif_name := name; nif_mac := None |}.

Lemma toy_file_laws : file_laws (H0 := toy_bsd).
Proof.
  split; cbn.
  - done.
  - intros p c w _. apply lookup_insert_eq.
  - intros p q c w Hpq. by apply lookup_insert_ne.
  - intros p q c w w' Hpq ->. intros [= <-]. cbn. rewrite lookup_insert_eq, lookup_insert_ne by done.
    rewrite lookup_delete_eq. split; [done|]. split; [done|]. intros r Hp Hq.
    by rewrite lookup_insert_ne, lookup_delete_ne by done.
  - intros p q w w'. destruct (t_files w !! p); [done|]. by intros [= <-].
Defined.

Lemma toy_running : running (H := toy_host) (toy_driver toy_empty)
  (default [] (getifaddrs (Bsd := toy_bsd) toy_os)) (toy_state toy_os toy_empty).
Proof. split; try reflexivity. repeat constructor; by eexists. Defined.

(** ** Properties *)

(** C38: removing an interface from rc.conf: when both files can be opened,
    rc.conf is replaced by the text of the lines that stay and the temporary file is gone,
    unless it cannot be renamed: then it is left there with that text, rc.conf is as it
    was, and the result is 0 all the same; no other file is touched. If one of them cannot
    be opened the result is -1 and nothing changed. If
    every line fits the buffer, the lines that stay are the comments and those in
    which the name does not occur, and they stay as they were. *)
Theorem drv_undefine_spec `{Kernel, !Bsd, !Libxml, !Libxml2, !Posix} (s : state) (p : nat)
  (nif : netcf_if) (Hp : ifs s !! p = Some nif) (Hfs : file_laws) :
  match file PATH_RC_CONF (world s), creat PATH_RC_CONF_TMP (world s) with
  | Some text, true =>
      let stay := kept_text (nif_name nif) (lines_read text) in
      exists s', drv_undefine p s = (Ret 0, s') /\
        (if (rename PATH_RC_CONF_TMP PATH_RC_CONF
               (write_file PATH_RC_CONF_TMP stay (write_file PATH_RC_CONF_TMP "" (world s)))).1
         then file PATH_RC_CONF (world s') = Some stay /\ file PATH_RC_CONF_TMP (world s') = None
         else file PATH_RC_CONF (world s') = Some text /\ file PATH_RC_CONF_TMP (world s') = Some stay) /\
        (forall q, q <> PATH_RC_CONF -> q <> PATH_RC_CONF_TMP -> file q (world s') = file q (world s))
  | _, _ =>
      exists s', drv_undefine p s = (Ret (-1), s') /\ world s' = world s /\ err s' = err s
  end /\
  (forall ls, Forall short_line ls ->
     kept_text (nif_name nif) (lines_read (strcat ls))
     = strcat (filter (fun l => keep_line (nif_name nif) l = true) ls) /\
     Forall (fun l => keep_line (nif_name nif) l = true <->
                      (exists r, l = String "#" r) \/ ~ mentions (nif_name nif) l) ls).
Proof.
  split.
  - destruct (file PATH_RC_CONF (world s)) as [text|] eqn:Hf; [|by apply undefine_fails with nif; [|left]].
    destruct (creat PATH_RC_CONF_TMP (world s)) eqn:Hc; [|by apply undefine_fails with nif; [|right]].
    set (w1 := write_file PATH_RC_CONF_TMP "" (world s)). cbv zeta. set (stay := kept_text _ _).
    assert (Hne : PATH_RC_CONF_TMP <> PATH_RC_CONF) by done.
    assert (Ht1 : file PATH_RC_CONF w1 = Some text) by (unfold w1; by rewrite (file_write_other Hfs)).
    pose proof (undefine_run s p nif text Hp Hf Hc) as Hrun. cbv zeta in Hrun. fold w1 in Hrun.
    rewrite Ht1 in Hrun. cbn [default id] in Hrun. fold stay in Hrun.
    eexists. split; [exact Hrun|]. cbn [set_world world].
    pose proof (file_write Hfs PATH_RC_CONF_TMP stay w1 (creat_write Hfs _ _ _ Hc)) as Hw.
    assert (Ho : forall q, q <> PATH_RC_CONF_TMP -> file q (write_file PATH_RC_CONF_TMP stay w1) = file q (world s))
      by (intros q Hq; unfold w1; by rewrite !(file_write_other Hfs)).
    destruct (rename _ _ _) as [[] w2] eqn:Er; cbn [fst snd].
    + destruct (file_rename Hfs _ PATH_RC_CONF _ _ _ Hne Hw Er) as (Hr1 & Hr2 & Hr3).
      split; [by split|]. intros q Hq1 Hq2. rewrite Hr3 by done. by apply Ho.
    + pose proof (file_rename_fails Hfs _ _ _ _ Er) as Hr. rewrite !Hr. split; [split; [by rewrite Ho|done]|].
      intros q _ Hq2. rewrite Hr. by apply Ho.
  - intros ls Hls. split; [by apply kept_text_lines|]. eapply Forall_impl; [exact Hls|].
    intros l Hl. by apply keep_line_spec.
Qed.

(** Undefining em0 takes the line for em01 with it. *)
Lemma drv_undefine_spec_witness :
  exists s', drv_undefine 0 (toy_with_if "em0" toy_freebsd) = (Ret 0, s') /\
    t_files (world s') !! "/etc/rc.conf" = Some ("# em0 is the uplink" +:+ nl +:+ "hostname=box" +:+ nl).
Proof.
  destruct (@drv_undefine_spec toy_host toy_kernel toy_bsd toy_libxml toy_libxml2 toy_posix
    (toy_with_if "em0" toy_freebsd) 0%nat (toy_nif "em0") eq_refl toy_file_laws)
    as [(s' & Hr & Hf & _) _]. vm_compute in Hf.
  exists s'. split; [exact Hr|exact (proj1 Hf)].
Defined.

(** A line that does not fit the buffer is taken to pieces: the end of it stays. *)
Example undefine_long_line :
  kept_text "em0" (lines_read ("ifconfig_em0=" +:+ String.concat "" (repeat "x" 250) +:+ nl))
  = String.concat "" (repeat "x" 8) +:+ nl.
Proof. vm_compute. reflexivity. Qed.

(** Bringing an interface up or down asks the kernel for its old flags with
    IFF_UP set or cleared and every other bit as it was; the result is 0 exactly
    if the kernel agrees. *)
Theorem bsd_up_down_spec `{Kernel, !Bsd, !Libxml, !Libxml2, !Posix} (d : driver) (s : state)
  (p : nat) (nif : netcf_if) (up : bool) (low high : Z)
  (Hp : ifs s !! p = Some nif) (Hd : ncf_driver (ncf s) = Some d)
  (Hlow : ioctl_ifflags (ioctl_fd d) (ifr_name (nif_name nif)) (world s) = Some low)
  (Hhigh : ioctl_flagshigh (ioctl_fd d) (ifr_name (nif_name nif)) (world s) = high)
  (Hpos : 0 <= high < 2 ^ 15) :
  exists low' high',
    (let '(ok, w') := ioctl_setflags (ioctl_fd d) (ifr_name (nif_name nif)) low' high' (world s) in
     (if up then drv_if_up p else drv_if_down p) s = (Ret (if (ok : bool) then 0 else -1), set_world w' s)) /\
    forall i, 0 <= i -> Z.testbit (join_flags low' high') i
                        = if i =? 0 then up else Z.testbit (join_flags low high) i.
Proof.
  set (f := change_flags (if up then IFF_UP else - IFF_UP) (join_flags low high)).
  exists (i16 (Z.land f 0xffff)), (i16 (Z.shiftr f 16)). split.
  - pose proof (setifflags_run up (nif_name nif) (ioctl_fd d) low high s Hlow Hhigh ltac:(lia)) as Hr.
    cbv zeta in Hr. fold f in Hr. destruct (ioctl_setflags _ _ _ _ _) as [ok w']. rewrite <- Hr.
    destruct up; unfold drv_if_up, drv_if_down; rewrite (bind_Ret _ _ _ _ _ (if_name_ret s p nif Hp));
      by rewrite (bind_Ret _ _ _ _ _ (the_driver_run s d Hd)).
  - intros i Hi. rewrite join_split by (apply change_flags_range, join_flags_range; lia).
    by apply change_flags_bit.
Qed.

Lemma bsd_up_down_spec_witness :
  exists s', drv_if_up 0 (toy_with_if "eth1" toy_os) = (Ret 0, s') /\ assoc (t_flags (world s')) "eth1" = Some 1.
Proof.
  destruct (@bsd_up_down_spec toy_host toy_kernel toy_bsd toy_libxml toy_libxml2 toy_posix
    (toy_driver toy_empty) (toy_with_if "eth1" toy_os) 0%nat (toy_nif "eth1") true 0 0
    eq_refl eq_refl eq_refl eq_refl ltac:(lia)) as (low & high & Hr & Hb).
  eexists. split; [vm_compute; reflexivity|]. vm_compute. reflexivity.
Defined.

(** C39: listing hands out the names of the configurable interfaces in a wanted
    state, in the order of the kernel and up to the size of the array. Counting
    them gives their number only while there is at most one: the second name is
    written behind the one slot that was allocated. *)
Theorem bsd_list_spec `{Kernel, !Bsd, !Libxml, !Libxml2, !Posix} (d : driver) (l : list ifaddrs)
  (s : state) (n flags : Z) (Hs : running d l s) (Hn : 0 <= n) :
  let names := wanted_names d l (world s) flags in let k := Z.to_nat n in
  drv_list_interfaces n flags s
  = (Ret (Z.of_nat (Nat.min k (length names)),
          (Some <$> take k names) ++ replicate (k - length names) None), s) /\
  drv_num_of_interfaces flags s
  = if decide (length names <= 1)%nat then (Ret (Z.of_nat (length names)), s)
    else (Stop (UB "write past the end of names"), s).
Proof.
  cbv zeta. unfold drv_list_interfaces, drv_num_of_interfaces, list_interface_ids, wanted_names.
  set (Hl := bsd_list_run d l s Hs). set (Hb := running_bail d l s Hs). split.
  - erewrite bind_Ret.
    2:{ unfold on_error. rewrite (bind_Ret _ _ _ _ _ Hl), (bind_Ret _ _ _ _ _ Hb). cbn [default is_null].
        pose proof (bsd_ids_run d l s Hs flags (if_names l) n [] (replicate (Z.to_nat n) None)) as Hr.
        cbn [app length] in Hr. rewrite length_replicate in Hr. change (Z.of_nat 0) with 0 in Hr.
        unfold id. rewrite Hr by lia. reflexivity. }
    unfold ret. cbn [default id app]. rewrite drop_replicate. set (w := filter _ _).
    assert (Some <$> take (Nat.min (Z.to_nat n) (length w)) w = Some <$> take (Z.to_nat n) w) as ->.
    { f_equal. destruct (Nat.le_ge_cases (Z.to_nat n) (length w)); [by rewrite Nat.min_l|].
      rewrite Nat.min_r by done. by rewrite !take_ge by lia. }
    replace (Z.to_nat n - Nat.min (Z.to_nat n) (length w))%nat with (Z.to_nat n - length w)%nat by lia. done.
  - pose proof (one_slot_run d l s Hs flags (if_names l) (Z.of_nat (length (if_names l))) ltac:(lia)) as Hr.
    set (w := filter _ _) in *.
    assert (Hbody : on_error
      (ointf ← list_interfaces; ERR_BAIL ;;
       ids_loop flags (default [] ointf)
         (if is_null (@None (list (option string))) then Z.of_nat (length (default [] ointf)) else 0) 0 None)
      (ret (-1, None)) s
      = on_error (ids_loop flags (Some <$> if_names l) (Z.of_nat (length (if_names l))) 0 None) (ret (-1, None)) s).
    { unfold on_error. rewrite (bind_Ret _ _ _ _ _ Hl), (bind_Ret _ _ _ _ _ Hb). cbn [default is_null id].
      by rewrite length_fmap. }
    unfold bind at 1. rewrite Hbody. unfold on_error. rewrite Hr.
    by destruct w as [|? [|? ?]].
Qed.

Lemma bsd_list_spec_witness :
  drv_list_interfaces 5 NETCF_IFACE_ACTIVE (toy_state toy_os toy_empty)
    = (Ret (2, [Some "eth0"; Some "br0"; None; None; None]), toy_state toy_os toy_empty) /\
  drv_num_of_interfaces NETCF_IFACE_ACTIVE (toy_state toy_os toy_empty)
    = (Stop (UB "write past the end of names"), toy_state toy_os toy_empty).
Proof.
  exact (@bsd_list_spec toy_host toy_kernel toy_bsd toy_libxml toy_libxml2 toy_posix
    (toy_driver toy_empty) _ (toy_state toy_os toy_empty) 5 NETCF_IFACE_ACTIVE toy_running ltac:(lia)).
Defined.

(** A lookup by MAC address creates an interface for every name the kernel
    knows. Those with another address are freed without giving their reference
    back, so that afterwards the counter of the instance is too high by their
    number; those without an address are not freed at all. More matches than the
    array holds are written behind it. *)
Theorem bsd_lookup_mac_spec `{Kernel, !Bsd, !Libxml, !Libxml2, !Posix} (d : driver)
  (l : list ifaddrs) (s : state) (mac : string) (n : Z)
  (Hs : running d l s) (Hwf : refs_wf s)
  (Hroom : ncf_ref (ncf s) + Z.of_nat (length (if_names l)) < REF_MAX) (Hn : 0 <= n) :
  let ns := created d (world s) (if_names l) in
  let lost := Z.of_nat (length (rejected l mac ns)) in
  let hits := Z.of_nat (length (matching l mac ns)) in
  exists s', if decide (hits <= n) then
    (exists ifaces, drv_lookup_by_mac_string mac n s = (Ret (hits, ifaces), s')) /\
    Z.of_nat (size (ifs s')) = Z.of_nat (size (ifs s)) + Z.of_nat (length ns) - lost /\
    ncf_ref (ncf s') = 1 + Z.of_nat (size (ifs s')) + lost
  else drv_lookup_by_mac_string mac n s = (Stop (UB "write past the end of ifaces"), s').
Proof.
  cbv zeta. pose proof (wf_count s Hwf) as Hc.
  assert (Ha : acct d l s 0 0 s).
  { split; [done|done|lia|lia|]. intros p Hp. by apply (wf_fresh s Hwf). }
  set (arr := replicate (Z.to_nat n) (@None nat)).
  assert (Harr : Z.of_nat (length arr) = n) by (unfold arr; rewrite length_replicate; lia).
  assert (Hrun : forall o, for_acc (Some <$> if_names l) (0, arr) (mac_step mac) s = o ->
    drv_lookup_by_mac_string mac n s = o).
  { intros o <-. unfold drv_lookup_by_mac_string. by rewrite (bind_Ret _ _ _ _ _ (bsd_list_run d l s Hs)). }
  destruct (decide (Z.of_nat (length (matching l mac (created d (world s) (if_names l)))) <= n)) as [Hfit|Hover].
  - destruct (mac_loop_acct d l s mac (if_names l) 0 0 s 0 arr Ha) as (s' & arr' & Hacct & _ & Hr);
      [lia|lia|lia|rewrite Harr; lia|].
    exists s'. split; [exists arr'; apply Hrun, Hr|].
    pose proof (ac_size _ _ _ _ _ _ Hacct). pose proof (ac_ref _ _ _ _ _ _ Hacct). lia.
  - destruct (mac_loop_overflow d l s mac (if_names l) 0 0 s 0 arr Ha) as (s' & Hr);
      [lia|lia|lia|rewrite Harr; lia|].
    exists s'. by apply Hrun.
Qed.

Lemma toy_wf : refs_wf (H := toy_host) (toy_state toy_os toy_empty).
Proof. split; [reflexivity..| |]; [apply map_Forall_empty|intros p _; apply lookup_empty]. Defined.

(** br0 has another address: one reference is lost, two interfaces remain. *)
Lemma bsd_lookup_mac_spec_witness :
  exists s', (exists ifaces, drv_lookup_by_mac_string "52:54:00:1a:ff:04" 4 (toy_state toy_os toy_empty)
                             = (Ret (2, ifaces), s')) /\
    Z.of_nat (size (ifs s')) = 2 /\ ncf_ref (ncf s') = 4.
Proof.
  destruct (@bsd_lookup_mac_spec toy_host toy_kernel toy_bsd toy_libxml toy_libxml2 toy_posix
    (toy_driver toy_empty) _ (toy_state toy_os toy_empty) "52:54:00:1a:ff:04" 4
    toy_running toy_wf ltac:(vm_compute; reflexivity) ltac:(lia)) as (s' & Hr).
  exists s'. rewrite decide_True in Hr by (vm_compute; discriminate).
  destruct Hr as (Hr & Hsize & Href). split; [exact Hr|].
  assert (Z.of_nat (size (ifs s')) = 2) as Hz by (rewrite Hsize; vm_compute; reflexivity).
  split; [exact Hz|]. rewrite Href, Hz. vm_compute. reflexivity.
Defined.

(** C40: the operations that a caller can rely on: each of them respects the error
    discipline and the reference counts and comes back, a listing stays within the
    array, and a failing count, listing, status or transaction comes with an error. *)
Theorem freebsd_keeps `{Kernel, !Bsd, !Libxml, !Libxml2, !Posix} (fuel : nat) (junk : string) :
  (harmless drv_init /\ (forall s, exists s', drv_close s = (Ret tt, s'))) /\
  (forall f, honest (drv_num_of_interfaces f)) /\
  (forall n f, harmless (drv_list_interfaces n f) /\
     post (fun r s => (r.1 < 0 -> failed s) /\ length r.2 = Z.to_nat n) (fun _ => False)
       (drv_list_interfaces n f)) /\
  (forall n, harmless (drv_lookup_by_name n)) /\
  (forall p b, harmless (drv_if_status p b) /\
     post (fun r s => r.1 < 0 -> failed s) (fun _ => False) (drv_if_status p b)) /\
  (forall f, honest (drv_change_begin f) /\ honest (drv_change_rollback f) /\
             honest (drv_change_commit f)) /\
  (forall p, harmless (drv_mac_string p) /\ harmless (drv_if_up p) /\ harmless (drv_if_down p) /\
             harmless (drv_undefine p) /\ harmless (drv_xml_desc junk p) /\ harmless (drv_xml_state p)) /\
  (forall x, harmless (drv_define fuel x)).
Proof.
  unfold harmless, honest, drv_change_begin, drv_change_rollback, drv_change_commit, drv_if_up, drv_if_down.
  repeat match goal with
    | |- _ /\ _ => split
    | |- forall _ : state, exists _, _ => exact bsd_close_runs
    | |- forall _, _ => intros ?
    end; eauto 3 with freebsd pres.
  - eapply post_mono; [apply bsd_list_post|done|done].
  - eapply post_mono; [apply bsd_if_status_post|done|done].
Qed.

(** Bringing an interface up or down, undefining, defining and describing one
    never record an error, not even when they fail, and the last three return
    nothing but NULL: the driver does not keep the promises netcf.c relies on. *)
Theorem freebsd_silent `{Kernel, !Bsd, !Libxml, !Libxml2, !Posix} (fuel : nat) (junk : string) :
  (forall p, pres silent (drv_if_up p) /\ pres silent (drv_if_down p) /\ pres silent (drv_undefine p)) /\
  (forall x, pres silent (drv_define fuel x) /\ returns_null (drv_define fuel x)) /\
  (forall p, pres silent (drv_xml_desc junk p) /\ returns_null (drv_xml_desc junk p)) /\
  (forall p, pres silent (drv_xml_state p) /\ returns_null (drv_xml_state p)) /\
  ~ DriverLaws (H0 := @freebsd_driver toy_host toy_kernel toy_bsd toy_libxml toy_libxml2 toy_posix fuel junk).
Proof.
  split; [intros p; split; [apply silent_updown|split; [apply silent_updown|apply silent_undefine]]|].
  split; [intros x; split; [apply silent_define|apply define_null]|].
  split; [intros p; split; [apply silent_xml_desc|apply xml_desc_null]|].
  split; [intros p; split; [apply silent_xml_state|apply xml_state_null]|].
  intros Hlaws. pose proof (@drv_if_up_law _ _ Hlaws 0%nat) as [_ Hr].
  specialize (Hr (toy_with_if "em9" toy_os)). vm_compute in Hr. by apply Hr.
Qed.

(** A line of rc.conf that is no comment, mentions the interface and has no
    '=' in it crashes the description of the interface. *)
Theorem bsd_xml_desc_crash `{Kernel, !Bsd, !Libxml, !Libxml2, !Posix} (junk : string) (s : state)
  (p : nat) (nif : netcf_if) (text line : string) (before after : list string)
  (Hp : ifs s !! p = Some nif) (Hfile : file PATH_RC_CONF (world s) = Some text)
  (Hlines : lines_read text = before ++ line :: after)
  (Hbefore : Forall (fun l => keep_line (nif_name nif) l = true) before)
  (Hline : keep_line (nif_name nif) line = false) (Hno : strchr (c_string line) "=" = None) :
  exists s', drv_xml_desc junk p s = (Stop (UB "NULL pointer"), s').
Proof.
  unfold drv_xml_desc. unfold bind at 1. destruct (malloc s) as [o1 s1] eqn:E1.
  assert (exists b l, o1 = Ret b /\ s1 = set_mem l s) as (b1 & l1 & -> & ->).
  { revert E1. unfold malloc. destruct (mem s) as [|b l] eqn:Em; intros [= <- <-]; [|by eexists _, _].
    exists true, (mem s). split; [done|]. by destruct s. }
  unfold bind at 1. destruct (malloc (set_mem l1 s)) as [o2 s2] eqn:E2.
  assert (exists b l, o2 = Ret b /\ s2 = set_mem l s) as (b2 & l2 & -> & ->).
  { revert E2. unfold malloc. destruct (mem (set_mem l1 s)) as [|b l] eqn:Em; intros [= <- <-]; [|by eexists _, _].
    by exists true, l1. }
  rewrite (bind_Ret _ _ _ _ _ (if_name_ret (set_mem l2 s) p nif Hp)).
  unfold fopen_r, fread_all.
  unfold bind at 1, gets at 1. cbn [world set_mem]. rewrite Hfile. cbn [is_null negb].
  unfold bind at 1, gets at 1. cbn [world set_mem]. rewrite Hfile. cbn [default id].
  rewrite Hlines. eexists. apply bind_Stop. by apply desc_lines_crash.
Qed.

Lemma bsd_xml_desc_crash_witness :
  exists s', drv_xml_desc "" 0 (toy_with_if "em0" (toy_set_files {["/etc/rc.conf" := "em0" +:+ nl]} toy_os))
             = (Stop (UB "NULL pointer"), s').
Proof.
  apply (@bsd_xml_desc_crash toy_host toy_kernel toy_bsd toy_libxml toy_libxml2 toy_posix ""
    (toy_with_if "em0" (toy_set_files {["/etc/rc.conf" := "em0" +:+ nl]} toy_os)) 0%nat (toy_nif "em0")
    ("em0" +:+ nl) ("em0" +:+ nl) [] [] ltac:(vm_compute; reflexivity) ltac:(vm_compute; reflexivity)
    ltac:(vm_compute; reflexivity) ltac:(constructor) ltac:(vm_compute; reflexivity)
    ltac:(vm_compute; reflexivity)).
Defined.

(** Describing the live state of an interface that has no IPv6 address and no
    DHCP lease reads an array that nothing was stored in. *)
Theorem bsd_xml_state_uninitialised `{Kernel, !Bsd, !Libxml, !Libxml2, !Posix} (d : driver)
  (l l' : list ifaddrs) (s : state) (p : nat) (nif : netcf_if) (fd : Z) (b : bool) (w : sys)
  (Hs : running d l s) (Hp : ifs s !! p = Some nif)
  (Hsock : socket_dgram AF_UNSPEC (world s) = ((fd, b), w)) (Hfd : 0 <= fd)
  (Hl : getifaddrs w = Some l')
  (Hv4 : Forall (fun e => exists a, ifa_addr e = Some a /\
           (has_prefix (ifa_name e) (nif_name nif) = true -> sa_family a <> BSD_AF_INET6)) l')
  (Hlease : existsb (fnmatch (snprintf FILENAME_MAX ("dhclient.leases." +:+ nif_name nif)))
              (scandir PATH_VAR_DB w) = false) :
  exists s', drv_xml_state p s = (Stop (UB "addr_buf is not initialised"), s').
Proof.
  unfold drv_xml_state. rewrite (bind_Ret _ _ _ _ _ (mac_string_run d l s p nif Hs Hp)).
  set (m := last_mac _ _). set (nif' := set_nif_mac m nif). set (s1 := set_ifs _ s).
  assert (Hp1 : ifs s1 !! p = Some nif') by apply lookup_insert_eq.
  rewrite (bind_Ret _ _ _ _ _ (if_name_ret s1 p nif' Hp1)).
  set (s2 := set_world w s1).
  assert (Hsocket : mtu_socket s1 = (Ret fd, s2)).
  { unfold mtu_socket, syscall, bind. change (world s1) with (world s). rewrite Hsock.
    by rewrite (proj2 (Z.ltb_ge fd 0)). }
  unfold on_error. rewrite (bind_Ret _ _ _ _ _ Hsocket). rewrite (proj2 (Z.ltb_ge fd 0)) by done.
  cbn [when]. rewrite bind_ret_l. unfold bind at 1, gets at 1.
  rewrite (bind_Ret _ _ s2 l' s2).
  2:{ unfold get_ifaddrs, bind, gets. change (world s2) with w. by rewrite Hl. }
  destruct (state_entries_run (nif_name nif') l' 0 0 s2 ltac:(lia) Hv4) as (t & i & out & Ht & Hloop).
  rewrite (bind_Ret _ _ _ _ _ Hloop).
  destruct (xml_print_stuck p nif' w t m (snprintf 10 (fmt_d (default 0
    (ioctl_mtu fd (ifr_name (nif_name nif')) (world s2))))) i 0 Ht Hlease (set_tty out s2)) as [s' Hr];
    [by split|].
  exists s'. by rewrite (bind_Stop _ _ _ _ _ Hr).
Qed.

Lemma bsd_xml_state_uninitialised_witness :
  exists s', drv_xml_state 0 (toy_with_if "br0" toy_os) = (Stop (UB "addr_buf is not initialised"), s').
Proof.
  apply (@bsd_xml_state_uninitialised toy_host toy_kernel toy_bsd toy_libxml toy_libxml2 toy_posix
    (toy_driver toy_empty) (default [] (getifaddrs (Bsd := toy_bsd) toy_os))
    (default [] (getifaddrs (Bsd := toy_bsd) toy_os)) (toy_with_if "br0" toy_os)
    0%nat (toy_nif "br0") 6 false toy_os).
  - split; try reflexivity. repeat constructor; by eexists.
  - reflexivity.
  - reflexivity.
  - lia.
  - reflexivity.
  - repeat constructor; eexists; (split; [reflexivity|intros _; discriminate]).
  - vm_compute. reflexivity.
Defined.

(** Defining an interface prints the document and ends, without an interface,
    for any depth the document may have. *)
Theorem bsd_define_ends `{Kernel, !Bsd, !Libxml, !Libxml2, !Posix} (fuel : nat) (xml_str : string)
  (s : state) (x : xmem) (dc : doc) (root : node) (rank : node -> nat)
  (Hread : xmlReadMemory xml_str (xml s) = (Some dc, x))
  (Hroot : xmlDocGetRootElement (Some dc) x = Some root)
  (Hrank : acyclic x rank) (Hfuel : (rank root < fuel)%nat) :
  exists out, drv_define fuel xml_str s
              = (Ret None, set_tty out (set_xml (xmlFreeDoc dc x) s)).
Proof.
  unfold drv_define. rewrite (bind_Ret _ _ s (Some dc) (set_xml x s)).
  2:{ unfold xcall. by rewrite Hread. }
  unfold xget, bind at 1, gets. cbn [xml set_xml]. rewrite Hroot. cbn [deref]. rewrite bind_ret_l.
  destruct (prints_elements x rank Hrank fuel root Hfuel (set_xml x s) eq_refl) as [out Ho].
  exists out. by rewrite (bind_Ret _ _ _ _ _ Ho).
Qed.

(** What [toy_parse] makes of the document [em0]. *)
Definition toy_em0 : gmap nat xelem :=
  <[1%nat := {| x_name := "#doc"; x_text := false; x_props := []; x_kids := [2%nat] |}]>
  (<[2%nat := {| x_name := "interface"; x_text := false; x_props := [("name", "em0")];
                 x_kids := [] |}]> ∅).

Lemma bsd_define_ends_witness :
  exists out, drv_define 2 "em0" (toy_state toy_os toy_empty)
  = (Ret None, set_tty out (set_xml (delete 1%nat toy_em0) (toy_state toy_os toy_empty))).
Proof.
  apply (@bsd_define_ends toy_host toy_kernel toy_bsd toy_libxml toy_libxml2 toy_posix 2 "em0"
    (toy_state toy_os toy_empty) toy_em0 1%nat 2%nat (fun n => 3 - n)%nat).
  - vm_compute. reflexivity.
  - vm_compute. reflexivity.
  - intros n c Hc. cbn in Hc. unfold toy_kids in Hc.
    destruct (decide (n = 1%nat)) as [->|H1]; [|destruct (decide (n = 2%nat)) as [->|H2]].
    + vm_compute in Hc. apply list_elem_of_singleton in Hc as ->. lia.
    + vm_compute in Hc. by apply not_elem_of_nil in Hc.
    + exfalso. revert Hc. unfold toy_em0. rewrite !lookup_insert_ne by done.
      apply not_elem_of_nil.
  - lia.
Defined.
