(* ===== verification/Windows.v ===== *)
(** * The driver for Windows (drv_mswindows.c)

    Interfaces are the adapters of the IP helper library. The driver lists and
    looks them up, switches them on and off with netsh, and reports every other
    operation as not implemented. *)

From S2P Require Import Prelude CStr XsltExt State Refs Toy Posix Xml Netcf Linux Common.

(** What the driver calls. The table that [GetAdaptersAddresses] fills has a first
    entry when the call succeeds. [WideCharToMultiByte] converts the friendly name
    of an adapter into a buffer of the given size, or to NULL: the result and what
    the buffer holds. *)
Class Windows `{Host} := {
  adapter : Type;
  adapters_size : sys -> Z;                        (** the size that the first call asks for *)
  GetAdaptersAddresses : Z -> sys -> (adapter * list adapter) + Z;
  WideCharToMultiByte : adapter -> option Z -> sys -> Z * string;
  PhysicalAddress : adapter -> list Z;             (** [PhysicalAddressLength] bytes *)
  spawnl : list string -> sys -> Z * sys           (** [_spawnl(_P_WAIT, ...)] *)
}.

Definition BUFSIZE : Z := 1024.

(** [printf("%.2X")] of a byte *)
Definition hex_digit_upper (n : Z) : ascii :=
  ascii_of_N (Z.to_N (if n <? 10 then 48 + n else 55 + n)).

Definition fmt_02X (b : Z) : string :=
  String (hex_digit_upper (b / 16)) (String (hex_digit_upper (b mod 16)) EmptyString).

(** An [int] that is compared with a [size_t] *)
Definition to_size (n : Z) : Z := n mod 2 ^ 64.

Section windows.
Context `{Windows, !Env}.

Definition drv_init : M Z :=
  b ← malloc;
  if negb b then ret (-1) else
  modify (fun s => set_ncf (set_driver (Some new_driver) (ncf s)) s) ;;
  ret 0.

Definition drv_close : M unit :=
  o ← gets (fun s => ncf_driver (ncf s));
  match o with
  | None => ret tt
  | Some _ => modify (fun s => set_ncf (set_driver None (ncf s)) s)
  end.

Definition drv_entry : M unit := ret tt.

(** ** Adapters *)

Definition build_adapter_table : M (option (list adapter)) :=
  on_error
    (tableSize ← gets (fun s => adapters_size (world s));
     b ← ALLOC_N (Z.to_nat tableSize);
     ERR_NOMEM (negb b) ;;
     r ← gets (fun s => GetAdaptersAddresses tableSize (world s));
     ERR_COND_BAIL (match r with inl _ => false | inr _ => true end) NETCF_EOTHER ;;
     ret (match r with inl (a, l) => Some (a :: l) | inr _ => None end))
    (ret None).

(** [free(adapter)]: only the first entry is a block of its own. *)
Definition free_adapter (i : Z) : M unit :=
  if i =? 0 then ret tt else halt (UB "free of a pointer into a block").

(** [ERR_NOMEM] while [adapter] is entry [i] of the table, with the first call at
    the label for errors *)
Definition nomem_at (i : Z) (cond : bool) : M unit :=
  when cond (set_errcode NETCF_ENOMEM ;; free_adapter i ;; goto_error).

(** The loop of [list_interface_ids] from entry [nint] on. [wName], where the name
    is to be put, is NULL. *)
Fixpoint ids_loop (table : list adapter) (maxnames nint : Z) (names : option (list (option string)))
  : M (Z * option (list (option string))) :=
  match table with
  | [] => ret (nint, names)
  | a :: table' =>
      if negb (nint <? to_size maxnames) then ret (nint, names) else
      match names with
      | None => ids_loop table' maxnames (nint + 1) None
      | Some l =>
          ' (r, _) ← gets (fun s => WideCharToMultiByte a None (world s));
          nomem_at nint (r =? 0) ;;
          halt (UB "NULL pointer")
      end
  end.

Definition list_interface_ids (maxnames : Z) (names : option (list (option string)))
  (flags : Z) : M (Z * option (list (option string))) :=
  adapters ← build_adapter_table;
  on_error
    (ERR_COND_BAIL (is_null adapters) NETCF_EOTHER ;;
     ids_loop (default [] adapters) maxnames 0 names)
    (ret (-1, names)).

Definition drv_list_interfaces (maxnames flags : Z) : M (Z * list (option string)) :=
  ' (r, names) ← list_interface_ids maxnames (Some (replicate (Z.to_nat maxnames) None)) flags;
  ret (r, default [] names).

Definition drv_num_of_interfaces (flags : Z) : M Z :=
  ' (r, _) ← list_interface_ids 0 None flags;
  ret r.

(** The loop over the table that stops at an adapter with the name: its number and
    the adapter. *)
Fixpoint find_adapter (name : string) (i : Z) (table : list adapter) : M (option (Z * adapter)) :=
  match table with
  | [] => ret None
  | a :: table' =>
      ' (r, wName) ← gets (fun s => WideCharToMultiByte a (Some 8192) (world s));
      nomem_at i (r =? 0) ;;
      if STREQ name wName then ret (Some (i, a)) else find_adapter name (i + 1) table'
  end.

(** A name that is not found becomes an interface all the same. *)
Definition drv_lookup_by_name (name : string) : M (option nat) :=
  adapters ← build_adapter_table;
  on_error
    (ERR_COND_BAIL (is_null adapters) NETCF_EOTHER ;;
     found ← find_adapter name 0 (default [] adapters);
     let i := match found with Some (i, _) => i | None => 0 end in
     nameDup ← strdup name;
     nomem_at i (is_null nameDup) ;;
     nif ← make_netcf_if name;
     on_error (ERR_BAIL ;; ret nif) (free_adapter i ;; unref_netcf_if nif ;; ret None))
    (ret None).

(** [strcpy] or [strcat] into [mac[BUFSIZE]] *)
Definition fill_mac (mac : string) : M unit :=
  when (BUFSIZE <=? strlen mac) (halt (UB "write past the end of mac")).

(** The loop over the bytes of the address: [false] when [strdup] failed. *)
Fixpoint mac_loop (nif : nat) (bytes : list Z) (first : bool) (mac : string) : M bool :=
  match bytes with
  | [] => ret true
  | b :: bytes' =>
      mac ← (if first then
               buf ← xasprintf (fmt_02X b +:+ ":");
               ERR_NOMEM (is_null buf) ;;
               fill_mac (fmt_02X b +:+ ":") ;;
               ret (fmt_02X b +:+ ":")
             else ret mac);
      let text := match bytes' with [] => fmt_02X b | _ => fmt_02X b +:+ ":" end in
      buf ← xasprintf text;
      ERR_NOMEM (is_null buf) ;;
      fill_mac (mac +:+ text) ;;
      dup ← strdup (mac +:+ text);
      set_mac nif dup ;;
      if is_null dup then set_errcode NETCF_ENOMEM ;; ret false
      else mac_loop nif bytes' false (mac +:+ text)
  end.

(** [buf] is not initialised, and is freed at the label. *)
Definition drv_mac_string (nif : nat) : M (option string) :=
  name ← if_name nif;
  adapters ← build_adapter_table;
  on_error
    (ERR_COND_BAIL (is_null adapters) NETCF_EOTHER ;;
     found ← find_adapter name 0 (default [] adapters);
     match found with
     | None => goto_error
     | Some (i, a) =>
         ok ← mac_loop nif (PhysicalAddress a) true "";
         when (negb ok) (free_adapter i) ;;
         n ← the_if nif;
         ret (nif_mac n)
     end)
    (halt (UB "free of an uninitialised pointer")).

(** ** Up and down *)

(** [drv_if_up] and [drv_if_down] differ in the last argument. *)
Definition netsh (nif : nat) (state : string) : M Z :=
  name ← if_name nif;
  p ← gets (fun s => getenv "WINDIR" (world s));
  match p with
  | None => halt (UB "NULL pointer")
  | Some p =>
      o ← xasprintf (p +:+ "\system32\netsh");
      match o with
      | None => set_errcode NETCF_ENOMEM ;; halt (UB "free of an uninitialised pointer")
      | Some exe_path =>
          r ← syscall (spawnl [exe_path; exe_path; "interface"; "set"; "interface"; name; state]);
          on_error (ERR_COND_BAIL (negb (r =? 0)) NETCF_EEXEC ;; ret 0) (ret (-1))
      end
  end.

Definition drv_if_down (nif : nat) : M Z := netsh nif "disabled".
Definition drv_if_up (nif : nat) : M Z := netsh nif "enabled".

(** ** Not implemented *)

Definition unsupported {A} (result : A) : M A :=
  on_error (ERR_THROW true NETCF_EOTHER "not implemented on this platform" ;; ret result) (ret result).

Definition drv_define (xml_str : string) : M (option nat) := unsupported None.
Definition drv_undefine (nif : nat) : M Z := the_if nif ;; unsupported (-1).
Definition drv_xml_desc (nif : nat) : M (option string) := the_if nif ;; unsupported None.
Definition drv_xml_state (nif : nat) : M (option string) := the_if nif ;; unsupported None.
Definition drv_if_status (nif : nat) (flags : bool) : M (Z * Z) := the_if nif ;; unsupported (-1, 0).

(** Nothing is written to the array. *)
Definition drv_lookup_by_mac_string (mac : string) (maxifaces : Z) : M (Z * list (option nat)) :=
  unsupported (-1, []).
Definition drv_change_begin (flags : Z) : M Z := unsupported (-1).
Definition drv_change_rollback (flags : Z) : M Z := unsupported (-1).
Definition drv_change_commit (flags : Z) : M Z := unsupported (-1).
End windows.

(** The driver, as netcf.c sees it. *)
#[global] Instance windows_driver `{Windows, !Env} : Driver :=
  {| Netcf.drv_init := drv_init; Netcf.drv_close := drv_close; Netcf.drv_entry := drv_entry;
     Netcf.drv_num_of_interfaces := drv_num_of_interfaces;
     Netcf.drv_list_interfaces := drv_list_interfaces;
     Netcf.drv_lookup_by_name := drv_lookup_by_name;
     Netcf.drv_lookup_by_mac_string := drv_lookup_by_mac_string;
     Netcf.drv_xml_desc := drv_xml_desc; Netcf.drv_xml_state := drv_xml_state;
     Netcf.drv_if_status := drv_if_status; Netcf.drv_change_begin := drv_change_begin;
     Netcf.drv_change_rollback := drv_change_rollback;
     Netcf.drv_change_commit := drv_change_commit; Netcf.drv_mac_string := drv_mac_string;
     Netcf.drv_define := drv_define; Netcf.drv_undefine := drv_undefine;
     Netcf.drv_if_up := drv_if_up; Netcf.drv_if_down := drv_if_down |}.

(** ** Laws *)

Create HintDb windows.

Section windows_laws.
Context `{Windows, !Env}.

Lemma win_init_steady : pres steady drv_init.
Proof. unfold drv_init. pres_auto. Qed.
Lemma closed_win_init : closed drv_init.
Proof. unfold drv_init. fails_auto. Qed.
Lemma win_close_steady : pres steady drv_close.
Proof. unfold drv_close. pres_auto. Qed.
Lemma win_close_runs s : exists s', drv_close s = (Ret tt, s').
Proof. unfold drv_close, bind, gets. cbn. destruct (ncf_driver (ncf s)); by eexists. Qed.
Lemma build_table_steady : pres steady build_adapter_table.
Proof. unfold build_adapter_table. pres_auto. Qed.
Lemma closed_build_table : closed build_adapter_table.
Proof. unfold build_adapter_table. fails_auto. Qed.
Lemma nomem_at_steady i b : pres steady (nomem_at i b).
Proof. unfold nomem_at, set_errcode, free_adapter. pres_auto. Qed.
Lemma fails_nomem_at i b : fails (nomem_at i b).
Proof. unfold nomem_at, free_adapter. destruct b, (i =? 0); by intros s. Qed.
Hint Resolve build_table_steady nomem_at_steady : pres.
Hint Resolve closed_build_table fails_nomem_at : fails.

Lemma win_ids_loop_steady l m i ns : pres steady (ids_loop l m i ns).
Proof. revert i ns. induction l as [|a l IH]; intros i ns; cbn [ids_loop]; pres_auto. Qed.
Hint Resolve win_ids_loop_steady : pres.
Lemma win_ids_steady m ns f : pres steady (list_interface_ids m ns f).
Proof. unfold list_interface_ids. pres_auto. Qed.
Hint Resolve win_ids_steady : pres.
Lemma win_ids_loop_post l m i ns : 0 <= i ->
  post (ids_result ns) failed (ids_loop l m i ns).
Proof.
  revert i. induction l as [|a l IH]; intros i Hi; cbn [ids_loop].
  - apply post_ret. intros s. split; cbn; [lia|done].
  - destruct (negb _); [apply post_ret; intros s; split; cbn; [lia|done]|].
    destruct ns as [ns|]; [|apply IH; lia].
    apply post_bind; [fails_auto|intros [r x]]. apply post_bind; [fails_auto|intros ?]. by intros s.
Qed.
Lemma win_ids_post m ns f :
  post (ids_result ns) (fun _ => False) (list_interface_ids m ns f).
Proof.
  unfold list_interface_ids. apply post_bind; [fails_auto|intros t].
  eapply post_on_error with (E := failed); [|by intros s Hs].
  apply post_bind; [fails_auto|intros _]. by apply win_ids_loop_post.
Qed.
Lemma win_list_steady n f : pres steady (drv_list_interfaces n f).
Proof. unfold drv_list_interfaces. pres_auto. Qed.
Lemma win_list_post n f :
  post (fun r s => (r.1 < 0 -> failed s) /\ length r.2 = Z.to_nat n) (fun _ => False)
    (drv_list_interfaces n f).
Proof. unfold drv_list_interfaces. post_list win_ids_post. Qed.
Lemma win_num_steady f : pres steady (drv_num_of_interfaces f).
Proof. unfold drv_num_of_interfaces. pres_auto. Qed.
Lemma win_num_reports f : reports (drv_num_of_interfaces f).
Proof. unfold drv_num_of_interfaces. reports_ids win_ids_post. Qed.

Lemma find_adapter_steady n i l : pres steady (find_adapter n i l).
Proof. revert i. induction l as [|a l IH]; intros i; cbn [find_adapter]; pres_auto. Qed.
Lemma fails_find_adapter n i l : fails (find_adapter n i l).
Proof. revert i. induction l as [|a l IH]; intros i; cbn [find_adapter]; fails_auto. Qed.
Lemma free_adapter_steady i : pres steady (free_adapter i).
Proof. unfold free_adapter. pres_auto. Qed.
Lemma closed_free_adapter i : closed (free_adapter i).
Proof. unfold free_adapter. destruct (i =? 0); by intros s. Qed.
Hint Resolve find_adapter_steady free_adapter_steady : pres.
Hint Resolve fails_find_adapter closed_free_adapter : fails.
Lemma win_lookup_grows n : pres grows (drv_lookup_by_name n).
Proof. unfold drv_lookup_by_name. pres_auto. Qed.
Lemma closed_win_lookup n : closed (drv_lookup_by_name n).
Proof. unfold drv_lookup_by_name. fails_auto. Qed.

Lemma fill_mac_steady m : pres steady (fill_mac m).
Proof. unfold fill_mac. pres_auto. Qed.
Lemma mac_loop_grows p l b m : pres grows (mac_loop p l b m).
Proof.
  pose proof fill_mac_steady. revert b m. induction l as [|x l IH]; intros b m; cbn [mac_loop]; pres_auto.
Qed.
Hint Resolve mac_loop_grows : pres.
Lemma win_mac_string_grows p : pres grows (drv_mac_string p).
Proof. unfold drv_mac_string. pres_auto. Qed.
Lemma closed_win_mac_string p : closed (drv_mac_string p).
Proof.
  unfold drv_mac_string. fails_step; [fails_auto|]. fails_step; [fails_auto|].
  apply closed_on_error_any. by intros s.
Qed.
Lemma netsh_steady p x : pres steady (netsh p x).
Proof. unfold netsh, set_errcode. pres_auto. Qed.
Lemma netsh_reports p x : reports (netsh p x).
Proof.
  unfold netsh, reports. do 2 (apply post_bind; [fails_auto|intros ?]).
  match goal with |- post _ _ (match ?w with _ => _ end) => destruct w end; [|by intros ?].
  apply post_bind; [fails_auto|intros [x1|]]; [|by intros ?].
  apply post_bind; [fails_auto|intros r].
  match goal with |- post _ _ ?m => change (reports m) end. fails_auto.
Qed.

Lemma unsupported_steady {A} (r : A) : pres steady (unsupported r).
Proof. unfold unsupported. pres_auto. Qed.
Lemma unsupported_post {A} (r : A) : post (fun _ s => failed s) (fun _ => False) (unsupported r).
Proof.
  unfold unsupported. eapply post_on_error with (E := failed); [|by intros s Hs].
  eapply post_bind_dep; [eapply post_mono; [by apply ERR_THROW_post| |done]|].
  - intros ? ? Hf. exact Hf.
  - by intros ? ? ?.
Qed.
(** What is not implemented reports so, behind a look at the interface or not. *)
Lemma unsupported_if_steady {A} p (r : A) : pres steady (the_if p ;; unsupported r).
Proof. pose proof (@unsupported_steady A r). pres_auto. Qed.
Lemma unsupported_if_post {A} (Q : A -> Prop) p (r : A) :
  post (fun x s => Q x -> failed s) (fun _ => False) (the_if p ;; unsupported r).
Proof.
  apply post_bind; [fails_auto|intros _]. eapply post_mono; [apply unsupported_post|by intros|done].
Qed.
Lemma unsupported_law {A} (Q : A -> Prop) (r : A) :
  post (fun x s => Q x -> failed s) (fun _ => False) (unsupported r).
Proof. eapply post_mono; [apply unsupported_post|by intros|done]. Qed.
Lemma unsupported_reports : reports (unsupported (-1)).
Proof. apply (unsupported_law (fun r => r < 0)). Qed.
Lemma unsupported_if_reports p : reports (the_if p ;; unsupported (-1)).
Proof. apply (unsupported_if_post (fun r => r < 0)). Qed.
Lemma closed_unsupported_if {A} p (r : A) : closed (the_if p ;; unsupported r).
Proof. eapply post_mono; [apply (unsupported_if_post (fun _ => True))|done|done]. Qed.
End windows_laws.

#[export] Hint Resolve win_init_steady win_close_steady win_list_steady win_num_steady
  win_lookup_grows win_mac_string_grows netsh_steady unsupported_steady unsupported_if_steady : windows.
#[export] Hint Resolve closed_win_init win_list_post win_num_reports closed_win_lookup
  closed_win_mac_string netsh_reports unsupported_if_post unsupported_law
  unsupported_reports unsupported_if_reports closed_unsupported_if : windows.

(** The driver keeps every promise netcf.c relies on. *)
#[global] Instance windows_laws `{Windows, !Env} : DriverLaws (H0 := windows_driver).
Proof.
  split; cbn [Netcf.drv_init Netcf.drv_close Netcf.drv_entry Netcf.drv_num_of_interfaces
    Netcf.drv_list_interfaces Netcf.drv_lookup_by_name Netcf.drv_lookup_by_mac_string
    Netcf.drv_xml_desc Netcf.drv_xml_state Netcf.drv_if_status Netcf.drv_change_begin
    Netcf.drv_change_rollback Netcf.drv_change_commit Netcf.drv_mac_string Netcf.drv_define
    Netcf.drv_undefine Netcf.drv_if_up Netcf.drv_if_down windows_driver];
    unfold drv_if_status, drv_lookup_by_mac_string, drv_xml_desc, drv_xml_state, drv_define,
      drv_undefine, drv_if_up, drv_if_down, drv_change_begin, drv_change_rollback, drv_change_commit,
      drv_entry; intros;
    first [apply win_close_runs | by eexists | pres_auto; fail
          | solve [eauto 4 with windows pres] | split; eauto 4 with windows pres].
Qed.

(** ** Runs on a machine whose adapters can be read *)

Section windows_runs.
Context `{Windows, !Env}.

(** No error is pending, memory suffices and the library returns the table. *)
Record win_ready (a : adapter) (l : list adapter) (s : state) : Prop := {
  wr_ok : err s = NETCF_NOERROR;
  wr_mem : mem s = [];
  wr_table : GetAdaptersAddresses (adapters_size (world s)) (world s) = inl (a, l)
}.

(** The friendly name in UTF-8 *)
Definition adapter_name (w : sys) (a : adapter) : string := (WideCharToMultiByte a (Some 8192) w).2.

(** All names can be converted. *)
Definition readable (w : sys) (table : list adapter) : Prop :=
  Forall (fun a => (WideCharToMultiByte a (Some 8192) w).1 <> 0) table.

Context (a : adapter) (l : list adapter) (s : state) (Hs : win_ready a l s).

Lemma win_malloc : malloc s = (Ret true, s).
Proof. unfold malloc. by rewrite (wr_mem _ _ _ Hs). Qed.

Lemma win_strdup x : strdup x s = (Ret (Some x), s).
Proof. unfold strdup. by rewrite (bind_Ret _ _ _ _ _ win_malloc). Qed.

Lemma build_table_run : build_adapter_table s = (Ret (Some (a :: l)), s).
Proof.
  unfold build_adapter_table, on_error. rewrite (bind_Ret (gets _) _ s _ s eq_refl).
  rewrite (bind_Ret _ _ s true s).
  2:{ unfold ALLOC_N. case_decide; [done|apply win_malloc]. }
  rewrite (bind_Ret (ERR_NOMEM _) _ s tt s) by done. rewrite (bind_Ret (gets _) _ s _ s eq_refl).
  rewrite (wr_table _ _ _ Hs). rewrite (bind_Ret (ERR_COND_BAIL _ _) _ s tt s); [done|].
  by apply ERR_BAIL_ok, Hs.
Qed.

Lemma find_adapter_run name i table : readable (world s) table ->
  find_adapter name i table s
  = (Ret ((fun ka => (i + Z.of_nat ka.1, ka.2)) <$> list_find (fun a => name = adapter_name (world s) a) table), s).
Proof.
  intros Hr. revert i. induction Hr as [|b table Hb Hr IH]; intros i; [done|]. cbn [find_adapter list_find].
  unfold adapter_name in *.
  rewrite (bind_Ret (gets _) _ s _ s eq_refl). destruct (WideCharToMultiByte b _ _) as [r n]. cbn [fst snd] in *.
  rewrite (bind_Ret (nomem_at _ _) _ s tt s).
  2:{ unfold nomem_at. by rewrite (proj2 (Z.eqb_neq r 0) Hb). }
  destruct (STREQ name n) eqn:E.
  - apply STREQ_eq in E. rewrite decide_True by done. cbn. by rewrite Z.add_0_r.
  - apply STREQ_neq in E. rewrite decide_False by done. etransitivity; [apply IH|].
    do 2 f_equal. rewrite <- option_fmap_compose. destruct (list_find _ table) as [[k c]|]; [|done].
    cbn. do 2 f_equal. lia.
Qed.

Lemma win_body_run {B} (k h : M B) :
  on_error (ERR_COND_BAIL false NETCF_EOTHER ;; k) h s = on_error k h s.
Proof.
  unfold on_error. rewrite (bind_Ret (ERR_COND_BAIL _ _) _ s tt s); [done|]. by apply ERR_BAIL_ok, Hs.
Qed.

Lemma win_count_run flags : list_interface_ids 0 None flags s = (Ret (0, None), s).
Proof.
  unfold list_interface_ids. rewrite (bind_Ret _ _ _ _ _ build_table_run). cbn [is_null default id].
  by rewrite win_body_run.
Qed.

(** Asked for names the driver never gets past the first adapter. *)
Lemma win_array_run flags n : 0 < n < 2 ^ 31 ->
  let r := (WideCharToMultiByte a None (world s)).1 in
  let names := Some (replicate (Z.to_nat n) None) in
  list_interface_ids n names flags s
  = if r =? 0
    then (Ret (-1, names), set_ncf (set_err NETCF_ENOMEM (errdetails (ncf s)) (ncf s)) s)
    else (Stop (UB "NULL pointer"), s).
Proof.
  intros Hn r names. unfold list_interface_ids. rewrite (bind_Ret _ _ _ _ _ build_table_run).
  cbn [is_null default id]. rewrite win_body_run. unfold on_error. cbn [ids_loop names].
  unfold to_size. rewrite Z.mod_small by lia. rewrite (proj2 (Z.ltb_lt 0 n)) by lia. cbn [negb].
  rewrite (bind_Ret (gets _) _ s _ s eq_refl). unfold r.
  destruct (WideCharToMultiByte a None (world s)) as [z t]. cbn [fst]. unfold nomem_at, free_adapter.
  by destruct (z =? 0).
Qed.

Lemma win_lookup_run name : readable (world s) (a :: l) ->
  drv_lookup_by_name name s
  = (Ret (Some (next_if s)),
     with_if s (next_if s) {| nif_ref := 1; nif_name := name; nif_mac := None |} (ref_incr (ncf_ref (ncf s)))).
Proof.
  intros Hr. unfold drv_lookup_by_name. rewrite (bind_Ret _ _ _ _ _ build_table_run). cbn [is_null default id].
  rewrite win_body_run. unfold on_error at 1. rewrite (bind_Ret _ _ _ _ _ (find_adapter_run name 0 _ Hr)).
  rewrite (bind_Ret _ _ _ _ _ (win_strdup name)). cbn [is_null].
  rewrite (bind_Ret (nomem_at _ _) _ s tt s) by done. unfold bind at 1. rewrite make_netcf_if_run, win_malloc.
  unfold on_error, ERR_BAIL, bind, gets. by rewrite decide_True by apply (wr_ok _ _ _ Hs).
Qed.
End windows_runs.

(** ** The address *)

(** The text that the loop makes of the bytes. *)
Definition mac_text (bytes : list Z) : string := String.concat ":" (fmt_02X <$> bytes).

Section mac_runs.
Context `{Windows, !Env}.

Lemma concat_cons_02X b bs : bs <> [] -> mac_text (b :: bs) = fmt_02X b +:+ ":" +:+ mac_text bs.
Proof. unfold mac_text. by destruct bs. Qed.

Lemma mac_text_length bs : bs <> [] -> strlen (mac_text bs) = 3 * Z.of_nat (length bs) - 1.
Proof.
  unfold strlen. induction bs as [|b bs IH]; [done|]. intros _. destruct bs as [|c bs]; [done|].
  rewrite concat_cons_02X by done. rewrite !string_length_app. specialize (IH ltac:(done)).
  cbn [length String.length fmt_02X] in *. lia.
Qed.

(** The state with another address. *)
Definition with_mac (s : state) (p : nat) (nif : netcf_if) (m : string) : state :=
  set_ifs (<[p := set_nif_mac (Some m) nif]> (ifs s)) s.

Lemma set_mac_run s p nif m : ifs s !! p = Some nif -> set_mac p (Some m) s = (Ret tt, with_mac s p nif m).
Proof. intros Hp. unfold set_mac, the_if, put_if, bind, gets, modify. cbn. by rewrite Hp. Qed.

Lemma with_mac_twice s p nif m m' : ifs s !! p = Some nif ->
  with_mac (with_mac s p nif m) p (set_nif_mac (Some m) nif) m' = with_mac s p nif m'.
Proof. intros _. unfold with_mac, set_ifs. cbn. by rewrite insert_insert_eq. Qed.

Lemma mac_loop_more bs : forall s p nif mac, ifs s !! p = Some nif -> mem s = [] -> bs <> [] ->
  strlen mac + 3 * Z.of_nat (length bs) <= BUFSIZE ->
  mac_loop p bs false mac s = (Ret true, with_mac s p nif (mac +:+ mac_text bs)).
Proof.
  induction bs as [|b bs IH]; intros s p nif mac Hp Hm Hne Hlen; [done|]. cbn [mac_loop].
  assert (Hdup : forall x, strdup x s = (Ret (Some x), s)) by (intros x; unfold strdup, malloc, bind; by rewrite Hm).
  rewrite bind_ret_l.
  set (text := match bs with [] => fmt_02X b | _ => fmt_02X b +:+ ":" end).
  rewrite (bind_Ret _ _ _ _ _ (Hdup text)). cbn [is_null]. rewrite (bind_Ret (ERR_NOMEM _) _ s tt s) by done.
  assert (Ht : strlen (mac +:+ text) <= strlen mac + 3 /\ (bs <> [] -> strlen (mac +:+ text) = strlen mac + 3)).
  { unfold strlen, text. rewrite string_length_app. destruct bs; rewrite ?string_length_app; cbn; (split; [lia|]); intros Hn; [by destruct Hn|lia]. }
  rewrite (bind_Ret (fill_mac _) _ s tt s).
  2:{ unfold fill_mac, BUFSIZE in *. rewrite (proj2 (Z.leb_gt _ _)); [done|]. destruct bs as [|c bs].
      - unfold text. unfold strlen in *. rewrite string_length_app. cbn [length String.length fmt_02X] in *. lia.
      - destruct Ht as [Ht _]. cbn [length] in Hlen. lia. }
  rewrite (bind_Ret _ _ _ _ _ (Hdup _)). cbn [is_null].
  rewrite (bind_Ret _ _ _ _ _ (set_mac_run s p nif (mac +:+ text) Hp)).
  destruct bs as [|c bs]; [done|].
  etransitivity; [apply (IH _ p (set_nif_mac (Some (mac +:+ text)) nif)); try done|].
  - unfold with_mac. cbn. by rewrite lookup_insert_eq.
  - destruct Ht as [_ ->]; [|done]. cbn [length] in *. lia.
  - rewrite with_mac_twice by done. rewrite (concat_cons_02X b) by done. unfold text.
    by rewrite !string_app_assoc.
Qed.

Lemma mac_loop_first s p nif b bs : ifs s !! p = Some nif -> mem s = [] ->
  3 * Z.of_nat (length (b :: bs)) + 3 <= BUFSIZE ->
  mac_loop p (b :: bs) true "" s
  = (Ret true, with_mac s p nif (fmt_02X b +:+ ":" +:+ mac_text (b :: bs))).
Proof.
  intros Hp Hm Hlen. transitivity (mac_loop p (b :: bs) false (fmt_02X b +:+ ":") s).
  - cbn [mac_loop]. rewrite bind_ret_l.
    rewrite (bind_Ret (buf ← _; _) _ s (fmt_02X b +:+ ":") s); [done|].
    unfold xasprintf, strdup, malloc, bind. rewrite Hm. reflexivity.
  - rewrite (mac_loop_more _ s p nif); [by rewrite string_app_assoc|done..|].
    unfold strlen. rewrite string_length_app. cbn [String.length fmt_02X] in *. lia.
Qed.
End mac_runs.

(** ** A concrete Windows *)

#[global] Instance toy_windows : Windows (H := toy_host) :=
  {| adapter := string * list Z;
     adapters_size := fun _ => 2;
     GetAdaptersAddresses := fun _ _ => inl (("Local Area Connection", [0; 0x1b; 0x2c; 0x3d; 0x4e; 0x5f]),
                                            [("Wireless", [0x52; 0x54])]);
     WideCharToMultiByte := fun a b _ => match b with
                                         | Some _ => (Z.of_nat (S (String.length a.1)), a.1)
                                         | None => (0, "") end;
     PhysicalAddress := snd;
     spawnl := fun argv w => let (_, w') := toy_exec argv w in (t_exit w, w') |}.

Definition toy_win_state : state :=
  with_if (toy_state toy_os toy_empty) 0 {| nif_ref := 1; nif_name := "Local Area Connection"; nif_mac := None |} 2.

Lemma toy_win_ready : win_ready (H0 := toy_windows)
  ("Local Area Connection", [0; 0x1b; 0x2c; 0x3d; 0x4e; 0x5f]) [("Wireless", [0x52; 0x54])] toy_win_state.
Proof. by split. Defined.

Lemma toy_win_readable : readable (H0 := toy_windows) toy_os
  [("Local Area Connection", [0; 0x1b; 0x2c; 0x3d; 0x4e; 0x5f]); ("Wireless", [0x52; 0x54])].
Proof. repeat constructor; discriminate. Defined.

(** ** Properties *)

(** The Windows driver keeps what netcf.c relies on: every operation respects the
    error discipline and the reference counts, a failing result comes with an error
    (everything that is not implemented says so), and a listing never writes outside
    the caller's array. *)
Theorem windows_refines_driver `{Windows, !Env} : DriverLaws (H0 := windows_driver).
Proof. apply windows_laws. Qed.

(** The number of interfaces is always 0, whatever adapters there are. Asked for
    names, the driver fails with ENOMEM or goes through a NULL pointer, as the
    conversion into a buffer that is not there turns out. A lookup creates an
    interface for any name, whether an adapter has it or not. *)
Theorem windows_list_spec `{Windows, !Env} (a : adapter) (l : list adapter) (s : state)
  (n flags : Z) (name : string)
  (Hs : win_ready a l s) (Hn : 0 < n < 2 ^ 31) (Hr : readable (world s) (a :: l)) :
  drv_num_of_interfaces flags s = (Ret 0, s) /\
  (if (WideCharToMultiByte a None (world s)).1 =? 0
   then exists s', drv_list_interfaces n flags s = (Ret (-1, replicate (Z.to_nat n) None), s') /\
          err s' = NETCF_ENOMEM
   else (drv_list_interfaces n flags s).1 = Stop (UB "NULL pointer")) /\
  exists s', drv_lookup_by_name name s = (Ret (Some (next_if s)), s') /\
    (nif_name <$> ifs s' !! next_if s) = Some name.
Proof.
  split; [|split].
  - unfold drv_num_of_interfaces. by rewrite (bind_Ret _ _ _ _ _ (win_count_run a l s Hs flags)).
  - pose proof (win_array_run a l s Hs flags n Hn) as Ha. cbv zeta in Ha. unfold drv_list_interfaces.
    destruct (_ =? 0).
    + rewrite (bind_Ret _ _ _ _ _ Ha). by eexists.
    + by rewrite (bind_Stop _ _ _ _ _ Ha).
  - rewrite (win_lookup_run a l s Hs name Hr). eexists. split; [done|]. cbn. by rewrite lookup_insert_eq.
Qed.

Lemma windows_list_spec_witness :
  drv_num_of_interfaces 3 toy_win_state = (Ret 0, toy_win_state) /\
  (exists s', drv_list_interfaces 2 3 toy_win_state = (Ret (-1, [None; None]), s') /\ err s' = NETCF_ENOMEM) /\
  exists s', drv_lookup_by_name "eth7" toy_win_state = (Ret (Some 1%nat), s') /\
    (nif_name <$> ifs s' !! 1%nat) = Some "eth7".
Proof.
  exact (@windows_list_spec toy_host toy_windows toy_env _ _ toy_win_state 2 3 "eth7" toy_win_ready
    ltac:(lia) toy_win_readable).
Defined.

(** C37: the MAC address of an interface is that of the first adapter with its name,
    printed with its first byte twice; of an adapter without address the old text
    stays. If no adapter has the name, an uninitialised pointer is freed. *)
Theorem windows_mac_spec `{Windows, !Env} (a : adapter) (l : list adapter) (s : state)
  (p : nat) (nif : netcf_if)
  (Hs : win_ready a l s) (Hr : readable (world s) (a :: l)) (Hp : ifs s !! p = Some nif)
  (Hlen : Forall (fun c => (length (PhysicalAddress c) <= 8)%nat) (a :: l)) :
  match list_find (fun c => nif_name nif = adapter_name (world s) c) (a :: l) with
  | None => (drv_mac_string p s).1 = Stop (UB "free of an uninitialised pointer")
  | Some (_, c) =>
      match PhysicalAddress c with
      | [] => drv_mac_string p s = (Ret (nif_mac nif), s)
      | b :: bs =>
          let m := fmt_02X b +:+ ":" +:+ mac_text (b :: bs) in
          drv_mac_string p s = (Ret (Some m), with_mac s p nif m)
      end
  end.
Proof.
  assert (Hrun : drv_mac_string p s
    = on_error
        (found ← find_adapter (nif_name nif) 0 (a :: l);
         match found with
         | None => goto_error
         | Some (i, c) =>
             ok ← mac_loop p (PhysicalAddress c) true "";
             when (negb ok) (free_adapter i) ;;
             n ← the_if p;
             ret (nif_mac n)
         end) (halt (UB "free of an uninitialised pointer")) s).
  { unfold drv_mac_string. rewrite (bind_Ret _ _ _ _ _ (if_name_ret s p nif Hp)).
    rewrite (bind_Ret _ _ _ _ _ (build_table_run a l s Hs)). cbn [is_null]. by rewrite (win_body_run a l s Hs). }
  rewrite Hrun. unfold on_error.
  rewrite (bind_Ret _ _ _ _ _ (find_adapter_run s (nif_name nif) 0 _ Hr)).
  destruct (list_find _ (a :: l)) as [[k c]|] eqn:Hf; [|done]. cbn [fmap option_fmap option_map fst snd].
  apply list_find_Some in Hf as (Hk & _ & _). rewrite Forall_lookup in Hlen. specialize (Hlen k c Hk).
  destruct (PhysicalAddress c) as [|b bs]; cbv zeta.
  - rewrite (bind_Ret (mac_loop _ _ _ _) _ s true s) by done. unfold bind, the_if, gets. cbn. by rewrite Hp.
  - rewrite (bind_Ret _ _ _ _ _ (mac_loop_first s p nif b bs Hp (wr_mem _ _ _ Hs) ltac:(unfold BUFSIZE; lia))).
    unfold bind, the_if, gets, with_mac. cbn. by rewrite lookup_insert_eq.
Qed.

Lemma windows_mac_spec_witness :
  exists s', drv_mac_string 0 toy_win_state = (Ret (Some "00:00:1B:2C:3D:4E:5F"), s').
Proof.
  eexists.
  exact (@windows_mac_spec toy_host toy_windows toy_env _ _ toy_win_state 0
    {| nif_ref := 1; nif_name := "Local Area Connection"; nif_mac := None |} toy_win_ready toy_win_readable
    ltac:(vm_compute; reflexivity) ltac:(repeat constructor)).
Defined.
