(* ===== verification/Ncftool.v ===== *)
(** * The command line tool (ncftool.c)

    Lines are split into tokens, matched against a table of commands and run
    through the public interface. What readline and getopt_long return is an
    argument; standard output and standard error are one terminal. *)

From S2P Require Import Prelude CStr State Refs Toy Posix Xml Netcf.

(** ** Commands *)

Inductive command_opt_tag := CMD_OPT_NONE | CMD_OPT_BOOL | CMD_OPT_ARG | CMD_OPT_PARAM.

#[global] Instance command_opt_tag_dec : EqDecision command_opt_tag.
Proof. solve_decision. Defined.

Record command_opt_def := {
  opt_tag : command_opt_tag;
  opt_name : string;
  opt_help : option string
}.

Inductive command_result := CMD_RES_OK | CMD_RES_ERR | CMD_RES_ENOMEM | CMD_RES_QUIT | CMD_RES_UNKNOWN.

#[global] Instance command_result_dec : EqDecision command_result.
Proof. solve_decision. Defined.

(** The handlers, by name: the table and [cmd_help] refer to each other. *)
Inductive cmd_handler :=
| cmd_list_h | cmd_dump_xml_h | cmd_define_h | cmd_undefine_h | cmd_if_up_h | cmd_if_down_h
| cmd_change_begin_h | cmd_change_commit_h | cmd_change_rollback_h | cmd_help_h | cmd_quit_h.

Record command_def := {
  cmd_name : string;
  cmd_opts : list command_opt_def;
  handler : cmd_handler;
  synopsis : string;
  help : string
}.

(** The union of [struct command_opt]. *)
Inductive opt_value := BValue (b : bool) | SValue (s : string).

Record command_opt := { copt_def : command_opt_def; copt_value : opt_value }.

(** [def] is NULL until the command is known. *)
Record command := { def : option command_def; opt : list command_opt }.

Definition opt_bool (n h : string) : command_opt_def :=
  {| opt_tag := CMD_OPT_BOOL; opt_name := n; opt_help := Some h |}.
Definition opt_arg (n h : string) : command_opt_def :=
  {| opt_tag := CMD_OPT_ARG; opt_name := n; opt_help := Some h |}.

Definition cmd_list_opts : list command_opt_def :=
  [opt_bool "macs" "show MAC addresses"; opt_bool "all" "show all (up & down) interfaces";
   opt_bool "inactive" "show only inactive (down) interfaces"].
Definition cmd_list_def : command_def :=
  {| cmd_name := "list"; cmd_opts := cmd_list_opts; handler := cmd_list_h;
     synopsis := "list network interfaces";
     help := "list the currently configured toplevel network interfaces" |}.

Definition cmd_dump_xml_opts : list command_opt_def :=
  [opt_bool "mac" "interpret the name as a MAC address";
   opt_bool "live" "include information about the live interface";
   opt_arg "name" "the name of the interface"].
Definition cmd_dump_xml_def : command_def :=
  {| cmd_name := "dumpxml"; cmd_opts := cmd_dump_xml_opts; handler := cmd_dump_xml_h;
     synopsis := "dump the XML description of an interface";
     help := "dump the XML description of an interface" |}.

Definition cmd_if_up_opts : list command_opt_def := [opt_arg "iface" "the name of the interface"].
Definition cmd_if_up_def : command_def :=
  {| cmd_name := "ifup"; cmd_opts := cmd_if_up_opts; handler := cmd_if_up_h;
     synopsis := "bring up an interface"; help := "bring up an interface" |}.

Definition cmd_if_down_opts : list command_opt_def := [opt_arg "iface" "the name of the interface"].
Definition cmd_if_down_def : command_def :=
  {| cmd_name := "ifdown"; cmd_opts := cmd_if_down_opts; handler := cmd_if_down_h;
     synopsis := "bring down an interface"; help := "bring down an interface" |}.

Definition cmd_define_opts : list command_opt_def :=
  [opt_arg "xmlfile" "file containing the XML description of the interface"].
Definition cmd_define_def : command_def :=
  {| cmd_name := "define"; cmd_opts := cmd_define_opts; handler := cmd_define_h;
     synopsis := "define an interface from an XML file";
     help := "define an interface from an XML file" |}.

Definition cmd_undefine_opts : list command_opt_def := [opt_arg "iface" "the name of the interface"].
Definition cmd_undefine_def : command_def :=
  {| cmd_name := "undefine"; cmd_opts := cmd_undefine_opts; handler := cmd_undefine_h;
     synopsis := "undefine an interface"; help := "remove the configuration of an interface" |}.

Definition cmd_change_begin_def : command_def :=
  {| cmd_name := "change-begin"; cmd_opts := []; handler := cmd_change_begin_h;
     synopsis := "mark the beginning of a set of revertible network config changes";
     help := "marks the beginning of a set of revertible network config changes" |}.
Definition cmd_change_commit_def : command_def :=
  {| cmd_name := "change-commit"; cmd_opts := []; handler := cmd_change_commit_h;
     synopsis := "commit the pending network config changes";
     help := "commits (makes permanent) of a set of network config changes" |}.
Definition cmd_change_rollback_def : command_def :=
  {| cmd_name := "change-rollback"; cmd_opts := []; handler := cmd_change_rollback_h;
     synopsis := "rollback (revert) a set of network config changes";
     help := "rollback (revert) a set of network config changes" |}.

Definition cmd_help_opts : list command_opt_def :=
  [{| opt_tag := CMD_OPT_PARAM; opt_name := "command"; opt_help := None |}].
Definition cmd_help_def : command_def :=
  {| cmd_name := "help"; cmd_opts := cmd_help_opts; handler := cmd_help_h;
     synopsis := "print help";
     help := "list all commands or print details about one command" |}.
Definition cmd_quit_def : command_def :=
  {| cmd_name := "quit"; cmd_opts := []; handler := cmd_quit_h; synopsis := "exit the program";
     help := "exit this interactive program" |}.

(** [commands], up to [cmd_def_last] *)
Definition commands : list command_def :=
  [cmd_list_def; cmd_dump_xml_def; cmd_define_def; cmd_undefine_def; cmd_if_up_def;
   cmd_if_down_def; cmd_change_begin_def; cmd_change_commit_def; cmd_change_rollback_def;
   cmd_help_def; cmd_quit_def].

Definition opt_def_is_arg (d : command_opt_def) : bool :=
  bool_decide (opt_tag d = CMD_OPT_ARG \/ opt_tag d = CMD_OPT_PARAM).

Definition lookup_cmd_def (name : string) : option command_def :=
  List.find (fun d => STREQ name (cmd_name d)) commands.

Definition opt_present (cmd : command) (name : string) : bool :=
  existsb (fun o => STREQ (opt_name (copt_def o)) name) (opt cmd).

(** The first option of that name: [None] without one. *)
Definition find_opt (cmd : command) (name : string) : option opt_value :=
  copt_value <$> List.find (fun o => STREQ (opt_name (copt_def o)) name) (opt cmd).

(** ** Tokens *)

Fixpoint skip_blanks (s : string) : string :=
  match s with
  | String c s' => if isblank c then skip_blanks s' else s
  | EmptyString => EmptyString
  end.

(** The scan up to the end of the token: the token and what follows its end,
    which is overwritten with a NUL. *)
Fixpoint scan_token (quot : option ascii) (s : string) : string * string :=
  match s with
  | EmptyString => (EmptyString, EmptyString)
  | String c s' =>
      if match quot with Some q => Ascii.eqb c q | None => isblank c end then (EmptyString, s')
      else let (t, rest) := scan_token quot s' in (String c t, rest)
  end.

(** [nexttoken]: the token and the rest of the line. *)
Definition nexttoken (line : string) : string * string :=
  match skip_blanks line with
  | String c s' =>
      if Ascii.eqb c "'" || Ascii.eqb c "034" then scan_token (Some c) s'
      else scan_token None (String c s')
  | EmptyString => (EmptyString, EmptyString)
  end.

(** ** Parsing a line *)


(** [%-*s] *)
Fixpoint spaces (n : nat) : string :=
  match n with O => EmptyString | S n' => String " " (spaces n') end.
Definition pad (n : nat) (s : string) : string := s +:+ spaces (n - String.length s).

Section parse.
Context `{Host}.

(** [make_command_opt] appends to the options of the command. *)
Definition make_command_opt (cmd : command) (d : command_opt_def) (v : opt_value) : M (option command) :=
  b ← malloc;
  if (b : bool) then
    ret (Some {| def := def cmd; opt := opt cmd ++ [{| copt_def := d; copt_value := v |}] |})
  else printf ("Allocation failed" +:+ nl) ;; ret None.

(** How many arguments the command must and may have. *)
Definition count_args (opts : list command_opt_def) : M (Z * Z) :=
  for_acc opts (0, 0) (fun d '(narg, nparam) =>
    narg ← (if decide (opt_tag d = CMD_OPT_ARG) then
              when (0 <? nparam)
                (printf ("internal error: mandatory argument after optional one" +:+ nl) ;;
                 halt (Exit 2)) ;;
              ret (narg + 1)
            else ret narg);
    ret (narg, if decide (opt_tag d = CMD_OPT_PARAM) then nparam + 1 else nparam)).

(** An option: the new command, [None] for the result -1. *)
Definition parse_option (cmd : command) (d : command_def) (tok : string) : M (option command) :=
  let name := string_drop 1 tok in
  let name := if has_prefix "-" name then string_drop 1 name else name in
  match List.find (fun o => STREQ name (opt_name o)) (cmd_opts d) with
  | Some o =>
      ocmd ← make_command_opt cmd o (BValue true);
      match ocmd with
      | None => ret None
      | Some cmd' => if decide (opt_tag o = CMD_OPT_BOOL) then ret (Some cmd') else halt Abort
      end
  | None => printf ("Illegal option " +:+ tok +:+ nl) ;; ret (Some cmd)
  end.

(** The inner loops over the definitions stop at the first argument of the
    command, however many arguments there have been. *)
Definition parse_argument (cmd : command) (d : command_def) (tok : string) : M command :=
  match List.find opt_def_is_arg (cmd_opts d) with
  | None => halt (UB "argument without a definition")
  | Some o =>
      ocmd ← make_command_opt cmd o (SValue tok);
      match ocmd with
      | None => halt (UB "NULL pointer")
      | Some cmd' => ret cmd'
      end
  end.

(** The loop over the line: the command and the number of arguments; [None]
    for the result -1. *)
Fixpoint parse_loop (fuel : nat) (d : command_def) (nargs : Z) (curarg : Z) (cmd : command)
  (line : string) : M (option (command * Z)) :=
  match line with
  | EmptyString => ret (Some (cmd, curarg))
  | _ =>
      match fuel with
      | O => halt Hang
      | S fuel' =>
          let (tok, rest) := nexttoken line in
          if has_prefix "-" tok then
            ocmd ← parse_option cmd d tok;
            match ocmd with
            | None => ret None
            | Some cmd' => parse_loop fuel' d nargs curarg cmd' rest
            end
          else if nargs <=? curarg then
            printf ("Too many arguments. Command " +:+ cmd_name d +:+ " takes only "
                    +:+ fmt_d nargs +:+ " arguments" +:+ nl) ;;
            ret None
          else
            cmd' ← parse_argument cmd d tok;
            parse_loop fuel' d nargs (curarg + 1) cmd' rest
      end
  end.

(** [parseline]: the command, [None] for the result -1. *)
Definition parseline (line : string) : M (option command) :=
  let (tok, line) := nexttoken line in
  match lookup_cmd_def tok with
  | None => printf ("Unknown command '" +:+ tok +:+ "'" +:+ nl) ;; ret None
  | Some d =>
      ' (narg, nparam) ← count_args (cmd_opts d);
      r ← parse_loop (String.length line) d (narg + nparam) 0 {| def := Some d; opt := [] |} line;
      match r with
      | None => ret None
      | Some (cmd, curarg) =>
          if curarg <? narg then
            printf ("Not enough arguments for " +:+ cmd_name d +:+ nl) ;; ret None
          else ret (Some cmd)
      end
  end.

(** [param_value] and [arg_value] *)
Definition param_value (cmd : command) (name : string) : M (option string) :=
  match find_opt cmd name with
  | Some (SValue s) => ret (Some s)
  | Some (BValue _) => halt (UB "string of a boolean option")
  | None => ret None
  end.

Definition arg_value (cmd : command) (name : string) : M string :=
  o ← param_value cmd name;
  match o with
  | Some s => ret s
  | None => printf ("internal error: argument without value" +:+ nl) ;; halt (Exit 2)
  end.
(** ** Completion of command names *)

(** The loop of [readline_command_generator] from [commands[current]] on *)
Fixpoint generator_loop (text : string) (defs : list command_def) (current : nat)
  : M (option string * nat) :=
  match defs with
  | [] => ret (None, current)
  | d :: defs' =>
      if STREQLEN text (cmd_name d) (String.length text)
      then name ← strdup (cmd_name d); ret (name, S current)
      else generator_loop text defs' (S current)
  end.

(** [current] is the static variable of the function. *)
Definition readline_command_generator (text : string) (state : Z) (current : nat)
  : M (option string * nat) :=
  let current := if state =? 0 then O else current in
  generator_loop text (drop current commands) current.

(** Only the first word of a line is completed. [matches] is [rl_completion_matches]. *)
Definition readline_completion
  (matches : string -> (string -> Z -> nat -> M (option string * nat)) -> M (option (list string)))
  (text : string) (start : Z) : M (option (list string)) :=
  if start =? 0 then matches text readline_command_generator else ret None.
End parse.

(** ** The handlers *)

(** Files, the environment and the arguments of the program. *)
Inductive getopt_result := OptDebug | OptHelp | OptRoot (arg : string) | OptOther.

Class Tool `{Host} := {
  read_file : string -> sys -> option string;
  setenv : string -> string -> sys -> sys;
  (** [getopt_long] called until it returns -1: its results, and [argv] from
      [optind] on *)
  getopt_long : list string -> list getopt_result * list string
}.

Section handlers.
Context `{Driver, !Libxml, !Env, !Tool}.

Definition no_interface (name : string) : M unit :=
  printf ("Interface " +:+ name +:+ " does not exist or is not a toplevel interface" +:+ nl).

(** One line of the list. *)
Definition list_line (macs : bool) (intf : option string) : M unit :=
  if macs then
    match intf with
    | None => halt (UB "NULL pointer")
    | Some name =>
        nif ← ncf_lookup_by_name name;
        match nif with
        | None => printf (pad 8 name +:+ " lookup failed" +:+ nl)
        | Some p =>
            mac ← ncf_if_mac_string p;
            match mac with
            | None => printf (pad 8 name +:+ " could not get MAC" +:+ nl)
            | Some m => printf (pad 8 name +:+ " " +:+ m +:+ nl)
            end ;;
            ncf_if_free nif
        end
    end
  else printf (default "(none)" intf +:+ nl).

Definition list_flags (cmd : command) : Z :=
  if opt_present cmd "all" then Z.lor NETCF_IFACE_ACTIVE NETCF_IFACE_INACTIVE
  else if opt_present cmd "inactive" then NETCF_IFACE_INACTIVE else NETCF_IFACE_ACTIVE.

Definition cmd_list (cmd : command) : M command_result :=
  let flags := list_flags cmd in
  nint ← ncf_num_of_interfaces flags;
  if nint <? 0 then ret CMD_RES_ERR else
  b ← (if nint =? 0 then ret true else malloc);
  if negb b then ret CMD_RES_ENOMEM else
  ' (nint, intf) ← ncf_list_interfaces nint flags;
  if nint <? 0 then ret CMD_RES_ERR else
  for_each (take (Z.to_nat nint) intf) (list_line (opt_present cmd "macs")) ;;
  ret CMD_RES_OK.

(** What [cmd_dump_xml] does with an interface, up to the label [done]. *)
Definition dump_nif (live : bool) (name : string) (nif : option nat) : M command_result :=
  match nif with
  | None => no_interface name ;; ret CMD_RES_ERR
  | Some p =>
      xml ← (if live then ncf_if_xml_state p else ncf_if_xml_desc p);
      match xml with
      | None => ret CMD_RES_ERR
      | Some x => printf (x +:+ nl) ;; ret CMD_RES_OK
      end
  end.

Definition cmd_dump_xml (cmd : command) : M command_result :=
  name ← arg_value cmd "name";
  let live := opt_present cmd "live" in
  if opt_present cmd "mac" then
    ' (maxifaces, ifaces) ← ncf_lookup_by_mac_string name 1;
    let nif := mjoin (head ifaces) in
    result ←
      (if maxifaces <? 0 then
         printf ("error looking up interface with MAC " +:+ name +:+ nl) ;; ret CMD_RES_ERR
       else
         when (1 <? maxifaces)
           (printf ("warning: " +:+ fmt_d maxifaces +:+ " interfaces have MAC " +:+ name +:+
              ", only showing one" +:+ nl)) ;;
         dump_nif live name nif);
    ncf_if_free nif ;;
    ret result
  else
    nif ← ncf_lookup_by_name name;
    result ← dump_nif live name nif;
    ncf_if_free nif ;;
    ret result.

(** [cmd_if_up] and [cmd_if_down] differ in the call and in the messages. *)
Definition bring (call : nat -> M Z) (ok fail : string) (cmd : command) : M command_result :=
  name ← arg_value cmd "iface";
  nif ← ncf_lookup_by_name name;
  result ←
    match nif with
    | None => no_interface name ;; ret CMD_RES_ERR
    | Some p =>
        r ← call p;
        if r =? 0 then printf ("Interface " +:+ name +:+ ok +:+ nl) ;; ret CMD_RES_OK
        else printf ("Interface " +:+ name +:+ fail +:+ nl) ;; ret CMD_RES_ERR
    end;
  ncf_if_free nif ;;
  ret result.

Definition cmd_if_up : command -> M command_result :=
  bring ncf_if_up " successfully brought up" " bring-up failed!".
Definition cmd_if_down : command -> M command_result :=
  bring ncf_if_down " successfully brought down" " bring-down failed!".

Definition cmd_define (cmd : command) : M command_result :=
  fname ← arg_value cmd "xmlfile";
  xml ← gets (fun s => read_file fname (world s));
  match xml with
  | None => printf ("Failed to read " +:+ fname +:+ nl) ;; ret CMD_RES_ERR
  | Some x =>
      nif ← ncf_define x;
      match nif with
      | None => ret CMD_RES_ERR
      | Some p =>
          name ← ncf_if_name p;
          printf ("Defined interface " +:+ name +:+ nl) ;;
          ncf_if_free nif ;;
          ret CMD_RES_OK
      end
  end.

Definition cmd_undefine (cmd : command) : M command_result :=
  name ← arg_value cmd "iface";
  nif ← ncf_lookup_by_name name;
  match nif with
  | None => ret CMD_RES_ERR
  | Some p =>
      r ← ncf_if_undefine p;
      if r <? 0 then ncf_if_free nif ;; ret CMD_RES_ERR
      else printf (name +:+ " undefined" +:+ nl) ;; ncf_if_free nif ;; ret CMD_RES_OK
  end.

Definition cmd_change_begin : M command_result :=
  r ← ncf_change_begin 0;
  if r <? 0 then ret CMD_RES_ERR
  else printf ("config change transaction started" +:+ nl) ;; ret CMD_RES_OK.
Definition cmd_change_commit : M command_result :=
  r ← ncf_change_commit 0;
  if r <? 0 then ret CMD_RES_ERR
  else printf ("config change transaction committed" +:+ nl) ;; ret CMD_RES_OK.
Definition cmd_change_rollback : M command_result :=
  r ← ncf_change_rollback 0;
  if r <? 0 then ret CMD_RES_ERR
  else printf ("config change transaction rolled back" +:+ nl) ;; ret CMD_RES_OK.

(** The option in the synopsis of a command, and its line of help. *)
Definition help_synopsis (o : command_opt_def) : string :=
  match opt_tag o with
  | CMD_OPT_BOOL => " [--" +:+ opt_name o +:+ "]"
  | CMD_OPT_ARG => " <" +:+ opt_name o +:+ ">"
  | CMD_OPT_PARAM => " [<" +:+ opt_name o +:+ ">]"
  | CMD_OPT_NONE => nl +:+ "internal error: illegal option definition 0" +:+ nl
  end.

Definition help_option (o : command_opt_def) : string :=
  let h := default EmptyString (opt_help o) in
  match opt_tag o with
  | CMD_OPT_BOOL => "    --" +:+ pad 8 (opt_name o) +:+ " " +:+ h +:+ nl
  | _ => "    " +:+ pad 10 (string_take 99 ("<" +:+ opt_name o +:+ ">")) +:+ " " +:+ h +:+ nl
  end.

Definition cmd_help (cmd : command) : M command_result :=
  oname ← param_value cmd "command";
  match oname with
  | None =>
      printf ("Commands:" +:+ nl +:+ nl) ;;
      for_each commands (fun d =>
        printf ("    " +:+ pad 10 (cmd_name d) +:+ " - " +:+ synopsis d +:+ nl)) ;;
      printf (nl +:+ "Type 'help <command>' for more information on a command" +:+ nl +:+ nl) ;;
      ret CMD_RES_OK
  | Some name =>
      match lookup_cmd_def name with
      | None => printf ("unknown command " +:+ name +:+ nl) ;; ret CMD_RES_ERR
      | Some d =>
          printf ("  COMMAND" +:+ nl) ;;
          printf ("    " +:+ name +:+ " - " +:+ synopsis d +:+ nl +:+ nl) ;;
          printf ("  SYNOPSIS" +:+ nl) ;;
          printf ("    " +:+ name) ;;
          for_each (cmd_opts d) (fun o => printf (help_synopsis o)) ;;
          printf (nl +:+ nl) ;;
          printf ("  DESCRIPTION" +:+ nl +:+ "    " +:+ help d +:+ nl +:+ nl) ;;
          printf ("  OPTIONS" +:+ nl) ;;
          for_each (cmd_opts d) (fun o => printf (help_option o)) ;;
          printf nl ;;
          ret CMD_RES_OK
      end
  end.

Definition cmd_quit : M command_result := ret CMD_RES_QUIT.

(** [cmd.def->handler(&cmd)] *)
Definition run_handler (h : cmd_handler) (cmd : command) : M command_result :=
  match h with
  | cmd_list_h => cmd_list cmd
  | cmd_dump_xml_h => cmd_dump_xml cmd
  | cmd_define_h => cmd_define cmd
  | cmd_undefine_h => cmd_undefine cmd
  | cmd_if_up_h => cmd_if_up cmd
  | cmd_if_down_h => cmd_if_down cmd
  | cmd_change_begin_h => cmd_change_begin
  | cmd_change_commit_h => cmd_change_commit
  | cmd_change_rollback_h => cmd_change_rollback
  | cmd_help_h => cmd_help cmd
  | cmd_quit_h => cmd_quit
  end.

(** ** Running lines *)

Definition print_netcf_error : M unit :=
  ' (errcode, errmsg, details) ← ncf_error;
  when (negb (errcode =? errnum NETCF_NOERROR))
    (printf ("error: " +:+ default "(null)" errmsg +:+ nl) ;;
     match details with
     | Some d => printf ("error: " +:+ d +:+ nl)
     | None => ret tt
     end).

(** The result and [*cmdstatus]. *)
Definition run_command_line (line : string) (cmdstatus : command_result) : M (Z * command_result) :=
  dup_line ← strdup line;
  match dup_line with
  | None => printf ("Out of memory" +:+ nl) ;; ret (-1, cmdstatus)
  | Some l =>
      ocmd ← parseline l;
      match ocmd with
      | None => ret (-1, CMD_RES_UNKNOWN)
      | Some cmd =>
          d ← match def cmd with Some d => ret d | None => halt (UB "NULL pointer") end;
          st ← run_handler (handler d) cmd;
          match st with
          | CMD_RES_OK | CMD_RES_QUIT | CMD_RES_UNKNOWN => ret (0, st)
          | CMD_RES_ERR => print_netcf_error ;; ret (-1, st)
          | CMD_RES_ENOMEM => printf ("error: allocation failed" +:+ nl) ;; ret (-1, st)
          end
      end
  end.

(** [main_loop] on the lines that readline returns before the end of the input *)
Fixpoint main_loop (lines : list string) (r : Z) : M Z :=
  match lines with
  | [] => ret r
  | line :: lines' =>
      ' (cmdret, cmdstatus) ← run_command_line line CMD_RES_OK;
      if (cmdret =? 0) && bool_decide (cmdstatus = CMD_RES_QUIT) then ret r
      else main_loop lines' cmdret
  end.

Definition EXIT_SUCCESS : Z := 0.
Definition EXIT_FAILURE : Z := 1.

Definition usage {A} : M A :=
  printf ("Usage: ncftool [OPTIONS]" +:+ nl) ;;
  printf ("Interactive shell for netcf" +:+ nl +:+ nl) ;;
  printf ("Type 'help' at the prompt to get a list of commands" +:+ nl) ;;
  printf (nl +:+ "Options:" +:+ nl +:+ nl) ;;
  printf ("  -r, --root ROOT    use ROOT as the root of the filesystem" +:+ nl +:+ nl) ;;
  printf ("  -d, --debug        Show debugging output" +:+ nl +:+ nl) ;;
  halt (Exit EXIT_FAILURE).

(** [parse_opts]: the root. *)
Definition parse_opts (opts : list getopt_result) : M (option string) :=
  for_acc opts None (fun o root =>
    match o with
    | OptDebug => modify (fun s => set_world (setenv "NETCF_DEBUG" "1" (world s)) s) ;; ret root
    | OptHelp => usage
    | OptRoot arg => ret (Some arg)
    | OptOther => usage
    end).

(** The arguments put together again, with a blank after each; [n]: how much
    room [strncat] is told there is. *)
Fixpoint join_args (args : list string) (cmd : string) (n : Z) : string :=
  match args with
  | [] => cmd
  | a :: args' =>
      let cmd := cmd +:+ string_take (Z.to_nat n) a in
      let n := n - strlen a in
      let cmd := cmd +:+ string_take (Z.to_nat n) " " in
      join_args args' cmd (n - 1)
  end.

Definition args_size (args : list string) : Z :=
  fold_left (fun n a => n + (strlen a + 1)) args 0.

(** [main]: the exit status. *)
Definition main (argv lines : list string) : M Z :=
  let (opts, args) := getopt_long argv in
  root ← parse_opts opts;
  r ← ncf_init root;
  if r <? 0 then
    printf ("Failed to initialize netcf" +:+ nl) ;;
    freed ← gets ncf_freed;
    when (negb freed) print_netcf_error ;;
    halt (Exit EXIT_FAILURE)
  else
    r ← match args with
        | [] => main_loop lines 0
        | _ =>
            b ← malloc;
            if negb b then printf ("Out of memory" +:+ nl) ;; halt (Exit EXIT_FAILURE) else
            ' (r, _) ← run_command_line (join_args args EmptyString (args_size args)) CMD_RES_OK;
            ret r
        end;
    ret (if r =? 0 then EXIT_SUCCESS else EXIT_FAILURE).
End handlers.

(** ** Tokens: lemmas *)

Lemma skip_blanks_length s : (String.length (skip_blanks s) <= String.length s)%nat.
Proof. induction s as [|c s IH]; [done|]. cbn. destruct (isblank c); cbn; lia. Qed.

Lemma scan_token_length q s : (String.length (scan_token q s).2 <= String.length s)%nat.
Proof.
  induction s as [|c s IH]; [done|]. cbn [scan_token].
  destruct (match q with Some q => Ascii.eqb c q | None => isblank c end); [cbn; lia|].
  destruct (scan_token q s). cbn in *. lia.
Qed.

(** Every token takes something away from the line. *)
Lemma nexttoken_shrinks line : line <> EmptyString ->
  (String.length (nexttoken line).2 < String.length line)%nat.
Proof.
  intros Hne. pose proof (skip_blanks_length line) as Hs. unfold nexttoken.
  destruct (skip_blanks line) as [|c s] eqn:E.
  - cbn. destruct line; [done|cbn; lia].
  - cbn in Hs. destruct (_ || _) eqn:Hq.
    + pose proof (scan_token_length (Some c) s). lia.
    + cbn [scan_token]. assert (isblank c = false) as ->.
      { clear Hs Hne Hq. revert E. induction line as [|b line IH]; [done|]. cbn.
        destruct (isblank b) eqn:Hb; [exact IH|]. by intros [= -> ->]. }
      pose proof (scan_token_length None s) as Hr. destruct (scan_token None s). cbn in *. lia.
Qed.

(** All the tokens of a line. *)
Fixpoint tokens (fuel : nat) (line : string) : list string :=
  match fuel, line with
  | S fuel', String _ _ => let (t, r) := nexttoken line in t :: tokens fuel' r
  | _, _ => []
  end.

(** A word that needs no quotes. *)
Definition plain (a : string) : Prop :=
  match a with
  | EmptyString => False
  | String c _ => Ascii.eqb c "'" || Ascii.eqb c "034" = false
  end /\ string_forall (fun c => negb (isblank c)) a = true.

Lemma scan_plain a r : string_forall (fun c => negb (isblank c)) a = true ->
  scan_token None (a +:+ " " +:+ r) = (a, r).
Proof.
  induction a as [|c a IH]; intros Ha; [done|]. cbn in Ha. apply andb_true_iff in Ha as [Hc Ha].
  rewrite app_cons. cbn [scan_token]. apply negb_true_iff in Hc. by rewrite Hc, IH.
Qed.

Lemma nexttoken_plain a r : plain a -> nexttoken (a +:+ " " +:+ r) = (a, r).
Proof.
  intros [Hq Ha]. destruct a as [|c a]; [done|]. unfold nexttoken. rewrite app_cons. cbn [skip_blanks].
  pose proof Ha as Ha'. cbn in Ha'. apply andb_true_iff in Ha' as [Hc _]. apply negb_true_iff in Hc.
  rewrite Hc, Hq, <- app_cons. by apply scan_plain.
Qed.

(** The line that [main] makes of its arguments. *)
Fixpoint unwords (args : list string) : string :=
  match args with
  | [] => EmptyString
  | a :: args' => a +:+ " " +:+ unwords args'
  end.

Lemma tokens_unwords args fuel : Forall plain args -> (length args <= fuel)%nat ->
  tokens fuel (unwords args) = args.
Proof.
  revert fuel. induction args as [|a args IH]; intros fuel Hp Hf; [by destruct fuel|].
  apply Forall_cons in Hp as [Ha Hp]. destruct fuel as [|fuel]; [cbn in Hf; lia|].
  cbn [unwords]. pose proof (nexttoken_plain a (unwords args) Ha) as Hn.
  destruct a as [|c a]; [by destruct Ha|]. rewrite app_cons in *. cbn [tokens]. rewrite Hn.
  f_equal. apply IH; [done|cbn in Hf; lia].
Qed.

Lemma args_size_cons a args : args_size (a :: args) = strlen a + 1 + args_size args.
Proof.
  unfold args_size. cbn [fold_left]. assert (H : forall l n, fold_left (fun n a => n + (strlen a + 1)) l n
    = n + fold_left (fun n a => n + (strlen a + 1)) l 0).
  { induction l as [|x l IH]; intros n; cbn [fold_left]; [lia|]. rewrite IH, (IH (0 + _)). lia. }
  rewrite H. lia.
Qed.

Lemma args_size_nonneg args : 0 <= args_size args.
Proof. induction args as [|a args IH]; [done|]. rewrite args_size_cons. unfold strlen. lia. Qed.

Lemma join_args_unwords args cmd : join_args args cmd (args_size args) = cmd +:+ unwords args.
Proof.
  revert cmd. induction args as [|a args IH]; intros cmd; [by rewrite string_app_nil_r|].
  cbn [join_args unwords]. rewrite args_size_cons. pose proof (args_size_nonneg args).
  unfold strlen. rewrite !string_take_all by (cbn; lia).
  replace (Z.of_nat (String.length a) + 1 + args_size args - Z.of_nat (String.length a) - 1)
    with (args_size args) by lia.
  rewrite IH. by rewrite <- !string_app_assoc.
Qed.

Lemma unwords_length args : strlen (unwords args) = args_size args.
Proof.
  induction args as [|a args IH]; [done|]. rewrite args_size_cons. cbn [unwords].
  unfold strlen in *. rewrite !string_length_app. cbn [String.length]. lia.
Qed.

(** ** Parsing: lemmas *)

Section parse_lemmas.
Context `{Host}.
Implicit Types s : state.

(** An option of a parsed command. *)
Definition opt_ok (d : command_def) (o : command_opt) : Prop :=
  copt_def o ∈ cmd_opts d /\
  match copt_value o with
  | BValue b => b = true /\ opt_tag (copt_def o) = CMD_OPT_BOOL
  | SValue _ => List.find opt_def_is_arg (cmd_opts d) = Some (copt_def o)
  end.

Definition is_svalue (o : command_opt) : bool :=
  match copt_value o with SValue _ => true | BValue _ => false end.

Definition arguments (cmd : command) : Z := Z.of_nat (length (List.filter is_svalue (opt cmd))).

(** The command while it is parsed. *)
Definition parsing (d : command_def) (curarg : Z) (cmd : command) : Prop :=
  def cmd = Some d /\ Forall (opt_ok d) (opt cmd) /\ curarg = arguments cmd.

Lemma find_elem {A} (f : A -> bool) l a : List.find f l = Some a -> a ∈ l /\ f a = true.
Proof. intros Hf. apply List.find_some in Hf as [Hin Hf]. split; [by apply list_elem_of_In|done]. Qed.

Lemma make_command_opt_ret cmd d v s r s' : make_command_opt cmd d v s = (Ret r, s') ->
  match r with
  | Some cmd' => cmd' = {| def := def cmd; opt := opt cmd ++ [{| copt_def := d; copt_value := v |}] |}
  | None => True
  end.
Proof.
  unfold make_command_opt, malloc, bind, printf, modify, ret. destruct (mem s) as [|[] ?]; by intros [= <- <-].
Qed.

Lemma parsing_snoc d curarg cmd o : parsing d curarg cmd -> opt_ok d o ->
  parsing d (if is_svalue o then curarg + 1 else curarg) {| def := def cmd; opt := opt cmd ++ [o] |}.
Proof.
  intros (Hd & Ho & ->) Hok. split; [done|]. cbn. split; [by apply Forall_app; split; [|constructor]|].
  unfold arguments. cbn. rewrite List.filter_app, length_app. cbn. destruct (is_svalue o); cbn; lia.
Qed.

Lemma parse_option_parsing d curarg cmd tok s cmd' s' : parsing d curarg cmd ->
  parse_option cmd d tok s = (Ret (Some cmd'), s') -> parsing d curarg cmd'.
Proof.
  intros Hp. unfold parse_option.
  destruct (List.find _ (cmd_opts d)) as [o|] eqn:Hf.
  - intros Hr. apply bind_inv in Hr as [(ocmd & s1 & Hm & Hr)|[[_ ?]|(w & _ & ?)]]; [|done..].
    apply make_command_opt_ret in Hm. destruct ocmd as [cmd1|]; [|done]. subst cmd1.
    destruct (decide (opt_tag o = CMD_OPT_BOOL)) as [Hb|]; [|done].
    apply ret_inv in Hr as [[= ->] _].
    refine (parsing_snoc d curarg cmd {| copt_def := o; copt_value := BValue true |} Hp _).
    apply find_elem in Hf as [Hin _]. by split.
  - intros Hr. apply bind_inv in Hr as [([] & s1 & _ & Hr)|[[_ ?]|(w & _ & ?)]]; [|done..].
    by apply ret_inv in Hr as [[= ->] _].
Qed.

Lemma parse_argument_parsing d curarg cmd tok s cmd' s' : parsing d curarg cmd ->
  parse_argument cmd d tok s = (Ret cmd', s') -> parsing d (curarg + 1) cmd'.
Proof.
  intros Hp. unfold parse_argument. destruct (List.find _ (cmd_opts d)) as [o|] eqn:Hf; [|done].
  intros Hr. apply bind_inv in Hr as [(ocmd & s1 & Hm & Hr)|[[_ ?]|(w & _ & ?)]]; [|done..].
  apply make_command_opt_ret in Hm. destruct ocmd as [cmd1|]; [|done]. subst cmd1.
  apply ret_inv in Hr as [-> _].
  refine (parsing_snoc d curarg cmd {| copt_def := o; copt_value := SValue tok |} Hp _).
  apply find_elem in Hf as Hin. split; [apply Hin|done].
Qed.

Lemma parse_loop_parsing fuel d nargs : forall curarg cmd line s cmd' n s',
  parsing d curarg cmd -> curarg <= nargs ->
  parse_loop fuel d nargs curarg cmd line s = (Ret (Some (cmd', n)), s') ->
  parsing d n cmd' /\ n <= nargs.
Proof.
  induction fuel as [|fuel IH]; intros curarg cmd line s cmd' n s' Hp Hn.
  - destruct line; [by intros [= <- <- <-]|done].
  - destruct line as [|c line]; [by intros [= <- <- <-]|]. cbn [parse_loop].
    destruct (nexttoken (String c line)) as [tok rest]. destruct (has_prefix "-" tok).
    + intros Hr. apply bind_inv in Hr as [(ocmd & s1 & Hm & Hr)|[[_ ?]|(w & _ & ?)]]; [|done..].
      destruct ocmd as [cmd1|]; [|done]. eapply IH; [|done|exact Hr]. by eapply parse_option_parsing.
    + destruct (Z.leb_spec nargs curarg); [by intros [([] & s1 & _ & Hr)|[[_ ?]|(w & _ & ?)]]%bind_inv|].
      intros Hr. apply bind_inv in Hr as [(cmd1 & s1 & Hm & Hr)|[[_ ?]|(w & _ & ?)]]; [|done..].
      refine (IH _ _ _ _ _ _ _ _ _ Hr); [by eapply parse_argument_parsing|lia].
Qed.

(** The loop is not stopped by a lack of fuel or by [exit(2)]. *)
Definition no_exit {A} (o : outcome A) : Prop := o <> Stop Hang /\ o <> Stop (Exit 2).

Lemma parse_loop_ends fuel d nargs : forall curarg cmd line s,
  (String.length line <= fuel)%nat -> no_exit (parse_loop fuel d nargs curarg cmd line s).1.
Proof.
  induction fuel as [|fuel IH]; intros curarg cmd line s Hl.
  { destruct line; [by split|cbn in Hl; lia]. }
  destruct line as [|c line]; [by split|]. cbn [parse_loop].
  pose proof (nexttoken_shrinks (String c line) ltac:(done)) as Hs.
  destruct (nexttoken (String c line)) as [tok rest]. cbn in Hs, Hl.
  assert (Hrec : forall cur cmd' s1, no_exit (parse_loop fuel d nargs cur cmd' rest s1).1)
    by (intros; apply IH; lia).
  destruct (has_prefix "-" tok); [|destruct (nargs <=? curarg); [by split|]].
  - unfold parse_option. unfold bind at 1. destruct (List.find _ _) as [o|]; [|cbn; apply Hrec].
    unfold make_command_opt, malloc, bind, printf, modify, ret.
    destruct (mem s) as [|[] ?]; cbn; try (by split); destruct (decide _); cbn;
      first [apply Hrec | by split].
  - unfold parse_argument. unfold bind at 1. destruct (List.find _ _) as [o|]; [|by split].
    unfold make_command_opt, malloc, bind, printf, modify, ret.
    destruct (mem s) as [|[] ?]; cbn; first [apply Hrec | by split].
Qed.
End parse_lemmas.

(** ** The table of commands *)

Section table.
Context `{Host}.
Implicit Types s : state.

Definition narg_of (d : command_def) : Z :=
  Z.of_nat (length (List.filter (fun o => bool_decide (opt_tag o = CMD_OPT_ARG)) (cmd_opts d))).
Definition nparam_of (d : command_def) : Z :=
  Z.of_nat (length (List.filter (fun o => bool_decide (opt_tag o = CMD_OPT_PARAM)) (cmd_opts d))).

Lemma commands_cases (P : command_def -> Prop) : Forall P commands -> forall d, d ∈ commands -> P d.
Proof. intros Hall d. by apply Forall_forall. Qed.

Lemma count_args_run d s : d ∈ commands -> count_args (cmd_opts d) s = (Ret (narg_of d, nparam_of d), s).
Proof. revert d. apply commands_cases. repeat constructor. Qed.

(** A mandatory argument of a command of the table is its first argument, and no
    other option has its name. *)
Lemma arg_unique d o : d ∈ commands -> o ∈ cmd_opts d -> opt_tag o = CMD_OPT_ARG ->
  List.find opt_def_is_arg (cmd_opts d) = Some o /\
  forall o', o' ∈ cmd_opts d -> opt_name o' = opt_name o -> o' = o.
Proof.
  revert d o. enough (Hall : forall d, d ∈ commands -> forall o, o ∈ cmd_opts d -> opt_tag o = CMD_OPT_ARG ->
    List.find opt_def_is_arg (cmd_opts d) = Some o /\
    forall o', o' ∈ cmd_opts d -> opt_name o' = opt_name o -> o' = o) by (intros d o Hd; by apply Hall).
  refine (commands_cases _ _).
  repeat (apply Forall_cons; split); try apply Forall_nil; try done; intros o Ho Ht;
    cbn [cmd_opts] in Ho; repeat (apply elem_of_cons in Ho as [->|Ho]); try done;
    try (by apply not_elem_of_nil in Ho); (split; [reflexivity|]); intros o' Ho';
    repeat (apply elem_of_cons in Ho' as [->|Ho']); try done; by apply not_elem_of_nil in Ho'.
Qed.

Lemma lookup_cmd_def_Some n d : lookup_cmd_def n = Some d -> d ∈ commands /\ cmd_name d = n.
Proof. intros Hl. apply find_elem in Hl as [Hin Hn]. split; [done|]. by apply STREQ_eq in Hn. Qed.

Lemma arg_value_run d cmd o : d ∈ commands -> o ∈ cmd_opts d -> opt_tag o = CMD_OPT_ARG ->
  Forall (opt_ok d) (opt cmd) -> 1 <= arguments cmd ->
  exists v, forall s, arg_value cmd (opt_name o) s = (Ret v, s).
Proof.
  intros Hd Ho Ht Hall Hn. destruct (arg_unique d o Hd Ho Ht) as [Hfirst Huniq].
  assert (exists x, x ∈ opt cmd /\ is_svalue x = true) as (x & Hx & Hsx).
  { unfold arguments in Hn. destruct (List.filter is_svalue (opt cmd)) as [|x l] eqn:E; [cbn in Hn; lia|].
    exists x. assert (In x (List.filter is_svalue (opt cmd))) as Hin by (rewrite E; by left).
    apply List.filter_In in Hin as [Hin ?]. split; [by apply list_elem_of_In|done]. }
  rewrite Forall_forall in Hall. pose proof (Hall x Hx) as [_ Hvx].
  unfold is_svalue in Hsx. destruct (copt_value x) as [|v0] eqn:Ev; [done|].
  rewrite Hfirst in Hvx. injection Hvx as Hox.
  unfold arg_value, param_value, find_opt.
  destruct (List.find (fun o0 => STREQ (opt_name (copt_def o0)) (opt_name o)) (opt cmd)) as [y|] eqn:Hf.
  - apply find_elem in Hf as [Hy Hny]. apply STREQ_eq in Hny. destruct (Hall y Hy) as [Hiny Hvy].
    pose proof (Huniq _ Hiny Hny) as Hyo. cbn [fmap option_fmap option_map].
    destruct (copt_value y) as [b|v]; [|by exists v]. destruct Hvy as [_ Hb]. congruence.
  - apply list_elem_of_In in Hx. pose proof (List.find_none _ _ Hf x Hx) as Hno. cbn in Hno.
    rewrite <- Hox in Hno. by rewrite STREQ_refl in Hno.
Qed.

Lemma parseline_parsed line s cmd s' : parseline line s = (Ret (Some cmd), s') ->
  exists d, d ∈ commands /\ cmd_name d = (nexttoken line).1 /\ def cmd = Some d /\
    Forall (opt_ok d) (opt cmd) /\ narg_of d <= arguments cmd <= narg_of d + nparam_of d.
Proof.
  unfold parseline. destruct (nexttoken line) as [tok rest]. cbn [fst].
  destruct (lookup_cmd_def tok) as [d|] eqn:Hl;
    [|by intros [([] & s1 & _ & Hr)|[[_ ?]|(w & _ & ?)]]%bind_inv].
  apply lookup_cmd_def_Some in Hl as [Hd Hn]. rewrite (bind_Ret _ _ _ _ _ (count_args_run d s Hd)).
  intros Hr. apply bind_inv in Hr as [(r & s1 & Hloop & Hr)|[[_ ?]|(w & _ & ?)]]; [|done..].
  destruct r as [[cmd1 n]|]; [|done].
  destruct (Z.ltb_spec n (narg_of d)) as [Hlt|Hge];
    [by apply bind_inv in Hr as [([] & s2 & _ & ?)|[[_ ?]|(w & _ & ?)]]|].
  apply ret_inv in Hr as [[= <-] _].
  apply parse_loop_parsing in Hloop as [(Hdef & Hall & ->) Hle];
    [|by split_and!|unfold narg_of, nparam_of; lia].
  exists d. by split_and!.
Qed.

Lemma parseline_ends line s : no_exit (parseline line s).1.
Proof.
  unfold parseline. destruct (nexttoken line) as [tok rest].
  destruct (lookup_cmd_def tok) as [d|] eqn:Hl; [|by split].
  apply lookup_cmd_def_Some in Hl as [Hd Hn]. rewrite (bind_Ret _ _ _ _ _ (count_args_run d s Hd)).
  pose proof (parse_loop_ends (String.length rest) d (narg_of d + nparam_of d) 0
    {| def := Some d; opt := [] |} rest s ltac:(done)) as He.
  unfold bind. destruct (parse_loop _ _ _ _ _ _ s) as [[r| |w] s1]; [|by split|].
  - destruct r as [[cmd n]|]; [|by split]. destruct (n <? narg_of d); by split.
  - cbn in *. destruct He as [H1 H2]. split; [intros [= ->]|intros [= ->]]; done.
Qed.
End table.

(** ** Whatever is typed, the counters stay right *)

Section tool_sound.
Context `{DriverLaws, !Libxml, !Env, !Tool}.
Implicit Types s : state.

Lemma pres_ignore {A} (R : relation state) (m : M A) : pres R (ignore m) -> pres R m.
Proof. intros Hm s. specialize (Hm s). unfold ignore, bind in Hm. by destruct (m s) as [[]?]. Qed.

Lemma call_sound {A} c (m : M A) : run_call c = ignore m -> pres sound m.
Proof. intros Hc. apply pres_ignore. rewrite <- Hc. apply run_call_sound. Qed.

Lemma free_sound p : pres sound (ncf_if_free p).
Proof. apply (run_call_sound (CFree p)). Qed.
Lemma printf_sound x : pres sound (printf x).
Proof. apply pres_sound, pres_grows. auto with pres. Qed.
Lemma malloc_sound : pres sound malloc.
Proof. apply pres_sound, pres_grows, pres_steady; auto with pres. Qed.
Hint Resolve free_sound printf_sound malloc_sound : pres.
Lemma strdup_sound x : pres sound (strdup x).
Proof. unfold strdup. pres_auto. Qed.
Lemma arg_value_sound cmd n : pres sound (arg_value cmd n).
Proof. unfold arg_value, param_value. pres_auto. Qed.
Lemma param_value_sound cmd n : pres sound (param_value cmd n).
Proof. unfold param_value. pres_auto. Qed.
Lemma num_sound f : pres sound (ncf_num_of_interfaces f).
Proof. by apply (call_sound (CNum f)). Qed.
Lemma list_sound n f : pres sound (ncf_list_interfaces n f).
Proof. by apply (call_sound (CList n f)). Qed.
Lemma lookup_sound n : pres sound (ncf_lookup_by_name n).
Proof. by apply (call_sound (CLookupName n)). Qed.
Lemma lookup_mac_sound m n : pres sound (ncf_lookup_by_mac_string m n).
Proof. by apply (call_sound (CLookupMac m n)). Qed.
Lemma define_sound x : pres sound (ncf_define x).
Proof. by apply (call_sound (CDefine x)). Qed.
Lemma name_sound p : pres sound (ncf_if_name p).
Proof. by apply (call_sound (CName p)). Qed.
Lemma mac_sound p : pres sound (ncf_if_mac_string p).
Proof. by apply (call_sound (CMac p)). Qed.
Lemma undefine_sound p : pres sound (ncf_if_undefine p).
Proof. by apply (call_sound (CUndefine p)). Qed.
Lemma up_sound p : pres sound (ncf_if_up p).
Proof. by apply (call_sound (CUp p)). Qed.
Lemma down_sound p : pres sound (ncf_if_down p).
Proof. by apply (call_sound (CDown p)). Qed.
Lemma desc_sound p : pres sound (ncf_if_xml_desc p).
Proof. by apply (call_sound (CXmlDesc p)). Qed.
Lemma state_sound p : pres sound (ncf_if_xml_state p).
Proof. by apply (call_sound (CXmlState p)). Qed.
Lemma begin_sound f : pres sound (ncf_change_begin f).
Proof. by apply (call_sound (CBegin f)). Qed.
Lemma commit_sound f : pres sound (ncf_change_commit f).
Proof. by apply (call_sound (CCommit f)). Qed.
Lemma rollback_sound f : pres sound (ncf_change_rollback f).
Proof. by apply (call_sound (CRollback f)). Qed.
Lemma error_sound : pres sound ncf_error.
Proof. by apply (call_sound CError). Qed.
Hint Resolve strdup_sound arg_value_sound param_value_sound num_sound list_sound lookup_sound
  lookup_mac_sound define_sound name_sound mac_sound undefine_sound up_sound down_sound desc_sound
  state_sound begin_sound commit_sound rollback_sound error_sound : pres.

Lemma run_handler_sound h cmd : pres sound (run_handler h cmd).
Proof.
  destruct h; cbn [run_handler]; unfold cmd_list, cmd_dump_xml, cmd_define, cmd_undefine, cmd_if_up,
    cmd_if_down, bring, cmd_change_begin, cmd_change_commit, cmd_change_rollback, cmd_help, cmd_quit,
    dump_nif, list_line, no_interface; pres_auto.
Qed.

Lemma parseline_sound line : pres sound (parseline line).
Proof.
  unfold parseline. destruct (nexttoken line) as [tok rest]. destruct (lookup_cmd_def tok) as [d|]; [|pres_auto].
  pres_step; [unfold count_args; pres_auto|]. destruct a as [narg nparam].
  assert (Hloop : forall fuel nargs cur cmd l, pres sound (parse_loop fuel d nargs cur cmd l)).
  { induction fuel as [|fuel IH]; intros nargs cur cmd l; destruct l as [|c l]; cbn [parse_loop];
      [pres_auto|pres_auto|pres_auto|]. destruct (nexttoken (String c l)) as [t r].
    unfold parse_option, parse_argument, make_command_opt. pres_auto. }
  pres_step; [apply Hloop|pres_auto].
Qed.

Lemma run_command_line_sound line st : pres sound (run_command_line line st).
Proof.
  pose proof parseline_sound. pose proof run_handler_sound.
  unfold run_command_line, print_netcf_error. pres_auto.
Qed.

Lemma main_loop_sound lines r : pres sound (main_loop lines r).
Proof.
  pose proof run_command_line_sound. revert r.
  induction lines as [|line lines IH]; intros r; cbn [main_loop]; pres_auto.
Qed.

(** What was typed before is not affected by what follows a quit. *)
Lemma main_loop_app l1 l2 r s r' s' : main_loop l1 r s = (Ret r', s') ->
  main_loop (l1 ++ l2) r s = (Ret r', s') \/ main_loop (l1 ++ l2) r s = main_loop l2 r' s'.
Proof.
  revert r s. induction l1 as [|line l1 IH]; intros r s; cbn [main_loop app].
  - intros [= -> ->]. by right.
  - intros Hr. apply bind_inv in Hr as [([cr st] & s1 & Hl & Hr)|[[_ ?]|(w & _ & ?)]]; [|done..].
    rewrite (bind_Ret _ _ _ _ _ Hl). destruct (_ && _); [by left|by apply IH].
Qed.

Lemma quit_run st s : mem s = [] -> run_command_line "quit" st s = (Ret (0, CMD_RES_QUIT), s).
Proof.
  intros Hm. unfold run_command_line.
  rewrite (bind_Ret _ _ s (Some "quit") s) by (unfold strdup, malloc, bind; by rewrite Hm). done.
Qed.
End tool_sound.

#[global] Instance toy_tool : Tool (H := toy_host) :=
  {| read_file := fun p _ => if STREQ p "eth0.xml" then Some "eth0" else None;
     setenv := fun _ _ w => w;
     getopt_long := fun argv => ([], tail argv) |}.

(** ** Properties *)

(** C18: parsing a line always comes to an end. A command that it accepts is in the
    table under the first token, its options belong to it, and it has between the
    least and the greatest number of arguments; so [arg_value] finds every
    mandatory argument and never exits with the internal error. *)
Theorem parseline_spec `{Host} (line : string) (s : state) :
  no_exit (parseline line s).1 /\
  forall cmd s', parseline line s = (Ret (Some cmd), s') ->
    exists d, d ∈ commands /\ cmd_name d = (nexttoken line).1 /\ def cmd = Some d /\
      Forall (opt_ok d) (opt cmd) /\ narg_of d <= arguments cmd <= narg_of d + nparam_of d /\
      forall o, o ∈ cmd_opts d -> opt_tag o = CMD_OPT_ARG ->
        exists v, forall s0, arg_value cmd (opt_name o) s0 = (Ret v, s0).
Proof.
  split; [apply parseline_ends|]. intros cmd s' Hr.
  destruct (parseline_parsed line s cmd s' Hr) as (d & Hd & Hn & Hdef & Hall & Harg).
  exists d. split_and!; [done..|lia|lia|]. intros o Ho Ht.
  apply (arg_value_run d cmd o Hd Ho Ht Hall).
  assert (1 <= narg_of d); [|lia]. unfold narg_of. apply list_elem_of_In in Ho.
  pose proof (proj2 (List.filter_In (fun o => bool_decide (opt_tag o = CMD_OPT_ARG)) o (cmd_opts d))
    (conj Ho (bool_decide_eq_true_2 _ Ht))) as Hin.
  destruct (List.filter _ _); [done|cbn; lia].
Qed.

Lemma parseline_spec_witness :
  exists cmd, parseline "dumpxml --live 'br 0'" (toy_state toy_os toy_empty)
                = (Ret (Some cmd), toy_state toy_os toy_empty) /\
    (exists v, forall s0 : state (H := toy_host), arg_value cmd "name" s0 = (Ret v, s0)) /\
    arg_value cmd "name" (toy_state toy_os toy_empty) = (Ret "br 0", toy_state toy_os toy_empty).
Proof.
  eexists. split; [vm_compute; reflexivity|]. split; [|vm_compute; reflexivity].
  destruct (proj2 (@parseline_spec toy_host "dumpxml --live 'br 0'" (toy_state toy_os toy_empty)) _ _
    ltac:(vm_compute; reflexivity)) as (d & _ & _ & Hd & _ & _ & Harg).
  injection Hd as <-. apply (Harg (opt_arg "name" "the name of the interface")); [|reflexivity].
  right. right. left.
Defined.

(** The line that [main] makes of the arguments of the program fits its buffer,
    nothing of it is cut off, and it is split into the same arguments again if
    none of them is empty, contains a blank or begins with a quote. *)
Theorem join_args_spec (args : list string) (Hplain : Forall plain args) :
  let line := join_args args EmptyString (args_size args) in
  strlen line = args_size args /\ tokens (String.length line) line = args.
Proof.
  cbv zeta. rewrite join_args_unwords. cbn [String.append]. change (EmptyString +:+ ?x) with x.
  split; [apply unwords_length|]. apply tokens_unwords; [done|].
  pose proof (unwords_length args) as Hl. unfold strlen in Hl.
  assert (Z.of_nat (length args) <= args_size args); [|lia].
  clear. induction args as [|a args IH]; [done|]. rewrite args_size_cons. unfold strlen. cbn [length]. lia.
Qed.

Lemma join_args_spec_witness :
  join_args ["ifup"; "eth0"] EmptyString (args_size ["ifup"; "eth0"]) = "ifup eth0 " /\
  tokens 10 "ifup eth0 " = ["ifup"; "eth0"].
Proof.
  split; [reflexivity|].
  apply (join_args_spec ["ifup"; "eth0"]). repeat constructor.
Defined.

(** A command without arguments is accepted with one blank behind it, but two
    blanks make an empty argument, and the command is refused. *)
Theorem trailing_blank `{Host} (d : command_def) (s : state) (Hd : d ∈ commands)
  (Hnone : narg_of d + nparam_of d = 0) :
  parseline (cmd_name d +:+ " ") s = (Ret (Some {| def := Some d; opt := [] |}), s) /\
  exists s', parseline (cmd_name d +:+ "  ") s = (Ret None, s').
Proof.
  revert d Hd Hnone. enough (Hall : forall d, d ∈ commands -> narg_of d + nparam_of d = 0 ->
    parseline (cmd_name d +:+ " ") s = (Ret (Some {| def := Some d; opt := [] |}), s) /\
    exists s', parseline (cmd_name d +:+ "  ") s = (Ret None, s')) by done.
  refine (commands_cases _ _).
  unfold commands. rewrite !Forall_cons, Forall_nil.
  split_and!; try exact I; intros Hn; try discriminate Hn; (split; [reflexivity|eexists; reflexivity]).
Qed.

Lemma trailing_blank_witness :
  exists s', parseline "quit  " (toy_state toy_os toy_empty) = (Ret None, s').
Proof.
  apply (proj2 (@trailing_blank toy_host cmd_quit_def (toy_state toy_os toy_empty)
    ltac:(do 10 right; left) eq_refl)).
Defined.

(** C19: whatever is typed, the reference counts of the instance stay right and error
    details never lack a code. A quit ends the loop: what follows is not read, and
    the result is that of the last command before it. *)
Theorem main_loop_spec `{DriverLaws, !Libxml, !Env, !Tool} (lines rest : list string)
  (s s' : state) (r : Z) (Hwf : refs_wf s) (Herr : err_wf s)
  (Hrun : main_loop lines 0 s = (Ret r, s')) (Hroom : room s') (Hmem : mem s' = []) :
  refs_wf s' /\ err_wf s' /\ main_loop (lines ++ "quit" :: rest) 0 s = (Ret r, s').
Proof.
  pose proof (main_loop_sound lines 0 s) as (He & _ & Hw). rewrite Hrun in He, Hw. cbn in He, Hw.
  split_and!; [auto..|]. destruct (main_loop_app lines ("quit" :: rest) 0 s r s' Hrun) as [-> | ->]; [done|].
  cbn [main_loop]. by rewrite (bind_Ret _ _ _ _ _ (quit_run CMD_RES_OK s' Hmem)).
Qed.

Lemma main_loop_spec_witness :
  let s' := (main_loop (H0 := toy_drv) ["define eth0.xml"; "ifup eth0"; "list"] 0
               (toy_state toy_os toy_empty)).2 in
  refs_wf s' /\
  main_loop (H0 := toy_drv) ["define eth0.xml"; "ifup eth0"; "list"; "quit"; "ifdown eth0"] 0
    (toy_state toy_os toy_empty) = (Ret (-1), s').
Proof.
  set (s' := (main_loop (H0 := toy_drv) ["define eth0.xml"; "ifup eth0"; "list"] 0
               (toy_state toy_os toy_empty)).2).
  assert (Hr : main_loop (H0 := toy_drv) ["define eth0.xml"; "ifup eth0"; "list"] 0
    (toy_state toy_os toy_empty) = (Ret (-1), s')) by (vm_compute; reflexivity).
  pose proof (@main_loop_spec toy_host toy_drv toy_laws toy_libxml toy_env toy_tool
    ["define eth0.xml"; "ifup eth0"; "list"] ["ifdown eth0"] (toy_state toy_os toy_empty) s' (-1)
    (toy_refs_wf _ _) ltac:(by intros _) Hr ltac:(vm_compute; reflexivity) ltac:(vm_compute; reflexivity))
    as (Hw & _ & Hq).
  split; [exact Hw|exact Hq].
Defined.

(** ** Completion *)

Section completion.
Context `{Host}.

(** What readline collects: the generator is called with 0, then with other values
    until it returns NULL. *)
Fixpoint collect (gen : Z -> nat -> M (option string * nat)) (state : Z) (current fuel : nat)
  : M (list string) :=
  match fuel with
  | O => ret []
  | S fuel' =>
      ' (o, current') ← gen state current;
      match o with
      | None => ret []
      | Some name => names ← collect gen 1 current' fuel'; ret (name :: names)
      end
  end.

Definition command_names (text : string) (defs : list command_def) : list string :=
  filter (fun n => STREQLEN text n (String.length text) = true) (cmd_name <$> defs).

Lemma generator_loop_run text defs current s :
  mem s = [] ->
  match command_names text defs with
  | [] => exists n, generator_loop text defs current s = (Ret (None, n), s) /\ n = (current + length defs)%nat
  | name :: names => exists k, generator_loop text defs current s = (Ret (Some name, (current + k)%nat), s) /\
      command_names text (drop k defs) = names /\ (0 < k <= length defs)%nat
  end.
Proof.
  intros Hm. unfold command_names. revert current. induction defs as [|d defs IH]; intros current; cbn [generator_loop fmap list_fmap].
  - exists current. cbn. split; [done|lia].
  - rewrite filter_cons. destruct (STREQLEN text (cmd_name d) (String.length text)) eqn:E.
    + rewrite decide_True by done. exists 1%nat. unfold strdup, malloc, bind. rewrite Hm.
      rewrite Nat.add_1_r. cbn. split; [done|]. split; [by rewrite drop_0|lia].
    + rewrite decide_False by (by intros [=]). specialize (IH (S current)).
      destruct (filter _ (cmd_name <$> defs)) as [|name names].
      * destruct IH as (n & Hr & Hn). exists n. split; [done|]. cbn. lia.
      * destruct IH as (k & Hr & Hn & Hk). exists (S k). rewrite Hr. cbn [length].
        split; [do 3 f_equal; lia|]. split; [done|lia].
Qed.

(** Completing a word offers exactly the commands that begin with it, in the order of
    the table. *)
Theorem completion_spec (text : string) (s : state) (Hmem : mem s = []) :
  exists names, collect (readline_command_generator text) 0 0 (S (length commands)) s = (Ret names, s) /\
    names = command_names text commands.
Proof.
  assert (Hgen : forall fuel (st : Z) current, (length (drop (if (st =? 0)%Z then O else current) commands) < fuel)%nat ->
            collect (readline_command_generator text) st current fuel s
            = (Ret (command_names text (drop (if st =? 0 then O else current) commands)), s)).
  { induction fuel as [|fuel IH]; intros st current Hf; [lia|]. cbn [collect]. unfold readline_command_generator at 1.
    set (c := if st =? 0 then O else current) in *.
    pose proof (generator_loop_run text (drop c commands) c s Hmem) as Hl.
    destruct (command_names text (drop c commands)) as [|name names].
    - destruct Hl as (n & Hr & _). by rewrite (bind_Ret _ _ _ _ _ Hr).
    - destruct Hl as (k & Hr & Hn & Hk). rewrite (bind_Ret _ _ _ _ _ Hr).
      assert (Hd : drop (c + k) commands = drop k (drop c commands)) by (by rewrite drop_drop).
      rewrite (bind_Ret _ _ _ (command_names text (drop (c + k) commands)) s).
      + by rewrite Hd, Hn.
      + apply (IH 1 (c + k)%nat). cbn [Z.eqb]. rewrite Hd, length_drop. lia. }
  eexists. split; [|done]. apply (Hgen _ 0 O). cbn [Z.eqb]. rewrite drop_0. lia.
Qed.
End completion.

Lemma completion_spec_witness :
  exists names, collect (readline_command_generator (H := toy_host) "if") 0 0 (S (length commands)) (toy_state toy_os toy_empty)
    = (Ret names, toy_state toy_os toy_empty) /\ names = ["ifup"; "ifdown"].
Proof.
  destruct (completion_spec "if" (toy_state toy_os toy_empty) eq_refl) as (names & Hr & ->).
  eexists. split; [exact Hr|]. vm_compute. reflexivity.
Defined.
