(* ===== verification/ToolList.v ===== *)
(** * Listing interfaces, from the command line down to the tree

    What a client can rely on when it lists interfaces is a class, [Lister]; the
    drivers that keep their configuration in an Augeas tree are instances of it, and
    the command [list] of ncftool.c is shown to be right against the class alone. *)

From S2P Require Import Prelude CStr XsltExt State Refs Toy Posix Xml Netcf Linux Common Redhat RedhatSpec AugDriver Debian DebianSpec Suse SuseSpec Ncftool.

(** ** The interface *)

Section interface.
Context `{Driver}.

(** What [ncf_list_interfaces] makes of an array of [n] elements, [l] being the names
    of the interfaces *)
Definition listing (n : nat) (l : list string) : Z * list (option string) :=
  (Z.of_nat (min n (length l)), (Some <$> take n l) ++ replicate (n - length l) None).

(** [reads s s1]: a call of the interface in [s] finds the configuration in order, and
    leaves [s1] behind if it does nothing but look at it. [lists]: what it sees there. *)
Class Lister := {
  reads : state -> state -> Prop;
  lists : Z -> state -> list string;
  reads_again s s1 : reads s s1 -> reads s1 s1;
  reads_print s t : reads s s -> reads (set_tty t s) (set_tty t s);
  reads_mem s s1 : reads s s1 -> mem s1 = [];
  lists_print f s t : lists f (set_tty t s) = lists f s;
  lister_num f s s1 : reads s s1 ->
    ncf_num_of_interfaces f s = (Ret (Z.of_nat (length (lists f s1))), s1);
  lister_list n f s s1 : reads s s1 ->
    ncf_list_interfaces (Z.of_nat n) f s = (Ret (listing n (lists f s1)), s1)
}.
End interface.

(** ** Reading the tree *)

Section entry.
Context `{Augeas, !Kernel}.
Implicit Types s : state.

(** The instance as a call finds it after [API_ENTRY]: no error, and the files are to
    be looked at again. *)
Definition entered (d : driver) s : state :=
  set_ncf (set_driver (Some (set_flags true (copy_augeas_xfm d) d)) (set_err NETCF_NOERROR None (ncf s))) s.

(** Loading files that have not changed changes nothing, and they have no errors. *)
Definition steady_tree (a : aug) s : Prop :=
  (exists r, aug_load (world s) a = (r, a) /\ 0 <= r) /\ aug_match "/augeas//error" a = Some [].

(** The call can begin, the files can be loaded, and the tree [a] then is there to
    stay. *)
Record tree_reads (d : driver) (a : aug) s s1 : Prop := {
  tr_live : ncf_freed s = false;
  tr_driver : is_Some (ncf_driver (ncf s));
  tr_load : forall d0, ncf_driver (ncf s) = Some d0 -> get_augeas (entered d0 s) = (Ret true, s1);
  tr_ready : ready d a s1;
  tr_live1 : ncf_freed s1 = false;
  tr_steady : steady_tree a s1
}.

Lemma same_state s d a : ready d a s ->
  s = set_ncf (set_driver (Some (set_flags false false (set_augeas (Some a) d))) (set_err NETCF_NOERROR None (ncf s))) s.
Proof.
  intros [He Hwf _ Hd Ha Hl Hc]. specialize (Hwf He). unfold err in He.
  destruct s as [n ? ? ? ? ? ? ?], n, d. cbn in *. by subst.
Qed.

(** Nothing happens when nothing has changed. *)
Lemma reload_run s d a : ready d a s -> steady_tree a s -> get_augeas (entered d s) = (Ret true, s).
Proof.
  intros Hs [(r & Hl & Hr) He]. destruct (Hs) as [_ _ _ Hd Ha _ Hc].
  set (d1 := set_flags true (copy_augeas_xfm d) d). set (s1 := entered d s).
  assert (Hd1 : ncf_driver (ncf s1) = Some d1) by done.
  unfold get_augeas, on_error.
  rewrite (bind_Ret _ _ s1 tt s1).
  2:{ unfold open_augeas. rewrite (bind_Ret _ _ _ _ _ (the_driver_run s1 d1 Hd1)). cbn. by rewrite Ha. }
  rewrite (bind_Ret _ _ s1 tt s1).
  2:{ unfold copy_xfm. rewrite (bind_Ret _ _ _ _ _ (the_driver_run s1 d1 Hd1)). cbn. by rewrite Hc. }
  rewrite (bind_Ret _ _ s1 tt s); [done|].
  unfold load_files. rewrite (bind_Ret _ _ _ _ _ (the_driver_run s1 d1 Hd1)). cbn [load_augeas set_flags d1 when].
  rewrite (bind_Ret (gets world) _ s1 _ s1 eq_refl). change (world s1) with (world s).
  rewrite (bind_Ret _ _ _ _ _ (with_aug_run (aug_load (world s)) s1 d1 a Hd1 Ha)), Hl. cbn [fst snd].
  rewrite (proj2 (Z.ltb_ge r 0)) by done. unfold ERR_THROW at 1. cbn [when]. rewrite bind_ret_l.
  set (s2 := set_ncf _ s1). assert (Hd2 : ncf_driver (ncf s2) = Some (set_augeas (Some a) d1)) by done.
  rewrite (bind_Ret _ _ _ _ _ (ask_aug_run _ s2 _ a Hd2 eq_refl)), He. cbn [nmatches length andb when].
  rewrite (bind_Ret (gets _) _ s2 _ s2 eq_refl). change (0 <? Z.of_nat 0) with false. cbn [andb when].
  rewrite bind_ret_l. unfold ERR_THROW. cbn [when]. rewrite bind_ret_l, (upd_driver_run _ s2 _ Hd2).
  f_equal. etransitivity; [|symmetry; exact (same_state s d a Hs)]. cbn. by rewrite Hc.
Qed.

Lemma tree_reads_again d a s s1 : tree_reads d a s s1 -> tree_reads d a s1 s1.
Proof.
  intros [_ _ _ Hr Hf Ht]. split; try done; [destruct Hr as [_ _ _ Hd _ _ _]; by rewrite Hd|].
  intros d0 Hd. destruct (Hr) as [_ _ _ Hd1 _ _ _]. rewrite Hd1 in Hd. injection Hd as <-. by apply (reload_run _ _ a).
Qed.

Lemma tree_reads_print d a s t : tree_reads d a s s -> tree_reads d a (set_tty t s) (set_tty t s).
Proof.
  intros [_ _ _ Hr Hf Ht]. assert (Hr' : ready d a (set_tty t s)) by (by destruct Hr).
  split; try done; [destruct Hr as [_ _ _ Hd _ _ _]; cbn; by rewrite Hd|].
  intros d0 Hd. destruct (Hr') as [_ _ _ Hd1 _ _ _]. rewrite Hd1 in Hd. injection Hd as <-. by apply (reload_run _ _ a).
Qed.

(** Code that loads the tree before it does anything else *)
Definition loads_first {A} (m : M A) : Prop :=
  forall s s1, err s = NETCF_NOERROR -> err s1 = NETCF_NOERROR -> get_augeas s = (Ret true, s1) -> get_augeas s1 = (Ret true, s1) ->
    m s = m s1.

Lemma loads_get {A} (k : bool -> M A) : loads_first (get_augeas ≫= k).
Proof. intros s s1 _ _ Hs Hs1. by rewrite (bind_Ret _ _ _ _ _ Hs), (bind_Ret _ _ _ _ _ Hs1). Qed.

Lemma loads_bind {A B} (m : M A) (k : A -> M B) : loads_first m -> loads_first (m ≫= k).
Proof. intros Hm s s1 He He1 Hs Hs1. unfold bind. by rewrite (Hm s s1 He He1 Hs Hs1). Qed.

Lemma loads_bail {A} (m : M A) : loads_first m -> loads_first (ERR_BAIL ;; m).
Proof.
  intros Hm s s1 He He1 Hs Hs1.
  rewrite (bind_Ret _ _ _ _ _ (ERR_BAIL_ok s He)), (bind_Ret _ _ _ _ _ (ERR_BAIL_ok s1 He1)). by apply Hm.
Qed.

Lemma loads_on_error {A} (m h : M A) : loads_first m -> loads_first (on_error m h).
Proof. intros Hm s s1 He He1 Hs Hs1. unfold on_error. by rewrite (Hm s s1 He He1 Hs Hs1). Qed.

Lemma loads_fmt_match p : loads_first (aug_fmt_match p).
Proof. unfold aug_fmt_match. apply loads_on_error, loads_get. Qed.
End entry.

(** The result of a call, from what the driver's operation does on a loaded tree *)
Section calls.
Context `{Augeas, !Kernel}.
Context (d : driver) (a : aug) (s s1 : state) (Hr : tree_reads d a s s1).

Lemma entry_reads `{!Libxml, !Env} (D : Driver) (Hentry : Netcf.drv_entry = Redhat.drv_entry) :
  exists e, API_ENTRY s = (Ret tt, e) /\ err e = NETCF_NOERROR /\ get_augeas e = (Ret true, s1).
Proof.
  destruct Hr as [Hf [d0 Hd] Hl _ _ _]. exists (entered d0 s). split; [|split; [done|by apply Hl]].
  unfold API_ENTRY. rewrite (bind_Ret (gets _) _ s false s) by (unfold gets; by rewrite Hf).
  rewrite (bind_Ret (modify _) _ s _ _ eq_refl). rewrite (bind_Ret (gets _) _ _ _ _ eq_refl).
  cbn [ncf set_ncf set_err ncf_driver]. rewrite Hd, bool_decide_true by by eexists. cbn [when].
  rewrite Hentry. unfold Redhat.drv_entry. by erewrite upd_driver_run.
Qed.

Lemma call_reads `{!Libxml, !Env} (D : Driver) {A} (m : M A) (Hentry : Netcf.drv_entry = Redhat.drv_entry) :
  loads_first m -> (API_ENTRY ;; m) s = m s1.
Proof.
  intros Hm. destruct (entry_reads D Hentry) as (e & He & Herr & Hl).
  rewrite (bind_Ret _ _ _ _ _ He). apply Hm; [done| |done|].
  - apply (rd_ok d a), Hr.
  - apply (ready_get d a), Hr.
Qed.
End calls.

Create HintDb loads.
#[export] Hint Resolve loads_get loads_fmt_match loads_bail loads_on_error loads_bind : loads.

(** What a driver over a tree has to provide *)
Class TreeLister `{Augeas, !Kernel, !Libxml, !Env} (D : Driver) := {
  tl_ok : aug -> state -> Prop;
  tl_view : Z -> driver -> aug -> state -> list string;
  tl_entry : Netcf.drv_entry = Redhat.drv_entry;
  tl_num_loads f : loads_first (Netcf.drv_num_of_interfaces f);
  tl_list_loads n f : loads_first (Netcf.drv_list_interfaces n f);
  tl_ok_print a s t : tl_ok a s -> tl_ok a (set_tty t s);
  tl_view_print f d a s t : tl_view f d a (set_tty t s) = tl_view f d a s;
  tl_num f d a s : ready d a s -> tl_ok a s ->
    Netcf.drv_num_of_interfaces f s = (Ret (Z.of_nat (length (tl_view f d a s))), s);
  tl_list n f d a s : ready d a s -> tl_ok a s ->
    Netcf.drv_list_interfaces (Z.of_nat n) f s = (Ret (listing n (tl_view f d a s)), s)
}.

Section tree_lister.
Context `{TreeLister}.

(** The driver's view of the tree that is loaded. *)
Definition tree_lists (f : Z) (s : state) : list string :=
  match ncf_driver (ncf s) with
  | Some d => match augeas d with Some a => tl_view f d a s | None => [] end
  | None => []
  end.

Lemma tree_lists_ready f d a s : ready d a s -> tree_lists f s = tl_view f d a s.
Proof. intros [_ _ _ Hd Ha _ _]. unfold tree_lists. by rewrite Hd, Ha. Qed.

#[global] Program Instance tree_lister : Lister := {|
  reads s s1 := exists d a, tree_reads d a s s1 /\ tl_ok a s1;
  lists := tree_lists
|}.
Next Obligation. intros s s1 (d & a & Hr & Hok). exists d, a. split; [by eapply tree_reads_again|done]. Qed.
Next Obligation.
  intros s t (d & a & Hr & Hok). exists d, a. split; [by apply tree_reads_print|by apply tl_ok_print].
Qed.
Next Obligation. intros s s1 (d & a & [] & _). by eapply rd_mem. Qed.
Next Obligation.
  intros f s t. unfold tree_lists. cbn. destruct (ncf_driver (ncf s)) as [d|]; [|done].
  destruct (augeas d); [apply tl_view_print|done].
Qed.
Next Obligation.
  intros f s s1 (d & a & Hr & Hok). unfold ncf_num_of_interfaces.
  rewrite (call_reads d a s s1 Hr _ _ tl_entry (tl_num_loads f)).
  rewrite (tree_lists_ready f d a) by apply Hr. apply tl_num; [apply Hr|done].
Qed.
Next Obligation.
  intros n f s s1 (d & a & Hr & Hok). unfold ncf_list_interfaces.
  rewrite (proj2 (Z.ltb_ge _ 0)) by lia.
  rewrite (call_reads d a s s1 Hr _ _ tl_entry).
  - rewrite (tree_lists_ready f d a) by apply Hr.
    rewrite (bind_Ret _ _ _ _ _ (tl_list n f d a s1 (tr_ready _ _ _ _ Hr) Hok)). unfold listing.
    by rewrite (proj2 (Z.ltb_ge _ 0)) by lia.
  - apply loads_bind, tl_list_loads.
Qed.
End tree_lister.

(** ** The drivers *)

Section drivers.
Context `{Augeas, !Kernel, !Netlink, !Libxml, !Posix, !Env}.

Lemma redhat_ids_load m ns f attr : loads_first (Redhat.list_interface_ids m ns f attr).
Proof. unfold Redhat.list_interface_ids. auto 8 with loads. Qed.
Lemma debian_ids_load `{!DebianConfig} m ns f : loads_first (Debian.list_interface_ids m ns f).
Proof. unfold Debian.list_interface_ids, Debian.list_interfaces. auto 8 with loads. Qed.
Lemma suse_ids_load `{!SuseConfig} m ns f : loads_first (Suse.list_interface_ids m ns f).
Proof. unfold Suse.list_interface_ids. auto 8 with loads. Qed.

Lemma names_print d a s t f : names d a (set_tty t s) f = names d a s f.
Proof. done. Qed.

(** Red Hat: the names of the interfaces in the files that are no slaves *)
#[global] Program Instance redhat_lister `{!RedhatConfig} fuel : TreeLister (redhat_driver fuel) := {|
  tl_ok a _ := sane a /\ findable a;
  tl_view f d a s := names d a s f
|}.
Next Obligation. done. Qed.
Next Obligation. intros. cbn. unfold Redhat.drv_num_of_interfaces. apply loads_bind, redhat_ids_load. Qed.
Next Obligation. intros. cbn. unfold Redhat.drv_list_interfaces. apply loads_bind, redhat_ids_load. Qed.
Next Obligation. done. Qed.
Next Obligation. done. Qed.
Next Obligation. intros ?? f d a s Hs [Ha Hf]. by apply (num_run d a s Hs Ha Hf). Qed.
Next Obligation.
  intros ?? n f d a s Hs [Ha Hf]. cbn. rewrite (list_run d a s Hs Ha Hf) by lia. by rewrite Nat2Z.id.
Qed.

(** Debian: the names in the file that no bridge and no bond mentions *)
#[global] Program Instance debian_lister `{!DebianConfig} fuel : TreeLister (debian_driver fuel) := {|
  tl_ok a _ := deb_sane a;
  tl_view f d a s := wanted_of d s f (deb_toplevel a)
|}.
Next Obligation. done. Qed.
Next Obligation. intros. cbn. unfold Debian.drv_num_of_interfaces. apply loads_bind, debian_ids_load. Qed.
Next Obligation. intros. cbn. unfold Debian.drv_list_interfaces. apply loads_bind, debian_ids_load. Qed.
Next Obligation. done. Qed.
Next Obligation. done. Qed.
Next Obligation.
  intros ?? f d a s Hs Ha. cbn. unfold Debian.drv_num_of_interfaces.
  by rewrite (bind_Ret _ _ _ _ _ (deb_num_run d a s Hs Ha f)).
Qed.
Next Obligation.
  intros ?? n f d a s Hs Ha. cbn. unfold Debian.drv_list_interfaces.
  rewrite (bind_Ret _ _ _ _ _ (deb_array_run d a s Hs Ha f _ (Zle_0_nat n))).
  by rewrite Nat2Z.id.
Qed.

(** SuSE: the files in the directory that are not slaves in the tree *)
#[global] Program Instance suse_lister `{!SuseConfig} fuel : TreeLister (suse_driver fuel) := {|
  tl_ok a s := (forall entries n, opendir network_scripts_path (world s) = Some entries ->
      n ∈ omap ifcfg_name entries -> slave_answered a n = true) /\
    is_Some (opendir network_scripts_path (world s));
  tl_view f d a s := wanted_of d s f (suse_toplevel (default [] (opendir network_scripts_path (world s))) a)
|}.
Next Obligation. done. Qed.
Next Obligation. intros. cbn. unfold Suse.drv_num_of_interfaces. apply loads_bind, suse_ids_load. Qed.
Next Obligation. intros. cbn. unfold Suse.drv_list_interfaces. apply loads_bind, suse_ids_load. Qed.
Next Obligation. done. Qed.
Next Obligation. done. Qed.
Next Obligation.
  intros ?? f d a s Hs [Hm [entries Hdir]]. cbn. unfold Suse.drv_num_of_interfaces. rewrite Hdir.
  by rewrite (bind_Ret _ _ _ _ _ (suse_num_run d a s Hs Hm entries f Hdir)).
Qed.
Next Obligation.
  intros ?? n f d a s Hs [Hm [entries Hdir]]. cbn. unfold Suse.drv_list_interfaces. rewrite Hdir.
  rewrite (bind_Ret _ _ _ _ _ (suse_array_run d a s Hs Hm entries f _ Hdir (Zle_0_nat n))). by rewrite Nat2Z.id.
Qed.
End drivers.

(** ** The command *)

Section command.
Context `{Lister, !Libxml, !Env, !Tool}.
Implicit Types s : state.

(** What the command prints *)
Definition shown (f : Z) s : list string := (fun n => n +:+ nl) <$> lists f s.

Lemma print_names ns s :
  for_each (Some <$> ns) (list_line false) s = (Ret tt, set_tty (tty s ++ ((fun n => n +:+ nl) <$> ns)) s).
Proof.
  revert s. induction ns as [|n ns IH]; intros s; cbn [fmap list_fmap for_each].
  { rewrite app_nil_r. by destruct s. }
  rewrite (bind_Ret _ _ s tt (set_tty (tty s ++ [n +:+ nl]) s)) by done. rewrite IH. cbn.
  by rewrite <- app_assoc.
Qed.

Lemma cmd_list_run cmd s s1 : reads s s1 -> opt_present cmd "macs" = false ->
  cmd_list cmd s = (Ret CMD_RES_OK, set_tty (tty s1 ++ shown (list_flags cmd) s1) s1).
Proof.
  intros Hr Hmacs. unfold cmd_list. set (f := list_flags cmd).
  rewrite (bind_Ret _ _ _ _ _ (lister_num f s s1 Hr)). rewrite (proj2 (Z.ltb_ge _ 0)) by lia.
  rewrite (bind_Ret _ _ s1 true s1).
  2:{ destruct (_ =? 0); [done|]. unfold malloc. by rewrite (reads_mem s s1 Hr). }
  cbn [negb]. rewrite (bind_Ret _ _ _ _ _ (lister_list _ f s1 s1 (reads_again s s1 Hr))). unfold listing.
  rewrite Nat.min_id, Nat.sub_diag, firstn_all, app_nil_r, Nat2Z.id, Hmacs. rewrite (proj2 (Z.ltb_ge _ 0)) by lia.
  rewrite firstn_all2 by (by rewrite length_fmap). by rewrite (bind_Ret _ _ _ _ _ (print_names _ s1)).
Qed.

(** Lines that ask for a list, and what they ask for *)
Definition list_requests : list (string * Z) :=
  let both := Z.lor NETCF_IFACE_ACTIVE NETCF_IFACE_INACTIVE in
  [("list", NETCF_IFACE_ACTIVE); ("list --inactive", NETCF_IFACE_INACTIVE); ("list --all", both);
   ("list --all --inactive", both)].

Lemma request_parsed line f s : (line, f) ∈ list_requests -> mem s = [] ->
  exists cmd, parseline line s = (Ret (Some cmd), s) /\ def cmd = Some cmd_list_def /\
    opt_present cmd "macs" = false /\ list_flags cmd = f.
Proof.
  intros Hin Hm. destruct s as [? ? ? ? m ? ? ?]. cbn in Hm. subst m.
  unfold list_requests in Hin. rewrite !elem_of_cons, elem_of_nil in Hin.
  destruct Hin as [[= -> ->]|[[= -> ->]|[[= -> ->]|[[= -> ->]|[]]]]];
    (eexists; split; [vm_compute; reflexivity|done]).
Qed.

Lemma request_run line f st s s1 : (line, f) ∈ list_requests -> mem s = [] -> reads s s1 ->
  run_command_line line st s = (Ret (0, CMD_RES_OK), set_tty (tty s1 ++ shown f s1) s1).
Proof.
  intros Hin Hm Hr. destruct (request_parsed line f s Hin Hm) as (cmd & Hp & Hd & Hmacs & <-).
  unfold run_command_line. rewrite (bind_Ret _ _ s (Some line) s).
  2:{ unfold strdup, malloc, bind. by rewrite Hm. }
  rewrite (bind_Ret _ _ _ _ _ Hp), Hd, bind_ret_l. cbn [handler cmd_list_def run_handler].
  by rewrite (bind_Ret _ _ _ _ _ (cmd_list_run cmd s s1 Hr Hmacs)).
Qed.
End command.

Lemma session_run `{Lister, !Libxml, !Env, !Tool} (reqs : list (string * Z)) (s1 : state) :
  reads s1 s1 -> Forall (fun r => r ∈ list_requests) reqs ->
  main_loop reqs.*1 0 s1
  = (Ret 0, set_tty (tty s1 ++ mjoin ((fun r => shown r.2 s1) <$> reqs)) s1).
Proof.
  revert s1. induction reqs as [|[line f] reqs IH]; intros s1 Hr Hall.
  { cbn. rewrite app_nil_r. by destruct s1. }
  apply Forall_cons in Hall as [Hin Hall]. cbn [fmap list_fmap fst snd main_loop].
  rewrite (bind_Ret _ _ _ _ _ (request_run line f _ s1 s1 Hin (reads_mem s1 s1 Hr) Hr)).
  cbn [Z.eqb andb]. rewrite bool_decide_false by done.
  rewrite IH by (try done; by apply reads_print). cbn [set_tty tty mjoin list_join].
  rewrite <- app_assoc. f_equal. unfold shown. setoid_rewrite lists_print. done.
Qed.

(** ** Properties *)

(** C20: in a session of [list] commands every line prints the names of the interfaces
    that are active, inactive or either, as its options ask ([--all] wins), in the
    order of the driver, one to a line; whatever the number of commands the session
    ends with 0 and has no other effect than that the configuration is loaded. This
    holds for every driver that is a [Lister], such as those for Red Hat, Debian and
    SuSE. *)
Theorem list_session `{Lister, !Libxml, !Env, !Tool} (line : string) (f : Z)
  (reqs : list (string * Z)) (s s1 : state)
  (Hreqs : Forall (fun r => r ∈ list_requests) ((line, f) :: reqs))
  (Hmem : mem s = []) (Hreads : reads s s1) :
  main_loop ((line, f) :: reqs).*1 0 s
  = (Ret 0, set_tty (tty s1 ++ mjoin ((fun r => shown r.2 s1) <$> (line, f) :: reqs)) s1).
Proof.
  apply Forall_cons in Hreqs as [Hin Hall]. cbn [fmap list_fmap fst snd main_loop].
  rewrite (bind_Ret _ _ _ _ _ (request_run line f _ s s1 Hin Hmem Hreads)).
  cbn [Z.eqb andb]. rewrite bool_decide_false by done.
  rewrite session_run by (try done; apply reads_print; by eapply reads_again). cbn [set_tty tty mjoin list_join].
  rewrite <- app_assoc. f_equal. unfold shown. setoid_rewrite lists_print. done.
Qed.

(** A session on the toy host: [br0] is up. *)
Lemma list_session_witness :
  exists s1, main_loop (H0 := redhat_driver 3) ["list"; "list --inactive"; "list --all"] 0 (toy_state toy_os toy_net)
    = (Ret 0, set_tty ["br0" +:+ nl; "br0" +:+ nl] s1).
Proof.
  exists (toy_state toy_os toy_net).
  assert (Hreads : reads (H0 := redhat_driver 3) (toy_state toy_os toy_net) (toy_state toy_os toy_net)).
  { exists (toy_driver toy_net), toy_net. split; [|split; [exact toy_net_sane|exact toy_findable]].
    split; try reflexivity; [by eexists|intros d0 [= <-]; vm_compute; reflexivity|
      exact (toy_ready _ (or_introl eq_refl))|].
    split; [exists 0; split; [vm_compute; reflexivity|lia]|vm_compute; reflexivity]. }
  exact (@list_session toy_host (redhat_driver 3) _ toy_libxml toy_env toy_tool "list" 2
    [("list --inactive", 1); ("list --all", 3)] (toy_state toy_os toy_net) (toy_state toy_os toy_net)
    ltac:(repeat constructor; vm_compute; set_solver) eq_refl Hreads).
Defined.
