(* ===== verification/Ncftransform.v ===== *)
(** * The transformation tool (ncftransform.c)

    Reads a file and prints what the test interface of the driver makes of it:
    [get] from the XML of an interface to that of the Augeas tree, [put] back. *)

From S2P Require Import Prelude CStr XsltExt State Refs Toy Posix Xml Netcf Linux Common Redhat RedhatSpec RedhatInit Ncftool.

(** The test interface of a driver *)
Class TestInterface `{Host} := {
  ncf_get_aug : string -> M (Z * option string);
  ncf_put_aug : string -> M (Z * option string)
}.

Section ncftransform.
Context `{Driver, !Libxml, !Env, !Tool, !TestInterface}.

(** [cleanup]: the global [ncf] is NULL until [ncf_init] sets it. *)
Definition cleanup (initialized : bool) : M unit :=
  when initialized (ncf_close ;; ret tt).

Definition die {A} (initialized : bool) (msg : string) : M A :=
  printf msg ;;
  cleanup initialized ;;
  halt (Exit 1).

(** The text of the error of the last call *)
Definition transform_error (errmsg details : option string) : string :=
  match details with
  | None => "transformation failed: " +:+ default "(null)" errmsg
  | Some d => "transformation failed: " +:+ default "(null)" errmsg +:+ nl +:+ "    " +:+ d
  end.

Definition main (argv : list string) : M Z :=
  match argv with
  | [_; dir; file] =>
      if STRNEQ dir "get" && STRNEQ dir "put" then die false ("Usage: ncftransform (put|get) FILE" +:+ nl) else
      in_xml ← gets (fun s => read_file file (world s));
      match in_xml with
      | None => die false ("Failed to read " +:+ file +:+ nl)
      | Some in_xml =>
          r ← ncf_init (Some "/dev/null");
          if r <? 0 then
            freed ← gets ncf_freed;
            die (negb freed) ("Failed to initialize netcf" +:+ nl)
          else
            ' (r, out_xml) ← (if STREQ dir "get" then ncf_get_aug in_xml else ncf_put_aug in_xml);
            if r <? 0 then
              ' (_, errmsg, details) ← ncf_error;
              die true (transform_error errmsg details)
            else
              match out_xml with
              | None => halt (UB "NULL pointer")
              | Some out => printf (out +:+ nl) ;; cleanup true ;; ret 0
              end
      end
  | _ => die false ("Usage: ncftransform (put|get) FILE" +:+ nl)
  end.
End ncftransform.

(** ** Properties *)

Section transform_runs.
Context `{DriverLaws, !Libxml, !Env, !Tool, !TestInterface}.

(** After a line on the terminal, and [cleanup]. *)
Definition finished (msg : string) (s : state) : state :=
  (ncf_close (set_tty (tty s ++ [msg]) s)).2.

Lemma finish_run msg s {A} (k : M A) : refs_wf s ->
  (printf msg ;; cleanup true ;; k) s = k (finished msg s).
Proof.
  intros Hwf. rewrite (bind_Ret (printf msg) _ s tt (set_tty (tty s ++ [msg]) s) eq_refl).
  unfold finished, cleanup. set (s1 := set_tty _ s).
  assert (Hw1 : refs_wf s1) by (destruct Hwf; by split).
  destruct (ncf_close_run s1 Hw1) as (s2 & Hr & _). cbn [when]. rewrite bind_assoc.
  rewrite (bind_Ret _ _ _ _ _ Hr). by rewrite bind_ret_l, Hr.
Qed.
End transform_runs.

(** The tool prints what the driver makes of the file and ends with 0; when the
    transformation fails it prints the text of the error, with the details if there
    are any, and ends with 1. The instance is closed either way. With other arguments,
    without the file or when the library does not start, it ends with 1 before the
    transformation. *)
Theorem ncftransform_spec `{DriverLaws, !Libxml, !Env, !Tool, !TestInterface}
  (prog dir file text : string) (s s1 s2 : state) (r : Z) (out : option string) (r0 : Z)
  (Hdir : dir ∈ ["get"; "put"]) (Hfile : read_file file (world s) = Some text)
  (Hinit : ncf_init (Some "/dev/null") s = (Ret r0, s1)) (Hr0 : 0 <= r0)
  (Hrun : (if STREQ dir "get" then ncf_get_aug text else ncf_put_aug text) s1 = (Ret (r, out), s2))
  (Hwf : refs_wf s2) (Hifs : ifs s2 = ∅) :
  match (if r <? 0 then None else out) with
  | Some o => main [prog; dir; file] s = (Ret 0, finished (o +:+ nl) s2) /\
      ncf_freed (finished (o +:+ nl) s2) = true
  | None => r < 0 ->
      exists msg, let t := transform_error (Some msg) (errdetails (ncf s2)) in
      errmsgs !! Z.to_nat (errnum (err s2)) = Some msg /\
      main [prog; dir; file] s = (Stop (Exit 1), finished t s2) /\ ncf_freed (finished t s2) = true
  end.
Proof.
  assert (Hfreed : forall m, ncf_freed (finished m s2) = true).
  { intros m. unfold finished. set (s' := set_tty _ s2).
    assert (Hw : refs_wf s') by (destruct Hwf; by split). destruct (ncf_close_run s' Hw) as (s3 & -> & _ & Hf).
    change (ifs s') with (ifs s2) in Hf. by rewrite decide_True in Hf. }
  assert (Hstart : forall k : Z * option string -> M Z,
    (r ← ncf_init (Some "/dev/null");
     if r <? 0 then freed ← gets ncf_freed; die (negb freed) ("Failed to initialize netcf" +:+ nl)
     else x ← (if STREQ dir "get" then ncf_get_aug text else ncf_put_aug text); k x) s = k (r, out) s2).
  { intros k. rewrite (bind_Ret _ _ _ _ _ Hinit), (proj2 (Z.ltb_ge r0 0)) by done.
    by rewrite (bind_Ret _ _ _ _ _ Hrun). }
  assert (Hd : STRNEQ dir "get" && STRNEQ dir "put" = false).
  { rewrite !elem_of_cons in Hdir. by destruct Hdir as [->|[->|[]%elem_of_nil]]. }
  unfold main. rewrite Hd. rewrite (bind_Ret (gets _) _ s _ s eq_refl), Hfile.
  destruct (r <? 0) eqn:Hr.
  - intros _. destruct (ncf_error_run s2) as (msg & He & Hm). exists msg. cbv zeta.
    split; [done|]. split; [|apply Hfreed]. etransitivity; [apply Hstart|]. cbv beta. rewrite Hr.
    rewrite (bind_Ret _ _ _ _ _ He). unfold die. by rewrite finish_run.
  - destruct out as [o|]; [|intros; lia]. split; [|apply Hfreed].
    etransitivity; [apply Hstart|]. cbv beta. rewrite Hr. by rewrite finish_run.
Qed.

(** ** On Red Hat *)

#[global] Instance redhat_test `{Augeas, !Kernel, !Netlink, !Libxml, !Posix, !RedhatConfig}
  (fuel : nat) : TestInterface :=
  {| ncf_get_aug := Redhat.ncf_get_aug fuel; ncf_put_aug := Redhat.ncf_put_aug fuel |}.

(** A process that has done nothing yet: memory suffices, there is no interface. *)
Record started_up `{Host} (s : state) : Prop := {
  su_mem : mem s = [];
  su_ifs : ifs s = ∅
}.

Lemma fresh_wf `{Libxml, !Env} (s : state) root g : started_up s ->
  refs_wf (set_freed false (set_ncf (fresh_netcf root g (world s)) s)).
Proof. intros [_ Hi]. split; cbn; rewrite ?Hi; done. Qed.

(** The root is no directory, so that the driver does not start. *)
Lemma redhat_init_fails `{Augeas, !Kernel, !Netlink, !Libxml, !Posix, !RedhatConfig, !Env}
  (fuel : nat) (s : state) : started_up s -> stat "/dev/null/" (world s) <> Some S_IFDIR ->
  exists r s', ncf_init (H0 := redhat_driver fuel) (Some "/dev/null") s = (Ret r, s') /\ r < 0 /\
    (ncf_freed s' = true \/ refs_wf s').
Proof.
  intros Hs Hdev.
  destruct (xmlRelaxNGParse (default (NETCF_DATADIR +:+ "/netcf") (getenv "NETCF_DATADIR" (world s))
              +:+ "/xml/" +:+ "interface.rng") (world s)) as [msgs g] eqn:Hp.
  pose proof (ncf_init_run (H0 := redhat_driver fuel) (Some "/dev/null") s msgs g ltac:(done) (su_mem _ Hs) Hp) as Hrun.
  destruct (_ && _).
  - set (s1 := set_freed false _) in Hrun. change (Netcf.drv_init s1) with (Redhat.drv_init s1) in Hrun.
    destruct (drv_init_no_root s1 "/dev/null/" (su_mem _ Hs) ltac:(by intros _) eq_refl eq_refl Hdev)
      as (s' & Hr & _).
    exists (-1), s'. rewrite Hrun. split; [exact Hr|]. split; [done|]. right.
    pose proof (drv_init_steady s1) as [_ Hsame]. rewrite Hr in Hsame.
    eapply refs_same_wf; [exact Hsame|]. by apply fresh_wf.
  - destruct Hrun as (s' & Hr & Hf). exists (-2), s'. by repeat split; [|left].
Qed.

Lemma die_early `{Driver, !Libxml, !Env} {A} msg (s : state) :
  exists s', (die false msg : M A) s = (Stop (Exit 1), s').
Proof. by eexists. Qed.

Lemma die_late `{DriverLaws, !Libxml, !Env} {A} msg (s : state) : refs_wf s ->
  exists s', (die true msg : M A) s = (Stop (Exit 1), s').
Proof. intros Hwf. unfold die. rewrite finish_run by done. by eexists. Qed.

(** Built with the Red Hat driver the tool never does anything: since it starts
    the library on the root /dev/null, which is no directory, it ends with exit code
    1 whatever its arguments are. *)
Theorem ncftransform_redhat `{Augeas, !Kernel, !Netlink, !Libxml, !Posix, !RedhatConfig, !Env, !Tool}
  (fuel : nat) (argv : list string) (s : state)
  (Hs : started_up s) (Hdev : stat "/dev/null/" (world s) <> Some S_IFDIR) :
  exists s', main (H0 := redhat_driver fuel) (H4 := redhat_test fuel) argv s = (Stop (Exit 1), s').
Proof.
  unfold main. destruct argv as [|prog [|dir [|file [|]]]]; try apply die_early.
  destruct (_ && _); [apply die_early|].
  rewrite (bind_Ret (gets _) _ s _ s eq_refl). destruct (read_file file (world s)); [|apply die_early].
  destruct (redhat_init_fails fuel s Hs Hdev) as (r & s1 & Hr & Hneg & Hw).
  rewrite (bind_Ret _ _ _ _ _ Hr), (proj2 (Z.ltb_lt r 0)) by done.
  rewrite (bind_Ret (gets _) _ s1 _ s1 eq_refl).
  destruct (ncf_freed s1) eqn:Hf; [apply die_early|]. destruct Hw as [|Hw]; [congruence|]. by apply die_late.
Qed.

Lemma ncftransform_redhat_witness :
  exists s', main (H0 := redhat_driver 0) (H4 := redhat_test 0)
    ["ncftransform"; "get"; "eth0.xml"] (toy_state toy_os toy_empty) = (Stop (Exit 1), s').
Proof.
  exact (@ncftransform_redhat toy_host toy_augeas toy_kernel toy_netlink toy_libxml toy_posix toy_config
    toy_env toy_tool 0 ["ncftransform"; "get"; "eth0.xml"] (toy_state toy_os toy_empty)
    ltac:(split; reflexivity) ltac:(vm_compute; discriminate)).
Defined.
